(** * MiaoWallet: a shallow embedding of [sui_transfer.py], of the earlier
    [MiaoWallet/sui_transfer.py] and of the registry commands and the
    address derivation of [MiaoWallet/wallet_panel.py], with their
    properties stated and proved over it.

    Layout: Python values and exceptions; binary64 arithmetic; the
    [bech32] codec and [bytes.fromhex]; key decoding, address derivation
    and the signature envelope over abstract hash and signature
    primitives; the transfer pipeline in a state-and-exception monad
    over an abstract outside world; the earlier script; the preview and
    the command line; the registry and the commands of the panel; then
    the theorems. *)

From Stdlib Require Import ZArith List String Ascii Bool Lia Btauto.
From Stdlib Require Import Strings.Byte.
From Stdlib Require Import Floats.SpecFloat.
Import ListNotations.

Set Warnings "-register-all".

Local Open Scope string_scope.
Local Open Scope list_scope.
Local Open Scope Z_scope.

(* ===================================================================== *)
(** * Python values and exceptions *)
(* ===================================================================== *)

(** Binary64 floating-point numbers, as the Standard Library specifies
    them over binary integers. *)
Definition float : Type := spec_float.

(** A decoded JSON document as the Python object [json.loads] /
    [Response.json] builds.  A [PDict] lists the items of the dict;
    lookup takes the first binding of a key. *)
Inductive pyval : Type :=
| PNone
| PBool (b : bool)
| PInt (z : Z)
| PFloat (f : float)
| PStr (s : string)
| PList (l : list pyval)
| PDict (d : list (string * pyval)).

(** The exceptions the modelled code can raise.  The script defines no
    exception class of its own: failures are Python built-ins, the bare
    [Exception] that [rpc_call] raises, or whatever the outside world
    (keychain, HTTP transport, file system, console) raises. *)
Inductive exn : Type :=
| TypeError
| ValueError
| IndexError
| KeyError
| AttributeError
| OverflowError
| UnboundLocalError
| BinasciiError                 (* binascii.Error, from base64.b64decode *)
| NaclValueError                (* nacl.exceptions.ValueError, from SigningKey *)
| RpcError (err : pyval)        (* Exception(f"RPC error: {result['error']}") *)
| WorldError (what : string).   (* raised by an external collaborator *)

(** Outcome of an expression: an exception or a value. *)
Definition res (A : Type) : Type := (exn + A)%type.

Definition ok {A} (a : A) : res A := inr a.
Definition throw {A} (e : exn) : res A := inl e.

Definition rbind {A B} (r : res A) (k : A -> res B) : res B :=
  match r with
  | inl e => inl e
  | inr a => k a
  end.

Declare Scope res_scope.
Delimit Scope res_scope with res.
Notation "'let?' x ':=' r 'in' k" := (rbind r (fun x => k))
  (at level 10, x pattern, r at level 100, k at level 200) : res_scope.

(* ===================================================================== *)
(** * binary64 arithmetic: [float * int], [int(float)], [float(int)] *)
(* ===================================================================== *)

Module PyFloat.

Definition prec : Z := 53.
Definition emax : Z := 1024.

Definition mul : float -> float -> float := SFmul prec emax.
Definition div : float -> float -> float := SFdiv prec emax.

(** [float(z)] for a Python int: correctly rounded (ties to even);
    [OverflowError] when the rounded value is not finite. *)
Definition of_int (z : Z) : res float :=
  match binary_normalize prec emax z 0 false with
  | S754_infinity _ => throw OverflowError
  | f => ok f
  end.

(** [int(f)]: truncation toward zero; [OverflowError] on an infinity
    and [ValueError] on a NaN. *)
Definition to_int (f : float) : res Z :=
  match f with
  | S754_zero _ => ok 0
  | S754_infinity _ => throw OverflowError
  | S754_nan => throw ValueError
  | S754_finite s m e =>
      let a := if 0 <=? e then Zpos m * 2 ^ e else Zpos m / 2 ^ (- e) in
      ok (if s then - a else a)
  end.

(** [f * z] with [z] a Python int: the int is converted first. *)
Definition mul_int (f : float) (z : Z) : res float :=
  (let? g := of_int z in ok (mul f g))%res.

(** [float("<m>e-<k>")]: the decimal [m / 10^k] rounded to nearest.
    Both [m] and [10^k] are exactly representable for [|m| < 2^53] and
    [k <= 22], where one correctly rounded division is the correctly
    rounded decimal, which is what [float] of a string returns. *)
Definition of_decimal (m : Z) (k : nat) : float :=
  div (binary_normalize prec emax m 0 false)
      (binary_normalize prec emax (10 ^ Z.of_nat k) 0 false).

Definition is_zero (f : float) : bool :=
  match f with S754_zero _ => true | _ => false end.

End PyFloat.

(** [amount_mist = int(amount_sui * 1_000_000_000)], the first statement
    of [transfer] and of [dry_run_only]. *)
Definition amount_mist_of (amount_sui : float) : res Z :=
  (let? p := PyFloat.mul_int amount_sui 1000000000 in PyFloat.to_int p)%res.

(** What exact decimal arithmetic gives for [m / 10^k] coins, when that is
    a whole number of smallest units. *)
Definition exact_mist (m : Z) (k : nat) : Z := m * 10 ^ 9 / 10 ^ Z.of_nat k.

(* ===================================================================== *)
(** * Strings and the built-in operations of Python the script uses *)
(* ===================================================================== *)

(** A Python [str] is modelled as a sequence of characters with codes
    0..255; a [bytes] object as a list of bytes. *)
Definition chars : Type := list ascii.
Definition bytes : Type := list byte.

Definition code (c : ascii) : Z := Z.of_nat (nat_of_ascii c).

Module PyStr.

(** [str.isspace] on one character, a character being its code point
    within the modelled range 0..255: the controls 9 to 13 and 28 to 31,
    the space, U+0085 (next line) and U+00A0 (no-break space). *)
Definition is_space (c : ascii) : bool :=
  ((9 <=? code c) && (code c <=? 13)) || ((28 <=? code c) && (code c <=? 32))
  || (code c =? 133) || (code c =? 160).

Fixpoint lstrip (l : chars) : chars :=
  match l with
  | c :: r => if is_space c then lstrip r else l
  | [] => []
  end.

(** [s.strip()] *)
Definition strip (l : chars) : chars := rev (lstrip (rev (lstrip l))).

Definition lower_char (c : ascii) : ascii :=
  if (65 <=? code c) && (code c <=? 90)
  then ascii_of_nat (nat_of_ascii c + 32) else c.

Definition upper_char (c : ascii) : ascii :=
  if (97 <=? code c) && (code c <=? 122)
  then ascii_of_nat (nat_of_ascii c - 32) else c.

(** [s.lower()], [s.upper()] *)
Definition lower (l : chars) : chars := map lower_char l.
Definition upper (l : chars) : chars := map upper_char l.

Definition eqb (a b : chars) : bool :=
  String.eqb (string_of_list_ascii a) (string_of_list_ascii b).

(** [s.startswith(p)] *)
Fixpoint startswith (p s : chars) : bool :=
  match p, s with
  | [], _ => true
  | a :: p', b :: s' => Ascii.eqb a b && startswith p' s'
  | _ :: _, [] => false
  end.

(** [s.endswith(p)] *)
Definition endswith (p s : chars) : bool := startswith (rev p) (rev s).

(** [s.replace(old, "")] for a non-empty [old]: leftmost occurrences,
    not overlapping, are dropped.  [fuel] bounds the scan; the length
    of [s] plus one always suffices. *)
Fixpoint remove_all (fuel : nat) (old s : chars) : chars :=
  match fuel with
  | O => s
  | S fuel' =>
      match s with
      | [] => []
      | c :: r =>
          if startswith old s
          then remove_all fuel' old (skipn (List.length old) s)
          else c :: remove_all fuel' old r
      end
  end.

Definition replace_with_empty (old s : chars) : chars :=
  remove_all (S (List.length s)) old s.

(** [needle in s] on strings: substring test. *)
Fixpoint contains (needle s : chars) : bool :=
  startswith needle s ||
  match s with
  | [] => false
  | _ :: r => contains needle r
  end.

Definition digit (c : ascii) : option Z :=
  if (48 <=? code c) && (code c <=? 57) then Some (code c - 48) else None.

(** Decimal digits with single underscores allowed between digits. *)
Fixpoint digits_val (acc : Z) (after_digit : bool) (l : chars) : option Z :=
  match l with
  | [] => if after_digit then Some acc else None
  | c :: r =>
      if Ascii.eqb c "_"%char
      then (if after_digit then digits_val acc false r else None)
      else match digit c with
           | Some d => digits_val (10 * acc + d) true r
           | None => None
           end
  end.

(** [int(s)] for a string, base 10: surrounding whitespace, an optional
    sign, digits.  [None] stands for the [ValueError].  The limit recent
    interpreters put on the number of digits is not modelled. *)
Definition to_int (s : chars) : option Z :=
  match strip s with
  | c :: r =>
      if Ascii.eqb c "-"%char then option_map Z.opp (digits_val 0 false r)
      else if Ascii.eqb c "+"%char then digits_val 0 false r
      else digits_val 0 false (c :: r)
  | [] => None
  end.

(** Decimal digits of a natural number, most significant first;
    [fuel] bounds the number of digits. *)
Fixpoint digits_of (fuel : nat) (z : Z) (acc : chars) : chars :=
  match fuel with
  | O => acc
  | S fuel' =>
      let d := ascii_of_nat (Z.to_nat (48 + z mod 10)) in
      if z <? 10 then d :: acc else digits_of fuel' (z / 10) (d :: acc)
  end.

(** [str(z)] for a Python int. *)
Definition of_int (z : Z) : string :=
  let body := digits_of (S (Z.to_nat (Z.log2 (Z.abs z)))) (Z.abs z) [] in
  string_of_list_ascii (if z <? 0 then "-"%char :: body else body).

End PyStr.

Definition str_chars (s : string) : chars := list_ascii_of_string s.

Module Py.

Fixpoint lookup (k : string) (d : list (string * pyval)) : option pyval :=
  match d with
  | [] => None
  | (k', v) :: r => if String.eqb k k' then Some v else lookup k r
  end.

(** [o.get(k, default)]: only a dict has the method. *)
Definition get (o : pyval) (k : string) (default : pyval) : res pyval :=
  match o with
  | PDict d => ok match lookup k d with Some v => v | None => default end
  | _ => throw AttributeError
  end.

(** [o[k]] with a string key. *)
Definition getitem (o : pyval) (k : string) : res pyval :=
  match o with
  | PDict d => match lookup k d with Some v => ok v | None => throw KeyError end
  | _ => throw TypeError
  end.

(** [o[0]].  The keys of a decoded JSON object are strings, so a dict
    has no key [0]. *)
Definition getitem0 (o : pyval) : res pyval :=
  match o with
  | PList (v :: _) => ok v
  | PList [] => throw IndexError
  | PStr (String c _) => ok (PStr (String c EmptyString))
  | PStr EmptyString => throw IndexError
  | PDict _ => throw KeyError
  | _ => throw TypeError
  end.

(** Truth value of an object, as [if o] / [not o] test it. *)
Definition truthy (o : pyval) : bool :=
  match o with
  | PNone => false
  | PBool b => b
  | PInt z => negb (z =? 0)
  | PFloat f => negb (PyFloat.is_zero f)
  | PStr s => negb (String.eqb s "")
  | PList l => match l with [] => false | _ => true end
  | PDict d => match d with [] => false | _ => true end
  end.

(** [o == s] for a string literal [s]. *)
Definition eq_str (o : pyval) (s : string) : bool :=
  match o with
  | PStr t => String.eqb t s
  | _ => false
  end.

(** [int(o)] *)
Definition int (o : pyval) : res Z :=
  match o with
  | PInt z => ok z
  | PBool b => ok (if b then 1 else 0)
  | PFloat f => PyFloat.to_int f
  | PStr s => match PyStr.to_int (str_chars s) with
              | Some z => ok z
              | None => throw ValueError
              end
  | _ => throw TypeError
  end.

(** [s in o] for a string literal [s]. *)
Definition contains_str (s : string) (o : pyval) : res bool :=
  match o with
  | PDict d => ok match lookup s d with Some _ => true | None => false end
  | PList l => ok (existsb (fun v => eq_str v s) l)
  | PStr t => ok (PyStr.contains (str_chars s) (str_chars t))
  | _ => throw TypeError
  end.

(** [z / 1e9], as the report lines compute it: the int is converted to
    a float first, which overflows for huge values. *)
Definition int_div_float_check (z : Z) : res unit :=
  (let? _ := PyFloat.of_int z in ok tt)%res.

(** Equality of a float and an int: exact, no rounding. *)
Definition float_eq_int (f : float) (z : Z) : bool :=
  match f with
  | S754_zero _ => z =? 0
  | S754_finite s m e =>
      let a := if s then Zneg m else Zpos m in
      if 0 <=? e then z =? a * 2 ^ e
      else (Zpos m mod 2 ^ (- e) =? 0) && (z =? a / 2 ^ (- e))
  | _ => false
  end.

Definition num_of (o : pyval) : option (Z + float) :=
  match o with
  | PBool b => Some (inl (if b then 1 else 0))
  | PInt z => Some (inl z)
  | PFloat f => Some (inr f)
  | _ => None
  end.

Definition num_eq (a b : Z + float) : bool :=
  match a, b with
  | inl x, inl y => x =? y
  | inl x, inr f => float_eq_int f x
  | inr f, inl x => float_eq_int f x
  | inr f, inr g => SFeqb f g
  end.

(** [a == b] on decoded JSON values: numbers compare by value across
    [bool], [int] and [float]; lists element by element; dicts key by
    key. *)
Fixpoint eqb (a b : pyval) {struct a} : bool :=
  match a, b with
  | PNone, PNone => true
  | PStr s, PStr t => String.eqb s t
  | PList l, PList m =>
      (fix go (l m : list pyval) {struct l} : bool :=
         match l, m with
         | [], [] => true
         | x :: l', y :: m' => eqb x y && go l' m'
         | _, _ => false
         end) l m
  | PDict d, PDict e =>
      Nat.eqb (List.length d) (List.length e) &&
      (fix go (d : list (string * pyval)) {struct d} : bool :=
         match d with
         | [] => true
         | (k, v) :: d' =>
             match lookup k e with
             | Some w => eqb v w
             | None => false
             end && go d'
         end) d
  | _, _ =>
      match num_of a, num_of b with
      | Some x, Some y => num_eq x y
      | _, _ => false
      end
  end.

(** The items a [for] loop over [o] visits: the elements of a list,
    the keys of a dict, the characters of a string. *)
Definition iter (o : pyval) : res (list pyval) :=
  match o with
  | PList l => ok l
  | PDict d => ok (map (fun kv => PStr (fst kv)) d)
  | PStr s => ok (map (fun c => PStr (String c EmptyString)) (str_chars s))
  | _ => throw TypeError
  end.

(** [addr[:n] + "..." + addr[-4:]]: only a string can be sliced and
    then concatenated with a string. *)
Definition abbreviate (n : nat) (addr : pyval) : res string :=
  match addr with
  | PStr s =>
      let cs := str_chars s in
      ok (string_of_list_ascii
            (firstn n cs ++ str_chars "..." ++ skipn (List.length cs - 4) cs))
  | _ => throw TypeError
  end.

Fixpoint update (k : string) (v : pyval) (d : list (string * pyval))
  : list (string * pyval) :=
  match d with
  | [] => [(k, v)]
  | (k', v') :: r =>
      if String.eqb k k' then (k, v) :: r else (k', v') :: update k v r
  end.

(** [o[k] = v] with a string key. *)
Definition setitem (o : pyval) (k : string) (v : pyval) : res pyval :=
  match o with
  | PDict d => ok (PDict (update k v d))
  | _ => throw TypeError
  end.

End Py.

(* ===================================================================== *)
(** * The [bech32] package: [bech32_decode] and [convertbits] *)
(* ===================================================================== *)

(** [get_address_from_key] and [derive_sui_address] call the [bech32]
    package (the BIP-173 reference code).  Its functions are transcribed
    here; [bech32_encode] is used to state properties of well-formed
    keys. *)
Module Bech32.

Definition CHARSET : chars := str_chars "qpzry9x8gf2tvdw0s3jn54khce6mua7l".

Definition generator : list Z :=
  [0x3b6a57b2; 0x26508e6d; 0x1ea119fa; 0x3d4233dd; 0x2a1462b3].

(** One round of the loop of [bech32_polymod]:
    [top = chk >> 25; chk = (chk & 0x1ffffff) << 5 ^ value;
     for i in range(5): chk ^= generator[i] if ((top >> i) & 1) else 0] *)
Definition polymod_step (chk value : Z) : Z :=
  let top := Z.shiftr chk 25 in
  let chk1 := Z.lxor (Z.shiftl (Z.land chk 0x1ffffff) 5) value in
  fold_left
    (fun c ig => Z.lxor c (if Z.testbit top (fst ig) then snd ig else 0))
    (combine [0; 1; 2; 3; 4] generator) chk1.

Definition bech32_polymod (values : list Z) : Z :=
  fold_left polymod_step values 1.

(** [[ord(x) >> 5 for x in hrp] + [0] + [ord(x) & 31 for x in hrp]] *)
Definition bech32_hrp_expand (hrp : chars) : list Z :=
  map (fun x => Z.shiftr (code x) 5) hrp ++ [0] ++
  map (fun x => Z.land (code x) 31) hrp.

Definition bech32_verify_checksum (hrp : chars) (data : list Z) : bool :=
  bech32_polymod (bech32_hrp_expand hrp ++ data) =? 1.

Definition bech32_create_checksum (hrp : chars) (data : list Z) : list Z :=
  let values := bech32_hrp_expand hrp ++ data in
  let polymod := Z.lxor (bech32_polymod (values ++ [0; 0; 0; 0; 0; 0])) 1 in
  map (fun i => Z.land (Z.shiftr polymod (5 * (5 - i))) 31) [0; 1; 2; 3; 4; 5].

Definition charset_at (d : Z) : ascii := nth (Z.to_nat d) CHARSET "q"%char.

(** [hrp + '1' + ''.join([CHARSET[d] for d in combined])] *)
Definition bech32_encode (hrp : chars) (data : list Z) : chars :=
  hrp ++ ["1"%char] ++ map charset_at (data ++ bech32_create_checksum hrp data).

(** [CHARSET.find(x)]: index of [x], or [-1]. *)
Fixpoint find_from (i : Z) (cs : chars) (x : ascii) : Z :=
  match cs with
  | [] => -1
  | c :: r => if Ascii.eqb c x then i else find_from (i + 1) r x
  end.

Definition charset_find (x : ascii) : Z := find_from 0 CHARSET x.

(** [bech.rfind('1')]: index of the last ['1'], or [-1]. *)
Fixpoint rfind_from (i : Z) (s : chars) (x : ascii) (last : Z) : Z :=
  match s with
  | [] => last
  | c :: r => rfind_from (i + 1) r x (if Ascii.eqb c x then i else last)
  end.

Definition rfind (s : chars) (x : ascii) : Z := rfind_from 0 s x (-1).

Definition len (s : chars) : Z := Z.of_nat (List.length s).

(** [bech32_decode]; [None] stands for the pair [(None, None)].  The
    package sets no upper bound on the length of the text. *)
Definition bech32_decode (bech : chars) : option (chars * list Z) :=
  if existsb (fun x => (code x <? 33) || (126 <? code x)) bech
     || (negb (PyStr.eqb (PyStr.lower bech) bech) &&
         negb (PyStr.eqb (PyStr.upper bech) bech))
  then None
  else
    let bech := PyStr.lower bech in
    let pos := rfind bech "1"%char in
    if (pos <? 1) || (len bech <? pos + 7) then None
    else
      let rest := skipn (Z.to_nat (pos + 1)) bech in
      if negb (forallb (fun x => 0 <=? charset_find x) rest) then None
      else
        let hrp := firstn (Z.to_nat pos) bech in
        let data := map charset_find rest in
        if negb (bech32_verify_checksum hrp data) then None
        else Some (hrp, firstn (List.length data - 6) data).

(** The loop of [convertbits] over the remaining input, from the state
    [(acc, bits, ret)]; [ret] is kept in reverse.  [None]: a value was
    out of range ([return None] inside the loop).  The inner
    [while bits >= tobits] emits at most [bits / tobits] values. *)
Fixpoint emit (fuel : nat) (acc bits tobits maxv : Z) (ret : list Z) : Z * list Z :=
  match fuel with
  | O => (bits, ret)
  | S fuel' =>
      if tobits <=? bits
      then let bits' := bits - tobits in
           emit fuel' acc bits' tobits maxv (Z.land (Z.shiftr acc bits') maxv :: ret)
      else (bits, ret)
  end.

Fixpoint convert_loop (data : list Z) (frombits tobits : Z)
         (acc bits : Z) (ret : list Z) : option (Z * Z * list Z) :=
  match data with
  | [] => Some (acc, bits, ret)
  | value :: rest =>
      if (value <? 0) || negb (Z.shiftr value frombits =? 0) then None
      else
        let maxv := Z.shiftl 1 tobits - 1 in
        let max_acc := Z.shiftl 1 (frombits + tobits - 1) - 1 in
        let acc' := Z.land (Z.lor (Z.shiftl acc frombits) value) max_acc in
        let bits' := bits + frombits in
        let '(bits'', ret') :=
          emit (Z.to_nat (bits' / tobits)) acc' bits' tobits maxv ret in
        convert_loop rest frombits tobits acc' bits'' ret'
  end.

(** [convertbits(data, frombits, tobits, pad)] for a list [data];
    [None] stands for the returned [None]. *)
Definition convertbits (data : list Z) (frombits tobits : Z) (pad : bool)
  : option (list Z) :=
  match convert_loop data frombits tobits 0 0 [] with
  | None => None
  | Some (acc, bits, ret) =>
      let maxv := Z.shiftl 1 tobits - 1 in
      let last := Z.land (Z.shiftl acc (tobits - bits)) maxv in
      if pad
      then Some (rev (if negb (bits =? 0) then last :: ret else ret))
      else if (frombits <=? bits) || negb (last =? 0) then None
           else Some (rev ret)
  end.

End Bech32.

(* ===================================================================== *)
(** * Bytes: [bytes(list)], [bytes.fromhex], [hexdigest] *)
(* ===================================================================== *)

Module PyBytes.

Definition byte_of_Z (z : Z) : byte :=
  match Byte.of_N (Z.to_N z) with
  | Some b => b
  | None => x00
  end.

Definition Z_of_byte (b : byte) : Z := Z.of_N (Byte.to_N b).

(** [bytes(x)] where [x] is a list of ints or [None]: [TypeError] on
    [None], [ValueError] when an element is not in [range(256)]. *)
Definition of_ints (x : option (list Z)) : res bytes :=
  match x with
  | None => throw TypeError
  | Some l =>
      if forallb (fun v => (0 <=? v) && (v <? 256)) l
      then ok (map byte_of_Z l)
      else throw ValueError
  end.

(** Value of a hexadecimal digit, either case. *)
Definition digit_value (c : ascii) : option Z :=
  let n := code c in
  if (48 <=? n) && (n <=? 57) then Some (n - 48)
  else if (97 <=? n) && (n <=? 102) then Some (n - 87)
  else if (65 <=? n) && (n <=? 70) then Some (n - 55)
  else None.

(** ASCII whitespace, which [bytes.fromhex] skips between bytes. *)
Definition is_space (c : ascii) : bool :=
  ((9 <=? code c) && (code c <=? 13)) || (code c =? 32).

(** [bytes.fromhex(s)]: pairs of hexadecimal digits, whitespace allowed
    between pairs; [None] stands for the [ValueError].  [pending] is the
    high digit of a pair whose low digit is still to be read. *)
Fixpoint fromhex_from (pending : option Z) (s : chars) : option bytes :=
  match s with
  | [] => match pending with None => Some [] | Some _ => None end
  | c :: r =>
      match pending with
      | None =>
          if is_space c then fromhex_from None r
          else match digit_value c with
               | Some top => fromhex_from (Some top) r
               | None => None
               end
      | Some top =>
          match digit_value c with
          | Some bot =>
              option_map (cons (byte_of_Z (top * 16 + bot))) (fromhex_from None r)
          | None => None
          end
      end
  end.

Definition fromhex (s : chars) : res bytes :=
  match fromhex_from None s with
  | Some b => ok b
  | None => throw ValueError
  end.

Definition hex_digit (v : Z) : ascii :=
  nth (Z.to_nat v) (str_chars "0123456789abcdef") "0"%char.

(** [b.hex()] / [hasher.hexdigest()]: two lowercase digits per byte. *)
Definition hex (b : bytes) : chars :=
  flat_map (fun x => [hex_digit (Z_of_byte x / 16); hex_digit (Z_of_byte x mod 16)]) b.

End PyBytes.

(* ===================================================================== *)
(** * Key decoding, address derivation and the signature envelope *)
(* ===================================================================== *)

(** The cryptographic and codec primitives the script takes from
    [hashlib], [nacl.signing] and [base64]. *)
Record primitives : Type := {
  (** [h = hashlib.blake2b(digest_size=32); h.update(m); h.digest()] *)
  blake2b_256 : bytes -> bytes;
  (** [SigningKey(seed).verify_key.encode()] for a 32-byte seed *)
  ed25519_public_key : bytes -> bytes;
  (** [SigningKey(seed).sign(m).signature] for a 32-byte seed *)
  ed25519_sign : bytes -> bytes -> bytes;
  (** [base64.b64decode(s)] for a string, [None] when it raises *)
  b64decode : string -> option bytes;
  (** [base64.b64encode(b).decode()] *)
  b64encode : bytes -> string
}.

(** What the script relies on from the primitives: the sizes of their
    results. *)
Record primitives_ok (P : primitives) : Prop := {
  blake2b_256_length : forall m, List.length (blake2b_256 P m) = 32%nat;
  ed25519_public_key_length :
    forall seed, List.length seed = 32%nat ->
                 List.length (ed25519_public_key P seed) = 32%nat;
  ed25519_sign_length :
    forall seed m, List.length seed = 32%nat ->
                   List.length (ed25519_sign P seed m) = 64%nat
}.

(** [SigningKey(seed)] for a [bytes] seed: the constructor rejects a seed
    that is not exactly 32 bytes long. *)
Definition SigningKey (seed : bytes) : res bytes :=
  if (List.length seed =? 32)%nat then ok seed else throw NaclValueError.

(** The decoded secret: [(seed, scheme, pk, address)], the tuple
    [get_address_from_key] returns. *)
Definition key_info : Type := (bytes * Z * bytes * string)%type.

(** ["0x" + hasher.hexdigest()] after [hasher.update(bytes([scheme]) + pk)] *)
Definition sui_address (P : primitives) (scheme : Z) (pk : bytes) : res string :=
  (let? flag := PyBytes.of_ints (Some [scheme]) in
   ok (String.append "0x"
         (string_of_list_ascii (PyBytes.hex (blake2b_256 P (flag ++ pk))))))%res.

(** The bech32 branch shared by [get_address_from_key] and
    [derive_sui_address]:
    [hrp, data5bit = bech32.bech32_decode(s)];
    [data8bit = bytes(bech32.convertbits(data5bit, 5, 8, False))];
    [scheme = data8bit[0]; seed = data8bit[1:33]].
    On a string that does not decode, [data5bit] is [None] and iterating
    it in [convertbits] raises [TypeError]. *)
Definition decode_bech32_key (s : string) : res (Z * bytes) :=
  match Bech32.bech32_decode (str_chars s) with
  | None => throw TypeError
  | Some (hrp, data5bit) =>
      (let? data8bit := PyBytes.of_ints (Bech32.convertbits data5bit 5 8 false) in
       match data8bit with
       | [] => throw IndexError
       | b :: _ => ok (PyBytes.Z_of_byte b, firstn 32 (skipn 1 data8bit))
       end)%res
  end.

(** [get_address_from_key(privkey_bech32)] of [sui_transfer.py] *)
Definition get_address_from_key (P : primitives) (privkey_bech32 : string)
  : res key_info :=
  (let? (scheme, seed) := decode_bech32_key privkey_bech32 in
   let? sk := SigningKey seed in
   let pk := ed25519_public_key P sk in
   let? address := sui_address P scheme pk in
   ok (seed, scheme, pk, address))%res.

(** Text of the message of an exception, as [f"{e}"] renders it; only
    the kind of exception is kept. *)
Definition exn_text (e : exn) : string :=
  match e with
  | TypeError => "TypeError"
  | ValueError => "ValueError"
  | IndexError => "IndexError"
  | KeyError => "KeyError"
  | AttributeError => "AttributeError"
  | OverflowError => "OverflowError"
  | UnboundLocalError => "UnboundLocalError"
  | BinasciiError => "binascii.Error"
  | NaclValueError => "nacl.exceptions.ValueError"
  | RpcError _ => "RPC error"
  | WorldError s => s
  end.

(** The [if]/[else] that opens the [try] of [derive_sui_address] in
    [wallet_panel.py]: the scheme and the seed read from the secret, from
    its bech32 text or from its hexadecimal text. *)
Definition scheme_and_seed (secret : string) : res (Z * bytes) :=
  if PyStr.startswith (str_chars "suiprivkey1") (str_chars secret)
  then decode_bech32_key secret
  else
    (let clean := PyStr.replace_with_empty (str_chars "0x") (str_chars secret) in
     let? seed := PyBytes.fromhex (firstn 64 clean) in
     ok (0, seed))%res.

(** The body of the [try] of [derive_sui_address]. *)
Definition derive_sui_address_try (P : primitives) (secret : string) : res string :=
  (let? (scheme, seed) := scheme_and_seed secret in
   let? sk := SigningKey seed in
   let pk := ed25519_public_key P sk in
   sui_address P scheme pk)%res.

(** [derive_sui_address(secret)]: every exception is caught and turned
    into the returned string ["(derive failed: ...)"], so the function
    itself never raises. *)
Definition derive_sui_address (P : primitives) (secret : string) : res string :=
  match derive_sui_address_try P secret with
  | inr address => ok address
  | inl e => ok ("(derive failed: " ++ exn_text e ++ ")")%string
  end.

(** [intent_prefix = bytes([0, 0, 0])] *)
Definition intent_prefix : bytes := [x00; x00; x00].

(** The signing part of [sign_and_execute], from the decoded transaction
    bytes to [sig_bytes = bytes([scheme]) + signature + pk]. *)
Definition sig_bytes_of (P : primitives) (tx_bytes seed : bytes) (scheme : Z)
  : res bytes :=
  let intent_msg := intent_prefix ++ tx_bytes in
  let digest := blake2b_256 P intent_msg in
  (let? sk := SigningKey seed in
   let signature := ed25519_sign P sk digest in
   let pk := ed25519_public_key P sk in
   let? flag := PyBytes.of_ints (Some [scheme]) in
   ok (flag ++ signature ++ pk))%res.

(* ===================================================================== *)
(** * The outside world, the console and the state of a run *)
(* ===================================================================== *)

(** What the script prints, one constructor per [print] statement (or
    run of consecutive ones); the text itself is not modelled. *)
Inductive message : Type :=
| MsgResolving (name : string)
| MsgResolveFailed (name : string)
| MsgResolved (recipient : pyval)
| MsgRequest (wallet_alias original_recipient : string) (recipient : pyval)
             (amount_sui : float) (amount_mist : Z)
| MsgNoKey
| MsgSender (sender : string)
| MsgNoCoin
| MsgBalance (balance : Z)
| MsgBuilding
| MsgSimulating
| MsgPreviewHeader
| MsgSimOk
| MsgSimFailed (failure : pyval)
| MsgBalanceChangesHeader
| MsgBalanceChange (label : string) (amt : Z) (coin_short : pyval)
| MsgGasEstimate (computation storage rebate gas_total : Z)
| MsgSummary (amount_sui : float) (gas_total : Z)
| MsgPreviewFooter
| MsgSimCancelled
| MsgUserCancelled
| MsgAutoConfirm
| MsgSigning
| MsgFinal (status digest : pyval) (gas_total : Z)
| MsgFinalBalanceChange (short : string) (amt : Z)
| MsgKeyCleared.

(** What a run does that the outside can observe, plus one marker,
    [EvSignerEntered], logged on entry to [sign_and_execute]. *)
Inductive event : Type :=
| EvKeyring (service wallet_alias : string) (r : res (option string))
| EvHttpPost (url : string) (payload : pyval) (r : res pyval)
| EvFileExists (b : bool)
| EvFileLoad (r : res pyval)
| EvFileStore (content : pyval) (r : res unit)
| EvInput (r : res string)
| EvPrint (m : message)
| EvSignerEntered (tx_bytes_b64 : pyval) (seed : bytes) (scheme : Z).

(** The external collaborators, over a world state [W] they may read and
    change.  Each returns what the Python call returns, or the exception
    it raises. *)
Record world_ops (W : Type) : Type := {
  (** [keyring.get_password(service, alias)]: a string or [None] *)
  keyring_get_password : string -> string -> W -> res (option string) * W;
  (** [requests.post(url, json=payload, timeout=15).json()] *)
  requests_post_json : string -> pyval -> W -> res pyval * W;
  (** [input(prompt)] *)
  console_input : W -> res string * W;
  (** [os.path.exists(addr_file)] *)
  addr_file_exists : W -> bool * W;
  (** [json.loads(open(addr_file).read())] *)
  addr_file_load : W -> res pyval * W;
  (** [open(addr_file, "w").write(json.dumps(addrs, indent=2))] *)
  addr_file_store : pyval -> W -> res unit * W
}.

Arguments keyring_get_password {W}.
Arguments requests_post_json {W}.
Arguments console_input {W}.
Arguments addr_file_exists {W}.
Arguments addr_file_load {W}.
Arguments addr_file_store {W}.

(** What a local variable of the frame of [transfer] is bound to. *)
Inductive binding : Type :=
| Unbound
| BoundNone
| BoundStr (s : string)
| BoundBytes (b : bytes).

(** The two local variables of [transfer] that hold secret material. *)
Record frame : Type := { v_privkey : binding; v_seed : binding }.

(** State of a run: the world, the events so far (newest first) and the
    secret-holding locals of [transfer]. *)
Record state (W : Type) : Type := {
  world : W;
  log : list event;
  locals : frame
}.

Arguments world {W}.
Arguments log {W}.
Arguments locals {W}.

(** The events of a run in the order they happened. *)
Definition trace_of {W} (s : state W) : list event := rev (log s).

(** How a statement ends: it falls through with a value, it executes
    [return v], or it raises. *)
Inductive ctl (A : Type) : Type :=
| Next (a : A)
| Return (v : pyval)
| Raise (e : exn).

Arguments Next {A}.
Arguments Return {A}.
Arguments Raise {A}.

(** Adding an event to the log of a state. *)
Definition logged {W} (e : event) (s : state W) : state W :=
  {| world := world s; log := e :: log s; locals := locals s |}.

Section Monad.

Context {W : Type}.

Definition M (A : Type) : Type := state W -> ctl A * state W.

Definition ret {A} (a : A) : M A := fun s => (Next a, s).

Definition bind {A B} (m : M A) (k : A -> M B) : M B :=
  fun s =>
    match m s with
    | (Next a, s') => k a s'
    | (Return v, s') => (Return v, s')
    | (Raise e, s') => (Raise e, s')
    end.

(** [return v] *)
Definition return_ {A} (v : pyval) : M A := fun s => (Return v, s).

Definition raise {A} (e : exn) : M A := fun s => (Raise e, s).

Definition lift {A} (r : res A) : M A :=
  match r with
  | inl e => raise e
  | inr a => ret a
  end.

Definition emit (e : event) : M unit :=
  fun s => (Next tt, {| world := world s; log := e :: log s; locals := locals s |}).

Definition print (m : message) : M unit := emit (EvPrint m).

(** A call to an external collaborator, logged with its answer. *)
Definition ask {A} (op : W -> A * W) (ev : A -> event) : M A :=
  fun s =>
    let (a, w') := op (world s) in
    (Next a, {| world := w'; log := ev a :: log s; locals := locals s |}).

Definition set_locals (f : frame -> frame) : M unit :=
  fun s => (Next tt, {| world := world s; log := log s; locals := f (locals s) |}).

(** A function call: [return v] yields [v], falling off the end yields
    [None], an exception propagates. *)
Definition call (body : M unit) : M pyval :=
  fun s =>
    match body s with
    | (Next _, s') => (Next PNone, s')
    | (Return v, s') => (Next v, s')
    | (Raise e, s') => (Raise e, s')
    end.

(** [try: body finally: fin]: [fin] runs however [body] ends, and the
    way [body] ended is kept unless [fin] itself returns or raises. *)
Definition try_finally {A} (body : M A) (fin : M unit) : M A :=
  fun s =>
    let (c, s1) := body s in
    match fin s1 with
    | (Next _, s2) => (c, s2)
    | (Return v, s2) => (Return v, s2)
    | (Raise e, s2) => (Raise e, s2)
    end.

(** [try: body except Exception: handler] *)
Definition try_except {A} (body : M A) (handler : exn -> M A) : M A :=
  fun s =>
    match body s with
    | (Raise e, s') => handler e s'
    | r => r
    end.

End Monad.

Arguments M W A : clear implicits.

Declare Scope monad_scope.
Delimit Scope monad_scope with monad.
Notation "x <- m ;; k" := (bind m (fun x => k))
  (at level 61, m at next level, right associativity) : monad_scope.
Notation "m ;; k" := (bind m (fun _ => k))
  (at level 61, right associativity) : monad_scope.

Local Open Scope monad_scope.

(** [for x in items: body x] *)
Fixpoint for_each {W A} (items : list A) (body : A -> M W unit) : M W unit :=
  match items with
  | [] => ret tt
  | x :: rest => body x ;; for_each rest body
  end.

(* ===================================================================== *)
(** * The pipeline of [sui_transfer.py] *)
(* ===================================================================== *)

Definition SERVICE_ID : string := "openclaw_bot".
Definition SUI_RPC : string := "https://fullnode.mainnet.sui.io:443".

(** [{"jsonrpc": "2.0", "id": 1, "method": method, "params": params}] *)
Definition rpc_payload (method : string) (params : list pyval) : pyval :=
  PDict [("jsonrpc", PStr "2.0"); ("id", PInt 1);
         ("method", PStr method); ("params", PList params)].

(** The end of [rpc_call], on the decoded response:
    [if "error" in result: raise Exception(...)]; [return result["result"]]. *)
Definition rpc_result (result : pyval) : res pyval :=
  (let? has_error := Py.contains_str "error" result in
   if has_error : bool
   then let? err := Py.getitem result "error" in throw (RpcError err)
   else Py.getitem result "result")%res.

(** [effects.get("status", {}).get(field, default)] *)
Definition effects_status (effects : pyval) (field : string) (default : pyval)
  : res pyval :=
  (let? st := Py.get effects "status" (PDict []) in Py.get st field default)%res.

(** [int(o.get(field, 0))] *)
Definition int_field (o : pyval) (field : string) : res Z :=
  (let? v := Py.get o field (PInt 0) in Py.int v)%res.

(** The status a dry-run or execution result reports:
    [result.get("effects", {}).get("status", {}).get("status", "unknown")]. *)
Definition reported_status (result : pyval) : res pyval :=
  (let? effects := Py.get result "effects" (PDict []) in
   effects_status effects "status" (PStr "unknown"))%res.

(** The part of [s] after the last separator ["::"], reading left to
    right as [split] does. *)
Fixpoint last_segment (fuel : nat) (s cur : chars) : chars :=
  match fuel, s with
  | S fuel', c :: r =>
      if PyStr.startswith (str_chars "::") s
      then last_segment fuel' (skipn 2 s) []
      else last_segment fuel' r (cur ++ [c])
  | _, _ => cur
  end.

(** [coin_type.split("::")[-1] if "::" in coin_type else coin_type] *)
Definition coin_short_of (coin_type : pyval) : res pyval :=
  (let? has := Py.contains_str "::" coin_type in
   if has : bool
   then match coin_type with
        | PStr s =>
            let cs := str_chars s in
            ok (PStr (string_of_list_ascii (last_segment (List.length cs) cs [])))
        | _ => throw AttributeError
        end
   else ok coin_type)%res.

(** The label of a balance line in the preview. *)
Definition label_of (addr : pyval) (sender : string) (recipient : pyval)
  : res string :=
  if Py.eqb addr (PStr sender) then ok "sender"
  else if Py.eqb addr recipient then ok "recipient"
  else Py.abbreviate 10 addr.

(** The answer that confirms: [ans in ("y", "yes")] after
    [ans = input(...).strip().lower()]. *)
Definition confirms (answer : string) : bool :=
  let ans := PyStr.lower (PyStr.strip (str_chars answer)) in
  PyStr.eqb ans (str_chars "y") || PyStr.eqb ans (str_chars "yes").

Section Pipeline.

Context {W : Type}.
Variable ops : world_ops W.
Variable P : primitives.

(** [rpc_call(method, params)] *)
Definition rpc_call (method : string) (params : list pyval) : M W pyval :=
  let payload := rpc_payload method params in
  r <- ask (requests_post_json ops SUI_RPC payload) (EvHttpPost SUI_RPC payload) ;;
  result <- lift r ;;
  lift (rpc_result result).

(** [resolve_suins(name)] *)
Definition resolve_suins (name : string) : M W pyval :=
  try_except
    (rpc_call "suix_resolveNameServiceAddress" [PStr name])
    (fun _ => ret PNone).

(** [get_coins(address)] *)
Definition get_coins (address : string) : M W pyval :=
  rpc_call "suix_getCoins" [PStr address; PStr "0x2::sui::SUI"; PNone; PInt 10].

(** [build_transfer_tx(sender, recipient, amount, coin_id, gas_budget)] *)
Definition build_transfer_tx (sender : string) (recipient : pyval) (amount : Z)
           (coin_id : pyval) (gas_budget : Z) : M W pyval :=
  rpc_call "unsafe_paySui"
    [PStr sender; PList [coin_id]; PList [recipient];
     PList [PStr (PyStr.of_int amount)]; PStr (PyStr.of_int gas_budget)].

(** [dry_run(tx_bytes_b64)] *)
Definition dry_run (tx_bytes_b64 : pyval) : M W pyval :=
  rpc_call "sui_dryRunTransactionBlock" [tx_bytes_b64].

(** One turn of the loop over [balance_changes] in [print_dry_run]. *)
Definition print_balance_change (sender : string) (recipient : pyval)
           (bc : pyval) : M W unit :=
  owner <- lift (Py.get bc "owner" (PDict [])) ;;
  addr <- lift (Py.get owner "AddressOwner" (PStr "?")) ;;
  amt <- lift (int_field bc "amount") ;;
  coin_type <- lift (Py.get bc "coinType" (PStr "")) ;;
  coin_short <- lift (coin_short_of coin_type) ;;
  label <- lift (label_of addr sender recipient) ;;
  lift (Py.int_div_float_check amt) ;;
  print (MsgBalanceChange label amt coin_short).

(** [print_dry_run(result, sender, recipient, amount_sui)] *)
Definition print_dry_run (result : pyval) (sender : string) (recipient : pyval)
           (amount_sui : float) : M W pyval :=
  call (
    effects <- lift (Py.get result "effects" (PDict [])) ;;
    status <- lift (effects_status effects "status" (PStr "unknown")) ;;
    gas <- lift (Py.get effects "gasUsed" (PDict [])) ;;
    computation <- lift (int_field gas "computationCost") ;;
    storage <- lift (int_field gas "storageCost") ;;
    rebate <- lift (int_field gas "storageRebate") ;;
    let gas_total := computation + storage - rebate in
    print MsgPreviewHeader ;;
    (if Py.eq_str status "success"
     then print MsgSimOk
     else
       failure <- lift (effects_status effects "error" (PStr "")) ;;
       print (MsgSimFailed failure) ;;
       return_ (PBool false)) ;;
    balance_changes <- lift (Py.get result "balanceChanges" (PList [])) ;;
    (if Py.truthy balance_changes
     then
       print MsgBalanceChangesHeader ;;
       items <- lift (Py.iter balance_changes) ;;
       for_each items (print_balance_change sender recipient)
     else ret tt) ;;
    lift (Py.int_div_float_check computation) ;;
    lift (Py.int_div_float_check storage) ;;
    lift (Py.int_div_float_check rebate) ;;
    lift (Py.int_div_float_check gas_total) ;;
    print (MsgGasEstimate computation storage rebate gas_total) ;;
    print (MsgSummary amount_sui gas_total) ;;
    print MsgPreviewFooter ;;
    return_ (PBool true)).

(** [base64.b64decode(tx_bytes_b64)] on the object received from the
    builder: only a string can be decoded. *)
Definition decode_tx (tx_bytes_b64 : pyval) : res bytes :=
  match tx_bytes_b64 with
  | PStr s => match b64decode P s with
              | Some b => ok b
              | None => throw BinasciiError
              end
  | _ => throw TypeError
  end.

(** [sign_and_execute(tx_bytes_b64, seed, scheme)] *)
Definition sign_and_execute (tx_bytes_b64 : pyval) (seed : bytes) (scheme : Z)
  : M W pyval :=
  emit (EvSignerEntered tx_bytes_b64 seed scheme) ;;
  tx_bytes <- lift (decode_tx tx_bytes_b64) ;;
  sig_bytes <- lift (sig_bytes_of P tx_bytes seed scheme) ;;
  let sig_b64 := b64encode P sig_bytes in
  rpc_call "sui_executeTransactionBlock"
    [tx_bytes_b64; PList [PStr sig_b64];
     PDict [("showEffects", PBool true); ("showBalanceChanges", PBool true)];
     PStr "WaitForLocalExecution"].

(** [save_wallet_address(wallet_alias, address)] *)
Definition save_wallet_address (wallet_alias address : string) : M W unit :=
  present <- ask (addr_file_exists ops) EvFileExists ;;
  addrs <- (if present : bool
            then r <- ask (addr_file_load ops) EvFileLoad ;; lift r
            else ret (PDict [])) ;;
  addrs <- lift (Py.setitem addrs wallet_alias (PStr address)) ;;
  r <- ask (addr_file_store ops addrs) (EvFileStore addrs) ;;
  lift r.

(** One turn of the loop over [balanceChanges] at the end of [transfer]. *)
Definition print_final_change (bc : pyval) : M W unit :=
  owner <- lift (Py.getitem bc "owner") ;;
  addr <- lift (Py.get owner "AddressOwner" (PStr "?")) ;;
  short <- lift (Py.abbreviate 8 addr) ;;
  amount <- lift (Py.getitem bc "amount") ;;
  amt <- lift (Py.int amount) ;;
  lift (Py.int_div_float_check amt) ;;
  print (MsgFinalBalanceChange short amt).

(** The [finally] block of [transfer]:
    [privkey = None; seed = None; del privkey, seed; print(...)]. *)
Definition del_local (get : frame -> binding) (unbind : frame -> frame) : M W unit :=
  fun s =>
    match get (locals s) with
    | Unbound => (Raise UnboundLocalError, s)
    | _ => set_locals unbind s
    end.

Definition clear_secrets : M W unit :=
  set_locals (fun f => {| v_privkey := BoundNone; v_seed := v_seed f |}) ;;
  set_locals (fun f => {| v_privkey := v_privkey f; v_seed := BoundNone |}) ;;
  del_local v_privkey (fun f => {| v_privkey := Unbound; v_seed := v_seed f |}) ;;
  del_local v_seed (fun f => {| v_privkey := v_privkey f; v_seed := Unbound |}) ;;
  print MsgKeyCleared.

(** The start of [transfer], before the [try]: the amount in smallest
    units, name resolution, the request notice and the keychain.  It
    yields [(amount_mist, recipient, privkey)], or returns [None] when
    the name does not resolve or the keychain gives no key. *)
Definition transfer_setup (wallet_alias recipient : string) (amount_sui : float)
  : M W (Z * pyval * string) :=
  amount_mist <- lift (amount_mist_of amount_sui) ;;
  let original_recipient := recipient in
  recipient <-
    (if PyStr.endswith (str_chars ".sui") (str_chars recipient)
     then
       print (MsgResolving recipient) ;;
       resolved <- resolve_suins recipient ;;
       if negb (Py.truthy resolved)
       then print (MsgResolveFailed recipient) ;; return_ PNone
       else print (MsgResolved resolved) ;; ret resolved
     else ret (PStr recipient)) ;;
  print (MsgRequest wallet_alias original_recipient recipient
                    amount_sui amount_mist) ;;
  r <- ask (keyring_get_password ops SERVICE_ID wallet_alias)
           (EvKeyring SERVICE_ID wallet_alias) ;;
  privkey <- lift r ;;
  set_locals (fun f =>
    {| v_privkey := match privkey with
                    | Some k => BoundStr k
                    | None => BoundNone
                    end;
       v_seed := v_seed f |}) ;;
  match privkey with
  | None => print MsgNoKey ;; return_ PNone
  | Some k =>
      if String.eqb k ""
      then print MsgNoKey ;; return_ PNone
      else ret (amount_mist, recipient, k)
  end.

(** The first part of the [try] of [transfer], up to the verdict of the
    dry run: key decoding, coin selection, transaction building, the
    simulation and its preview.  It yields [(seed, scheme, tx_bytes)]
    when the preview check passes. *)
Definition transfer_simulate (wallet_alias : string) (recipient : pyval)
           (amount_sui : float) (amount_mist : Z) (privkey : string)
  : M W (bytes * Z * pyval) :=
  info <- lift (get_address_from_key P privkey) ;;
  let '(seed, scheme, pk, sender) := info in
  set_locals (fun f => {| v_privkey := v_privkey f; v_seed := BoundBytes seed |}) ;;
  save_wallet_address wallet_alias sender ;;
  print (MsgSender sender) ;;
  (* coins *)
  coins <- get_coins sender ;;
  data <- lift (Py.getitem coins "data") ;;
  (if negb (Py.truthy data)
   then print MsgNoCoin ;; return_ PNone
   else ret tt) ;;
  data <- lift (Py.getitem coins "data") ;;
  coin <- lift (Py.getitem0 data) ;;
  coin_id <- lift (Py.getitem coin "coinObjectId") ;;
  balance <- lift (int_field coin "balance") ;;
  lift (Py.int_div_float_check balance) ;;
  print (MsgBalance balance) ;;
  (* build *)
  print MsgBuilding ;;
  tx_result <- build_transfer_tx sender recipient amount_mist coin_id 5000000 ;;
  tx_bytes <- lift (Py.getitem tx_result "txBytes") ;;
  (* dry run *)
  print MsgSimulating ;;
  dry_result <- dry_run tx_bytes ;;
  ok_ <- print_dry_run dry_result sender recipient amount_sui ;;
  (if negb (Py.truthy ok_)
   then print MsgSimCancelled ;; return_ PNone
   else ret tt) ;;
  ret (seed, scheme, tx_bytes).

(** The rest of the [try] of [transfer]: confirmation, signing and
    execution, the final report, [return result]. *)
Definition transfer_execute (auto_confirm : bool) (seed : bytes) (scheme : Z)
           (tx_bytes : pyval) : M W unit :=
  (* confirmation *)
  (if negb auto_confirm
   then
     r <- ask (console_input ops) EvInput ;;
     answer <- lift r ;;
     if negb (confirms answer)
     then print MsgUserCancelled ;; return_ PNone
     else ret tt
   else print MsgAutoConfirm) ;;
  (* sign and execute *)
  print MsgSigning ;;
  result <- sign_and_execute tx_bytes seed scheme ;;
  (* final report *)
  effects <- lift (Py.get result "effects" (PDict [])) ;;
  status <- lift (effects_status effects "status" (PStr "unknown")) ;;
  digest <- lift (Py.get result "digest" (PStr "unknown")) ;;
  gas <- lift (Py.get effects "gasUsed" (PDict [])) ;;
  computation <- lift (int_field gas "computationCost") ;;
  storage <- lift (int_field gas "storageCost") ;;
  rebate <- lift (int_field gas "storageRebate") ;;
  let gas_total := computation + storage - rebate in
  lift (Py.int_div_float_check gas_total) ;;
  print (MsgFinal status digest gas_total) ;;
  changes <- lift (Py.get result "balanceChanges" (PList [])) ;;
  items <- lift (Py.iter changes) ;;
  for_each items print_final_change ;;
  return_ result.

(** The body of the [try] of [transfer]. *)
Definition transfer_try (wallet_alias : string) (recipient : pyval)
           (amount_sui : float) (amount_mist : Z) (auto_confirm : bool)
           (privkey : string) : M W unit :=
  x <- transfer_simulate wallet_alias recipient amount_sui amount_mist privkey ;;
  let '(seed, scheme, tx_bytes) := x in
  transfer_execute auto_confirm seed scheme tx_bytes.

(** [transfer(wallet_alias, recipient, amount_sui, auto_confirm)]: the
    setup, then [try: ... finally: ...]. *)
Definition transfer (wallet_alias recipient : string) (amount_sui : float)
           (auto_confirm : bool) : M W pyval :=
  call (
    x <- transfer_setup wallet_alias recipient amount_sui ;;
    let '(amount_mist, recipient, privkey) := x in
    try_finally
      (transfer_try wallet_alias recipient amount_sui amount_mist
                    auto_confirm privkey)
      clear_secrets).

End Pipeline.

(* ===================================================================== *)
(** * A scripted world and stand-in primitives, for concrete runs *)
(* ===================================================================== *)

(** A world that answers from a script: the keychain entry, the HTTP
    responses in the order they will be requested, and the line typed at
    the prompt.  The address cache file does not exist and can be
    written. *)
Record script : Type := {
  sc_key : res (option string);
  sc_http : list (res pyval);
  sc_input : res string
}.

Definition scripted_ops : world_ops script := {|
  keyring_get_password := fun _ _ w => (sc_key w, w);
  requests_post_json := fun _ _ w =>
    match sc_http w with
    | [] => (throw (WorldError "connection refused"), w)
    | r :: rest =>
        (r, {| sc_key := sc_key w; sc_http := rest; sc_input := sc_input w |})
    end;
  console_input := fun w => (sc_input w, w);
  addr_file_exists := fun w => (false, w);
  addr_file_load := fun w => (throw (WorldError "no such file"), w);
  addr_file_store := fun _ w => (ok tt, w)
|}.

Definition pad_to (n : nat) (b : bytes) : bytes := firstn n (b ++ repeat x00 n).

Definition bytes_of_string (s : string) : bytes :=
  map byte_of_ascii (list_ascii_of_string s).

Definition string_of_bytes (b : bytes) : string :=
  string_of_list_ascii (map ascii_of_byte b).

(** Stand-ins with the sizes of the real primitives; they are not
    cryptographic. *)
Definition sized_primitives : primitives := {|
  blake2b_256 := fun m => pad_to 32 m;
  ed25519_public_key := fun seed => pad_to 32 (rev seed);
  ed25519_sign := fun seed m => pad_to 64 (m ++ seed);
  b64decode := fun s => Some (bytes_of_string s);
  b64encode := string_of_bytes
|}.

Definition initial_state {W} (w : W) : state W :=
  {| world := w; log := []; locals := {| v_privkey := Unbound; v_seed := Unbound |} |}.

(** A well-formed key: scheme 0 and the seed made of 32 bytes [0x07]. *)
Definition sample_key : string :=
  "suiprivkey1qqrswpc8qurswpc8qurswpc8qurswpc8qurswpc8qurswpc8qurswxzszc4".

Definition rpc_ok (v : pyval) : res pyval :=
  ok (PDict [("jsonrpc", PStr "2.0"); ("id", PInt 1); ("result", v)]).

Definition sample_coins : pyval :=
  PDict [("data", PList [PDict [("coinObjectId", PStr "0xc01"); ("balance", PStr "5000000000")]])].

Definition sample_tx : pyval := PDict [("txBytes", PStr "AAAC")].

Definition dry_result_with (status : pyval) : pyval :=
  PDict [("effects", PDict [("status", status);
                            ("gasUsed", PDict [("computationCost", PStr "1000000");
                                               ("storageCost", PStr "1976000");
                                               ("storageRebate", PStr "978120")])]);
         ("balanceChanges", PList [])].

Definition status_success : pyval := PDict [("status", PStr "success")].
Definition status_failure : pyval :=
  PDict [("status", PStr "failure"); ("error", PStr "insufficient gas")].

Definition executed_with (status : pyval) : pyval :=
  PDict [("digest", PStr "9xK"); ("effects", PDict [("status", status)])].

(** A run in the scripted world, from the initial state. *)
Definition run_transfer (w : script) (recipient : string) (amount_sui : float)
           (auto_confirm : bool) : ctl pyval * state script :=
  transfer scripted_ops sized_primitives "sui1" recipient amount_sui auto_confirm
           (initial_state w).

(* ===================================================================== *)
(** * Notions used to state the properties *)
(* ===================================================================== *)

(** The parameters [sign_and_execute] sends to the executor. *)
Definition execute_params (tx_bytes_b64 : pyval) (sig_b64 : string) : list pyval :=
  [tx_bytes_b64; PList [PStr sig_b64];
   PDict [("showEffects", PBool true); ("showBalanceChanges", PBool true)];
   PStr "WaitForLocalExecution"].

(** ["0x" + hex(blake2b_256(scheme_byte + pk))] *)
Definition address_of (P : primitives) (scheme : Z) (pk : bytes) : string :=
  String.append "0x"
    (string_of_list_ascii
       (PyBytes.hex (blake2b_256 P (PyBytes.byte_of_Z scheme :: pk)))).

(** A secret the bech32 path cannot turn into a scheme byte and a
    32-byte seed: the string does not decode (malformed, wrong
    checksum), the 5-to-8-bit conversion fails, or fewer than 33 bytes
    come out. *)
Definition key_undecodable (secret : string) : Prop :=
  match Bech32.bech32_decode (str_chars secret) with
  | None => True
  | Some (_, data5bit) =>
      match Bech32.convertbits data5bit 5 8 false with
      | None => True
      | Some data8bit => (List.length data8bit < 33)%nat
      end
  end.

(** A key with a corrupted checksum: the last character of [sample_key]
    changed. *)
Definition corrupted_key : string :=
  "suiprivkey1qqrswpc8qurswpc8qurswpc8qurswpc8qurswpc8qurswpc8qurswxzszc5".

(** ** The confirmation gate *)

(** Whether a JSON-RPC request calls [m]. *)
Definition method_is (m : string) (payload : pyval) : bool :=
  match payload with
  | PDict d =>
      match Py.lookup "method" d with
      | Some v => Py.eq_str v m
      | None => false
      end
  | _ => false
  end.

(** Whether a result, as [dry_run] returns it, reports the status
    ["success"]: the test [print_dry_run] makes. *)
Definition reports_success (result : pyval) : bool :=
  match reported_status result with
  | inr status => Py.eq_str status "success"
  | inl _ => false
  end.

(** Whether the answer of the node to a dry-run request is a simulation
    that succeeded: the call went through, the response carries a result
    and no error, and the result reports ["success"]. *)
Definition simulation_succeeded (r : res pyval) : bool :=
  match r with
  | inr response =>
      match rpc_result response with
      | inr result => reports_success result
      | inl _ => false
      end
  | inl _ => false
  end.

(** The states of the gate: the five of the design, then the two steps
    the gate guards, signing and broadcast. *)
Inductive gate_state : Type :=
| AwaitingSimulation
| SimulationFailed
| AwaitingConfirmation (tx : pyval)
| Confirmed (tx : pyval)
| Cancelled
| SignerInvoked (tx : pyval)
| Broadcast (r : res pyval).

(** Events the gate does not react to: everything but the dry-run and
    execute requests, the prompt, the auto-confirm notice and the entry
    into the signer. *)
Definition gate_neutral (e : event) : bool :=
  match e with
  | EvSignerEntered _ _ _ => false
  | EvInput _ => false
  | EvPrint MsgAutoConfirm => false
  | EvHttpPost _ payload _ =>
      negb (method_is "sui_dryRunTransactionBlock" payload) &&
      negb (method_is "sui_executeTransactionBlock" payload)
  | _ => true
  end.

(** The transitions of the gate for a caller's directive [auto],
    following the design: simulation failure is terminal; confirmation
    is reached only from a successful simulation, at once under the
    auto-confirm directive, else by an affirmative answer at the prompt;
    the signer is entered only from [Confirmed], with the transaction
    that was simulated; the broadcast follows the signer. *)
Inductive gate_step (auto : bool) : gate_state -> event -> gate_state -> Prop :=
| gs_neutral g e :
    gate_neutral e = true -> gate_step auto g e g
| gs_simulation_failed tx r :
    simulation_succeeded r = false ->
    gate_step auto AwaitingSimulation
      (EvHttpPost SUI_RPC (rpc_payload "sui_dryRunTransactionBlock" [tx]) r)
      SimulationFailed
| gs_simulation_ok tx r :
    simulation_succeeded r = true ->
    gate_step auto AwaitingSimulation
      (EvHttpPost SUI_RPC (rpc_payload "sui_dryRunTransactionBlock" [tx]) r)
      (AwaitingConfirmation tx)
| gs_auto_confirm tx :
    auto = true ->
    gate_step auto (AwaitingConfirmation tx) (EvPrint MsgAutoConfirm) (Confirmed tx)
| gs_affirmative tx answer :
    auto = false ->
    confirms answer = true ->
    gate_step auto (AwaitingConfirmation tx) (EvInput (inr answer)) (Confirmed tx)
| gs_not_affirmative tx r :
    auto = false ->
    (forall answer, r = inr answer -> confirms answer = false) ->
    gate_step auto (AwaitingConfirmation tx) (EvInput r) Cancelled
| gs_sign tx seed scheme :
    gate_step auto (Confirmed tx) (EvSignerEntered tx seed scheme) (SignerInvoked tx)
| gs_broadcast tx sig_b64 r :
    gate_step auto (SignerInvoked tx)
      (EvHttpPost SUI_RPC
         (rpc_payload "sui_executeTransactionBlock" (execute_params tx sig_b64)) r)
      (Broadcast r).

(** The messages that announce why [transfer] gives up. *)
Definition failure_message (m : message) : bool :=
  match m with
  | MsgResolveFailed _ | MsgNoKey | MsgNoCoin | MsgSimCancelled
  | MsgUserCancelled => true
  | _ => false
  end.

(** What an observer of a run keeps: the state of the gate and the
    failure announced, if any. *)
Record watch : Type := { gate : gate_state; announced : option message }.

Inductive watch_step (auto : bool) : watch -> event -> watch -> Prop :=
| ws_gate g g' a e :
    gate_step auto g e g' ->
    (forall m, e = EvPrint m -> failure_message m = false) ->
    watch_step auto {| gate := g; announced := a |} e
               {| gate := g'; announced := a |}
| ws_announce g a m :
    failure_message m = true ->
    watch_step auto {| gate := g; announced := a |} (EvPrint m)
               {| gate := g; announced := Some m |}.

(** The observer before the first event. *)
Definition watch_start : watch :=
  {| gate := AwaitingSimulation; announced := None |}.

(** [accepted step g0 l g]: an observer with transitions [step], in
    [g0] before the oldest event of the log [l] (newest event first), is
    in [g] after the newest. *)
Inductive accepted {G : Type} (step : G -> event -> G -> Prop) (g0 : G)
  : list event -> G -> Prop :=
| accepted_nil : accepted step g0 [] g0
| accepted_cons l g e g' :
    accepted step g0 l g -> step g e g' -> accepted step g0 (e :: l) g'.

(** The observer of the gate and of the announcements, from the start
    of a run. *)
Definition watched (auto : bool) : list event -> watch -> Prop :=
  accepted (watch_step auto) watch_start.

(** Events neither the gate nor the announcement reacts to. *)
Definition silent (e : event) : bool :=
  gate_neutral e &&
  match e with
  | EvPrint m => negb (failure_message m)
  | _ => true
  end.

Definition is_signer_entry (e : event) : bool :=
  match e with
  | EvSignerEntered _ _ _ => true
  | _ => false
  end.

Definition is_request (m : string) (e : event) : bool :=
  match e with
  | EvHttpPost _ payload _ => method_is m payload
  | _ => false
  end.

Definition is_prompt (e : event) : bool :=
  match e with
  | EvInput _ => true
  | _ => false
  end.

(** How [transfer] may end, given what the observer saw: with [None]
    after announcing a failure, before any simulation, after a failed
    one or after a refusal; with the result of the execute call once the
    transaction was broadcast; or with an exception. *)
Definition fits (c : ctl pyval) (w : watch) : Prop :=
  match c with
  | Return _ => False
  | Raise _ =>
      match gate w with
      | Confirmed _ => False
      | _ => True
      end
  | Next v =>
      match gate w with
      | AwaitingSimulation =>
          v = PNone /\
          (announced w = Some MsgNoKey \/ announced w = Some MsgNoCoin \/
           exists name, announced w = Some (MsgResolveFailed name))
      | SimulationFailed => v = PNone /\ announced w = Some MsgSimCancelled
      | Cancelled => v = PNone /\ announced w = Some MsgUserCancelled
      | Broadcast r =>
          announced w = None /\
          exists response d,
            r = inr response /\ rpc_result response = inr v /\ v = PDict d
      | _ => False
      end
  end.

(** The dry-run request for [tx], with the answer [r] of the node. *)
Definition dry_run_request (tx : pyval) (r : res pyval) : event :=
  EvHttpPost SUI_RPC (rpc_payload "sui_dryRunTransactionBlock" [tx]) r.

(** [simulated tx l]: the log [l] holds a dry run of [tx] that succeeded. *)
Definition simulated (tx : pyval) (l : list event) : Prop :=
  exists p1 r p2,
    l = p1 ++ dry_run_request tx r :: p2 /\ simulation_succeeded r = true.

(** The messages by which [transfer] announces a failure. *)
Definition failure_announcement (m : message) : Prop :=
  m = MsgNoKey \/ m = MsgNoCoin \/ m = MsgSimCancelled \/ m = MsgUserCancelled \/
  exists name, m = MsgResolveFailed name.

(** What [print_dry_run] reads from the result before it settles on
    [return False]: the effects, the status, the three gas costs and the
    error text.  A read raises when the object it is applied to has not
    the expected shape. *)
Definition preview_reads (result : pyval) : res unit :=
  (let? effects := Py.get result "effects" (PDict []) in
   let? status := effects_status effects "status" (PStr "unknown") in
   let? gas := Py.get effects "gasUsed" (PDict []) in
   let? computation := int_field gas "computationCost" in
   let? storage := int_field gas "storageCost" in
   let? rebate := int_field gas "storageRebate" in
   let? failure := effects_status effects "error" (PStr "") in
   ok tt)%res.

(** An observer that watches nothing and accepts every log. *)
Definition any_step (g : unit) (e : event) (g' : unit) : Prop := True.

(** Scripted worlds for the scenarios of the design. *)
Definition world_with (key : res (option string)) (http : list (res pyval))
           (answer : string) : script :=
  {| sc_key := key; sc_http := http; sc_input := ok answer |}.

Definition world_success : script :=
  world_with (ok (Some sample_key))
    [rpc_ok sample_coins; rpc_ok sample_tx;
     rpc_ok (dry_result_with status_success);
     rpc_ok (executed_with status_success)] "y".

Definition world_simulation_failed : script :=
  world_with (ok (Some sample_key))
    [rpc_ok sample_coins; rpc_ok sample_tx;
     rpc_ok (dry_result_with status_failure);
     rpc_ok (executed_with status_success)] "y".

Definition world_no_key : script :=
  world_with (ok None) [] "y".

Definition world_no_coins : script :=
  world_with (ok (Some sample_key)) [rpc_ok (PDict [("data", PList [])])] "y".

Definition world_refusal : script :=
  world_with (ok (Some sample_key))
    [rpc_ok sample_coins; rpc_ok sample_tx;
     rpc_ok (dry_result_with status_success);
     rpc_ok (executed_with status_success)] "n".

Definition world_execution_failed : script :=
  world_with (ok (Some sample_key))
    [rpc_ok sample_coins; rpc_ok sample_tx;
     rpc_ok (dry_result_with status_success);
     rpc_ok (executed_with status_failure)] "y".

Definition world_bad_key : script :=
  world_with (ok (Some corrupted_key)) [] "y".

(** The node answers up to the preview and then refuses the connection
    of the execute request. *)
Definition world_broadcast_refused : script :=
  world_with (ok (Some sample_key))
    [rpc_ok sample_coins; rpc_ok sample_tx;
     rpc_ok (dry_result_with status_success)] "y".

(** The amount 0.01. *)
Definition one_cent : float := PyFloat.of_decimal 1 2.

(** A dry-run result whose status is a string where an object is
    expected. *)
Definition misshapen_result : pyval :=
  PDict [("effects", PDict [("status", PStr "failure")])].

(** ** Encodings of a key *)

(** The raw hex text of a seed: [seed.hex()]. *)
Definition hex_secret (seed : bytes) : string :=
  string_of_list_ascii (PyBytes.hex seed).

(** The bech32 text of a key: the scheme byte and the seed, regrouped in
    5-bit values with padding, under the prefix ["suiprivkey"]. *)
Definition key_groups (scheme : Z) (seed : bytes) : list Z :=
  match Bech32.convertbits (scheme :: map PyBytes.Z_of_byte seed) 8 5 true with
  | Some groups => groups
  | None => []
  end.

Definition bech32_secret (scheme : Z) (seed : bytes) : string :=
  string_of_list_ascii
    (Bech32.bech32_encode (str_chars "suiprivkey") (key_groups scheme seed)).

(** The number a list of [w]-bit digits writes, most significant digit
    first. *)
Definition be_value (w : Z) (l : list Z) : Z :=
  fold_left (fun a d => a * 2 ^ w + d) l 0.

(** The [j]-th of the [w]-bit digits of the [n]-bit number [x], counted
    from the most significant. *)
Definition digit_at (w x n : Z) (j : nat) : Z :=
  (x / 2 ^ (n - w * (Z.of_nat j + 1))) mod 2 ^ w.

(** The first [k] of the [w]-bit digits of the [n]-bit number [x]. *)
Definition digits (w x n : Z) (k : nat) : list Z :=
  map (digit_at w x n) (seq 0 k).

(** A generator of [bech32_polymod], taken when the bit [b] of [top] is
    set. *)
Definition gen_if (b : bool) (g : Z) : Z := if b then g else 0.

(** What [bech32_decode] needs of the character that writes the value
    [d]: printable, lowercase, not the separator, found at [d]. *)
Definition data_char (c : ascii) (d : Z) : Prop :=
  ((code c <? 33) || (126 <? code c)) = false /\
  PyStr.lower_char c = c /\
  Ascii.eqb c "1" = false /\
  Bech32.charset_find c = d.

(** What [bytes.fromhex] and the prefix tests need of the character that
    writes the hexadecimal digit [v]. *)
Definition hex_char (c : ascii) (v : Z) : Prop :=
  Ascii.eqb "s" c = false /\
  Ascii.eqb "x" c = false /\
  PyBytes.is_space c = false /\
  PyBytes.digit_value c = Some v.

(** ** Observing a run *)

Section Observers.

Context {W G : Type}.
Variable step : G -> event -> G -> Prop.
Variable g0 : G.

(** [observes w m R]: run from a state whose log leaves the observer in
    [w], [m] ends in a way and leaves the observer in a state related by
    [R]. *)
Definition observes {A} (w : G) (m : M W A) (R : ctl A -> G -> Prop) : Prop :=
  forall s, accepted step g0 (log s) w ->
            exists w', accepted step g0 (log (snd (m s))) w' /\ R (fst (m s)) w'.

(** [quietly m]: [m] only adds silent events to the log. *)
Definition quietly {A} (m : M W A) : Prop :=
  forall s, exists new,
    log (snd (m s)) = new ++ log s /\ forallb silent new = true.

(** [silently m]: moreover [m] does not execute a [return]. *)
Definition silently {A} (m : M W A) : Prop :=
  quietly m /\ forall s v, fst (m s) <> Return v.

End Observers.

(** How a part of the body of [transfer] may end, seen through the
    function call that encloses it. *)
Definition fits_body {A} (c : ctl A) (w : watch) : Prop :=
  match c with
  | Next _ => fits (Next PNone) w
  | Return v => fits (Next v) w
  | Raise e => fits (Raise e) w
  end.

(** What the state of the gate tells about the log that led to it. *)
Definition gate_history (g : gate_state) (l : list event) : Prop :=
  match g with
  | AwaitingSimulation => forallb gate_neutral l = true
  | SimulationFailed | Cancelled => True
  | AwaitingConfirmation tx | Confirmed tx => simulated tx l
  | SignerInvoked tx =>
      simulated tx l /\ exists seed scheme, In (EvSignerEntered tx seed scheme) l
  | Broadcast r =>
      (exists tx seed scheme, In (EvSignerEntered tx seed scheme) l) /\
      exists tx sig_b64,
        In (EvHttpPost SUI_RPC
              (rpc_payload "sui_executeTransactionBlock" (execute_params tx sig_b64))
              r) l
  end.

(** ** Notions for the properties of the single functions *)

(** How [rpc_call] ends when the transport answers [r]. *)
Definition rpc_outcome (r : res pyval) : ctl pyval :=
  match r with
  | inl e => Raise e
  | inr response =>
      match rpc_result response with
      | inl e => Raise e
      | inr v => Next v
      end
  end.

(** What [resolve_suins] yields when the transport answers [r]. *)
Definition resolved_value (r : res pyval) : pyval :=
  match rpc_outcome r with
  | Next v => v
  | _ => PNone
  end.

(** What the keychain answered, as [transfer] tests it with
    [if not privkey]: no usable key. *)
Definition no_key (r : res (option string)) : bool :=
  match r with
  | inr (Some k) => String.eqb k ""
  | _ => true
  end.

(** How [transfer] ends when the keychain gives no usable key. *)
Definition no_key_outcome (r : res (option string)) : ctl pyval :=
  match r with
  | inl e => Raise e
  | inr _ => Next PNone
  end.

(** The events [transfer] logs after the notice of the request when the
    keychain gives no usable key (newest first). *)
Definition no_key_events (service wallet_alias : string) (r : res (option string))
  : list event :=
  match r with
  | inl _ => [EvKeyring service wallet_alias r]
  | inr _ => [EvPrint MsgNoKey; EvKeyring service wallet_alias r]
  end.

(** The binding of [privkey] once the keychain answered. *)
Definition privkey_binding (r : res (option string)) : binding :=
  match r with
  | inr (Some k) => BoundStr k
  | inr None => BoundNone
  | inl _ => Unbound
  end.

(** What the log tells, at each state of the gate of a run without the
    auto-confirm directive, about the prompt: past the confirmation an
    affirmative answer was read; before it, and after a refusal or a
    failed simulation, neither the signer nor the executor was called. *)
Definition prompt_history (g : gate_state) (l : list event) : Prop :=
  match g with
  | Confirmed _ =>
      (exists answer, In (EvInput (inr answer)) l /\ confirms answer = true) /\
      forall e, In e l ->
                is_signer_entry e = false /\
                is_request "sui_executeTransactionBlock" e = false
  | SignerInvoked _ | Broadcast _ =>
      exists answer, In (EvInput (inr answer)) l /\ confirms answer = true
  | _ =>
      forall e, In e l ->
                is_signer_entry e = false /\
                is_request "sui_executeTransactionBlock" e = false
  end.

(** A world with an address cache file: the keychain entry, the HTTP
    responses, the line typed at the prompt, and the file, absent or
    holding what loading it gives. *)
Record desk : Type := {
  dk_key : res (option string);
  dk_http : list (res pyval);
  dk_input : res string;
  dk_file : option (res pyval)
}.

Definition desk_ops : world_ops desk := {|
  keyring_get_password := fun _ _ w => (dk_key w, w);
  requests_post_json := fun _ _ w =>
    match dk_http w with
    | [] => (throw (WorldError "connection refused"), w)
    | r :: rest =>
        (r, {| dk_key := dk_key w; dk_http := rest; dk_input := dk_input w;
               dk_file := dk_file w |})
    end;
  console_input := fun w => (dk_input w, w);
  addr_file_exists := fun w =>
    (match dk_file w with Some _ => true | None => false end, w);
  addr_file_load := fun w =>
    (match dk_file w with
     | Some r => r
     | None => throw (WorldError "no such file")
     end, w);
  addr_file_store := fun content w =>
    (ok tt, {| dk_key := dk_key w; dk_http := dk_http w; dk_input := dk_input w;
               dk_file := Some (ok content) |})
|}.

(** A desk with the key [sample_key], the four answers of a successful
    transfer, the answer ["y"], and the given file. *)
Definition desk_with (file : option (res pyval)) : desk :=
  {| dk_key := ok (Some sample_key);
     dk_http := [rpc_ok sample_coins; rpc_ok sample_tx;
                 rpc_ok (dry_result_with status_success);
                 rpc_ok (executed_with status_success)];
     dk_input := ok "y";
     dk_file := file |}.

(** The exception by which [save_wallet_address] ends when the cache
    file loads as [r] and [r] is not a dict. *)
Definition unreadable_cache_error (r : res pyval) : exn :=
  match r with
  | inl e => e
  | inr _ => TypeError
  end.

Definition is_dict (r : res pyval) : bool :=
  match r with
  | inr (PDict _) => true
  | _ => false
  end.

Definition is_http (e : event) : bool :=
  match e with
  | EvHttpPost _ _ _ => true
  | _ => false
  end.

Definition is_store (e : event) : bool :=
  match e with
  | EvFileStore _ _ => true
  | _ => false
  end.

(* ===================================================================== *)
(** * The earlier script, [MiaoWallet/sui_transfer.py] *)
(* ===================================================================== *)

(** The earlier [transfer] shares [get_address_from_key], [rpc_call],
    [get_coins], [build_transfer_tx] and [sign_and_execute] with the
    current script, word for word up to comments and an unused local of
    [build_transfer_tx].  Its notices are those of the current script,
    some worded differently; the same constructors stand for them. *)
Section Legacy.

Local Open Scope monad_scope.

Context {W : Type}.
Variable ops : world_ops W.
Variable P : primitives.

(** The start of the earlier [transfer], before the [try]. *)
Definition legacy_setup (wallet_alias recipient : string) (amount_sui : float)
  : M W (Z * string) :=
  amount_mist <- lift (amount_mist_of amount_sui) ;;
  print (MsgRequest wallet_alias recipient (PStr recipient)
                    amount_sui amount_mist) ;;
  r <- ask (keyring_get_password ops SERVICE_ID wallet_alias)
           (EvKeyring SERVICE_ID wallet_alias) ;;
  privkey <- lift r ;;
  set_locals (fun f =>
    {| v_privkey := match privkey with
                    | Some k => BoundStr k
                    | None => BoundNone
                    end;
       v_seed := v_seed f |}) ;;
  match privkey with
  | None => print MsgNoKey ;; return_ PNone
  | Some k =>
      if String.eqb k ""
      then print MsgNoKey ;; return_ PNone
      else ret (amount_mist, k)
  end.

(** The body of the [try] of the earlier [transfer]. *)
Definition legacy_try (recipient : string) (amount_mist : Z) (privkey : string)
  : M W unit :=
  info <- lift (get_address_from_key P privkey) ;;
  let '(seed, scheme, pk, sender) := info in
  set_locals (fun f => {| v_privkey := v_privkey f; v_seed := BoundBytes seed |}) ;;
  print (MsgSender sender) ;;
  (* coins *)
  coins <- get_coins ops sender ;;
  data <- lift (Py.getitem coins "data") ;;
  (if negb (Py.truthy data)
   then print MsgNoCoin ;; return_ PNone
   else ret tt) ;;
  data <- lift (Py.getitem coins "data") ;;
  coin <- lift (Py.getitem0 data) ;;
  coin_id <- lift (Py.getitem coin "coinObjectId") ;;
  (* build *)
  print MsgBuilding ;;
  tx_result <- build_transfer_tx ops sender (PStr recipient) amount_mist coin_id
                                 5000000 ;;
  tx_bytes <- lift (Py.getitem tx_result "txBytes") ;;
  (* sign and execute *)
  print MsgSigning ;;
  result <- sign_and_execute ops P tx_bytes seed scheme ;;
  (* report *)
  effects <- lift (Py.get result "effects" (PDict [])) ;;
  status <- lift (effects_status effects "status" (PStr "unknown")) ;;
  digest <- lift (Py.get result "digest" (PStr "unknown")) ;;
  gas <- lift (Py.get effects "gasUsed" (PDict [])) ;;
  computation <- lift (int_field gas "computationCost") ;;
  storage <- lift (int_field gas "storageCost") ;;
  rebate <- lift (int_field gas "storageRebate") ;;
  let gas_total := computation + storage - rebate in
  lift (Py.int_div_float_check gas_total) ;;
  print (MsgFinal status digest gas_total) ;;
  changes <- lift (Py.get result "balanceChanges" (PList [])) ;;
  items <- lift (Py.iter changes) ;;
  for_each items print_final_change ;;
  return_ result.

(** [transfer(wallet_alias, recipient, amount_sui)] of the earlier
    script. *)
Definition legacy_transfer (wallet_alias recipient : string) (amount_sui : float)
  : M W pyval :=
  call (
    x <- legacy_setup wallet_alias recipient amount_sui ;;
    let '(amount_mist, privkey) := x in
    try_finally (legacy_try recipient amount_mist privkey) clear_secrets).

End Legacy.

(** [logs_only allowed m]: [m] only adds events to the log, and all of
    them are [allowed]. *)
Definition logs_only {W A} (allowed : event -> bool) (m : M W A) : Prop :=
  forall s, exists new,
    log (snd (m s)) = new ++ log s /\ forallb allowed new = true.

(** Events that are neither a dry-run request nor a read from the
    console. *)
Definition unprompted (e : event) : bool :=
  negb (is_request "sui_dryRunTransactionBlock" e) && negb (is_prompt e).

(** The parameters [get_coins] and [build_transfer_tx] send. *)
Definition coins_params (address : string) : list pyval :=
  [PStr address; PStr "0x2::sui::SUI"; PNone; PInt 10].

Definition pay_params (sender : string) (recipient : pyval) (amount : Z)
           (coin_id : pyval) (gas_budget : Z) : list pyval :=
  [PStr sender; PList [coin_id]; PList [recipient];
   PList [PStr (PyStr.of_int amount)]; PStr (PyStr.of_int gas_budget)].

(** The three answers of a transfer without a dry run. *)
Definition world_legacy : script :=
  world_with (ok (Some sample_key))
    [rpc_ok sample_coins; rpc_ok sample_tx; rpc_ok (executed_with status_success)]
    "n".

(* ===================================================================== *)
(** * The preview-only path and the command line of [sui_transfer.py] *)
(* ===================================================================== *)

(** [print_dry_run] for a sender that is any object: [dry_run_only] takes
    the sender from a JSON file, where it need not be a string. *)
Definition label_of_any (addr sender recipient : pyval) : res string :=
  if Py.eqb addr sender then ok "sender"
  else if Py.eqb addr recipient then ok "recipient"
  else Py.abbreviate 10 addr.

Section PreviewOfAny.

Local Open Scope monad_scope.

Context {W : Type}.

Definition print_balance_change_any (sender recipient bc : pyval) : M W unit :=
  owner <- lift (Py.get bc "owner" (PDict [])) ;;
  addr <- lift (Py.get owner "AddressOwner" (PStr "?")) ;;
  amt <- lift (int_field bc "amount") ;;
  coin_type <- lift (Py.get bc "coinType" (PStr "")) ;;
  coin_short <- lift (coin_short_of coin_type) ;;
  label <- lift (label_of_any addr sender recipient) ;;
  lift (Py.int_div_float_check amt) ;;
  print (MsgBalanceChange label amt coin_short).

Definition print_dry_run_any (result sender recipient : pyval)
           (amount_sui : float) : M W pyval :=
  call (
    effects <- lift (Py.get result "effects" (PDict [])) ;;
    status <- lift (effects_status effects "status" (PStr "unknown")) ;;
    gas <- lift (Py.get effects "gasUsed" (PDict [])) ;;
    computation <- lift (int_field gas "computationCost") ;;
    storage <- lift (int_field gas "storageCost") ;;
    rebate <- lift (int_field gas "storageRebate") ;;
    let gas_total := computation + storage - rebate in
    print MsgPreviewHeader ;;
    (if Py.eq_str status "success"
     then print MsgSimOk
     else
       failure <- lift (effects_status effects "error" (PStr "")) ;;
       print (MsgSimFailed failure) ;;
       return_ (PBool false)) ;;
    balance_changes <- lift (Py.get result "balanceChanges" (PList [])) ;;
    (if Py.truthy balance_changes
     then
       print MsgBalanceChangesHeader ;;
       items <- lift (Py.iter balance_changes) ;;
       for_each items (print_balance_change_any sender recipient)
     else ret tt) ;;
    lift (Py.int_div_float_check computation) ;;
    lift (Py.int_div_float_check storage) ;;
    lift (Py.int_div_float_check rebate) ;;
    lift (Py.int_div_float_check gas_total) ;;
    print (MsgGasEstimate computation storage rebate gas_total) ;;
    print (MsgSummary amount_sui gas_total) ;;
    print MsgPreviewFooter ;;
    return_ (PBool true)).

End PreviewOfAny.

(** What [dry_run_only] and the command line print that [transfer] does
    not, one constructor per run of consecutive [print] statements. *)
Inductive preview_message : Type :=
| MsgNoAddress (wallet_alias : string)
| MsgPreviewRequest (wallet_alias : string) (sender : pyval)
                    (original_recipient : string) (recipient : pyval)
                    (amount_sui : float) (amount_mist : Z)
| MsgConfirmHint (wallet_alias original_recipient : string) (amount_sui : float)
| MsgUsage.

(** What a run of the command line does: the events of the pipeline, the
    further notices, and the child process that asks [wallet_panel.py]
    for its list. *)
Inductive cli_event : Type :=
| CliRun (e : event)
| CliPrint (m : preview_message)
| CliPanelList (r : res (Z * string)).

(** The further collaborators of the command line. *)
Record cli_ops (W : Type) : Type := {
  (** [sp.run([sys.executable, "wallet_panel.py", "list", "--json"], ...)]:
      the return code and the captured standard output *)
  panel_list_run : W -> res (Z * string) * W;
  (** [json.loads(text)] *)
  json_loads : string -> res pyval;
  (** [float(text)] *)
  float_of_text : string -> res float
}.

Arguments panel_list_run {W}.
Arguments json_loads {W}.
Arguments float_of_text {W}.

Record cli_state (W : Type) : Type := {
  cli_world : W;
  cli_log : list cli_event
}.

Arguments cli_world {W}.
Arguments cli_log {W}.

(** How a statement ends on the command line: as in the pipeline, or
    with [sys.exit(code)], which no [except Exception] catches. *)
Inductive way (A : Type) : Type :=
| Falls (a : A)
| Returns (v : pyval)
| Raises (e : exn)
| Exits (code : Z).

Arguments Falls {A}.
Arguments Returns {A}.
Arguments Raises {A}.
Arguments Exits {A}.

Definition way_of_ctl {A} (c : ctl A) : way A :=
  match c with
  | Next a => Falls a
  | Return v => Returns v
  | Raise e => Raises e
  end.

Section Cli.

Context {W : Type}.

Definition D (A : Type) : Type := cli_state W -> way A * cli_state W.

Definition ret_d {A} (a : A) : D A := fun s => (Falls a, s).

Definition bind_d {A B} (m : D A) (k : A -> D B) : D B :=
  fun s =>
    match m s with
    | (Falls a, s') => k a s'
    | (Returns v, s') => (Returns v, s')
    | (Raises e, s') => (Raises e, s')
    | (Exits code, s') => (Exits code, s')
    end.

Definition return_d {A} (v : pyval) : D A := fun s => (Returns v, s).

(** [sys.exit(code)] *)
Definition exit_d {A} (code : Z) : D A := fun s => (Exits code, s).

Definition lift_d {A} (r : res A) : D A :=
  fun s => (match r with inl e => Raises e | inr a => Falls a end, s).

Definition print_d (m : preview_message) : D unit :=
  fun s => (Falls tt, {| cli_world := cli_world s;
                         cli_log := CliPrint m :: cli_log s |}).

Definition ask_d {A} (op : W -> A * W) (ev : A -> cli_event) : D A :=
  fun s =>
    let (a, w') := op (cli_world s) in
    (Falls a, {| cli_world := w'; cli_log := ev a :: cli_log s |}).

(** A piece of the pipeline run from the command line: it starts with
    the locals of [transfer] unbound, and its events are appended to the
    log. *)
Definition run_pipeline {A} (m : M W A) : D A :=
  fun s =>
    let (c, s') := m (initial_state (cli_world s)) in
    (way_of_ctl c,
     {| cli_world := world s'; cli_log := map CliRun (log s') ++ cli_log s |}).

Definition call_d (body : D unit) : D pyval :=
  fun s =>
    match body s with
    | (Falls _, s') => (Falls PNone, s')
    | (Returns v, s') => (Falls v, s')
    | (Raises e, s') => (Raises e, s')
    | (Exits code, s') => (Exits code, s')
    end.

(** [try: body except Exception: handler] *)
Definition try_except_d {A} (body : D A) (handler : exn -> D A) : D A :=
  fun s =>
    match body s with
    | (Raises e, s') => handler e s'
    | r => r
    end.

End Cli.

Arguments D W A : clear implicits.

Declare Scope cli_scope.
Delimit Scope cli_scope with cli.
Notation "x <- m ;; k" := (bind_d m (fun x => k))
  (at level 61, m at next level, right associativity) : cli_scope.
Notation "m ;; k" := (bind_d m (fun _ => k))
  (at level 61, right associativity) : cli_scope.

Fixpoint for_each_d {W A} (items : list A) (body : A -> D W unit) : D W unit :=
  match items with
  | [] => ret_d tt
  | x :: rest => bind_d (body x) (fun _ => for_each_d rest body)
  end.

Section CommandLine.

Local Open Scope cli_scope.

Context {W : Type}.
Variable ops : world_ops W.
Variable xops : cli_ops W.
Variable P : primitives.

(** The body of the [try] of [get_wallet_address]: the list of
    [wallet_panel.py], searched for the alias. *)
Definition panel_lookup (wallet_alias : string) : D W unit :=
  r <- ask_d (panel_list_run xops) CliPanelList ;;
  result <- lift_d r ;;
  let '(returncode, stdout) := result in
  if returncode =? 0
  then
    wallets <- lift_d (json_loads xops stdout) ;;
    items <- lift_d (Py.iter wallets) ;;
    for_each_d items (fun w =>
      a <- lift_d (Py.get w "alias" PNone) ;;
      if Py.eqb a (PStr wallet_alias)
      then address <- lift_d (Py.getitem w "address") ;; return_d address
      else ret_d tt)
  else ret_d tt.

(** The rest of [get_wallet_address]: the address cache file. *)
Definition cache_lookup (wallet_alias : string) : D W unit :=
  present <- run_pipeline (ask (addr_file_exists ops) EvFileExists) ;;
  if present : bool
  then
    r <- run_pipeline (ask (addr_file_load ops) EvFileLoad) ;;
    addrs <- lift_d r ;;
    has <- lift_d (Py.contains_str wallet_alias addrs) ;;
    if has : bool
    then address <- lift_d (Py.getitem addrs wallet_alias) ;; return_d address
    else ret_d tt
  else ret_d tt.

(** [get_wallet_address(wallet_alias)] *)
Definition get_wallet_address (wallet_alias : string) : D W pyval :=
  call_d (
    try_except_d (panel_lookup wallet_alias) (fun _ => ret_d tt) ;;
    cache_lookup wallet_alias ;;
    return_d PNone).

(** [dry_run_only(wallet_alias, recipient, amount_sui)] *)
Definition dry_run_only (wallet_alias recipient : string) (amount_sui : float)
  : D W pyval :=
  call_d (
    amount_mist <- lift_d (amount_mist_of amount_sui) ;;
    let original_recipient := recipient in
    recipient <-
      (if PyStr.endswith (str_chars ".sui") (str_chars recipient)
       then
         run_pipeline (print (MsgResolving recipient)) ;;
         resolved <- run_pipeline (resolve_suins ops recipient) ;;
         if negb (Py.truthy resolved)
         then run_pipeline (print (MsgResolveFailed recipient)) ;; exit_d 1
         else run_pipeline (print (MsgResolved resolved)) ;; ret_d resolved
       else ret_d (PStr recipient)) ;;
    sender <- get_wallet_address wallet_alias ;;
    (if negb (Py.truthy sender)
     then print_d (MsgNoAddress wallet_alias) ;; exit_d 1
     else ret_d tt) ;;
    print_d (MsgPreviewRequest wallet_alias sender original_recipient recipient
                               amount_sui amount_mist) ;;
    (* coins *)
    coins <- run_pipeline
               (rpc_call ops "suix_getCoins"
                  [sender; PStr "0x2::sui::SUI"; PNone; PInt 10]) ;;
    data <- lift_d (Py.getitem coins "data") ;;
    (if negb (Py.truthy data)
     then run_pipeline (print MsgNoCoin) ;; exit_d 1
     else ret_d tt) ;;
    data <- lift_d (Py.getitem coins "data") ;;
    coin <- lift_d (Py.getitem0 data) ;;
    coin_id <- lift_d (Py.getitem coin "coinObjectId") ;;
    balance <- lift_d (int_field coin "balance") ;;
    lift_d (Py.int_div_float_check balance) ;;
    run_pipeline (print (MsgBalance balance)) ;;
    (* build *)
    run_pipeline (print MsgBuilding) ;;
    tx_result <- run_pipeline
                   (rpc_call ops "unsafe_paySui"
                      [sender; PList [coin_id]; PList [recipient];
                       PList [PStr (PyStr.of_int amount_mist)];
                       PStr (PyStr.of_int 5000000)]) ;;
    tx_bytes <- lift_d (Py.getitem tx_result "txBytes") ;;
    (* dry run *)
    run_pipeline (print MsgSimulating) ;;
    dry_result <- run_pipeline (dry_run ops tx_bytes) ;;
    run_pipeline (print_dry_run_any dry_result sender recipient amount_sui) ;;
    print_d (MsgConfirmHint wallet_alias original_recipient amount_sui)).

(** [a.startswith("--")] *)
Definition is_flag (a : string) : bool :=
  PyStr.startswith (str_chars "--") (str_chars a).

(** [flag in flags] *)
Definition has_flag (flag : string) (flags : list string) : bool :=
  existsb (String.eqb flag) flags.

(** The block under [if __name__ == "__main__"], on [sys.argv[1:]]. *)
Definition cli_main (argv : list string) : D W unit :=
  let flags := filter is_flag argv in
  let args := filter (fun a => negb (is_flag a)) argv in
  let auto := has_flag "--yes" flags in
  let dry_only := has_flag "--dry-run" flags in
  match args with
  | [a0; a1; a2] =>
      if dry_only
      then
        amount <- lift_d (float_of_text xops a2) ;;
        dry_run_only a0 a1 amount ;;
        ret_d tt
      else
        amount <- lift_d (float_of_text xops a2) ;;
        run_pipeline (transfer ops P a0 a1 amount auto) ;;
        ret_d tt
  | _ => print_d MsgUsage ;; exit_d 1
  end.

End CommandLine.

(** [cli_logs_only allowed m]: [m] only adds events to the log of the
    command line, all of them [allowed]. *)
Definition cli_logs_only {W A} (allowed : cli_event -> bool) (m : D W A) : Prop :=
  forall s, exists new,
    cli_log (snd (m s)) = new ++ cli_log s /\ forallb allowed new = true.

(** Events by which a run reads only: no access to the keychain, no
    read from the console, no write to the cache file, no entry into
    the signer, no execute request. *)
Definition read_only (e : event) : bool :=
  match e with
  | EvKeyring _ _ _ => false
  | EvInput _ => false
  | EvFileStore _ _ => false
  | EvSignerEntered _ _ _ => false
  | EvHttpPost _ payload _ => negb (method_is "sui_executeTransactionBlock" payload)
  | _ => true
  end.

Definition cli_read_only (e : cli_event) : bool :=
  match e with
  | CliRun e' => read_only e'
  | _ => true
  end.

Definition cli_start {W} (w : W) : cli_state W :=
  {| cli_world := w; cli_log := [] |}.

(** Stand-ins for the further collaborators: the child process fails
    with code 2, as [argparse] does on an argument it does not know. *)
Definition scripted_cli : cli_ops script := {|
  panel_list_run := fun w => (ok (2, ""), w);
  json_loads := fun _ => throw ValueError;
  float_of_text := fun _ => ok one_cent
|}.

Definition desk_cli : cli_ops desk := {|
  panel_list_run := fun w => (ok (2, ""), w);
  json_loads := fun _ => throw ValueError;
  float_of_text := fun _ => ok one_cent
|}.

Definition is_keyring (e : event) : bool :=
  match e with
  | EvKeyring _ _ _ => true
  | _ => false
  end.

Definition is_cli_http (e : cli_event) : bool :=
  match e with
  | CliRun e' => is_http e'
  | _ => false
  end.

(** The child process did not give a list: it could not be run, or it
    ended with a code other than 0. *)
Definition listing_failed (r : res (Z * string)) : bool :=
  match r with
  | inl _ => true
  | inr (returncode, _) => negb (returncode =? 0)
  end.

(** [w.get("alias") == wallet_alias], the test of the loop of
    [get_wallet_address] on an entry of the list. *)
Definition names_alias (wallet_alias : string) (w : pyval) : res bool :=
  (let? a := Py.get w "alias" PNone in ok (Py.eqb a (PStr wallet_alias)))%res.

(** A desk for a preview: the cache file knows the alias ["sui1"], and
    the node answers the three requests of a preview. *)
Definition desk_preview : desk :=
  {| dk_key := ok (Some sample_key);
     dk_http := [rpc_ok sample_coins; rpc_ok sample_tx;
                 rpc_ok (dry_result_with status_success)];
     dk_input := ok "y";
     dk_file := Some (ok (PDict [("sui1", PStr "0xabc")])) |}.

(** A child process that lists two wallets. *)
Definition listed_wallets : pyval :=
  PList [PDict [("alias", PStr "eth1"); ("address", PStr "0x111")];
         PDict [("alias", PStr "sui1"); ("address", PStr "0xabc")]].

Definition listing_cli : cli_ops script := {|
  panel_list_run := fun w => (ok (0, "[...]"), w);
  json_loads := fun _ => ok listed_wallets;
  float_of_text := fun _ => ok one_cent
|}.

(* ===================================================================== *)
(** * [wallet_panel.py]: the registry and the commands that change it *)
(* ===================================================================== *)

Definition REGISTRY_KEY : string := "__wallet_registry__".

(** [CHAIN_TYPES]: for each choice the [name] and the [id] of the chain.
    The further keys of entry ["4"] are read nowhere. *)
Definition CHAIN_TYPES : list (string * (string * string)) :=
  [("1", ("Sui", "sui")); ("2", ("Solana", "solana")); ("3", ("EVM", "evm"));
   ("4", ("Other", "other"))].

Fixpoint chain_lookup (key : string) (l : list (string * (string * string)))
  : option (string * string) :=
  match l with
  | [] => None
  | (k, ct) :: r => if String.eqb key k then Some ct else chain_lookup key r
  end.

(** [CHAIN_TYPES.get(key, CHAIN_TYPES["4"])] *)
Definition chain_type (key : string) : string * string :=
  match chain_lookup key CHAIN_TYPES with
  | Some ct => ct
  | None => ("Other", "other")
  end.

(** The name of a chain as [get_chain_name] gives it: the [name] of the
    entry, or the translated text [t("chain_other")]. *)
Inductive chain_label : Type :=
| ChainName (name : string)
| ChainOther.

(** [get_chain_name(key)] *)
Definition get_chain_name (key : string) : chain_label :=
  let ct := chain_type key in
  if String.eqb (snd ct) "other" then ChainOther else ChainName (fst ct).

(** What [store_fail] and [remove_fail] are given as [err]: the error
    output of the child process, or [str(e)] of an exception. *)
Inductive failure_text : Type :=
| ChildStderr (stderr : string)
| ExceptionText (e : exn).

(** The lines the commands print, by their key in [STRINGS]; the wording
    depends on the language and is not modelled. *)
Inductive panel_text : Type :=
| TxtAddTitle
| TxtRule (n : nat)                       (* "=" * n *)
| TxtInvalidAlias
| TxtCancelled
| TxtChainType
| TxtChainOption (k : string) (name : chain_label)
| TxtEmptyKey
| TxtSuiWarn (n : nat)
| TxtEvmWarn (n : nat)
| TxtDerivedAddr (addr : string)
| TxtStoreFail (err : failure_text)
| TxtStoreOk (wallet_alias : string)
| TxtRemoveNotFound (wallet_alias : string)
| TxtRemoveOk (wallet_alias : string)
| TxtRemoveFail (err : failure_text).

(** The questions the commands ask with [input]. *)
Inductive panel_prompt : Type :=
| AskAlias
| AskOverwrite (wallet_alias : string)
| AskChain
| AskContinue
| AskRemove (wallet_alias : string).

(** What a command does to the outside world, with the answer it got.
    The keychain is reached through [keyring] (service [SERVICE_ID]) and
    through the [security] command line tool. *)
Inductive panel_event : Type :=
| PvPrint (m : panel_text)
| PvInput (p : panel_prompt) (r : res string)
| PvGetpass (r : res string)
| PvKeyringGet (account : string) (r : res (option string))
| PvKeyringSet (account value : string) (r : res unit)
| PvKeyringDelete (account : string) (r : res unit)
(** [security delete-generic-password -s SERVICE_ID -a account]; the code
    reads nothing of the result, the return code included *)
| PvSecurityDelete (account : string) (r : res unit)
(** [security add-generic-password -s SERVICE_ID -a account -w secret -T ""],
    answered by [(returncode, stderr)] *)
| PvSecurityAdd (account secret : string) (r : res (Z * string)).

(** The collaborators of the panel.  An operation of the outside world
    answers with a value or an exception and leaves a new world.
    [panel_json_loads] is [json.loads] on a string, [None] standing for
    [json.JSONDecodeError]; [panel_json_dumps] is [json.dumps]. *)
Record panel_ops (W : Type) : Type := {
  panel_get_password : string -> string -> W -> res (option string) * W;
  panel_set_password : string -> string -> string -> W -> res unit * W;
  panel_delete_password : string -> string -> W -> res unit * W;
  panel_input : panel_prompt -> W -> res string * W;
  panel_getpass : W -> res string * W;
  panel_security_delete : string -> string -> W -> res unit * W;
  panel_security_add : string -> string -> string -> W -> res (Z * string) * W;
  panel_json_loads : string -> option pyval;
  panel_json_dumps : pyval -> string
}.

Arguments panel_get_password {W}.
Arguments panel_set_password {W}.
Arguments panel_delete_password {W}.
Arguments panel_input {W}.
Arguments panel_getpass {W}.
Arguments panel_security_delete {W}.
Arguments panel_security_add {W}.
Arguments panel_json_loads {W}.
Arguments panel_json_dumps {W}.

(** The state of a run of the panel: the outside world and the events so
    far, the latest first. *)
Record panel_state (W : Type) : Type := {
  pn_world : W;
  pn_log : list panel_event
}.

Arguments pn_world {W}.
Arguments pn_log {W}.

Section PanelMonad.

Context {W : Type}.

Definition T (A : Type) : Type := panel_state W -> ctl A * panel_state W.

Definition ret_p {A} (a : A) : T A := fun s => (Next a, s).

Definition bind_p {A B} (m : T A) (k : A -> T B) : T B :=
  fun s =>
    match m s with
    | (Next a, s') => k a s'
    | (Return v, s') => (Return v, s')
    | (Raise e, s') => (Raise e, s')
    end.

(** [return v] *)
Definition return_p {A} (v : pyval) : T A := fun s => (Return v, s).

Definition lift_p {A} (r : res A) : T A :=
  fun s =>
    match r with
    | inl e => (Raise e, s)
    | inr a => (Next a, s)
    end.

Definition emit_p (e : panel_event) : T unit :=
  fun s => (Next tt, {| pn_world := pn_world s; pn_log := e :: pn_log s |}).

Definition print_p (m : panel_text) : T unit := emit_p (PvPrint m).

(** A call to an external collaborator, logged with its answer. *)
Definition ask_p {A} (op : W -> A * W) (ev : A -> panel_event) : T A :=
  fun s =>
    let (a, w') := op (pn_world s) in
    (Next a, {| pn_world := w'; pn_log := ev a :: pn_log s |}).

(** A function call: [return v] yields [v], falling off the end yields
    [None], an exception propagates. *)
Definition call_p (body : T unit) : T pyval :=
  fun s =>
    match body s with
    | (Next _, s') => (Next PNone, s')
    | (Return v, s') => (Next v, s')
    | (Raise e, s') => (Raise e, s')
    end.

(** [try: body except Exception as e: handler e] *)
Definition try_except_p {A} (body : T A) (handler : exn -> T A) : T A :=
  fun s =>
    match body s with
    | (Raise e, s') => handler e s'
    | r => r
    end.

End PanelMonad.

Arguments T W A : clear implicits.

Declare Scope panel_scope.
Delimit Scope panel_scope with panel.
Notation "x <- m ;; k" := (bind_p m (fun x => k))
  (at level 61, m at next level, right associativity) : panel_scope.
Notation "m ;; k" := (bind_p m (fun _ => k))
  (at level 61, right associativity) : panel_scope.

Fixpoint for_each_p {W A} (items : list A) (body : A -> T W unit) : T W unit :=
  match items with
  | [] => ret_p tt
  | x :: rest => bind_p (body x) (fun _ => for_each_p rest body)
  end.

(** ** The entries of the registry *)

(** [{"alias": a, "chain": "unknown", "address": ""}], the entry a
    registry of the earlier format (a list of aliases) is read as. *)
Definition upgraded (a : pyval) : pyval :=
  PDict [("alias", a); ("chain", PStr "unknown"); ("address", PStr "")].

(** [isinstance(v, str)] *)
Definition is_str (v : pyval) : bool :=
  match v with
  | PStr _ => true
  | _ => false
  end.

(** The loop of [find_wallet] from place [i] on: the first entry [w] with
    [w["alias"] == alias], together with its place in the list.  The
    place stands for the identity of the object: the commands change the
    list through the object [find_wallet] returned. *)
Fixpoint find_wallet_from (i : nat) (items : list pyval) (wallet_alias : string)
  : res (option (nat * pyval)) :=
  match items with
  | [] => ok None
  | w :: rest =>
      (let? a := Py.getitem w "alias" in
       if Py.eqb a (PStr wallet_alias) then ok (Some (i, w))
       else find_wallet_from (S i) rest wallet_alias)%res
  end.

Definition find_entry (wallets : pyval) (wallet_alias : string)
  : res (option (nat * pyval)) :=
  (let? items := Py.iter wallets in find_wallet_from 0 items wallet_alias)%res.

(** The value of [find_wallet(...)]: the entry, or [None]. *)
Definition found_value (found : option (nat * pyval)) : pyval :=
  match found with
  | Some (_, w) => w
  | None => PNone
  end.

(** [find_wallet(wallets, alias)] *)
Definition find_wallet (wallets : pyval) (wallet_alias : string) : res pyval :=
  (let? found := find_entry wallets wallet_alias in ok (found_value found))%res.

(** The list with the object at place [i] replaced. *)
Definition set_nth (i : nat) (w : pyval) (items : list pyval) : list pyval :=
  firstn i items ++
  match skipn i items with
  | [] => []
  | _ :: rest => w :: rest
  end.

(** The place of the object [find_wallet] returned, if it is an entry. *)
Definition found_place (found : option (nat * pyval)) : option nat :=
  option_map fst found.

Definition is_place (j : nat) (place : option nat) : bool :=
  match place with
  | Some i => (j =? i)%nat
  | None => false
  end.

(** [items.remove(v)]: the first item that is the object [v] itself or
    equals [v] is dropped; [None] when there is none ([ValueError]).
    [place] is where the object [v] stands in the list, if it does; [j]
    is the place of the head of [items]. *)
Fixpoint remove_first (j : nat) (items : list pyval) (place : option nat)
         (v : pyval) : option (list pyval) :=
  match items with
  | [] => None
  | x :: rest =>
      if is_place j place || Py.eqb x v then Some rest
      else option_map (cons x) (remove_first (S j) rest place v)
  end.

(** [wallets.remove(existing)]: only a list has the method. *)
Definition list_remove (wallets : pyval) (found : option (nat * pyval))
  : res pyval :=
  match wallets with
  | PList items =>
      match remove_first 0 items (found_place found) (found_value found) with
      | Some items' => ok (PList items')
      | None => throw ValueError
      end
  | _ => throw AttributeError
  end.

(** [wallets.append(w)]: only a list has the method. *)
Definition list_append (wallets : pyval) (w : pyval) : res pyval :=
  match wallets with
  | PList items => ok (PList (items ++ [w]))
  | _ => throw AttributeError
  end.

(** [{"alias": alias, "chain": chain_id, "address": address}] *)
Definition new_entry (wallet_alias chain_id address : string) : pyval :=
  PDict [("alias", PStr wallet_alias); ("chain", PStr chain_id);
         ("address", PStr address)].

(** The [if existing: ... else: ...] in the [try] of [cmd_add]: the
    registry after the entry found has got its new chain and address,
    or after a new entry has been appended.  The assignments go to the
    object found, which is the one at its place in the list; when
    nothing was found, [existing] is [None], which is falsy. *)
Definition registry_with (wallets : pyval) (found : option (nat * pyval))
           (wallet_alias chain_id address : string) : res pyval :=
  match found with
  | Some (i, existing) =>
      if Py.truthy existing
      then
        (let? e1 := Py.setitem existing "chain" (PStr chain_id) in
         let? e2 := Py.setitem e1 "address" (PStr address) in
         ok match wallets with
            | PList items => PList (set_nth i e2 items)
            | _ => wallets
            end)%res
      else list_append wallets (new_entry wallet_alias chain_id address)
  | None => list_append wallets (new_entry wallet_alias chain_id address)
  end.

(** ** Address derivation *)

(** The primitives [derive_evm_address] takes from [cryptography] and
    from [Crypto.Hash]. *)
Record evm_primitives : Type := {
  (** [int(clean, 16)], [ec.derive_private_key] on SECP256K1 and
      [public_bytes] in the uncompressed X9.62 form: the bytes, or the
      exception of whichever step fails (a missing package included) *)
  secp256k1_public_bytes : string -> res bytes;
  (** [k = keccak.new(digest_bits=256); k.update(m); k.hexdigest()];
      [None] when [Crypto.Hash] cannot be imported *)
  keccak_256_hex : option (bytes -> string)
}.

(** [s[-n:]] for [n > 0] *)
Definition last_chars (n : nat) (s : string) : string :=
  let cs := str_chars s in
  string_of_list_ascii (skipn (List.length cs - n) cs).

(** [derive_evm_address(secret)] *)
Definition derive_evm_address (X : evm_primitives) (secret : string) : string :=
  let clean :=
    string_of_list_ascii
      (PyStr.replace_with_empty (str_chars "0x") (str_chars secret)) in
  match secp256k1_public_bytes X clean with
  | inr pub_bytes =>
      match keccak_256_hex X with
      | Some keccak => "0x" ++ last_chars 40 (keccak (skipn 1 pub_bytes))
      | None => "(need pycryptodome for EVM address)"
      end
  | inl e => "(derive failed: " ++ exn_text e ++ ")"
  end.

(** [derive_address(chain, secret)] *)
Definition derive_address (P : primitives) (X : evm_primitives)
           (chain secret : string) : res string :=
  if String.eqb chain "sui" then derive_sui_address P secret
  else if String.eqb chain "evm" then ok (derive_evm_address X secret)
  else ok "".

(** ** The registry in the keychain and the commands *)

Section Panel.

Local Open Scope panel_scope.

Context {W : Type}.
Variable ops : panel_ops W.
Variable P : primitives.
Variable X : evm_primitives.

(** [get_registry()] *)
Definition get_registry : T W pyval :=
  call_p (
    r <- ask_p (panel_get_password ops SERVICE_ID REGISTRY_KEY)
               (PvKeyringGet REGISTRY_KEY) ;;
    data <- lift_p r ;;
    match data with
    | None => return_p (PList [])
    | Some data =>
        if String.eqb data "" then return_p (PList [])
        else
          match panel_json_loads ops data with
          | Some parsed =>
              if Py.truthy parsed
              then
                first <- lift_p (Py.getitem0 parsed) ;;
                if is_str first
                then
                  items <- lift_p (Py.iter parsed) ;;
                  return_p (PList (map upgraded items))
                else return_p parsed
              else return_p parsed
          | None => return_p (PList [])
          end
    end).

(** [save_registry(wallets)] *)
Definition save_registry (wallets : pyval) : T W unit :=
  r <- ask_p (panel_set_password ops SERVICE_ID REGISTRY_KEY
                (panel_json_dumps ops wallets))
             (PvKeyringSet REGISTRY_KEY (panel_json_dumps ops wallets)) ;;
  lift_p r.

(** [input(prompt)] *)
Definition input_p (p : panel_prompt) : T W string :=
  r <- ask_p (panel_input ops p) (PvInput p) ;;
  lift_p r.

(** [s.strip()], [s.lower()] on strings *)
Definition str_strip (s : string) : string :=
  string_of_list_ascii (PyStr.strip (str_chars s)).

Definition str_lower (s : string) : string :=
  string_of_list_ascii (PyStr.lower (str_chars s)).

(** [len(secret.replace("0x", ""))] *)
Definition clean_length (secret : string) : nat :=
  List.length (PyStr.replace_with_empty (str_chars "0x") (str_chars secret)).

(** The checks of [cmd_add] on the length of the secret: a warning and
    the question whether to go on; [return] unless the answer is [y]. *)
Definition warn_unless (fits : bool) (warning : panel_text) : T W unit :=
  if fits then ret_p tt
  else
    print_p warning ;;
    answer <- input_p AskContinue ;;
    if negb (String.eqb (str_lower answer) "y") then return_p PNone
    else ret_p tt.

Definition check_secret (chain_id secret : string) : T W unit :=
  if String.eqb chain_id "sui"
  then
    if negb (PyStr.startswith (str_chars "suiprivkey1") (str_chars secret))
    then
      warn_unless ((clean_length secret =? 64)%nat || (clean_length secret =? 128)%nat)
                  (TxtSuiWarn (Nat.div (clean_length secret) 2))
    else ret_p tt
  else if String.eqb chain_id "evm"
  then
    warn_unless (clean_length secret =? 64)%nat
                (TxtEvmWarn (Nat.div (clean_length secret) 2))
  else ret_p tt.

(** The [try] statement that ends [cmd_add]: the key goes into the
    keychain through [security], then the registry is written. *)
Definition store_wallet (wallets : pyval) (found : option (nat * pyval))
           (wallet_alias chain_id secret address : string) : T W unit :=
  try_except_p (
    r <- ask_p (panel_security_delete ops SERVICE_ID wallet_alias)
               (PvSecurityDelete wallet_alias) ;;
    lift_p r ;;
    r <- ask_p (panel_security_add ops SERVICE_ID wallet_alias secret)
               (PvSecurityAdd wallet_alias secret) ;;
    result <- lift_p r ;;
    let '(returncode, stderr) := result in
    if negb (returncode =? 0)
    then print_p (TxtStoreFail (ChildStderr stderr)) ;; return_p PNone
    else
      wallets' <- lift_p (registry_with wallets found wallet_alias chain_id address) ;;
      save_registry wallets' ;;
      print_p (TxtStoreOk wallet_alias))
    (fun e => print_p (TxtStoreFail (ExceptionText e))).

(** [cmd_add()] *)
Definition cmd_add : T W pyval :=
  call_p (
    print_p TxtAddTitle ;;
    print_p (TxtRule 40) ;;
    answer <- input_p AskAlias ;;
    let wallet_alias := str_strip answer in
    if String.eqb wallet_alias "" || String.eqb wallet_alias REGISTRY_KEY
    then print_p TxtInvalidAlias ;; return_p PNone
    else
      wallets <- get_registry ;;
      found <- lift_p (find_entry wallets wallet_alias) ;;
      (if Py.truthy (found_value found)
       then
         answer <- input_p (AskOverwrite wallet_alias) ;;
         if negb (String.eqb (str_lower answer) "y")
         then print_p TxtCancelled ;; return_p PNone
         else ret_p tt
       else ret_p tt) ;;
      print_p TxtChainType ;;
      for_each_p ["1"; "2"; "3"; "4"]
        (fun k => print_p (TxtChainOption k (get_chain_name k))) ;;
      answer <- input_p AskChain ;;
      let chain_choice :=
        if String.eqb (str_strip answer) "" then "4" else str_strip answer in
      let chain_id := snd (chain_type chain_choice) in
      r <- ask_p (panel_getpass ops) PvGetpass ;;
      secret <- lift_p r ;;
      if String.eqb secret ""
      then print_p TxtEmptyKey ;; return_p PNone
      else
        check_secret chain_id secret ;;
        address <- lift_p (derive_address P X chain_id secret) ;;
        (if negb (String.eqb address "")
         then print_p (TxtDerivedAddr address)
         else ret_p tt) ;;
        store_wallet wallets found wallet_alias chain_id secret address).

(** [cmd_remove(alias)] *)
Definition cmd_remove (wallet_alias : string) : T W pyval :=
  call_p (
    wallets <- get_registry ;;
    found <- lift_p (find_entry wallets wallet_alias) ;;
    if negb (Py.truthy (found_value found))
    then print_p (TxtRemoveNotFound wallet_alias) ;; return_p PNone
    else
      confirm <- input_p (AskRemove wallet_alias) ;;
      if negb (String.eqb confirm "yes")
      then print_p TxtCancelled ;; return_p PNone
      else
        try_except_p (
          r <- ask_p (panel_delete_password ops SERVICE_ID wallet_alias)
                     (PvKeyringDelete wallet_alias) ;;
          lift_p r ;;
          wallets' <- lift_p (list_remove wallets found) ;;
          save_registry wallets' ;;
          print_p (TxtRemoveOk wallet_alias))
          (fun e => print_p (TxtRemoveFail (ExceptionText e)))).

End Panel.

Definition panel_start {W} (w : W) : panel_state W :=
  {| pn_world := w; pn_log := [] |}.

(** ** Rules on the history of a run *)

(** [history_ok rule log]: every event of the log satisfies [rule]
    together with the events that came before it. *)
Fixpoint history_ok (rule : panel_event -> list panel_event -> bool)
         (log : list panel_event) : bool :=
  match log with
  | [] => true
  | e :: earlier => rule e earlier && history_ok rule earlier
  end.

(** [keeps rule m]: from a history that satisfies [rule], [m] leads to a
    history that satisfies it. *)
Definition keeps {W A} (rule : panel_event -> list panel_event -> bool)
           (m : T W A) : Prop :=
  forall s, history_ok rule (pn_log s) = true ->
            history_ok rule (pn_log (snd (m s))) = true.

(** An account under which a key may be stored: not empty, and not the
    account of the registry. *)
Definition key_account (account : string) : bool :=
  negb (String.eqb account "") && negb (String.eqb account REGISTRY_KEY).

(** The rule [cmd_add] follows.  [security] is run for a key account
    only; a key is added only if it is not empty, and right after
    [security] has been run to delete the item of the account; the only
    value written through [keyring] is the registry, right after
    [security] has added a key with return code 0; nothing is deleted
    through [keyring]. *)
Definition add_rule (e : panel_event) (earlier : list panel_event) : bool :=
  match e with
  | PvSecurityDelete account _ => key_account account
  | PvSecurityAdd account secret _ =>
      key_account account && negb (String.eqb secret "") &&
      match earlier with
      | PvSecurityDelete account' (inr _) :: _ => String.eqb account' account
      | _ => false
      end
  | PvKeyringSet account _ _ =>
      String.eqb account REGISTRY_KEY &&
      match earlier with
      | PvSecurityAdd _ _ (inr (0, _)) :: _ => true
      | _ => false
      end
  | PvKeyringDelete _ _ => false
  | PvKeyringGet account _ => String.eqb account REGISTRY_KEY
  | _ => true
  end.

(** The rule [cmd_remove alias] follows.  The key of the alias, and no
    other, is deleted, right after the answer [yes] has been read; the
    registry is written right after the key has been deleted; [security]
    is not run. *)
Definition remove_rule (wallet_alias : string) (e : panel_event)
           (earlier : list panel_event) : bool :=
  match e with
  | PvKeyringDelete account _ =>
      String.eqb account wallet_alias &&
      match earlier with
      | PvInput (AskRemove a) (inr answer) :: _ =>
          String.eqb a wallet_alias && String.eqb answer "yes"
      | _ => false
      end
  | PvKeyringSet account _ _ =>
      String.eqb account REGISTRY_KEY &&
      match earlier with
      | PvKeyringDelete _ (inr _) :: _ => true
      | _ => false
      end
  | PvKeyringGet account _ => String.eqb account REGISTRY_KEY
  | PvSecurityDelete _ _ => false
  | PvSecurityAdd _ _ _ => false
  | _ => true
  end.

(** ** Stand-ins for the collaborators of the panel *)

(** A keychain that holds the registry text [bt_registry], a console
    that gives the answers [bt_answers] in turn and the secret
    [bt_secret], and a [security] tool that answers an [add] with
    [bt_added]; every other operation succeeds. *)
Record booth : Type := {
  bt_registry : res (option string);
  bt_answers : list (res string);
  bt_secret : res string;
  bt_added : res (Z * string)
}.

Definition sample_entries : pyval :=
  PList [new_entry "eth_dev" "evm" "0x111"; new_entry "sui_main" "sui" "0xabc"].

Definition booth_ops : panel_ops booth := {|
  panel_get_password := fun _ _ w => (bt_registry w, w);
  panel_set_password := fun _ _ _ w => (ok tt, w);
  panel_delete_password := fun _ _ w => (ok tt, w);
  panel_input := fun _ w =>
    match bt_answers w with
    | [] => (throw (WorldError "EOF"), w)
    | r :: rest =>
        (r, {| bt_registry := bt_registry w; bt_answers := rest;
               bt_secret := bt_secret w; bt_added := bt_added w |})
    end;
  panel_getpass := fun w => (bt_secret w, w);
  panel_security_delete := fun _ _ w => (ok tt, w);
  panel_security_add := fun _ _ _ w => (bt_added w, w);
  panel_json_loads := fun data =>
    if String.eqb data "(aliases)" then Some (PList [PStr "old_main"; PStr "old_dev"])
    else if String.eqb data "(entries)" then Some sample_entries
    else None;
  panel_json_dumps := fun wallets =>
    if Py.eqb wallets sample_entries then "(entries)" else "(registry)"
|}.

Definition no_evm : evm_primitives := {|
  secp256k1_public_bytes := fun _ => throw (WorldError "no cryptography");
  keccak_256_hex := None
|}.

(** Adding [sui_main] on chain 4 to an empty keychain. *)
Definition booth_add : booth :=
  {| bt_registry := ok None;
     bt_answers := [ok "sui_main"; ok "4"];
     bt_secret := ok "abcd";
     bt_added := ok (0, "") |}.

(** Removing from a keychain with two entries, confirmed by [yes]. *)
Definition booth_remove : booth :=
  {| bt_registry := ok (Some "(entries)");
     bt_answers := [ok "yes"];
     bt_secret := ok "";
     bt_added := ok (0, "") |}.

(** A keychain whose registry is in the earlier format. *)
Definition booth_legacy : booth :=
  {| bt_registry := ok (Some "(aliases)");
     bt_answers := [];
     bt_secret := ok "";
     bt_added := ok (0, "") |}.

(** The events of [cmd_add] at [booth_add] up to the secret, the latest
    first. *)
Definition booth_add_dialogue : list panel_event :=
  [PvGetpass (ok "abcd"); PvInput AskChain (ok "4");
   PvPrint (TxtChainOption "4" ChainOther);
   PvPrint (TxtChainOption "3" (ChainName "EVM"));
   PvPrint (TxtChainOption "2" (ChainName "Solana"));
   PvPrint (TxtChainOption "1" (ChainName "Sui"));
   PvPrint TxtChainType; PvKeyringGet REGISTRY_KEY (ok None);
   PvInput AskAlias (ok "sui_main"); PvPrint (TxtRule 40);
   PvPrint TxtAddTitle].

(** ** How a failure reaches the caller of [transfer] *)

(** The failures after which [transfer] gives up and returns [None]:
    the name service gave no address, the keychain gave no key, the node
    listed no coin, the dry run did not report success, the answer at
    the prompt was not affirmative. *)
Inductive failure : Type :=
| Unresolved
| KeyUnavailable
| NoFunds
| SimulationRejected
| Declined.

(** The message by which [transfer] announces a failure. *)
Definition announces (f : failure) (m : message) : bool :=
  match f, m with
  | Unresolved, MsgResolveFailed _ => true
  | KeyUnavailable, MsgNoKey => true
  | NoFunds, MsgNoCoin => true
  | SimulationRejected, MsgSimCancelled => true
  | Declined, MsgUserCancelled => true
  | _, _ => false
  end.

(** What an event means for the way the run ends: nothing, one of the
    five failures, an exception of the world, the announcement of a
    failure, or the result of the execute call. *)
Inductive effect : Type :=
| Neutral
| Fails (f : failure)
| Throws (e : exn)
| Announces (m : message)
| Executes (result : pyval).

(** The effect of a request answered by [r].  [resolve_suins] catches
    every exception of its request, so a request to the name service
    either resolves the name or leaves it unresolved.  Any other request
    raises what [rpc_call] raises; when it goes through, the list of
    coins may be empty ([if not coins["data"]]), the dry run may report
    something else than success, and the execute call gives the result
    of the transfer. *)
Definition request_effect (payload : pyval) (r : res pyval) : effect :=
  if method_is "suix_resolveNameServiceAddress" payload
  then if Py.truthy (resolved_value r) then Neutral else Fails Unresolved
  else
    match rpc_outcome r with
    | Raise e => Throws e
    | Return _ => Neutral
    | Next result =>
        if method_is "suix_getCoins" payload then
          match Py.getitem result "data" with
          | inr data => if Py.truthy data then Neutral else Fails NoFunds
          | inl _ => Neutral
          end
        else if method_is "sui_dryRunTransactionBlock" payload then
          if reports_success result then Neutral else Fails SimulationRejected
        else if method_is "sui_executeTransactionBlock" payload then
          Executes result
        else Neutral
    end.

Definition event_effect (ev : event) : effect :=
  match ev with
  | EvHttpPost _ payload r => request_effect payload r
  | EvKeyring _ _ r =>
      match r with
      | inl e => Throws e
      | inr _ => if no_key r then Fails KeyUnavailable else Neutral
      end
  | EvInput r =>
      match r with
      | inl e => Throws e
      | inr answer => if confirms answer then Neutral else Fails Declined
      end
  | EvPrint m => if failure_message m then Announces m else Neutral
  | _ => Neutral
  end.

(** Events without an effect on the way the run ends. *)
Definition calm (ev : event) : bool :=
  match event_effect ev with
  | Neutral => true
  | _ => false
  end.

(** What the events so far settle about the end of the run: nothing
    yet; a failure not yet announced; a failure announced; an exception
    of the world under way; the result of the execute call received.
    [Off] is the verdict on a sequence of events in which a second
    effect follows the first. *)
Inductive verdict : Type :=
| Clear
| Failing (f : failure)
| Announced (f : failure)
| Thrown (e : exn)
| Executed (result : pyval)
| Off.

Definition audit (v : verdict) (ev : event) : verdict :=
  match event_effect ev with
  | Neutral => v
  | Fails f => match v with Clear => Failing f | _ => Off end
  | Throws e => match v with Clear => Thrown e | _ => Off end
  | Executes result => match v with Clear => Executed result | _ => Off end
  | Announces m =>
      match v with
      | Failing f => if announces f m then Announced f else Off
      | _ => Off
      end
  end.

(** The verdict on a log (newest event first). *)
Definition verdict_of (l : list event) : verdict :=
  fold_right (fun ev v => audit v ev) Clear l.

Definition audit_step (v : verdict) (ev : event) (v' : verdict) : Prop :=
  v' = audit v ev.

(** How [transfer] ends under each verdict.  With no effect at all, or
    after the result of the execute call, the run can still end by the
    exception of a step that reads a value; after a dry run that did not
    report success, by an exception of the preview. *)
Definition ends_as (c : ctl pyval) (v : verdict) : Prop :=
  match v with
  | Clear => exists e, c = Raise e
  | Failing f => f = SimulationRejected /\ exists e, c = Raise e
  | Announced _ => c = Next PNone
  | Thrown e => c = Raise e
  | Executed result =>
      (c = Next result /\ exists d, result = PDict d) \/ exists e, c = Raise e
  | Off => False
  end.

(** How a part of the body of [transfer] ends: it goes on only while
    nothing has failed. *)
Definition part_ends_as {A} (c : ctl A) (v : verdict) : Prop :=
  match c with
  | Next _ => v = Clear
  | Return x => ends_as (Next x) v
  | Raise e => ends_as (Raise e) v
  end.

(** The name service does not answer. *)
Definition world_resolver_down : script :=
  world_with (ok (Some sample_key)) [] "y".

(* ===================================================================== *)
(** * Properties: amount conversion *)
(* ===================================================================== *)

(** For the amount 0.01 the float computation lands on the exact value. *)
Lemma amount_mist_one_cent :
  amount_mist_of (PyFloat.of_decimal 1 2) = ok 10000000 /\
  exact_mist 1 2 = 10000000.
Proof. split; vm_compute; reflexivity. Qed.

(** C6 (the code at the failing input).  [transfer] and [dry_run_only]
    compute [int(amount_sui * 1_000_000_000)] in binary64: for the
    amount 8.2 the product is just below 8200000000 and the truncation
    yields 8199999999, one unit less than exact decimal arithmetic. *)
Theorem amount_mist_drifts :
  amount_mist_of (PyFloat.of_decimal 82 1) = ok 8199999999 /\
  exact_mist 82 1 = 8200000000.
Proof. split; vm_compute; reflexivity. Qed.

(* ===================================================================== *)
(** * Reasoning about runs *)
(* ===================================================================== *)

Section Runs.

Context {W : Type}.

Lemma run_bind_lift {A B} (r : res A) (k : A -> M W B) (s : state W) :
  bind (lift r) k s =
  match r with
  | inl e => (Raise e, s)
  | inr a => k a s
  end.
Proof. destruct r; reflexivity. Qed.

Lemma run_bind_emit {B} (e : event) (k : unit -> M W B) (s : state W) :
  bind (emit e) k s = k tt (logged e s).
Proof. reflexivity. Qed.

Lemma run_bind_print {B} (m : message) (k : unit -> M W B) (s : state W) :
  bind (print m) k s = k tt (logged (EvPrint m) s).
Proof. reflexivity. Qed.

Lemma run_bind_ret {A B} (a : A) (k : A -> M W B) (s : state W) :
  bind (ret a) k s = k a s.
Proof. reflexivity. Qed.

Lemma run_bind_return {A B} (v : pyval) (k : A -> M W B) (s : state W) :
  bind (return_ v) k s = (Return v, s).
Proof. reflexivity. Qed.

Lemma run_bind_assoc {A B C} (m : M W A) (k : A -> M W B) (h : B -> M W C)
      (s : state W) :
  bind (bind m k) h s = bind m (fun a => bind (k a) h) s.
Proof.
  unfold bind. destruct (m s) as [[a | v | e] s']; reflexivity.
Qed.

End Runs.

(* ===================================================================== *)
(** * Properties: the signature envelope *)
(* ===================================================================== *)

Lemma of_ints_byte (scheme : Z) :
  0 <= scheme < 256 ->
  PyBytes.of_ints (Some [scheme]) = ok [PyBytes.byte_of_Z scheme].
Proof.
  intros [Hlo Hhi]. unfold PyBytes.of_ints. cbn [forallb].
  apply Z.leb_le in Hlo. apply Z.ltb_lt in Hhi.
  rewrite Hlo, Hhi. reflexivity.
Qed.

Lemma SigningKey_32 (seed : bytes) :
  List.length seed = 32%nat -> SigningKey seed = ok seed.
Proof.
  intros H. unfold SigningKey. rewrite H. reflexivity.
Qed.

Lemma SigningKey_inv (seed sk : bytes) :
  SigningKey seed = inr sk -> sk = seed /\ List.length seed = 32%nat.
Proof.
  unfold SigningKey. destruct (Nat.eqb_spec (List.length seed) 32).
  - intros H. injection H as <-. auto.
  - discriminate.
Qed.

(** C4.  For every transaction byte string, 32-byte seed and scheme byte,
    the signer hashes the 3-byte prefix followed by the transaction,
    signs the 32-byte digest with the seed, and assembles the scheme
    byte, the 64-byte signature and the 32-byte public key: 97 bytes
    whatever the length of the transaction.  [sign_and_execute] sends
    the base64 text of exactly these bytes to the executor. *)
Theorem signature_envelope_layout
        (P : primitives) (HP : primitives_ok P)
        (tx_bytes seed : bytes) (scheme : Z) :
  List.length seed = 32%nat ->
  0 <= scheme < 256 ->
  let intent_msg := [x00; x00; x00] ++ tx_bytes in
  let digest := blake2b_256 P intent_msg in
  let signature := ed25519_sign P seed digest in
  let pk := ed25519_public_key P seed in
  let envelope := PyBytes.byte_of_Z scheme :: signature ++ pk in
  sig_bytes_of P tx_bytes seed scheme = ok envelope /\
  List.length digest = 32%nat /\
  List.length signature = 64%nat /\
  List.length pk = 32%nat /\
  List.length envelope = 97%nat /\
  forall (W : Type) (ops : world_ops W) (s : state W) (t : string),
    b64decode P t = Some tx_bytes ->
    exists r,
      log (snd (sign_and_execute ops P (PStr t) seed scheme s)) =
      EvHttpPost SUI_RPC
        (rpc_payload "sui_executeTransactionBlock"
           (execute_params (PStr t) (b64encode P envelope))) r
      :: EvSignerEntered (PStr t) seed scheme :: log s.
Proof.
  intros Hseed Hscheme intent_msg digest signature pk envelope.
  assert (Hsig : sig_bytes_of P tx_bytes seed scheme = ok envelope).
  { unfold sig_bytes_of. rewrite (SigningKey_32 _ Hseed). cbn [rbind].
    rewrite (of_ints_byte _ Hscheme). reflexivity. }
  assert (Hd : List.length digest = 32%nat) by apply (blake2b_256_length P HP).
  assert (Hs : List.length signature = 64%nat)
    by (apply (ed25519_sign_length P HP); exact Hseed).
  assert (Hp : List.length pk = 32%nat)
    by (apply (ed25519_public_key_length P HP); exact Hseed).
  split; [exact Hsig|]. split; [exact Hd|]. split; [exact Hs|].
  split; [exact Hp|]. split.
  - unfold envelope. cbn [List.length]. rewrite length_app, Hs, Hp. reflexivity.
  - intros W ops s t Ht.
    unfold sign_and_execute. rewrite run_bind_emit, run_bind_lift.
    unfold decode_tx. rewrite Ht. cbn [ok]. rewrite run_bind_lift, Hsig.
    cbn [ok]. unfold rpc_call, bind, ask, logged. cbn [world log locals].
    destruct (requests_post_json ops SUI_RPC _ (world s)) as [r w'].
    exists r. destruct r as [e | result]; cbn [lift raise ret snd log].
    + reflexivity.
    + destruct (rpc_result result); reflexivity.
Qed.

Lemma pad_to_length (n : nat) (b : bytes) : List.length (pad_to n b) = n.
Proof.
  unfold pad_to. rewrite length_firstn, length_app, repeat_length. lia.
Qed.

Lemma sized_primitives_ok : primitives_ok sized_primitives.
Proof.
  constructor; intros; apply pad_to_length.
Qed.

(** C4 at a concrete input: a 5-byte transaction, the seed of
    [sample_key], scheme 0. *)
Lemma signature_envelope_layout_witness :
  List.length
    (PyBytes.byte_of_Z 0
     :: ed25519_sign sized_primitives (repeat x07 32)
          (blake2b_256 sized_primitives
             ([x00; x00; x00] ++ [x01; x02; x03; x04; x05]))
     ++ ed25519_public_key sized_primitives (repeat x07 32)) = 97%nat.
Proof.
  exact (proj1 (proj2 (proj2 (proj2 (proj2
    (signature_envelope_layout sized_primitives sized_primitives_ok
       [x01; x02; x03; x04; x05] (repeat x07 32) 0
       eq_refl (conj (Z.le_refl 0) eq_refl))))))).
Defined.

(* ===================================================================== *)
(** * Key decoding: ranges and inversions *)
(* ===================================================================== *)

Lemma Z_of_byte_range (b : byte) : 0 <= PyBytes.Z_of_byte b < 256.
Proof.
  unfold PyBytes.Z_of_byte. pose proof (Byte.to_N_bounded b). lia.
Qed.

Lemma byte_of_Z_of_byte (b : byte) : PyBytes.byte_of_Z (PyBytes.Z_of_byte b) = b.
Proof.
  unfold PyBytes.byte_of_Z, PyBytes.Z_of_byte.
  rewrite N2Z.id, Byte.of_to_N. reflexivity.
Qed.

Lemma hex_length (b : bytes) : List.length (PyBytes.hex b) = (2 * List.length b)%nat.
Proof.
  unfold PyBytes.hex. induction b as [| x b IH]; cbn [flat_map List.length app].
  - reflexivity.
  - rewrite IH. lia.
Qed.

Lemma string_of_chars_length (l : chars) :
  String.length (string_of_list_ascii l) = List.length l.
Proof.
  induction l as [| c l IH]; cbn; [reflexivity | now rewrite IH].
Qed.

Lemma sui_address_ok (P : primitives) (scheme : Z) (pk : bytes) :
  0 <= scheme < 256 -> sui_address P scheme pk = ok (address_of P scheme pk).
Proof.
  intros H. unfold sui_address. rewrite (of_ints_byte _ H). reflexivity.
Qed.

Lemma decode_bech32_key_inv (s : string) (scheme : Z) (seed : bytes) :
  decode_bech32_key s = ok (scheme, seed) ->
  0 <= scheme < 256 /\
  exists hrp data5bit data8bit,
    Bech32.bech32_decode (str_chars s) = Some (hrp, data5bit) /\
    PyBytes.of_ints (Bech32.convertbits data5bit 5 8 false) = ok data8bit /\
    nth_error data8bit 0 = Some (PyBytes.byte_of_Z scheme) /\
    seed = firstn 32 (skipn 1 data8bit).
Proof.
  unfold decode_bech32_key.
  destruct (Bech32.bech32_decode (str_chars s)) as [[hrp d5] |]; [| discriminate].
  destruct (PyBytes.of_ints (Bech32.convertbits d5 5 8 false)) as [e | d8] eqn:E8;
    cbn [rbind]; [discriminate |].
  destruct d8 as [| b d8]; [discriminate |].
  intros H. injection H as <- <-. split; [apply Z_of_byte_range |].
  exists hrp, d5, (b :: d8). rewrite byte_of_Z_of_byte. auto.
Qed.

Lemma get_address_from_key_inv (P : primitives) (privkey : string)
      (seed : bytes) (scheme : Z) (pk : bytes) (address : string) :
  get_address_from_key P privkey = ok (seed, scheme, pk, address) ->
  decode_bech32_key privkey = ok (scheme, seed) /\
  List.length seed = 32%nat /\
  pk = ed25519_public_key P seed /\
  address = address_of P scheme pk.
Proof.
  unfold get_address_from_key.
  destruct (decode_bech32_key privkey) as [e | [sch sd]] eqn:Ed; cbn [rbind];
    [discriminate |].
  destruct (SigningKey sd) as [e | sk] eqn:Ek; cbn [rbind]; [discriminate |].
  apply SigningKey_inv in Ek. destruct Ek as [-> Hlen].
  apply decode_bech32_key_inv in Ed. destruct Ed as [Hs _].
  rewrite (sui_address_ok _ _ _ Hs). cbn [rbind]. intros H.
  injection H as <- <- <- <-. auto.
Qed.

(** A value masked to [tobits] bits. *)
Lemma land_mask_range (x tobits : Z) :
  0 <= tobits -> 0 <= Z.land x (Z.shiftl 1 tobits - 1) < 2 ^ tobits.
Proof.
  intros H. rewrite Z.sub_1_r. fold (Z.ones tobits).
  rewrite Z.land_ones by assumption. apply Z.mod_pos_bound.
  apply Z.pow_pos_nonneg; lia.
Qed.

Lemma emit_range (tobits : Z) (fuel : nat) (acc bits : Z) (ret : list Z) :
  0 <= tobits ->
  Forall (fun v => 0 <= v < 2 ^ tobits) ret ->
  Forall (fun v => 0 <= v < 2 ^ tobits)
         (snd (Bech32.emit fuel acc bits tobits (Z.shiftl 1 tobits - 1) ret)).
Proof.
  intros Ht. revert bits ret.
  induction fuel as [| fuel IH]; intros bits ret Hret; cbn [Bech32.emit].
  - exact Hret.
  - destruct (tobits <=? bits); [| exact Hret].
    apply IH. constructor; [| exact Hret]. apply land_mask_range. exact Ht.
Qed.

Lemma convert_loop_range (frombits tobits : Z) (data : list Z) :
  0 <= tobits ->
  forall acc bits ret acc' bits' ret',
    Bech32.convert_loop data frombits tobits acc bits ret = Some (acc', bits', ret') ->
    Forall (fun v => 0 <= v < 2 ^ tobits) ret ->
    Forall (fun v => 0 <= v < 2 ^ tobits) ret'.
Proof.
  intros Ht. induction data as [| value rest IH];
    intros acc bits ret acc' bits' ret' H Hret; cbn [Bech32.convert_loop] in H.
  - injection H as _ _ <-. exact Hret.
  - destruct ((value <? 0) || negb (Z.shiftr value frombits =? 0)); [discriminate |].
    match type of H with
    | context [Bech32.emit ?f ?a ?b ?t ?m ?r] =>
        pose proof (emit_range t f a b r Ht Hret) as He;
        destruct (Bech32.emit f a b t m r) as [b2 r2]
    end.
    cbn [snd] in He. eapply IH; eassumption.
Qed.

Lemma convertbits_range (data out : list Z) (frombits tobits : Z) (pad : bool) :
  0 <= tobits ->
  Bech32.convertbits data frombits tobits pad = Some out ->
  Forall (fun v => 0 <= v < 2 ^ tobits) out.
Proof.
  intros Ht. unfold Bech32.convertbits.
  destruct (Bech32.convert_loop data frombits tobits 0 0 [])
    as [[[acc bits] ret] |] eqn:E; [| discriminate].
  apply convert_loop_range in E; [| exact Ht | constructor].
  destruct pad.
  - intros H. injection H as <-. apply Forall_rev.
    destruct (negb (bits =? 0)); [| exact E].
    constructor; [| exact E]. apply land_mask_range. exact Ht.
  - destruct ((frombits <=? bits) || _); [discriminate |].
    intros H. injection H as <-. apply Forall_rev. exact E.
Qed.

Lemma of_ints_convertbits (data5bit : list Z) :
  PyBytes.of_ints (Bech32.convertbits data5bit 5 8 false) =
  match Bech32.convertbits data5bit 5 8 false with
  | None => throw TypeError
  | Some l => ok (map PyBytes.byte_of_Z l)
  end.
Proof.
  destruct (Bech32.convertbits data5bit 5 8 false) as [l |] eqn:E; [| reflexivity].
  apply convertbits_range in E; [| lia]. unfold PyBytes.of_ints.
  replace (forallb _ l) with true; [reflexivity |].
  symmetry. apply forallb_forall. intros v Hv.
  rewrite Forall_forall in E. specialize (E v Hv). change (2 ^ 8) with 256 in E.
  apply andb_true_intro. split; [apply Z.leb_le | apply Z.ltb_lt]; lia.
Qed.

(* ===================================================================== *)
(** * Observing runs *)
(* ===================================================================== *)

Lemma watch_step_silent (auto : bool) (w : watch) (e : event) :
  silent e = true -> watch_step auto w e w.
Proof.
  unfold silent. intros H. apply andb_prop in H. destruct H as [Hn Hm].
  destruct w as [g a]. apply ws_gate.
  - apply gs_neutral. exact Hn.
  - intros m ->. destruct (failure_message m); [discriminate | reflexivity].
Qed.

Lemma accepted_silent {G : Type} (step : G -> event -> G -> Prop) (g0 : G)
      (new l : list event) (g : G) :
  (forall g e, silent e = true -> step g e g) ->
  forallb silent new = true ->
  accepted step g0 l g -> accepted step g0 (new ++ l) g.
Proof.
  intros Hstep. induction new as [| e new IH]; cbn [forallb app]; intros H Hw.
  - exact Hw.
  - apply andb_prop in H. destruct H as [He Hnew].
    eapply accepted_cons; [apply IH; assumption | apply Hstep; exact He].
Qed.

Section Observing.

Context {W G : Type}.
Variable step : G -> event -> G -> Prop.
Variable g0 : G.

Lemma quietly_ret {A} (a : A) : quietly (ret a : M W A).
Proof. intros s. exists []. auto. Qed.

Lemma quietly_return {A} (v : pyval) : quietly (return_ v : M W A).
Proof. intros s. exists []. auto. Qed.

Lemma quietly_lift {A} (r : res A) : quietly (lift r : M W A).
Proof. intros s. exists []. destruct r; auto. Qed.

Lemma quietly_emit (e : event) : silent e = true -> quietly (emit e : M W unit).
Proof.
  intros H s. exists [e]. cbn. rewrite H. auto.
Qed.

Lemma quietly_print (m : message) :
  silent (EvPrint m) = true -> quietly (print m : M W unit).
Proof. apply quietly_emit. Qed.

Lemma quietly_ask {A} (op : W -> A * W) (ev : A -> event) :
  (forall a, silent (ev a) = true) -> quietly (ask op ev).
Proof.
  intros H s. unfold ask. destruct (op (world s)) as [a w'].
  exists [ev a]. cbn. rewrite H. auto.
Qed.

Lemma quietly_set_locals (f : frame -> frame) : quietly (set_locals f : M W unit).
Proof. intros s. exists []. auto. Qed.

Lemma quietly_bind {A B} (m : M W A) (k : A -> M W B) :
  quietly m -> (forall a, quietly (k a)) -> quietly (bind m k).
Proof.
  intros Hm Hk s. destruct (Hm s) as (n1 & E1 & S1). unfold bind.
  destruct (m s) as [[a | v | e] s1]; cbn [snd] in *.
  - destruct (Hk a s1) as (n2 & E2 & S2). exists (n2 ++ n1).
    rewrite E2, E1, app_assoc, forallb_app, S1, S2. auto.
  - exists n1. auto.
  - exists n1. auto.
Qed.

Lemma quietly_call (body : M W unit) : quietly body -> quietly (call body).
Proof.
  intros H s. destruct (H s) as (n & E & S). exists n. unfold call.
  destruct (body s) as [[a | v | e] s1]; auto.
Qed.

Lemma quietly_for_each {A} (items : list A) (body : A -> M W unit) :
  (forall x, quietly (body x)) -> quietly (for_each items body).
Proof.
  intros H. induction items as [| x items IH]; cbn [for_each].
  - apply quietly_ret.
  - apply quietly_bind; [apply H | intros _; exact IH].
Qed.

Lemma silently_intro {A} (m : M W A) :
  quietly m -> (forall s v, fst (m s) <> Return v) -> silently m.
Proof. split; assumption. Qed.

Lemma silently_ret {A} (a : A) : silently (ret a : M W A).
Proof. split; [apply quietly_ret | discriminate]. Qed.

Lemma silently_lift {A} (r : res A) : silently (lift r : M W A).
Proof. split; [apply quietly_lift | intros s v; destruct r; discriminate]. Qed.

Lemma silently_print (m : message) :
  silent (EvPrint m) = true -> silently (print m : M W unit).
Proof. split; [apply quietly_print; assumption | discriminate]. Qed.

Lemma silently_ask {A} (op : W -> A * W) (ev : A -> event) :
  (forall a, silent (ev a) = true) -> silently (ask op ev).
Proof.
  split; [apply quietly_ask; assumption |].
  intros s v. unfold ask. destruct (op (world s)). discriminate.
Qed.

Lemma silently_bind {A B} (m : M W A) (k : A -> M W B) :
  silently m -> (forall a, silently (k a)) -> silently (bind m k).
Proof.
  intros [Qm Nm] Hk. split.
  - apply quietly_bind; [exact Qm | intros a; apply Hk].
  - intros s v. unfold bind. specialize (Nm s).
    destruct (m s) as [[a | v' | e] s1]; cbn [fst] in *.
    + apply Hk.
    + exfalso. apply (Nm v'). reflexivity.
    + discriminate.
Qed.

Lemma silently_call (body : M W unit) : quietly body -> silently (call body).
Proof.
  intros H. split; [apply quietly_call; exact H |].
  intros s v. unfold call. destruct (body s) as [[a | v' | e] s1]; discriminate.
Qed.

Lemma silently_for_each {A} (items : list A) (body : A -> M W unit) :
  (forall x, silently (body x)) -> silently (for_each items body).
Proof.
  intros H. induction items as [| x items IH]; cbn [for_each].
  - apply silently_ret.
  - apply silently_bind; [apply H | intros _; exact IH].
Qed.

Lemma silently_try_except {A} (body : M W A) (handler : exn -> M W A) :
  silently body -> (forall e, silently (handler e)) ->
  silently (try_except body handler).
Proof.
  intros [Qb Nb] Hh. split.
  - intros s. destruct (Qb s) as (n1 & E1 & S1). unfold try_except.
    destruct (body s) as [[a | v | e] s1]; cbn [snd] in *;
      try (exists n1; auto; fail).
    destruct (proj1 (Hh e) s1) as (n2 & E2 & S2). exists (n2 ++ n1).
    rewrite E2, E1, app_assoc, forallb_app, S1, S2. auto.
  - intros s v. unfold try_except. specialize (Nb s).
    destruct (body s) as [[a | v' | e] s1]; cbn [fst] in *.
    + discriminate.
    + exact (Nb v).
    + apply Hh.
Qed.

(** *** Rules for [observes] *)

Lemma obs_weaken {A} (w : G) (m : M W A) (R R' : ctl A -> G -> Prop) :
  observes step g0 w m R -> (forall c w', R c w' -> R' c w') -> observes step g0 w m R'.
Proof.
  intros H HR s Hs. destruct (H s Hs) as (w' & Hw & Hc). eauto.
Qed.

Lemma obs_bind {A B} (w : G) (m : M W A) (k : A -> M W B)
      (R1 : ctl A -> G -> Prop) (R : ctl B -> G -> Prop) :
  observes step g0 w m R1 ->
  (forall a w1, R1 (Next a) w1 -> observes step g0 w1 (k a) R) ->
  (forall v w1, R1 (Return v) w1 -> R (Return v) w1) ->
  (forall e w1, R1 (Raise e) w1 -> R (Raise e) w1) ->
  observes step g0 w (bind m k) R.
Proof.
  intros Hm Hk Hv He s Hs. destruct (Hm s Hs) as (w1 & Hw1 & H1).
  unfold bind. destruct (m s) as [[a | v | e] s1]; cbn [fst snd] in *.
  - exact (Hk a w1 H1 s1 Hw1).
  - exists w1. auto.
  - exists w1. auto.
Qed.

Lemma obs_ret {A} (w : G) (a : A) (R : ctl A -> G -> Prop) :
  R (Next a) w -> observes step g0 w (ret a : M W A) R.
Proof. intros H s Hs. exists w. auto. Qed.

Lemma obs_return {A} (w : G) (v : pyval) (R : ctl A -> G -> Prop) :
  R (Return v) w -> observes step g0 w (return_ v : M W A) R.
Proof. intros H s Hs. exists w. auto. Qed.

Lemma obs_bind_ret {A B} (w : G) (a : A) (k : A -> M W B)
      (R : ctl B -> G -> Prop) :
  observes step g0 w (k a) R -> observes step g0 w (bind (ret a) k) R.
Proof. intros H s Hs. exact (H s Hs). Qed.

Lemma obs_bind_return {A B} (w : G) (v : pyval) (k : A -> M W B)
      (R : ctl B -> G -> Prop) :
  R (Return v) w -> observes step g0 w (bind (return_ v) k) R.
Proof. intros H s Hs. exists w. auto. Qed.

Lemma obs_bind_assoc {A B C} (w : G) (m : M W A) (k : A -> M W B)
      (h : B -> M W C) (R : ctl C -> G -> Prop) :
  observes step g0 w (bind m (fun a => bind (k a) h)) R ->
  observes step g0 w (bind (bind m k) h) R.
Proof.
  intros H s Hs. rewrite run_bind_assoc. exact (H s Hs).
Qed.

Lemma obs_bind_lift {A B} (w : G) (r : res A) (k : A -> M W B)
      (R : ctl B -> G -> Prop) :
  (forall a, r = inr a -> observes step g0 w (k a) R) ->
  (forall e, r = inl e -> R (Raise e) w) ->
  observes step g0 w (bind (lift r) k) R.
Proof.
  intros Hk He s Hs. rewrite run_bind_lift. destruct r as [e | a].
  - exists w. split; [exact Hs | exact (He e eq_refl)].
  - exact (Hk a eq_refl s Hs).
Qed.

Lemma obs_bind_emit {B} (w w' : G) (e : event) (k : unit -> M W B)
      (R : ctl B -> G -> Prop) :
  step w e w' ->
  observes step g0 w' (k tt) R ->
  observes step g0 w (bind (emit e) k) R.
Proof.
  intros Hstep Hk s Hs. rewrite run_bind_emit. apply Hk.
  cbn [logged log]. eapply accepted_cons; eassumption.
Qed.

Lemma obs_bind_print {B} (w w' : G) (m : message) (k : unit -> M W B)
      (R : ctl B -> G -> Prop) :
  step w (EvPrint m) w' ->
  observes step g0 w' (k tt) R ->
  observes step g0 w (bind (print m) k) R.
Proof. apply obs_bind_emit. Qed.

Lemma obs_bind_set_locals {B} (w : G) (f : frame -> frame)
      (k : unit -> M W B) (R : ctl B -> G -> Prop) :
  observes step g0 w (k tt) R -> observes step g0 w (bind (set_locals f) k) R.
Proof. intros Hk s Hs. apply Hk. exact Hs. Qed.

Lemma obs_bind_ask {A B} (w : G) (op : W -> A * W) (ev : A -> event)
      (k : A -> M W B) (R : ctl B -> G -> Prop) :
  (forall a, exists w', step w (ev a) w' /\ observes step g0 w' (k a) R) ->
  observes step g0 w (bind (ask op ev) k) R.
Proof.
  intros H s Hs. unfold bind, ask. destruct (op (world s)) as [a w1].
  destruct (H a) as (w' & Hstep & Hk). apply Hk.
  cbn [log]. eapply accepted_cons; eassumption.
Qed.

Lemma obs_silently {A} (w : G) (m : M W A) (R : ctl A -> G -> Prop) :
  (forall g e, silent e = true -> step g e g) ->
  silently m ->
  (forall a, R (Next a) w) -> (forall e, R (Raise e) w) ->
  observes step g0 w m R.
Proof.
  intros Hstep [Qm Nm] Ha He s Hs. destruct (Qm s) as (new & E & S).
  exists w. split.
  - rewrite E. apply accepted_silent; assumption.
  - specialize (Nm s). destruct (fst (m s)) as [a | v | e]; auto.
    exfalso. apply (Nm v). reflexivity.
Qed.

Lemma obs_bind_silently {A B} (w : G) (m : M W A) (k : A -> M W B)
      (R : ctl B -> G -> Prop) :
  (forall g e, silent e = true -> step g e g) ->
  silently m ->
  (forall a, observes step g0 w (k a) R) ->
  (forall e, R (Raise e) w) ->
  observes step g0 w (bind m k) R.
Proof.
  intros Hstep Hm Hk He.
  apply obs_bind with (R1 := fun c w1 => w1 = w /\ forall v, c <> Return v).
  - apply obs_silently; [exact Hstep | exact Hm | split; [reflexivity | discriminate] ..].
  - intros a w1 [-> _]. apply Hk.
  - intros v w1 [_ H]. exfalso. apply (H v). reflexivity.
  - intros e w1 [-> _]. apply He.
Qed.

Lemma obs_call (w : G) (body : M W unit) (R : ctl pyval -> G -> Prop) :
  observes step g0 w body
    (fun c w' =>
       match c with
       | Next _ => R (Next PNone) w'
       | Return v => R (Next v) w'
       | Raise e => R (Raise e) w'
       end) ->
  observes step g0 w (call body) R.
Proof.
  intros H s Hs. destruct (H s Hs) as (w' & Hw & Hc). exists w'.
  unfold call. destruct (body s) as [[a | v | e] s1]; auto.
Qed.

End Observing.

(** *** Stepping through a computation *)

Create HintDb silently.

Ltac silence_step :=
  first
    [ apply silently_ret
    | apply silently_lift
    | apply silently_print; reflexivity
    | apply silently_ask; intros; reflexivity
    | apply silently_for_each; intros
    | solve [eauto with silently]
    | apply silently_bind; [| intros] ].

Ltac silence := repeat silence_step.

Ltac obs_step :=
  cbv beta zeta;
  lazymatch goal with
  | |- observes _ _ _ (bind (bind _ _) _) _ => apply obs_bind_assoc
  | |- observes _ _ _ (bind (lift _) _) _ =>
      apply obs_bind_lift; [intros ? ? | intros ? ?]
  | |- observes _ _ _ (bind (ret _) _) _ => apply obs_bind_ret
  | |- observes _ _ _ (bind (return_ _) _) _ => apply obs_bind_return
  | |- observes _ _ _ (bind (print _) _) _ =>
      eapply obs_bind_print;
      [ first [ apply watch_step_silent; reflexivity
              | apply ws_announce; reflexivity
              | exact I ] | ]
  | |- observes _ _ _ (bind (set_locals _) _) _ => apply obs_bind_set_locals
  | |- observes _ _ _ (bind (if ?b then _ else _) _) _ => destruct b eqn:?
  | |- observes _ _ _ (return_ _) _ => apply obs_return
  | |- observes _ _ _ (ret _) _ => apply obs_ret
  | |- observes _ _ _ (bind _ _) _ =>
      apply obs_bind_silently;
      [ first [ apply watch_step_silent | intros; exact I ]
      | solve [silence] | intros ? | intros ? ]
  end.

Ltac obs_walk := repeat (obs_step; try solve [cbn; eauto 10]).

Section Walk.

Context {W : Type}.
Variable ops : world_ops W.
Variable P : primitives.

Lemma rpc_call_silently (method : string) (params : list pyval) :
  (forall r, silent (EvHttpPost SUI_RPC (rpc_payload method params) r) = true) ->
  silently (rpc_call ops method params).
Proof.
  intros H. unfold rpc_call. apply silently_bind.
  - apply silently_ask. exact H.
  - intros r. silence.
Qed.

Lemma resolve_suins_silently (name : string) : silently (resolve_suins ops name).
Proof.
  unfold resolve_suins. apply silently_try_except.
  - apply rpc_call_silently. reflexivity.
  - intros e. apply silently_ret.
Qed.

Lemma get_coins_silently (address : string) : silently (get_coins ops address).
Proof. apply rpc_call_silently. reflexivity. Qed.

Lemma build_transfer_tx_silently (sender : string) (recipient : pyval) (amount : Z)
      (coin_id : pyval) (gas_budget : Z) :
  silently (build_transfer_tx ops sender recipient amount coin_id gas_budget).
Proof. apply rpc_call_silently. reflexivity. Qed.

Lemma save_wallet_address_silently (wallet_alias address : string) :
  silently (save_wallet_address ops wallet_alias address).
Proof.
  unfold save_wallet_address. silence.
  destruct a; silence.
Qed.

Lemma print_balance_change_silently (sender : string) (recipient bc : pyval) :
  silently (print_balance_change sender recipient bc : M W unit).
Proof. unfold print_balance_change. silence. Qed.

Lemma print_final_change_silently (bc : pyval) :
  silently (print_final_change bc : M W unit).
Proof. unfold print_final_change. silence. Qed.

End Walk.

#[export] Hint Resolve resolve_suins_silently get_coins_silently
  build_transfer_tx_silently save_wallet_address_silently
  print_balance_change_silently print_final_change_silently : silently.

Lemma reports_success_eq (result effects status : pyval) :
  Py.get result "effects" (PDict []) = inr effects ->
  effects_status effects "status" (PStr "unknown") = inr status ->
  reports_success result = Py.eq_str status "success".
Proof.
  intros H1 H2. unfold reports_success, reported_status.
  rewrite H1. cbn [rbind]. rewrite H2. reflexivity.
Qed.

Lemma get_ok_is_dict (o : pyval) (k : string) (d v : pyval) :
  Py.get o k d = inr v -> exists items, o = PDict items.
Proof.
  destruct o; try discriminate. eauto.
Qed.

Ltac not_an_announcement :=
  let m := fresh "m" in
  let Hm := fresh "Hm" in
  intros m Hm; first [discriminate Hm | injection Hm as <-; reflexivity].

Section Master.

Context {W : Type}.
Variable ops : world_ops W.
Variable P : primitives.
Variable auto : bool.

(** [print_dry_run] prints only, and when it returns, it returns whether
    the result reports success. *)
Lemma print_dry_run_observed (w : watch) (result : pyval) (sender : string)
      (recipient : pyval) (amount_sui : float) :
  observes (watch_step auto) watch_start w
    (print_dry_run result sender recipient amount_sui : M W pyval)
    (fun c w' =>
       w' = w /\
       match c with
       | Next v => v = PBool (reports_success result)
       | Return _ => False
       | Raise _ => True
       end).
Proof.
  unfold print_dry_run. apply obs_call.
  obs_step; [| auto].
  obs_step; [| auto].
  match goal with
  | H1 : Py.get result "effects" _ = inr _, H2 : effects_status _ _ _ = inr ?st |- _ =>
      rewrite (reports_success_eq _ _ _ H1 H2);
      destruct (Py.eq_str st "success") eqn:Hst
  end; obs_walk.
Qed.

(** The dry-run request moves the gate out of [AwaitingSimulation]: to
    [AwaitingConfirmation] when the call returns a result that reports
    success, to [SimulationFailed] otherwise. *)
Lemma obs_bind_dry_run {B} (a : option message) (tx : pyval) (k : pyval -> M W B)
      (R : ctl B -> watch -> Prop) :
  (forall result,
      reports_success result = true ->
      observes (watch_step auto) watch_start {| gate := AwaitingConfirmation tx; announced := a |}
               (k result) R) ->
  (forall result,
      reports_success result = false ->
      observes (watch_step auto) watch_start {| gate := SimulationFailed; announced := a |} (k result) R) ->
  (forall e, R (Raise e) {| gate := SimulationFailed; announced := a |}) ->
  observes (watch_step auto) watch_start {| gate := AwaitingSimulation; announced := a |}
           (bind (dry_run ops tx) k) R.
Proof.
  intros Hok Hfail He. unfold dry_run, rpc_call.
  apply obs_bind_assoc. apply obs_bind_ask. intros r.
  destruct (simulation_succeeded r) eqn:Hr.
  - exists {| gate := AwaitingConfirmation tx; announced := a |}. split.
    + apply ws_gate; [apply gs_simulation_ok; exact Hr | not_an_announcement].
    + unfold simulation_succeeded in Hr.
      destruct r as [e | response]; [discriminate |].
      apply obs_bind_assoc. apply obs_bind_ret. cbv beta.
      destruct (rpc_result response) as [e | result]; [discriminate |].
      apply obs_bind_ret. apply Hok. exact Hr.
  - exists {| gate := SimulationFailed; announced := a |}. split.
    + apply ws_gate; [apply gs_simulation_failed; exact Hr | not_an_announcement].
    + unfold simulation_succeeded in Hr. apply obs_bind_assoc.
      apply obs_bind_lift; [| intros e _; apply He].
      intros response ->. cbv beta.
      apply obs_bind_lift; [| intros e _; apply He].
      intros result Hres. rewrite Hres in Hr. apply Hfail. exact Hr.
Qed.

(** The prompt, reached only without the directive, moves the gate out
    of [AwaitingConfirmation]. *)
Lemma obs_bind_prompt {B} (a : option message) (tx : pyval)
      (k : res string -> M W B) (R : ctl B -> watch -> Prop) :
  auto = false ->
  (forall answer,
      confirms answer = true ->
      observes (watch_step auto) watch_start {| gate := Confirmed tx; announced := a |} (k (inr answer)) R) ->
  (forall r,
      (forall answer, r = inr answer -> confirms answer = false) ->
      observes (watch_step auto) watch_start {| gate := Cancelled; announced := a |} (k r) R) ->
  observes (watch_step auto) watch_start {| gate := AwaitingConfirmation tx; announced := a |}
           (bind (ask (console_input ops) EvInput) k) R.
Proof.
  intros Hauto Hyes Hno. apply obs_bind_ask. intros r.
  destruct r as [e | answer].
  - exists {| gate := Cancelled; announced := a |}.
    split; [| apply Hno; discriminate].
    apply ws_gate; [| not_an_announcement].
    apply gs_not_affirmative; [exact Hauto | discriminate].
  - destruct (confirms answer) eqn:Hc.
    + exists {| gate := Confirmed tx; announced := a |}.
      split; [| apply Hyes; exact Hc].
      apply ws_gate; [| not_an_announcement].
      apply gs_affirmative; assumption.
    + exists {| gate := Cancelled; announced := a |}.
      assert (H : forall x, @inr exn string answer = inr x -> confirms x = false)
        by (intros x Hx; injection Hx as <-; exact Hc).
      split; [| apply Hno; exact H].
      apply ws_gate; [| not_an_announcement].
      apply gs_not_affirmative; assumption.
Qed.

(** [sign_and_execute] enters the signer from [Confirmed] and, unless
    decoding or signing raises, broadcasts. *)
Lemma obs_bind_sign_and_execute {B} (a : option message) (tx : pyval)
      (seed : bytes) (scheme : Z) (k : pyval -> M W B)
      (R : ctl B -> watch -> Prop) :
  (forall response result,
      rpc_result response = inr result ->
      observes (watch_step auto) watch_start {| gate := Broadcast (inr response); announced := a |}
               (k result) R) ->
  (forall e, R (Raise e) {| gate := SignerInvoked tx; announced := a |}) ->
  (forall e r, R (Raise e) {| gate := Broadcast r; announced := a |}) ->
  observes (watch_step auto) watch_start {| gate := Confirmed tx; announced := a |}
           (bind (sign_and_execute ops P tx seed scheme) k) R.
Proof.
  intros Hk Hs Hb. unfold sign_and_execute.
  apply obs_bind_assoc. eapply obs_bind_emit.
  { apply ws_gate; [apply gs_sign | not_an_announcement]. }
  apply obs_bind_assoc. apply obs_bind_lift; [| intros e _; apply Hs].
  intros tx_bytes _. cbv beta.
  apply obs_bind_assoc. apply obs_bind_lift; [| intros e _; apply Hs].
  intros sig _. cbv beta zeta. unfold rpc_call.
  apply obs_bind_assoc. apply obs_bind_ask. intros r.
  exists {| gate := Broadcast r; announced := a |}. split.
  - apply ws_gate; [apply gs_broadcast | not_an_announcement].
  - apply obs_bind_assoc. apply obs_bind_lift; [| intros e _; apply Hb].
    intros response ->. cbv beta.
    apply obs_bind_lift; [| intros e _; apply Hb].
    intros result Hres. apply Hk. exact Hres.
Qed.

(** The [finally] block always completes: it leaves both secret locals
    unbound and logs the notice. *)
Lemma clear_secrets_run (s : state W) :
  clear_secrets s =
  (Next tt, {| world := world s;
               log := EvPrint MsgKeyCleared :: log s;
               locals := {| v_privkey := Unbound; v_seed := Unbound |} |}).
Proof. reflexivity. Qed.

Lemma try_finally_clear_run {A} (body : M W A) (s : state W) :
  try_finally body clear_secrets s =
  (fst (body s),
   {| world := world (snd (body s));
      log := EvPrint MsgKeyCleared :: log (snd (body s));
      locals := {| v_privkey := Unbound; v_seed := Unbound |} |}).
Proof.
  unfold try_finally. destruct (body s) as [c s1]. rewrite clear_secrets_run.
  reflexivity.
Qed.

Lemma obs_try_finally_clear {A} (w : watch) (body : M W A)
      (R : ctl A -> watch -> Prop) :
  observes (watch_step auto) watch_start w body R -> observes (watch_step auto) watch_start w (try_finally body clear_secrets) R.
Proof.
  intros H s Hs. destruct (H s Hs) as (w' & Hw & Hc).
  rewrite try_finally_clear_run. exists w'. split; [| exact Hc].
  cbn [snd log]. eapply accepted_cons; [exact Hw |].
  apply watch_step_silent. reflexivity.
Qed.

(** The setup leaves the gate untouched; it goes on only with a
    non-empty key. *)
Lemma transfer_setup_observed (wallet_alias recipient : string)
      (amount_sui : float) :
  observes (watch_step auto) watch_start watch_start
    (transfer_setup ops wallet_alias recipient amount_sui)
    (fun c w' =>
       match c with
       | Next (_, _, k) => w' = watch_start /\ k <> ""
       | _ => fits_body c w'
       end).
Proof.
  unfold transfer_setup, watch_start. obs_walk.
  all: match goal with
       | |- observes _ _ _ (match ?x with Some _ => _ | None => _ end) _ =>
           destruct x as [k |]; [| obs_walk]
       end.
  all: destruct (String.eqb_spec k ""); obs_walk.
Qed.

(** Up to the verdict: the gate is passed, towards the confirmation,
    exactly when the simulation succeeded. *)
Lemma transfer_simulate_observed (wallet_alias : string) (recipient : pyval)
      (amount_sui : float) (amount_mist : Z) (privkey : string) :
  observes (watch_step auto) watch_start watch_start
    (transfer_simulate ops P wallet_alias recipient amount_sui amount_mist privkey)
    (fun c w' =>
       match c with
       | Next (_, _, tx) =>
           w' = {| gate := AwaitingConfirmation tx; announced := None |}
       | _ => fits_body c w' /\
              (gate w' = AwaitingSimulation \/ gate w' = SimulationFailed \/
               exists tx e, gate w' = AwaitingConfirmation tx /\ c = Raise e)
       end).
Proof.
  unfold transfer_simulate, watch_start.
  obs_step; [| cbn; auto].
  match goal with
  | a : key_info |- _ => destruct a as [[[seed scheme] pk] sender]
  end.
  do 12 (obs_step; try solve [cbn; eauto 10]).
  obs_walk.
  apply obs_bind_dry_run; [| | cbn; auto].
  - intros dry_result Hok.
    eapply obs_bind; [apply print_dry_run_observed | | cbn; tauto |].
    + intros ok_ w1 [-> ->]. rewrite Hok. cbn [Py.truthy negb]. obs_walk.
    + intros e w1 [-> _]. cbn. eauto 10.
  - intros dry_result Hfail.
    eapply obs_bind; [apply print_dry_run_observed | | cbn; tauto |].
    + intros ok_ w1 [-> ->]. rewrite Hfail. cbn [Py.truthy negb]. obs_walk.
    + intros e w1 [-> _]. cbn. eauto 10.
Qed.

(** From the confirmation on: the gate never falls back, and a result is
    returned only after the broadcast. *)
Lemma transfer_execute_observed (seed : bytes) (scheme : Z) (tx : pyval) :
  observes (watch_step auto) watch_start {| gate := AwaitingConfirmation tx; announced := None |}
    (transfer_execute ops P auto seed scheme tx)
    (fun c w' =>
       fits_body c w' /\
       gate w' <> AwaitingSimulation /\ gate w' <> SimulationFailed).
Proof.
  generalize (eq_refl auto). generalize auto at 1 4. intros b Hauto.
  unfold transfer_execute. destruct b; cbn [negb].
  - eapply obs_bind_print.
    { apply ws_gate; [apply gs_auto_confirm; congruence | not_an_announcement]. }
    obs_step.
    apply obs_bind_sign_and_execute;
      [| cbn; intuition discriminate | cbn; intuition discriminate].
    intros response result Hres. obs_walk;
      try solve [cbn; intuition discriminate].
    cbn. split; [| split; discriminate]. split; [reflexivity |].
    match goal with
    | Hg : Py.get result "effects" _ = inr _ |- _ =>
        destruct (get_ok_is_dict _ _ _ _ Hg) as [items ->]
    end. eauto.
  - apply obs_bind_assoc. apply obs_bind_prompt; [congruence | |].
    + intros answer Hyes. obs_step. obs_step; [| discriminate].
      match goal with
      | Ha : inr answer = inr _ |- _ => injection Ha as <-
      end. rewrite Hyes. cbn [negb]. obs_step. obs_step.
      apply obs_bind_sign_and_execute;
        [| cbn; intuition discriminate | cbn; intuition discriminate].
      intros response result Hres. obs_walk;
        try solve [cbn; intuition discriminate].
      cbn. split; [| split; discriminate]. split; [reflexivity |].
      match goal with
      | Hg : Py.get result "effects" _ = inr _ |- _ =>
          destruct (get_ok_is_dict _ _ _ _ Hg) as [items ->]
      end. eauto.
    + intros r Hno. obs_step.
      obs_step; [| cbn; intuition discriminate].
      match goal with
      | Ha : r = inr _ |- _ => rewrite (Hno _ Ha)
      end. cbn [negb]. obs_walk. cbn. intuition discriminate.
Qed.

Lemma transfer_try_observed (wallet_alias : string) (recipient : pyval)
      (amount_sui : float) (amount_mist : Z) (privkey : string) :
  observes (watch_step auto) watch_start watch_start
    (transfer_try ops P wallet_alias recipient amount_sui amount_mist auto privkey)
    fits_body.
Proof.
  unfold transfer_try.
  eapply obs_bind; [apply transfer_simulate_observed | | |]; cbv beta.
  - intros [[seed scheme] tx] w1 ->.
    eapply obs_weaken; [apply transfer_execute_observed |].
    cbv beta. tauto.
  - intros v w1 [H _]. exact H.
  - intros e w1 [H _]. exact H.
Qed.

(** Every run of [transfer] is accepted by the observer, and ends as
    the final state of the observer allows. *)
Lemma transfer_observed (wallet_alias recipient : string) (amount_sui : float) :
  observes (watch_step auto) watch_start watch_start
    (transfer ops P wallet_alias recipient amount_sui auto) fits.
Proof.
  unfold transfer. apply obs_call. fold (@fits_body unit).
  eapply obs_bind; [apply transfer_setup_observed | | |]; cbv beta.
  - intros [[amount_mist recipient'] k] w1 [-> _].
    apply obs_try_finally_clear. apply transfer_try_observed.
  - intros v w1 H. exact H.
  - intros e w1 H. exact H.
Qed.

End Master.

(* ===================================================================== *)
(** * What an accepted log tells *)
(* ===================================================================== *)

Lemma accepted_app_inv {G : Type} (step : G -> event -> G -> Prop) (g0 : G)
      (post pre : list event) (g : G) :
  accepted step g0 (post ++ pre) g ->
  exists g1, accepted step g0 pre g1 /\ accepted step g1 post g.
Proof.
  revert g. induction post as [| e post IH]; cbn [app]; intros g H.
  - exists g. split; [exact H | constructor].
  - inversion H as [| l g' e' g'' Hl Hstep]; subst.
    destruct (IH _ Hl) as (g1 & Hpre & Hpost).
    exists g1. split; [exact Hpre | econstructor; eassumption].
Qed.

Lemma accepted_cons_inv {G : Type} (step : G -> event -> G -> Prop) (g0 : G)
      (e : event) (l : list event) (g : G) :
  accepted step g0 (e :: l) g -> exists g1, accepted step g0 l g1 /\ step g1 e g.
Proof.
  intros H. inversion H; subst. eauto.
Qed.

Lemma rev_eq_app_cons {A : Type} (l before after : list A) (x : A) :
  rev l = before ++ x :: after -> l = rev after ++ x :: rev before.
Proof.
  intros H. rewrite <- (rev_involutive l), H, rev_app_distr. cbn [rev].
  rewrite <- app_assoc. reflexivity.
Qed.

Lemma simulated_cons (tx : pyval) (e : event) (l : list event) :
  simulated tx l -> simulated tx (e :: l).
Proof.
  intros (p1 & r & p2 & -> & Hr). exists (e :: p1), r, p2. auto.
Qed.

Lemma simulated_rev (tx : pyval) (l : list event) :
  simulated tx (rev l) ->
  exists b1 r b2, l = b1 ++ dry_run_request tx r :: b2 /\
                  simulation_succeeded r = true.
Proof.
  intros (p1 & r & p2 & H & Hr). apply rev_eq_app_cons in H.
  exists (rev p2), r, (rev p1). auto.
Qed.

Section GateFacts.

Variable auto : bool.

Lemma announcement_is_neutral (m : message) :
  failure_message m = true -> gate_neutral (EvPrint m) = true.
Proof. destruct m; cbn; congruence. Qed.

(** A step of the observer is a step of the gate, or an announcement
    that leaves the gate where it is. *)
Lemma watch_step_gate (w w' : watch) (e : event) :
  watch_step auto w e w' -> gate_step auto (gate w) e (gate w').
Proof.
  intros H. destruct H as [g g' a e Hg _ | g a m Hm]; cbn [gate].
  - exact Hg.
  - apply gs_neutral. apply announcement_is_neutral. exact Hm.
Qed.

Lemma gate_step_neutral_inv (g g' : gate_state) (e : event) :
  gate_step auto g e g' -> gate_neutral e = true -> g' = g.
Proof.
  intros H Hn. destruct H; try reflexivity; cbn in Hn; discriminate.
Qed.

Lemma gate_step_signer_inv (g g' : gate_state) (tx : pyval) (seed : bytes)
      (scheme : Z) :
  gate_step auto g (EvSignerEntered tx seed scheme) g' ->
  g = Confirmed tx /\ g' = SignerInvoked tx.
Proof.
  intros H. inversion H; subst; try (cbn in *; discriminate). auto.
Qed.

Lemma gate_step_dry_run_inv (g g' : gate_state) (url : string)
      (payload : pyval) (r : res pyval) :
  gate_step auto g (EvHttpPost url payload r) g' ->
  method_is "sui_dryRunTransactionBlock" payload = true ->
  g = AwaitingSimulation /\
  exists tx,
    EvHttpPost url payload r = dry_run_request tx r /\
    g' = if simulation_succeeded r then AwaitingConfirmation tx else SimulationFailed.
Proof.
  intros H Hm. inversion H as [g1 e1 Hn | tx r1 Hr | tx r1 Hr | | | | | tx sig r1]; subst.
  - cbn in Hn. rewrite Hm in Hn. discriminate.
  - split; [reflexivity |]. exists tx. rewrite Hr. auto.
  - split; [reflexivity |]. exists tx. rewrite Hr. auto.
  - cbn in Hm. discriminate.
Qed.

Lemma gate_step_execute_inv (g g' : gate_state) (url : string)
      (payload : pyval) (r : res pyval) :
  gate_step auto g (EvHttpPost url payload r) g' ->
  method_is "sui_executeTransactionBlock" payload = true ->
  (exists tx, g = SignerInvoked tx) /\ g' = Broadcast r.
Proof.
  intros H Hm. inversion H as [g1 e1 Hn | tx r1 Hr | tx r1 Hr | | | | | tx sig r1]; subst.
  - cbn in Hn. rewrite Hm in Hn. rewrite andb_false_r in Hn. discriminate.
  - cbn in Hm. discriminate.
  - cbn in Hm. discriminate.
  - eauto.
Qed.

Lemma gate_step_prompt_inv (g g' : gate_state) (r : res string) :
  gate_step auto g (EvInput r) g' -> auto = false.
Proof.
  intros H. inversion H; try (cbn in *; discriminate); assumption.
Qed.

Lemma gate_step_auto_confirm_inv (g g' : gate_state) :
  gate_step auto g (EvPrint MsgAutoConfirm) g' ->
  auto = true /\ exists tx, g = AwaitingConfirmation tx.
Proof.
  intros H. inversion H; subst; try (cbn in *; discriminate); eauto.
Qed.

Lemma gate_history_neutral (g : gate_state) (e : event) (l : list event) :
  gate_neutral e = true -> gate_history g l -> gate_history g (e :: l).
Proof.
  intros Hn. destruct g; cbn [gate_history forallb].
  - intros ->. rewrite Hn. reflexivity.
  - auto.
  - apply simulated_cons.
  - apply simulated_cons.
  - auto.
  - intros [Hs (seed & scheme & Hin)]. split; [apply simulated_cons; exact Hs |].
    exists seed, scheme. right. exact Hin.
  - intros [(tx & seed & scheme & Hin) (tx' & sig & Hin')]. split.
    + exists tx, seed, scheme. right. exact Hin.
    + exists tx', sig. right. exact Hin'.
Qed.

Lemma watched_history (l : list event) (w : watch) :
  watched auto l w -> gate_history (gate w) l.
Proof.
  unfold watched. intros H. induction H as [| l w e w' Hl IH Hstep].
  - reflexivity.
  - apply watch_step_gate in Hstep.
    destruct Hstep as [g e Hn | tx r Hr | tx r Hr | tx Ha | tx answer Ha Hc
                       | tx r Ha Hc | tx seed scheme | tx sig r].
    + apply gate_history_neutral; assumption.
    + exact I.
    + exists [], r, l. auto.
    + apply simulated_cons. exact IH.
    + apply simulated_cons. exact IH.
    + exact I.
    + cbn [gate_history] in *. split; [apply simulated_cons; exact IH |].
      exists seed, scheme. left. reflexivity.
    + cbn [gate_history] in *. destruct IH as [_ (seed & scheme & Hin)]. split.
      * exists tx, seed, scheme. right. exact Hin.
      * exists tx, sig. left. reflexivity.
Qed.

(** A failed simulation is terminal: the gate stays there and nothing
    but neutral events follows. *)
Lemma failed_is_terminal (w1 w : watch) (post : list event) :
  accepted (watch_step auto) w1 post w ->
  gate w1 = SimulationFailed ->
  gate w = SimulationFailed /\ forallb gate_neutral post = true.
Proof.
  intros H Hw1. induction H as [| l w e w' Hl IH Hstep].
  - auto.
  - destruct IH as [Hg Hn]. apply watch_step_gate in Hstep. rewrite Hg in Hstep.
    inversion Hstep as [g1 e1 Hne | | | | | | |]; subst.
    cbn [forallb]. rewrite Hne, Hn. auto.
Qed.

(** Past the gate there is no way back. *)
Lemma neutral_event_facts (e : event) :
  gate_neutral e = true ->
  is_signer_entry e = false /\
  is_request "sui_executeTransactionBlock" e = false /\
  is_request "sui_dryRunTransactionBlock" e = false /\
  is_prompt e = false.
Proof.
  destruct e; cbn; try (intros; repeat split; congruence).
  intros H. apply andb_prop in H. destruct H as [H1 H2].
  apply negb_true_iff in H1, H2. auto.
Qed.

(** The log of a run in which a simulation failed: the gate ended in
    [SimulationFailed], and every other event is neutral. *)
Lemma failed_simulation_log (l : list event) (w : watch) (url : string)
      (payload : pyval) (r : res pyval) :
  watched auto l w ->
  In (EvHttpPost url payload r) l ->
  method_is "sui_dryRunTransactionBlock" payload = true ->
  simulation_succeeded r = false ->
  gate w = SimulationFailed /\
  forall e, In e l ->
            is_signer_entry e = false /\
            is_request "sui_executeTransactionBlock" e = false /\
            is_prompt e = false.
Proof.
  intros Hw Hin Hm Hr. apply in_split in Hin. destruct Hin as (post & pre & ->).
  apply accepted_app_inv in Hw. destruct Hw as (w2 & Hpre & Hpost).
  apply accepted_cons_inv in Hpre. destruct Hpre as (w1 & Hpre & Hstep).
  apply watch_step_gate in Hstep.
  destruct (gate_step_dry_run_inv _ _ _ _ _ Hstep Hm) as (Hg1 & tx & He & Hg2).
  rewrite Hr in Hg2.
  destruct (failed_is_terminal _ _ _ Hpost Hg2) as [Hg Hn].
  split; [exact Hg |].
  pose proof (watched_history _ _ Hpre) as Hh. rewrite Hg1 in Hh.
  cbn [gate_history] in Hh. intros e Hin.
  apply in_app_or in Hin. destruct Hin as [Hin | [<- | Hin]].
  - rewrite forallb_forall in Hn. specialize (Hn e Hin).
    apply neutral_event_facts in Hn. tauto.
  - rewrite He. cbn. auto.
  - rewrite forallb_forall in Hh. specialize (Hh e Hin).
    apply neutral_event_facts in Hh. tauto.
Qed.

Lemma watched_announced (l : list event) (w : watch) (m : message) :
  watched auto l w -> announced w = Some m ->
  In (EvPrint m) l /\ failure_message m = true.
Proof.
  unfold watched. intros H. induction H as [| l w e w' Hl IH Hstep].
  - discriminate.
  - destruct Hstep as [g g' a e Hg _ | g a m' Hm]; cbn [announced] in *.
    + intros Ha. destruct (IH Ha). split; [right |]; assumption.
    + intros Ha. injection Ha as ->. split; [left; reflexivity | exact Hm].
Qed.

End GateFacts.

(** Under the auto-confirm directive no log with a prompt is accepted. *)
Lemma no_prompt_under_directive (w0 w : watch) (l : list event) :
  accepted (watch_step true) w0 l w ->
  forall e, In e l -> is_prompt e = false.
Proof.
  intros H. induction H as [| l w e w' Hl IH Hstep]; intros e' Hin.
  - destruct Hin.
  - destruct Hin as [<- | Hin]; [| apply IH; exact Hin].
    destruct e; try reflexivity.
    apply watch_step_gate, gate_step_prompt_inv in Hstep. discriminate.
Qed.

(* ===================================================================== *)
(** * Properties: the gate before the signer *)
(* ===================================================================== *)

Lemma transfer_run_watched {W : Type} (ops : world_ops W) (P : primitives)
      (auto_confirm : bool) (wallet_alias recipient : string)
      (amount_sui : float) (w0 : W) :
  exists w,
    watched auto_confirm
      (log (snd (transfer ops P wallet_alias recipient amount_sui auto_confirm
                          (initial_state w0)))) w /\
    fits (fst (transfer ops P wallet_alias recipient amount_sui auto_confirm
                        (initial_state w0))) w.
Proof.
  apply (transfer_observed ops P auto_confirm wallet_alias recipient amount_sui
           (initial_state w0)).
  constructor.
Qed.

Lemma fits_failed (c : ctl pyval) (w : watch) :
  fits c w -> gate w = SimulationFailed ->
  c = Next PNone \/ exists e, c = Raise e.
Proof.
  intros Hf Hg. destruct c as [v | v | e]; cbn in Hf.
  - rewrite Hg in Hf. destruct Hf as [-> _]. auto.
  - destruct Hf.
  - eauto.
Qed.

(** In a run of [transfer] the signer is entered only after a dry run of
    the transaction it signs that answered with the status success. *)
Lemma signer_follows_simulation
      {W : Type} (ops : world_ops W) (P : primitives)
      (wallet_alias recipient : string) (amount_sui : float)
      (auto_confirm : bool) (w0 : W) :
  forall before after tx seed scheme,
    trace_of (snd (transfer ops P wallet_alias recipient amount_sui auto_confirm
                            (initial_state w0))) =
    before ++ EvSignerEntered tx seed scheme :: after ->
    exists b1 r b2,
      before = b1 ++ dry_run_request tx r :: b2 /\
      simulation_succeeded r = true.
Proof.
  destruct (transfer_run_watched ops P auto_confirm wallet_alias recipient
              amount_sui w0) as (w & Hw & _).
  unfold trace_of. intros before after tx seed scheme Htr.
  apply rev_eq_app_cons in Htr. rewrite Htr in Hw.
  apply accepted_app_inv in Hw. destruct Hw as (w2 & Hpre & _).
  apply accepted_cons_inv in Hpre. destruct Hpre as (w1 & Hpre & Hstep).
  apply watch_step_gate, gate_step_signer_inv in Hstep. destruct Hstep as [Hg _].
  pose proof (watched_history _ _ _ Hpre) as Hh. rewrite Hg in Hh.
  apply simulated_rev. exact Hh.
Qed.

(** A run of [transfer] whose dry run did not report success ends with
    [None] or an exception, and calls neither the signer nor the
    executor. *)
Lemma failed_simulation_ends_run
      {W : Type} (ops : world_ops W) (P : primitives)
      (wallet_alias recipient : string) (amount_sui : float)
      (auto_confirm : bool) (w0 : W) :
  forall url payload r,
    In (EvHttpPost url payload r)
       (trace_of (snd (transfer ops P wallet_alias recipient amount_sui
                                auto_confirm (initial_state w0)))) ->
    method_is "sui_dryRunTransactionBlock" payload = true ->
    simulation_succeeded r = false ->
    (fst (transfer ops P wallet_alias recipient amount_sui auto_confirm
                   (initial_state w0)) = Next PNone \/
     exists e, fst (transfer ops P wallet_alias recipient amount_sui auto_confirm
                             (initial_state w0)) = Raise e) /\
    forall e,
      In e (trace_of (snd (transfer ops P wallet_alias recipient amount_sui
                                    auto_confirm (initial_state w0)))) ->
      is_signer_entry e = false /\
      is_request "sui_executeTransactionBlock" e = false.
Proof.
  destruct (transfer_run_watched ops P auto_confirm wallet_alias recipient
              amount_sui w0) as (w & Hw & Hfit).
  unfold trace_of. intros url payload r Hin Hm Hr. apply in_rev in Hin.
  destruct (failed_simulation_log _ _ _ _ _ _ Hw Hin Hm Hr) as [Hg Hall].
  split; [exact (fits_failed _ _ Hfit Hg) |].
  intros e He. apply in_rev in He. specialize (Hall e He). tauto.
Qed.

(** C1.  In every run of [transfer], the signer is entered only after a
    dry run of the very transaction it signs answered with the status
    success, and the execute request is sent only after the signer was
    entered; when the dry run of a run reports anything else, [transfer]
    ends with [None] or an exception, and neither the signer nor the
    executor is called. *)
Theorem simulation_gates_signing
        {W : Type} (ops : world_ops W) (P : primitives)
        (wallet_alias recipient : string) (amount_sui : float)
        (auto_confirm : bool) (w0 : W) :
  let run := transfer ops P wallet_alias recipient amount_sui auto_confirm
                      (initial_state w0) in
  let outcome := fst run in
  let trace := trace_of (snd run) in
  (forall before after tx seed scheme,
      trace = before ++ EvSignerEntered tx seed scheme :: after ->
      exists b1 r b2,
        before = b1 ++ dry_run_request tx r :: b2 /\
        simulation_succeeded r = true) /\
  (forall before after url payload r,
      trace = before ++ EvHttpPost url payload r :: after ->
      method_is "sui_executeTransactionBlock" payload = true ->
      exists tx seed scheme, In (EvSignerEntered tx seed scheme) before) /\
  (forall url payload r,
      In (EvHttpPost url payload r) trace ->
      method_is "sui_dryRunTransactionBlock" payload = true ->
      simulation_succeeded r = false ->
      (outcome = Next PNone \/ exists e, outcome = Raise e) /\
      forall e, In e trace ->
                is_signer_entry e = false /\
                is_request "sui_executeTransactionBlock" e = false).
Proof.
  intros run outcome trace.
  destruct (transfer_run_watched ops P auto_confirm wallet_alias recipient
              amount_sui w0) as (w & Hw & Hfit).
  fold run in Hw, Hfit. fold outcome in Hfit.
  split; [| split].
  - exact (signer_follows_simulation ops P wallet_alias recipient amount_sui
             auto_confirm w0).
  - unfold trace, trace_of. intros before after url payload r Htr Hm.
    apply rev_eq_app_cons in Htr. rewrite Htr in Hw.
    apply accepted_app_inv in Hw. destruct Hw as (w2 & Hpre & _).
    apply accepted_cons_inv in Hpre. destruct Hpre as (w1 & Hpre & Hstep).
    apply watch_step_gate in Hstep.
    destruct (gate_step_execute_inv _ _ _ _ _ _ Hstep Hm) as [[tx Hg] _].
    pose proof (watched_history _ _ _ Hpre) as Hh. rewrite Hg in Hh.
    destruct Hh as [_ (seed & scheme & Hin)].
    exists tx, seed, scheme. apply in_rev. exact Hin.
  - exact (failed_simulation_ends_run ops P wallet_alias recipient amount_sui
             auto_confirm w0).
Qed.

(** With and without the directive the two runs are the same run, unless
    the gate was passed. *)
Lemma transfer_same_until_gate {W : Type} (ops : world_ops W) (P : primitives)
      (wallet_alias recipient : string) (amount_sui : float) (s0 : state W) :
  watched true (log s0) watch_start ->
  transfer ops P wallet_alias recipient amount_sui true s0 =
  transfer ops P wallet_alias recipient amount_sui false s0 \/
  exists w,
    watched true
      (log (snd (transfer ops P wallet_alias recipient amount_sui true s0))) w /\
    gate w <> AwaitingSimulation /\ gate w <> SimulationFailed.
Proof.
  intros Hs0.
  destruct (transfer_setup_observed ops true wallet_alias recipient amount_sui
              s0 Hs0) as (w1 & Hw1 & H1).
  unfold transfer, call, bind.
  destruct (transfer_setup ops wallet_alias recipient amount_sui s0)
    as [[[[amount_mist rcp] k] | v | e] s1]; cbn [fst snd] in *;
    [| left; reflexivity | left; reflexivity].
  destruct H1 as [-> _]. rewrite !try_finally_clear_run.
  destruct (transfer_simulate_observed ops P true wallet_alias rcp amount_sui
              amount_mist k s1 Hw1) as (w2 & Hw2 & H2).
  unfold transfer_try, bind.
  destruct (transfer_simulate ops P wallet_alias rcp amount_sui amount_mist k s1)
    as [[[[seed scheme] tx] | v | e] s2]; cbn [fst snd] in *;
    [| left; reflexivity | left; reflexivity].
  right. subst w2.
  destruct (transfer_execute_observed ops P true seed scheme tx s2 Hw2)
    as (w3 & Hw3 & _ & Hn1 & Hn2).
  exists w3. split; [| auto].
  destruct (transfer_execute ops P true seed scheme tx s2) as [c s3].
  destruct c; cbn [fst snd log] in *;
    (eapply accepted_cons; [exact Hw3 | apply watch_step_silent; reflexivity]).
Qed.

(** C2.  With the auto-confirm directive set: the notice of automatic
    confirmation, and the entry into the signer, come only after a dry
    run that succeeded, so the simulation is never skipped; no prompt is
    shown; and when the dry run reports a failure the run is, event for
    event and in its result, the run of the interactive mode, which
    ends with [None] or an exception without entering the signer. *)
Theorem auto_confirm_keeps_gate
        {W : Type} (ops : world_ops W) (P : primitives)
        (wallet_alias recipient : string) (amount_sui : float) (w0 : W) :
  let run_auto := transfer ops P wallet_alias recipient amount_sui true
                           (initial_state w0) in
  let run_prompt := transfer ops P wallet_alias recipient amount_sui false
                             (initial_state w0) in
  let trace := trace_of (snd run_auto) in
  (forall before after,
      trace = before ++ EvPrint MsgAutoConfirm :: after ->
      exists tx b1 r b2,
        before = b1 ++ dry_run_request tx r :: b2 /\
        simulation_succeeded r = true) /\
  (forall before after tx seed scheme,
      trace = before ++ EvSignerEntered tx seed scheme :: after ->
      exists b1 r b2,
        before = b1 ++ dry_run_request tx r :: b2 /\
        simulation_succeeded r = true) /\
  (forall e, In e trace -> is_prompt e = false) /\
  (forall url payload r,
      In (EvHttpPost url payload r) trace ->
      method_is "sui_dryRunTransactionBlock" payload = true ->
      simulation_succeeded r = false ->
      run_auto = run_prompt /\
      (fst run_auto = Next PNone \/ exists e, fst run_auto = Raise e) /\
      forall e, In e trace ->
                is_signer_entry e = false /\
                is_request "sui_executeTransactionBlock" e = false).
Proof.
  intros run_auto run_prompt trace.
  destruct (transfer_run_watched ops P true wallet_alias recipient amount_sui w0)
    as (w & Hw & Hfit).
  fold run_auto in Hw, Hfit.
  pose proof (signer_follows_simulation ops P wallet_alias recipient amount_sui
                true w0) as Hsign.
  pose proof (failed_simulation_ends_run ops P wallet_alias recipient amount_sui
                true w0) as Hfail.
  split; [| split; [exact Hsign | split]].
  - intros before after Htr. unfold trace, trace_of in Htr.
    apply rev_eq_app_cons in Htr. rewrite Htr in Hw.
    apply accepted_app_inv in Hw. destruct Hw as (w2 & Hpre & _).
    apply accepted_cons_inv in Hpre. destruct Hpre as (w1 & Hpre & Hstep).
    apply watch_step_gate, gate_step_auto_confirm_inv in Hstep.
    destruct Hstep as [_ [tx Hg]].
    pose proof (watched_history _ _ _ Hpre) as Hh. rewrite Hg in Hh.
    exists tx. apply simulated_rev. exact Hh.
  - intros e He. unfold trace, trace_of in He. apply in_rev in He.
    exact (no_prompt_under_directive _ _ _ Hw e He).
  - intros url payload r Hin Hm Hr.
    destruct (Hfail url payload r Hin Hm Hr) as [Hout Hnone].
    split; [| split; assumption].
    destruct (transfer_same_until_gate ops P wallet_alias recipient amount_sui
                (initial_state w0)) as [Heq | (w' & Hw' & Hn1 & Hn2)].
    + constructor.
    + exact Heq.
    + exfalso. fold run_auto in Hw'. unfold trace, trace_of in Hin.
      apply in_rev in Hin.
      destruct (failed_simulation_log _ _ _ _ _ _ Hw' Hin Hm Hr) as [Hg _].
      contradiction.
Qed.

(* ===================================================================== *)
(** * Properties: the preview check *)
(* ===================================================================== *)

Lemma accepted_any (l : list event) : accepted any_step tt l tt.
Proof.
  induction l as [| e l IH]; econstructor; [exact IH | exact I].
Qed.

Ltac close_reads :=
  unfold preview_reads;
  repeat (cbn [rbind];
          match goal with
          | H : ?x = inr _ |- context [?x] => rewrite H
          | H : ?x = inl _ |- context [?x] => rewrite H
          end);
  reflexivity.

(** The verdict of [print_dry_run] on a result that does not report
    success: [False], unless one of its reads raises. *)
Lemma print_dry_run_verdict {W : Type} (result : pyval) (sender : string)
      (recipient : pyval) (amount_sui : float) (s : state W) :
  reports_success result = false ->
  fst (print_dry_run result sender recipient amount_sui s) =
  match preview_reads result with
  | inr _ => Next (PBool false)
  | inl e => Raise e
  end.
Proof.
  intros Hfail.
  enough (H : observes any_step tt tt
                (print_dry_run result sender recipient amount_sui : M W pyval)
                (fun c _ => c = match preview_reads result with
                                | inr _ => Next (PBool false)
                                | inl e => Raise e
                                end)).
  { destruct (H s (accepted_any _)) as (_ & _ & Hc). exact Hc. }
  unfold print_dry_run. apply obs_call.
  obs_step; [| close_reads].
  obs_step; [| close_reads].
  match goal with
  | H1 : Py.get result "effects" _ = inr _, H2 : effects_status _ _ _ = inr ?st |- _ =>
      pose proof (reports_success_eq _ _ _ H1 H2) as Hst;
      rewrite Hfail in Hst
  end.
  obs_step; [| close_reads].
  obs_step; [| close_reads].
  obs_step; [| close_reads].
  obs_step; [| close_reads].
  obs_step. rewrite <- Hst. clear Hst.
  repeat (obs_step; try close_reads).
  Unshelve. all: exact tt.
Qed.

(** C10 as amended.  When the result of the dry run does not report the
    status ["success"] (the field absent, of another type, another
    string; the empty object included), the preview check never returns
    [True]: it returns [False] when its reads go through, and raises
    when the result is misshapen; on the empty object it returns
    [False].  In a run of [transfer] that received such a result the
    outcome is [None] or an exception, and the signer is not entered. *)
Theorem failed_preview_blocks_signing
        {W : Type} (ops : world_ops W) (P : primitives) (result : pyval) :
  reports_success result = false ->
  (forall sender recipient amount_sui (s : state W),
      fst (print_dry_run result sender recipient amount_sui s) =
      match preview_reads result with
      | inr _ => Next (PBool false)
      | inl e => Raise e
      end) /\
  (forall sender recipient amount_sui (s : state W),
      fst (print_dry_run (PDict []) sender recipient amount_sui s) =
      Next (PBool false)) /\
  (forall wallet_alias recipient amount_sui auto_confirm w0 url payload response,
      let run := transfer ops P wallet_alias recipient amount_sui auto_confirm
                          (initial_state w0) in
      In (EvHttpPost url payload (inr response)) (trace_of (snd run)) ->
      method_is "sui_dryRunTransactionBlock" payload = true ->
      rpc_result response = inr result ->
      (fst run = Next PNone \/ exists e, fst run = Raise e) /\
      forall e, In e (trace_of (snd run)) -> is_signer_entry e = false).
Proof.
  intros Hfail. split; [| split].
  - intros. apply print_dry_run_verdict. exact Hfail.
  - intros. reflexivity.
  - intros wallet_alias recipient amount_sui auto_confirm w0 url payload response
           run Hin Hm Hres.
    assert (Hr : simulation_succeeded (inr response) = false).
    { unfold simulation_succeeded. rewrite Hres. exact Hfail. }
    pose proof (failed_simulation_ends_run ops P wallet_alias recipient
                  amount_sui auto_confirm w0) as H.
    destruct (H url payload (inr response) Hin Hm Hr) as [Hout Hnone].
    split; [exact Hout |]. intros e He. exact (proj1 (Hnone e He)).
Qed.

(** C10 at the failing result of the scripted scenario. *)
Lemma failed_preview_blocks_signing_witness :
  (fst (run_transfer world_simulation_failed "0xabc" one_cent true) = Next PNone \/
   exists e, fst (run_transfer world_simulation_failed "0xabc" one_cent true) = Raise e) /\
  forall e,
    In e (trace_of (snd (run_transfer world_simulation_failed "0xabc" one_cent true))) ->
    is_signer_entry e = false.
Proof.
  refine (proj2 (proj2 (failed_preview_blocks_signing scripted_ops sized_primitives
                          (dry_result_with status_failure) eq_refl))
            "sui1" "0xabc" one_cent true world_simulation_failed SUI_RPC
            (rpc_payload "sui_dryRunTransactionBlock" [PStr "AAAC"])
            (PDict [("jsonrpc", PStr "2.0"); ("id", PInt 1);
                    ("result", dry_result_with status_failure)])
            _ eq_refl eq_refl).
  vm_compute. do 10 right. left. reflexivity.
Defined.

(** C10 as stated fails: on a result whose status is a string instead
    of an object the preview check does not return [False], it raises. *)
Lemma misshapen_status_raises :
  reports_success misshapen_result = false /\
  fst (print_dry_run misshapen_result "0xa" (PStr "0xb") one_cent
                     (initial_state tt)) = Raise AttributeError /\
  fst (print_dry_run misshapen_result "0xa" (PStr "0xb") one_cent
                     (initial_state tt)) <> Next (PBool false).
Proof.
  split; [reflexivity |]. split; [reflexivity | discriminate].
Qed.

(* ===================================================================== *)
(** * What a run returns *)
(* ===================================================================== *)

Lemma bind_next_inv {W A B : Type} (m : M W A) (k : A -> M W B)
      (s s' : state W) (b : B) :
  bind m k s = (Next b, s') ->
  exists a s1, m s = (Next a, s1) /\ k a s1 = (Next b, s').
Proof.
  unfold bind. destruct (m s) as [[a | v | e] s1]; try discriminate. eauto.
Qed.

(** When the setup goes on, it is with a non-empty key, held by the
    local [privkey]. *)
Lemma transfer_setup_next {W : Type} (ops : world_ops W)
      (wallet_alias recipient : string) (amount_sui : float) (s0 s1 : state W)
      (amount_mist : Z) (rcp : pyval) (k : string) :
  transfer_setup ops wallet_alias recipient amount_sui s0 =
    (Next (amount_mist, rcp, k), s1) ->
  k <> "" /\ v_privkey (locals s1) = BoundStr k.
Proof.
  unfold transfer_setup. intros H.
  apply bind_next_inv in H. destruct H as (a1 & t1 & _ & H).
  apply bind_next_inv in H. destruct H as (a2 & t2 & _ & H).
  apply bind_next_inv in H. destruct H as (a3 & t3 & _ & H).
  apply bind_next_inv in H. destruct H as (a4 & t4 & _ & H).
  apply bind_next_inv in H. destruct H as (privkey & t5 & _ & H).
  apply bind_next_inv in H. destruct H as (a6 & t6 & Hset & H).
  destruct privkey as [k' |]; [| discriminate H].
  destruct (String.eqb_spec k' ""); [discriminate H |].
  injection H as _ _ -> ->. split; [assumption |].
  injection Hset as _ <-. reflexivity.
Qed.

(** A run of [transfer] ends by returning a value or by an exception;
    when it returns [None] a failure was announced, and any other value
    it returns is the result of the execute call. *)
Lemma returned_values
      {W : Type} (ops : world_ops W) (P : primitives)
      (wallet_alias recipient : string) (amount_sui : float)
      (auto_confirm : bool) (w0 : W) :
  let run := transfer ops P wallet_alias recipient amount_sui auto_confirm
                      (initial_state w0) in
  let outcome := fst run in
  let trace := trace_of (snd run) in
  ((exists v, outcome = Next v) \/ (exists e, outcome = Raise e)) /\
  (outcome = Next PNone ->
   exists m, In (EvPrint m) trace /\ failure_announcement m) /\
  (forall v,
      outcome = Next v -> v <> PNone ->
      exists payload response,
        In (EvHttpPost SUI_RPC payload (inr response)) trace /\
        method_is "sui_executeTransactionBlock" payload = true /\
        rpc_result response = inr v).
Proof.
  intros run outcome trace.
  destruct (transfer_run_watched ops P auto_confirm wallet_alias recipient
              amount_sui w0) as (w & Hw & Hfit).
  fold run in Hw, Hfit. fold outcome in Hfit.
  split; [| split].
  - destruct outcome as [v | v | e]; [eauto | destruct Hfit | eauto].
  - intros Hout. rewrite Hout in Hfit. cbn in Hfit.
    assert (Ha : exists m, announced w = Some m /\ failure_announcement m).
    { unfold failure_announcement.
      destruct (gate w); try contradiction.
      - destruct Hfit as [_ [H | [H | [name H]]]]; eauto 10.
      - destruct Hfit as [_ H]. eauto 10.
      - destruct Hfit as [_ H]. eauto 10.
      - destruct Hfit as [_ (response & d & _ & _ & Hd)]. discriminate Hd. }
    destruct Ha as (m & Ha & Hm). exists m. split; [| exact Hm].
    unfold trace, trace_of. rewrite <- in_rev.
    exact (proj1 (watched_announced _ _ _ _ Hw Ha)).
  - intros v Hout Hv. rewrite Hout in Hfit. cbn in Hfit.
    pose proof (watched_history _ _ _ Hw) as Hh.
    destruct (gate w); try contradiction;
      try (destruct Hfit as [Hnone _]; contradiction).
    destruct Hfit as [_ (response & d & -> & Hres & _)].
    destruct Hh as [_ (tx & sig & Hin)].
    exists (rpc_payload "sui_executeTransactionBlock" (execute_params tx sig)),
      response.
    split; [unfold trace, trace_of; rewrite <- in_rev; exact Hin |].
    split; [reflexivity | exact Hres].
Qed.

(** A key that does not decode ends the run with the exception of the
    decoder. *)
Lemma undecodable_key_ends_run
      {W : Type} (ops : world_ops W) (P : primitives)
      (wallet_alias recipient : string) (amount_sui : float)
      (auto_confirm : bool) (s0 s1 : state W)
      (amount_mist : Z) (rcp : pyval) (k : string) (e : exn) :
  transfer_setup ops wallet_alias recipient amount_sui s0 =
    (Next (amount_mist, rcp, k), s1) ->
  get_address_from_key P k = inl e ->
  fst (transfer ops P wallet_alias recipient amount_sui auto_confirm s0) = Raise e.
Proof.
  intros Hsetup Hkey.
  unfold transfer, call, bind. rewrite Hsetup.
  rewrite try_finally_clear_run. cbn [fst].
  unfold transfer_try, transfer_simulate.
  rewrite run_bind_assoc, run_bind_lift, Hkey. reflexivity.
Qed.

(* ===================================================================== *)
(** * Properties: the lifetime of the secret *)
(* ===================================================================== *)

(** X27.  Once [transfer] holds the key, that is once the setup went on
    into the [try] with the local [privkey] bound to it, the [finally]
    block runs on every way out of the body: normal end, [return] (on a
    failed simulation, a refusal, no coin, or with the result) or
    exception.  It runs last, leaves the locals [privkey] and [seed]
    unbound, and keeps the way the body ended. *)
Theorem secrets_released_on_every_exit
        {W : Type} (ops : world_ops W) (P : primitives)
        (wallet_alias recipient : string) (amount_sui : float)
        (auto_confirm : bool) (s0 s1 : state W)
        (amount_mist : Z) (rcp : pyval) (k : string) :
  transfer_setup ops wallet_alias recipient amount_sui s0 =
    (Next (amount_mist, rcp, k), s1) ->
  let body := transfer_try ops P wallet_alias rcp amount_sui amount_mist
                           auto_confirm k s1 in
  let run := transfer ops P wallet_alias recipient amount_sui auto_confirm s0 in
  k <> "" /\
  v_privkey (locals s1) = BoundStr k /\
  locals (snd run) = {| v_privkey := Unbound; v_seed := Unbound |} /\
  log (snd run) = EvPrint MsgKeyCleared :: log (snd body) /\
  fst run = match fst body with
            | Next _ => Next PNone
            | Return v => Next v
            | Raise e => Raise e
            end.
Proof.
  intros Hsetup body run.
  destruct (transfer_setup_next _ _ _ _ _ _ _ _ _ Hsetup) as [Hk Hbound].
  split; [exact Hk |]. split; [exact Hbound |].
  unfold run, transfer, call, bind. rewrite Hsetup.
  rewrite try_finally_clear_run. fold body.
  destruct (fst body); cbn [fst snd locals log]; auto.
Qed.

(** X27 in the scripted scenario of a failed simulation. *)
Lemma secrets_released_on_every_exit_witness :
  locals (snd (run_transfer world_simulation_failed "0xabc" one_cent true)) =
  {| v_privkey := Unbound; v_seed := Unbound |}.
Proof.
  exact (proj1 (proj2 (proj2
    (secrets_released_on_every_exit scripted_ops sized_primitives
       "sui1" "0xabc" one_cent true (initial_state world_simulation_failed)
       (snd (transfer_setup scripted_ops "sui1" "0xabc" one_cent
               (initial_state world_simulation_failed)))
       10000000 (PStr "0xabc") sample_key eq_refl)))).
Defined.

(** C3 (the code at the failing input).  The node refuses the execute
    request and [transfer] leaves by the exception of the transport.  The
    [finally] block has run: its names [privkey] and [seed] are unbound
    and its message is the last thing printed.  But the 32 bytes of the
    seed had been passed to [sign_and_execute] just before, and the block
    reaches neither the parameter [seed] of that call nor the bytes
    themselves: it rebinds two names of [transfer] and overwrites
    nothing. *)
Theorem seed_outlives_the_cleanup :
  let run := run_transfer world_broadcast_refused "0xabc" one_cent true in
  fst run = Raise (WorldError "connection refused") /\
  locals (snd run) = {| v_privkey := Unbound; v_seed := Unbound |} /\
  exists request earlier,
    log (snd run) =
      EvPrint MsgKeyCleared
      :: EvHttpPost SUI_RPC request (inl (WorldError "connection refused"))
      :: EvSignerEntered (PStr "AAAC") (repeat x07 32) 0 :: earlier.
Proof.
  vm_compute. split; [reflexivity |]. split; [reflexivity |].
  eexists. eexists. reflexivity.
Qed.

(** C1 in the scripted scenario of a failed simulation. *)
Lemma simulation_gates_signing_witness :
  (fst (run_transfer world_simulation_failed "0xabc" one_cent false) = Next PNone \/
   exists e,
     fst (run_transfer world_simulation_failed "0xabc" one_cent false) = Raise e) /\
  forall e,
    In e (trace_of (snd (run_transfer world_simulation_failed "0xabc" one_cent false))) ->
    is_signer_entry e = false /\
    is_request "sui_executeTransactionBlock" e = false.
Proof.
  refine (proj2 (proj2 (simulation_gates_signing scripted_ops sized_primitives
                          "sui1" "0xabc" one_cent false world_simulation_failed))
            SUI_RPC (rpc_payload "sui_dryRunTransactionBlock" [PStr "AAAC"])
            (rpc_ok (dry_result_with status_failure)) _ eq_refl eq_refl).
  vm_compute. do 10 right. left. reflexivity.
Defined.

(** C2 in the scripted scenario of a failed simulation. *)
Lemma auto_confirm_keeps_gate_witness :
  run_transfer world_simulation_failed "0xabc" one_cent true =
  run_transfer world_simulation_failed "0xabc" one_cent false /\
  (fst (run_transfer world_simulation_failed "0xabc" one_cent true) = Next PNone \/
   exists e,
     fst (run_transfer world_simulation_failed "0xabc" one_cent true) = Raise e) /\
  forall e,
    In e (trace_of (snd (run_transfer world_simulation_failed "0xabc" one_cent true))) ->
    is_signer_entry e = false /\
    is_request "sui_executeTransactionBlock" e = false.
Proof.
  refine (proj2 (proj2 (proj2
            (auto_confirm_keeps_gate scripted_ops sized_primitives
               "sui1" "0xabc" one_cent world_simulation_failed)))
            SUI_RPC (rpc_payload "sui_dryRunTransactionBlock" [PStr "AAAC"])
            (rpc_ok (dry_result_with status_failure)) _ eq_refl eq_refl).
  vm_compute. do 10 right. left. reflexivity.
Defined.

(* ===================================================================== *)
(** * Regrouping bits: [convertbits] and the digits of a number *)
(* ===================================================================== *)

Lemma testbit_small (v f n : Z) : 0 <= v < 2 ^ f -> f <= n -> Z.testbit v n = false.
Proof.
  intros [Hv Hlt] Hn. destruct (Z.eq_dec v 0) as [-> | Hne].
  - apply Z.testbit_0_l.
  - apply Z.bits_above_log2; [lia |].
    assert (Z.log2 v < f) by (apply Z.log2_lt_pow2; lia). lia.
Qed.

Lemma land_shifted_small (a f v : Z) :
  0 <= f -> 0 <= v < 2 ^ f -> Z.land (a * 2 ^ f) v = 0.
Proof.
  intros Hf Hv. apply Z.bits_inj'. intros n Hn.
  rewrite Z.land_spec, Z.testbit_0_l. destruct (Z.lt_ge_cases n f).
  - rewrite Z.mul_pow2_bits_low by lia. reflexivity.
  - rewrite (testbit_small v f n) by lia. apply andb_false_r.
Qed.

Lemma lor_shifted_small (a f v : Z) :
  0 <= f -> 0 <= v < 2 ^ f -> Z.lor (Z.shiftl a f) v = a * 2 ^ f + v.
Proof.
  intros Hf Hv. rewrite Z.shiftl_mul_pow2 by lia.
  pose proof (land_shifted_small a f v Hf Hv) as H.
  rewrite (Z.add_nocarry_lxor _ _ H). symmetry. apply Z.lxor_lor. exact H.
Qed.

Lemma lxor_shifted_small (a f v : Z) :
  0 <= f -> 0 <= v < 2 ^ f -> Z.lxor (Z.shiftl a f) v = a * 2 ^ f + v.
Proof.
  intros Hf Hv. rewrite Z.shiftl_mul_pow2 by lia.
  symmetry. apply Z.add_nocarry_lxor. apply land_shifted_small; assumption.
Qed.

(** Dropping a low digit. *)
Lemma div_shifted (x f v s : Z) :
  0 <= f -> 0 <= s -> 0 <= v < 2 ^ f ->
  (x * 2 ^ f + v) / 2 ^ (f + s) = x / 2 ^ s.
Proof.
  intros Hf Hs Hv. rewrite Z.pow_add_r by lia.
  rewrite <- Z.div_div by (try apply Z.pow_pos_nonneg; lia).
  f_equal. rewrite Z.add_comm, Z.div_add by (apply Z.pow_nonzero; lia).
  rewrite Z.div_small by lia. reflexivity.
Qed.

(** The low [k] bits suffice for a digit that lies within them. *)
Lemma digit_of_mod (x k b t : Z) :
  0 <= b -> 0 <= t -> b + t <= k ->
  ((x mod 2 ^ k) / 2 ^ b) mod 2 ^ t = (x / 2 ^ b) mod 2 ^ t.
Proof.
  intros Hb Ht Hk.
  assert (H2b : 0 < 2 ^ b) by (apply Z.pow_pos_nonneg; lia).
  assert (H2t : 0 < 2 ^ t) by (apply Z.pow_pos_nonneg; lia).
  rewrite (Z.div_mod x (2 ^ k)) at 2 by (apply Z.pow_nonzero; lia).
  replace (2 ^ k) with (2 ^ (k - b - t) * 2 ^ t * 2 ^ b) at 2.
  2:{ rewrite <- !Z.pow_add_r by lia. f_equal. lia. }
  replace (2 ^ (k - b - t) * 2 ^ t * 2 ^ b * (x / 2 ^ k) + x mod 2 ^ k)
    with (x mod 2 ^ k + (2 ^ (k - b - t) * (x / 2 ^ k) * 2 ^ t) * 2 ^ b) by ring.
  rewrite Z.div_add by lia.
  rewrite Z.mod_add by lia. reflexivity.
Qed.

(** The accumulator keeps the low [k] bits of the number read so far. *)
Lemma acc_update (x k f v : Z) :
  0 <= f -> 0 <= k -> 0 <= v < 2 ^ f ->
  Z.land (Z.lor (Z.shiftl (x mod 2 ^ k) f) v) (Z.shiftl 1 k - 1) =
  (x * 2 ^ f + v) mod 2 ^ k.
Proof.
  intros Hf Hk Hv. rewrite lor_shifted_small by assumption.
  rewrite Z.sub_1_r. fold (Z.ones k). rewrite Z.land_ones by assumption.
  assert (H2k : 2 ^ k <> 0) by (apply Z.pow_nonzero; lia).
  rewrite Z.add_mod by assumption.
  rewrite Z.mul_mod_idemp_l by assumption.
  rewrite <- Z.add_mod by assumption. reflexivity.
Qed.

Lemma digits_succ (w x n : Z) (k : nat) :
  digits w x n (S k) = digits w x n k ++ [digit_at w x n k].
Proof.
  unfold digits. rewrite seq_S, map_app. reflexivity.
Qed.

Lemma digits_ext (w x n x' n' : Z) (k : nat) :
  (forall j, (j < k)%nat -> digit_at w x n j = digit_at w x' n' j) ->
  digits w x n k = digits w x' n' k.
Proof.
  intros H. unfold digits. apply map_ext_in. intros j Hj.
  apply in_seq in Hj. apply H. lia.
Qed.

Lemma digits_length (w x n : Z) (k : nat) : List.length (digits w x n k) = k.
Proof. unfold digits. rewrite length_map, length_seq. reflexivity. Qed.

Lemma mask_ones (t : Z) : Z.shiftl 1 t - 1 = Z.ones t.
Proof. unfold Z.ones. lia. Qed.

(** The inner loop of [convertbits] emits the next digits of the number
    read so far. *)
Lemma emit_digits (f t V N : Z) (c : nat) :
  0 < t -> 0 < f ->
  forall (bits : Z) (k : nat),
    bits = N - t * Z.of_nat k ->
    t * Z.of_nat c <= bits -> bits <= f + t - 1 ->
    Bech32.emit c (V mod 2 ^ (f + t - 1)) bits t (Z.shiftl 1 t - 1)
                (rev (digits t V N k)) =
    (bits - t * Z.of_nat c, rev (digits t V N (k + c))).
Proof.
  intros Ht Hf. induction c as [| c IH]; intros bits k Hbits Hc Hmax.
  - cbn [Bech32.emit]. rewrite Nat.add_0_r. f_equal. lia.
  - cbn [Bech32.emit]. destruct (Z.leb_spec t bits) as [_ | Hlt]; [| lia].
    rewrite mask_ones, Z.land_ones by lia.
    rewrite Z.shiftr_div_pow2 by lia.
    rewrite digit_of_mod by lia.
    replace ((V / 2 ^ (bits - t)) mod 2 ^ t) with (digit_at t V N k).
    2:{ unfold digit_at. do 3 f_equal. lia. }
    change (digit_at t V N k :: rev (digits t V N k))
      with (rev [digit_at t V N k] ++ rev (digits t V N k)).
    rewrite <- rev_app_distr, <- digits_succ.
    rewrite <- mask_ones, (IH (bits - t) (S k)) by lia.
    f_equal; [lia | do 2 f_equal; lia].
Qed.

Lemma digit_at_shifted (f t V v N : Z) (j : nat) :
  0 < f -> 0 < t -> 0 <= v < 2 ^ f ->
  t * (Z.of_nat j + 1) <= N ->
  digit_at t (V * 2 ^ f + v) (N + f) j = digit_at t V N j.
Proof.
  intros Hf Ht Hv Hj. unfold digit_at.
  replace (N + f - t * (Z.of_nat j + 1)) with (f + (N - t * (Z.of_nat j + 1))) by lia.
  rewrite div_shifted by lia. reflexivity.
Qed.

(** The outer loop of [convertbits]: after [n] input digits of width [f]
    whose big-endian value is [V], the accumulator holds the low bits of [V],
    and the output holds the complete width-[t] digits of [V]. *)
Lemma convert_loop_digits (f t : Z) :
  0 < f -> 0 < t ->
  forall (data : list Z) (V : Z) (n : nat),
    Forall (fun v => 0 <= v < 2 ^ f) data ->
    let V' := fold_left (fun a d => a * 2 ^ f + d) data V in
    let N := f * Z.of_nat n in
    let N' := f * Z.of_nat (n + List.length data) in
    Bech32.convert_loop data f t (V mod 2 ^ (f + t - 1)) (N mod t)
      (rev (digits t V N (Z.to_nat (N / t)))) =
    Some (V' mod 2 ^ (f + t - 1), N' mod t,
          rev (digits t V' N' (Z.to_nat (N' / t)))).
Proof.
  intros Hf Ht. induction data as [| v rest IH]; intros V n Hdata.
  - cbn. rewrite Nat.add_0_r. reflexivity.
  - inversion Hdata as [| ? ? Hv Hrest]; subst.
    cbn zeta. cbn [Bech32.convert_loop fold_left].
    destruct (Z.ltb_spec v 0) as [Hneg | _]; [lia |].
    rewrite Z.shiftr_div_pow2 by lia.
    rewrite (Z.div_small v) by lia. cbn [Z.eqb negb orb].
    rewrite acc_update by lia.
    set (N := f * Z.of_nat n).
    assert (HN : 0 <= N) by (unfold N; lia).
    pose proof (Z.mod_pos_bound N t Ht) as Hb.
    pose proof (Z.div_mod N t ltac:(lia)) as Hdm.
    assert (Hq : 0 <= N / t) by (apply Z.div_pos; lia).
    remember (N mod t + f) as bits' eqn:Hbits'.
    assert (Hq' : 0 <= bits' / t) by (apply Z.div_pos; lia).
    pose proof (Z.div_mod bits' t ltac:(lia)) as Hdm'.
    pose proof (Z.mod_pos_bound bits' t Ht) as Hb'.
    rewrite (digits_ext t V N (V * 2 ^ f + v) (N + f)).
    2:{ intros j Hj. symmetry. apply digit_at_shifted; try lia.
        assert (Z.of_nat j + 1 <= N / t) by lia. nia. }
    rewrite (emit_digits f t (V * 2 ^ f + v) (N + f));
      [ | solve [rewrite ?Z2Nat.id by lia; lia] .. ].
    specialize (IH (V * 2 ^ f + v) (S n) Hrest). cbn zeta in IH.
    replace (f * Z.of_nat (S n)) with (N + f) in IH by (unfold N; lia).
    replace (f * Z.of_nat (S n + List.length rest)) with
      (f * Z.of_nat (n + List.length (v :: rest))) in IH
      by (cbn [List.length]; f_equal; lia).
    assert (Hmod : (N + f) mod t = bits' - t * Z.of_nat (Z.to_nat (bits' / t))).
    { rewrite Z2Nat.id by lia.
      replace (N + f) with (bits' + (N / t) * t) by lia.
      rewrite Z.mod_add by lia. lia. }
    assert (Hdiv : Z.to_nat ((N + f) / t) =
                   (Z.to_nat (N / t) + Z.to_nat (bits' / t))%nat).
    { replace (N + f) with (bits' + (N / t) * t) by lia.
      rewrite Z.div_add by lia. lia. }
    rewrite <- Hmod, <- Hdiv. exact IH.
Qed.

Lemma be_value_snoc (w : Z) (l : list Z) (d : Z) :
  be_value w (l ++ [d]) = be_value w l * 2 ^ w + d.
Proof. unfold be_value. rewrite fold_left_app. reflexivity. Qed.

Lemma be_value_range (w : Z) (l : list Z) :
  0 < w -> Forall (fun d => 0 <= d < 2 ^ w) l ->
  0 <= be_value w l < 2 ^ (w * Z.of_nat (List.length l)).
Proof.
  intros Hw. induction l as [| d l IH] using rev_ind; intros Hl.
  - cbn. lia.
  - apply Forall_app in Hl as [Hl Hd]. inversion Hd as [| ? ? Hd' _]; subst.
    specialize (IH Hl). rewrite be_value_snoc, length_app. cbn [List.length].
    replace (w * Z.of_nat (List.length l + 1)) with
      (w * Z.of_nat (List.length l) + w) by lia.
    rewrite Z.pow_add_r by lia. nia.
Qed.

(** Reading the digits of the value of a list gives the list back. *)
Lemma digits_be_value (w : Z) (l : list Z) :
  0 < w -> Forall (fun d => 0 <= d < 2 ^ w) l ->
  digits w (be_value w l) (w * Z.of_nat (List.length l)) (List.length l) = l.
Proof.
  intros Hw. induction l as [| d l IH] using rev_ind; intros Hl.
  - reflexivity.
  - apply Forall_app in Hl as [Hl Hd]. inversion Hd as [| ? ? Hd' _]; subst.
    rewrite be_value_snoc, length_app. cbn [List.length].
    rewrite Nat.add_1_r, digits_succ. f_equal.
    + transitivity (digits w (be_value w l) (w * Z.of_nat (List.length l))
                           (List.length l)); [| exact (IH Hl)].
      apply digits_ext. intros j Hj.
      replace (w * Z.of_nat (S (List.length l))) with
        (w * Z.of_nat (List.length l) + w) by lia.
      apply digit_at_shifted; try lia. nia.
    + f_equal. unfold digit_at.
      replace (w * Z.of_nat (S (List.length l)) - w * (Z.of_nat (List.length l) + 1))
        with 0 by lia.
      rewrite Z.pow_0_r, Z.div_1_r, Z.add_comm, Z.mod_add, Z.mod_small; lia.
Qed.

Lemma digit_at_div (w x n : Z) (j : nat) :
  0 < w -> w * (Z.of_nat j + 1) <= n ->
  digit_at w x (n + w) j = digit_at w (x / 2 ^ w) n j.
Proof.
  intros Hw Hj. unfold digit_at. f_equal.
  rewrite Z.div_div by (try apply Z.pow_pos_nonneg; lia).
  rewrite <- Z.pow_add_r by lia. do 2 f_equal. lia.
Qed.

(** The value of the [k] digits of [x] is [x], up to the width read. *)
Lemma be_value_digits (w x : Z) (k : nat) :
  0 < w -> 0 <= x ->
  be_value w (digits w x (w * Z.of_nat k) k) = x mod 2 ^ (w * Z.of_nat k).
Proof.
  intros Hw. revert x. induction k as [| k IH]; intros x Hx.
  - replace (w * Z.of_nat 0) with 0 by lia.
    rewrite Z.pow_0_r, Z.mod_1_r. reflexivity.
  - rewrite digits_succ, be_value_snoc.
    replace (w * Z.of_nat (S k)) with (w * Z.of_nat k + w) by lia.
    rewrite (digits_ext w x (w * Z.of_nat k + w) (x / 2 ^ w) (w * Z.of_nat k)).
    2:{ intros j Hj. apply digit_at_div; try lia. nia. }
    rewrite IH by (apply Z.div_pos; [lia | apply Z.pow_pos_nonneg; lia]).
    unfold digit_at.
    replace (w * Z.of_nat k + w - w * (Z.of_nat k + 1)) with 0 by lia.
    rewrite Z.pow_0_r, Z.div_1_r.
    replace (w * Z.of_nat k + w) with (w + w * Z.of_nat k) by lia.
    rewrite Z.pow_add_r by lia.
    rewrite Z.rem_mul_r by (apply Z.pow_nonzero || apply Z.pow_pos_nonneg; lia).
    lia.
Qed.

(** [convertbits] from its initial state. *)
Lemma convert_loop_start (f t : Z) (data : list Z) :
  0 < f -> 0 < t ->
  Forall (fun v => 0 <= v < 2 ^ f) data ->
  let N := f * Z.of_nat (List.length data) in
  Bech32.convert_loop data f t 0 0 [] =
  Some (be_value f data mod 2 ^ (f + t - 1), N mod t,
        rev (digits t (be_value f data) N (Z.to_nat (N / t)))).
Proof.
  intros Hf Ht Hdata.
  pose proof (convert_loop_digits f t Hf Ht data 0 0%nat Hdata) as H.
  cbn zeta in H |- *.
  rewrite Z.mod_0_l in H by (apply Z.pow_nonzero; lia).
  replace (f * Z.of_nat 0) with 0 in H by lia.
  rewrite Z.mod_0_l, Z.div_0_l in H by lia.
  exact H.
Qed.

Lemma digits_range (w x n : Z) (k : nat) :
  0 < w -> Forall (fun d => 0 <= d < 2 ^ w) (digits w x n k).
Proof.
  intros Hw. unfold digits. apply Forall_forall. intros d Hd.
  apply in_map_iff in Hd as [j [<- _]]. unfold digit_at.
  apply Z.mod_pos_bound. apply Z.pow_pos_nonneg; lia.
Qed.

Lemma digits_doubled (w V n : Z) (k : nat) :
  0 < w -> w * Z.of_nat k <= n ->
  digits w (2 * V) (n + 1) k = digits w V n k.
Proof.
  intros Hw Hk. apply digits_ext. intros j Hj.
  replace (2 * V) with (V * 2 ^ 1 + 0) by lia.
  apply digit_at_shifted; try lia. nia.
Qed.

(** Regrouping the 33 bytes of a key into 5-bit groups, with padding: the
    groups are the 53 digits of twice the value of the bytes. *)
Lemma convertbits_8_5 (data : list Z) :
  List.length data = 33%nat ->
  Forall (fun v => 0 <= v < 2 ^ 8) data ->
  Bech32.convertbits data 8 5 true =
  Some (digits 5 (2 * be_value 8 data) 265 53).
Proof.
  intros Hlen Hdata.
  pose proof (convert_loop_start 8 5 data eq_refl eq_refl Hdata) as H.
  cbn zeta in H. rewrite Hlen in H.
  change (8 * Z.of_nat 33) with 264 in H.
  change (264 mod 5) with 4 in H. change (Z.to_nat (264 / 5)) with 52%nat in H.
  change (8 + 5 - 1) with 12 in H.
  unfold Bech32.convertbits. rewrite H.
  change (negb (4 =? 0)) with true. cbv iota.
  cbn [rev]. rewrite rev_involutive. f_equal.
  rewrite (digits_succ 5 (2 * be_value 8 data) 265 52). f_equal.
  - symmetry. apply (digits_doubled 5 (be_value 8 data) 264 52); lia.
  - f_equal. unfold digit_at.
    change (Z.shiftl 1 5 - 1) with (Z.ones 5). rewrite Z.land_ones by lia.
    rewrite Z.shiftl_mul_pow2 by lia.
    change (265 - 5 * (Z.of_nat 52 + 1)) with 0.
    change (5 - 4) with 1.
    rewrite Z.pow_0_r, Z.div_1_r.
    change (2 ^ 12) with 4096. change (2 ^ 5) with 32. change (2 ^ 1) with 2.
    set (V := be_value 8 data). clearbody V.
    Z.to_euclidean_division_equations. lia.
Qed.

(** Regrouping 53 groups back into bytes, without padding. *)
Lemma convertbits_5_8 (X : Z) :
  0 <= X < 2 ^ 264 ->
  Bech32.convertbits (digits 5 (2 * X) 265 53) 5 8 false =
  Some (digits 8 X 264 33).
Proof.
  intros HX.
  pose proof (convert_loop_start 5 8 (digits 5 (2 * X) 265 53) eq_refl eq_refl
                (digits_range 5 (2 * X) 265 53 eq_refl)) as H.
  cbn zeta in H. rewrite digits_length in H.
  pose proof (be_value_digits 5 (2 * X) 53 eq_refl) as Hv.
  change (5 * Z.of_nat 53) with 265 in H, Hv.
  rewrite Hv in H by lia. clear Hv.
  assert (Hp : 2 ^ 265 = 2 * 2 ^ 264)
    by (rewrite <- Z.pow_succ_r by lia; reflexivity).
  rewrite (Z.mod_small (2 * X) (2 ^ 265)) in H by lia.
  change (265 mod 8) with 1 in H. change (Z.to_nat (265 / 8)) with 33%nat in H.
  change (5 + 8 - 1) with 12 in H.
  unfold Bech32.convertbits. rewrite H.
  change (5 <=? 1) with false. cbn [orb].
  change (Z.shiftl 1 8 - 1) with (Z.ones 8). rewrite Z.land_ones by lia.
  rewrite Z.shiftl_mul_pow2 by lia.
  change (8 - 1) with 7.
  change (2 ^ 12) with 4096. change (2 ^ 8) with 256. change (2 ^ 7) with 128.
  replace (((2 * X) mod 4096 * 128) mod 256) with 0
    by (Z.to_euclidean_division_equations; lia).
  cbn [Z.eqb negb]. rewrite rev_involutive. f_equal.
  apply (digits_doubled 8 X 264 33); lia.
Qed.

(** The two regroupings are inverse on a 33-byte key. *)
Lemma convertbits_roundtrip (data : list Z) :
  List.length data = 33%nat ->
  Forall (fun v => 0 <= v < 2 ^ 8) data ->
  exists groups,
    Bech32.convertbits data 8 5 true = Some groups /\
    List.length groups = 53%nat /\
    Forall (fun d => 0 <= d < 2 ^ 5) groups /\
    Bech32.convertbits groups 5 8 false = Some data.
Proof.
  intros Hlen Hdata. exists (digits 5 (2 * be_value 8 data) 265 53).
  split; [apply convertbits_8_5; assumption |].
  split; [apply digits_length |].
  split; [apply digits_range; lia |].
  pose proof (be_value_range 8 data eq_refl Hdata) as Hr. rewrite Hlen in Hr.
  change (8 * Z.of_nat 33) with 264 in Hr.
  rewrite convertbits_5_8 by exact Hr. f_equal.
  pose proof (digits_be_value 8 data eq_refl Hdata) as Hd. rewrite Hlen in Hd.
  exact Hd.
Qed.

(* ===================================================================== *)
(** * The bech32 checksum *)
(* ===================================================================== *)

Lemma polymod_step_unfold (chk v : Z) :
  Bech32.polymod_step chk v =
  let top := Z.shiftr chk 25 in
  Z.lxor (Z.lxor (Z.lxor (Z.lxor (Z.lxor
    (Z.lxor (Z.shiftl (Z.land chk 0x1ffffff) 5) v)
    (gen_if (Z.testbit top 0) 0x3b6a57b2))
    (gen_if (Z.testbit top 1) 0x26508e6d))
    (gen_if (Z.testbit top 2) 0x1ea119fa))
    (gen_if (Z.testbit top 3) 0x3d4233dd))
    (gen_if (Z.testbit top 4) 0x2a1462b3).
Proof. reflexivity. Qed.

Lemma gen_if_xorb (x y : bool) (g : Z) :
  gen_if (xorb x y) g = Z.lxor (gen_if x g) (gen_if y g).
Proof.
  destruct x, y; cbn [xorb gen_if];
    rewrite ?Z.lxor_nilpotent, ?Z.lxor_0_r, ?Z.lxor_0_l; reflexivity.
Qed.

Lemma land_lxor_distr (a b m : Z) :
  Z.land (Z.lxor a b) m = Z.lxor (Z.land a m) (Z.land b m).
Proof.
  apply Z.bits_inj'. intros n _.
  rewrite !Z.lxor_spec, !Z.land_spec, Z.lxor_spec. btauto.
Qed.

(** [polymod_step] is linear over GF(2). *)
Lemma polymod_step_lxor (a b v w : Z) :
  Bech32.polymod_step (Z.lxor a b) (Z.lxor v w) =
  Z.lxor (Bech32.polymod_step a v) (Bech32.polymod_step b w).
Proof.
  rewrite !polymod_step_unfold. cbv zeta.
  rewrite Z.shiftr_lxor, !Z.lxor_spec, !gen_if_xorb, land_lxor_distr,
    Z.shiftl_lxor.
  apply Z.bits_inj'. intros n _. rewrite !Z.lxor_spec. btauto.
Qed.

Lemma lxor_range (n a b : Z) :
  0 <= n -> 0 <= a < 2 ^ n -> 0 <= b < 2 ^ n -> 0 <= Z.lxor a b < 2 ^ n.
Proof.
  intros Hn Ha Hb.
  assert (H0 : 0 <= Z.lxor a b) by (apply Z.lxor_nonneg; lia).
  split; [exact H0 |].
  destruct (Z.eq_dec (Z.lxor a b) 0) as [-> | Hne];
    [apply Z.pow_pos_nonneg; lia |].
  assert (Hpos : 0 < n).
  { destruct (Z.eq_dec n 0) as [-> | ?]; [| lia].
    assert (a = 0) by (change (2 ^ 0) with 1 in Ha; lia).
    assert (b = 0) by (change (2 ^ 0) with 1 in Hb; lia).
    subst. contradiction Hne. reflexivity. }
  apply Z.log2_lt_pow2; [lia |].
  pose proof (Z.log2_lxor a b ltac:(lia) ltac:(lia)) as Hl.
  assert (Z.log2 a < n).
  { destruct (Z.eq_dec a 0) as [-> | ?]; [cbn; lia |].
    apply Z.log2_lt_pow2; lia. }
  assert (Z.log2 b < n).
  { destruct (Z.eq_dec b 0) as [-> | ?]; [cbn; lia |].
    apply Z.log2_lt_pow2; lia. }
  lia.
Qed.

Lemma gen_if_range (x : bool) (g : Z) :
  0 <= g < 2 ^ 30 -> 0 <= gen_if x g < 2 ^ 30.
Proof. destruct x; cbn [gen_if]; lia. Qed.

Lemma polymod_step_range (chk v : Z) :
  0 <= v < 2 ^ 30 -> 0 <= Bech32.polymod_step chk v < 2 ^ 30.
Proof.
  intros Hv. rewrite polymod_step_unfold. cbv zeta.
  repeat (apply lxor_range; [lia | | apply gen_if_range; lia]).
  apply lxor_range; [lia | | exact Hv].
  change 0x1ffffff with (Z.ones 25). rewrite Z.land_ones by lia.
  rewrite Z.shiftl_mul_pow2 by lia.
  pose proof (Z.mod_pos_bound chk (2 ^ 25) ltac:(lia)). lia.
Qed.

(** On a state below 2^25 a round only shifts the value in. *)
Lemma polymod_step_small (t c : Z) :
  0 <= t < 2 ^ 25 -> 0 <= c < 2 ^ 5 ->
  Bech32.polymod_step t c = t * 2 ^ 5 + c.
Proof.
  intros Ht Hc. rewrite polymod_step_unfold. cbv zeta.
  rewrite Z.shiftr_div_pow2, Z.div_small by lia.
  rewrite !Z.testbit_0_l. cbn [gen_if]. rewrite !Z.lxor_0_r.
  change 0x1ffffff with (Z.ones 25). rewrite Z.land_ones by lia.
  rewrite Z.mod_small by lia.
  apply lxor_shifted_small; lia.
Qed.

Lemma fold_polymod_step_lxor (cs : list Z) :
  forall s t,
    fold_left Bech32.polymod_step cs (Z.lxor s t) =
    Z.lxor (fold_left Bech32.polymod_step (map (fun _ => 0) cs) s)
           (fold_left Bech32.polymod_step cs t).
Proof.
  induction cs as [| c cs IH]; intros s t; cbn [fold_left map].
  - reflexivity.
  - rewrite <- IH. f_equal.
    rewrite <- polymod_step_lxor, Z.lxor_0_l. reflexivity.
Qed.

Lemma fold_polymod_step_small (l : list Z) :
  forall t,
    Forall (fun c => 0 <= c < 2 ^ 5) l ->
    (List.length l <= 6)%nat ->
    0 <= t < 2 ^ (5 * (6 - Z.of_nat (List.length l))) ->
    fold_left Bech32.polymod_step l t =
    fold_left (fun a d => a * 2 ^ 5 + d) l t.
Proof.
  induction l as [| c l IH]; intros t Hl Hlen Ht; cbn [fold_left].
  - reflexivity.
  - inversion Hl as [| ? ? Hc Hl']; subst. cbn [List.length] in Hlen, Ht.
    assert (Hpow : 2 ^ (5 * (6 - Z.of_nat (List.length l))) =
                   2 ^ (5 * (6 - Z.of_nat (S (List.length l)))) * 2 ^ 5).
    { rewrite <- Z.pow_add_r by lia. f_equal. lia. }
    assert (H25 : 2 ^ (5 * (6 - Z.of_nat (S (List.length l)))) <= 2 ^ 25)
      by (apply Z.pow_le_mono_r; lia).
    rewrite polymod_step_small by lia.
    apply IH; [exact Hl' | lia |]. rewrite Hpow. nia.
Qed.

Lemma create_checksum_digits (hrp : chars) (data : list Z) :
  Bech32.bech32_create_checksum hrp data =
  digits 5 (Z.lxor (Bech32.bech32_polymod
                      ((Bech32.bech32_hrp_expand hrp ++ data) ++
                       [0; 0; 0; 0; 0; 0])) 1) 30 6.
Proof.
  unfold Bech32.bech32_create_checksum. cbv zeta.
  set (Q := Z.lxor _ 1). clearbody Q.
  unfold digits, digit_at. cbn [map seq].
  change 31 with (Z.ones 5).
  repeat (f_equal; [rewrite Z.land_ones, Z.shiftr_div_pow2 by lia; reflexivity |]).
  f_equal. rewrite Z.land_ones, Z.shiftr_div_pow2 by lia. reflexivity.
Qed.

Lemma fold_polymod_step_value (l : list Z) :
  Forall (fun c => 0 <= c < 2 ^ 5) l ->
  (List.length l <= 6)%nat ->
  fold_left Bech32.polymod_step l 0 = be_value 5 l.
Proof.
  intros Hl Hlen. unfold be_value. apply fold_polymod_step_small; try assumption.
  split; [lia | apply Z.pow_pos_nonneg; lia].
Qed.

Lemma zeros_of_digits (w x n : Z) :
  map (fun _ => 0) (digits w x n 6) = [0; 0; 0; 0; 0; 0].
Proof. reflexivity. Qed.

(** From any state [s], the six digits of [P xor 1], where [P] is the state
    reached from [s] by six zeros, lead to the state 1. *)
Lemma checksum_state (s : Z) :
  fold_left Bech32.polymod_step
    (digits 5 (Z.lxor (fold_left Bech32.polymod_step [0; 0; 0; 0; 0; 0] s) 1) 30 6)
    s = 1.
Proof.
  remember (fold_left Bech32.polymod_step [0; 0; 0; 0; 0; 0] s) as P eqn:HeqP.
  assert (HP : 0 <= P < 2 ^ 30).
  { subst P. cbn [fold_left]. apply polymod_step_range. lia. }
  assert (HQ : 0 <= Z.lxor P 1 < 2 ^ 30) by (apply lxor_range; lia).
  pose proof (fold_polymod_step_lxor (digits 5 (Z.lxor P 1) 30 6) s 0) as H.
  rewrite Z.lxor_0_r in H. rewrite H. clear H.
  rewrite zeros_of_digits, <- HeqP.
  rewrite fold_polymod_step_value
    by (try apply digits_range; rewrite ?digits_length; lia).
  pose proof (be_value_digits 5 (Z.lxor P 1) 6 eq_refl (proj1 HQ)) as Hv.
  replace (5 * Z.of_nat 6) with 30 in Hv by reflexivity.
  rewrite Hv, Z.mod_small by exact HQ.
  rewrite <- Z.lxor_assoc, Z.lxor_nilpotent, Z.lxor_0_l. reflexivity.
Qed.

(** The checksum [bech32_encode] appends is the one [bech32_decode]
    accepts. *)
Lemma checksum_verifies (hrp : chars) (data : list Z) :
  Bech32.bech32_verify_checksum hrp
    (data ++ Bech32.bech32_create_checksum hrp data) = true.
Proof.
  unfold Bech32.bech32_verify_checksum. apply Z.eqb_eq.
  rewrite create_checksum_digits.
  unfold Bech32.bech32_polymod.
  rewrite (app_assoc (Bech32.bech32_hrp_expand hrp) data).
  rewrite !(fold_left_app _ (Bech32.bech32_hrp_expand hrp ++ data)).
  apply checksum_state.
Qed.

(* ===================================================================== *)
(** * Decoding what [bech32_encode] wrote *)
(* ===================================================================== *)

Lemma charset_at_data_char (d : Z) :
  0 <= d < 2 ^ 5 -> data_char (Bech32.charset_at d) d.
Proof.
  intros Hd. rewrite <- (Z2Nat.id d) by lia.
  assert (Hn : (Z.to_nat d < 32)%nat) by (change (2 ^ 5) with 32 in Hd; lia).
  clear Hd. generalize dependent (Z.to_nat d). clear d. intros n Hn.
  do 32 (destruct n as [| n]; [repeat split; reflexivity |]). lia.
Qed.

Lemma existsb_charset (l : list Z) :
  Forall (fun d => 0 <= d < 2 ^ 5) l ->
  existsb (fun x => (code x <? 33) || (126 <? code x)) (map Bech32.charset_at l) = false.
Proof.
  induction 1 as [| d l Hd _ IH]; cbn [map existsb]; [reflexivity |].
  destruct (charset_at_data_char d Hd) as [-> _]. exact IH.
Qed.

Lemma lower_charset (l : list Z) :
  Forall (fun d => 0 <= d < 2 ^ 5) l ->
  PyStr.lower (map Bech32.charset_at l) = map Bech32.charset_at l.
Proof.
  unfold PyStr.lower.
  induction 1 as [| d l Hd _ IH]; cbn [map]; [reflexivity |].
  destruct (charset_at_data_char d Hd) as (_ & -> & _). rewrite IH. reflexivity.
Qed.

Lemma rfind_charset (l : list Z) :
  Forall (fun d => 0 <= d < 2 ^ 5) l ->
  forall i last,
    Bech32.rfind_from i (map Bech32.charset_at l) "1" last = last.
Proof.
  induction 1 as [| d l Hd _ IH]; intros i last; cbn [map Bech32.rfind_from];
    [reflexivity |].
  destruct (charset_at_data_char d Hd) as (_ & _ & -> & _). apply IH.
Qed.

Lemma forallb_charset_find (l : list Z) :
  Forall (fun d => 0 <= d < 2 ^ 5) l ->
  forallb (fun x => 0 <=? Bech32.charset_find x) (map Bech32.charset_at l) = true.
Proof.
  induction 1 as [| d l Hd _ IH]; cbn [map forallb]; [reflexivity |].
  destruct (charset_at_data_char d Hd) as (_ & _ & _ & ->). rewrite IH.
  destruct (Z.leb_spec 0 d); [reflexivity | lia].
Qed.

Lemma charset_find_at (l : list Z) :
  Forall (fun d => 0 <= d < 2 ^ 5) l ->
  map Bech32.charset_find (map Bech32.charset_at l) = l.
Proof.
  induction 1 as [| d l Hd _ IH]; cbn [map]; [reflexivity |].
  destruct (charset_at_data_char d Hd) as (_ & _ & _ & ->). rewrite IH.
  reflexivity.
Qed.

Lemma create_checksum_range (hrp : chars) (data : list Z) :
  Forall (fun d => 0 <= d < 2 ^ 5) (Bech32.bech32_create_checksum hrp data).
Proof. rewrite create_checksum_digits. apply digits_range. lia. Qed.

Lemma create_checksum_length (hrp : chars) (data : list Z) :
  List.length (Bech32.bech32_create_checksum hrp data) = 6%nat.
Proof. rewrite create_checksum_digits. apply digits_length. Qed.

Lemma chars_eqb_refl (l : chars) : PyStr.eqb l l = true.
Proof. unfold PyStr.eqb. apply String.eqb_refl. Qed.

Lemma firstn_app_exact {A} (l r : list A) (n : nat) :
  n = List.length l -> firstn n (l ++ r) = l.
Proof.
  intros ->. rewrite firstn_app, Nat.sub_diag, firstn_all. cbn [firstn].
  apply app_nil_r.
Qed.

(** Decoding what [bech32_encode] wrote under the prefix ["suiprivkey"]
    gives the prefix and the data back. *)
Lemma bech32_decode_encode (data : list Z) :
  Forall (fun d => 0 <= d < 2 ^ 5) data ->
  Bech32.bech32_decode (Bech32.bech32_encode (str_chars "suiprivkey") data) =
  Some (str_chars "suiprivkey", data).
Proof.
  intros Hdata.
  set (hrp := str_chars "suiprivkey").
  set (all := data ++ Bech32.bech32_create_checksum hrp data).
  assert (Hall : Forall (fun d => 0 <= d < 2 ^ 5) all)
    by (apply Forall_app; split; [exact Hdata | apply create_checksum_range]).
  assert (Hlall : List.length all = (List.length data + 6)%nat)
    by (unfold all; rewrite length_app, create_checksum_length; reflexivity).
  unfold Bech32.bech32_encode. fold all.
  set (body := map Bech32.charset_at all).
  assert (Hlbody : List.length body = (List.length data + 6)%nat)
    by (unfold body; rewrite length_map; exact Hlall).
  assert (Hlower : PyStr.lower (hrp ++ ["1"%char] ++ body) = hrp ++ ["1"%char] ++ body).
  { unfold PyStr.lower. rewrite !map_app. fold (PyStr.lower body).
    unfold body. rewrite lower_charset by exact Hall. reflexivity. }
  unfold Bech32.bech32_decode. rewrite Hlower, chars_eqb_refl.
  rewrite !existsb_app. unfold body at 1. rewrite existsb_charset by exact Hall.
  change (existsb _ hrp) with false. change (existsb _ ["1"%char]) with false.
  cbn [orb negb andb]. cbv zeta.
  assert (Hpos : Bech32.rfind (hrp ++ ["1"%char] ++ body) "1" = 10).
  { unfold Bech32.rfind, hrp. cbn [str_chars list_ascii_of_string app Bech32.rfind_from].
    cbn [Ascii.eqb Bool.eqb]. unfold body. rewrite rfind_charset by exact Hall.
    reflexivity. }
  rewrite Hpos.
  assert (Hbech : Bech32.len (hrp ++ ["1"%char] ++ body) =
                  Z.of_nat (List.length data) + 17).
  { unfold Bech32.len. rewrite !length_app, Hlbody. cbn [List.length hrp].
    change (List.length hrp) with 10%nat. lia. }
  rewrite Hbech.
  change (10 <? 1) with false.
  destruct (Z.ltb_spec (Z.of_nat (List.length data) + 17) (10 + 7)); [lia |].
  cbn [orb].
  change (Z.to_nat (10 + 1)) with 11%nat. change (Z.to_nat 10) with 10%nat.
  change (skipn 11 (hrp ++ ["1"%char] ++ body)) with body.
  change (firstn 10 (hrp ++ ["1"%char] ++ body)) with hrp.
  unfold body at 1. rewrite forallb_charset_find by exact Hall.
  unfold body. rewrite charset_find_at by exact Hall.
  unfold all at 1. rewrite checksum_verifies. cbn [negb].
  rewrite Hlall. unfold all. rewrite firstn_app_exact by lia. reflexivity.
Qed.

(* ===================================================================== *)
(** * The two texts of a key *)
(* ===================================================================== *)

Lemma Z_of_byte_of_Z (z : Z) :
  0 <= z < 256 -> PyBytes.Z_of_byte (PyBytes.byte_of_Z z) = z.
Proof.
  intros Hz. unfold PyBytes.byte_of_Z, PyBytes.Z_of_byte.
  destruct (Byte.of_N (Z.to_N z)) as [b |] eqn:Hb.
  - apply Byte.to_of_N in Hb. rewrite Hb. lia.
  - apply Byte.of_N_None_iff in Hb. lia.
Qed.

Lemma key_bytes_range (scheme : Z) (seed : bytes) :
  0 <= scheme < 256 ->
  Forall (fun v => 0 <= v < 2 ^ 8) (scheme :: map PyBytes.Z_of_byte seed).
Proof.
  intros Hs. constructor; [exact Hs |].
  apply Forall_forall. intros v Hv. apply in_map_iff in Hv as [b [<- _]].
  apply Z_of_byte_range.
Qed.

Lemma of_ints_key_bytes (scheme : Z) (seed : bytes) :
  0 <= scheme < 256 ->
  PyBytes.of_ints (Some (scheme :: map PyBytes.Z_of_byte seed)) =
  ok (PyBytes.byte_of_Z scheme :: seed).
Proof.
  intros Hs. unfold PyBytes.of_ints.
  replace (forallb _ _) with true.
  - cbn [map]. rewrite map_map. do 2 f_equal.
    rewrite <- (map_id seed) at 2. apply map_ext. apply byte_of_Z_of_byte.
  - symmetry. apply forallb_forall. intros v Hv.
    pose proof (key_bytes_range scheme seed Hs) as Hr.
    rewrite Forall_forall in Hr. specialize (Hr v Hv).
    change (2 ^ 8) with 256 in Hr.
    destruct (Z.leb_spec 0 v); [| lia]. destruct (Z.ltb_spec v 256); [| lia].
    reflexivity.
Qed.

Lemma str_chars_of_chars (l : chars) : str_chars (string_of_list_ascii l) = l.
Proof. apply list_ascii_of_string_of_list_ascii. Qed.

(** The bech32 text of a key decodes to its scheme and its seed. *)
Lemma decode_bech32_secret (scheme : Z) (seed : bytes) :
  0 <= scheme < 256 -> List.length seed = 32%nat ->
  decode_bech32_key (bech32_secret scheme seed) = ok (scheme, seed).
Proof.
  intros Hs Hlen.
  destruct (convertbits_roundtrip (scheme :: map PyBytes.Z_of_byte seed))
    as (groups & Henc & Hgl & Hgr & Hdec).
  { cbn [List.length]. rewrite length_map, Hlen. reflexivity. }
  { apply key_bytes_range. exact Hs. }
  unfold decode_bech32_key, bech32_secret, key_groups.
  rewrite Henc, str_chars_of_chars, bech32_decode_encode by assumption.
  rewrite Hdec, of_ints_key_bytes by exact Hs. unfold ok. cbn [rbind].
  rewrite Z_of_byte_of_Z by exact Hs. cbn [skipn].
  rewrite firstn_all2 by lia. reflexivity.
Qed.

Lemma bech32_secret_prefix (scheme : Z) (seed : bytes) :
  PyStr.startswith (str_chars "suiprivkey1")
                   (str_chars (bech32_secret scheme seed)) = true.
Proof.
  unfold bech32_secret, Bech32.bech32_encode. rewrite str_chars_of_chars.
  reflexivity.
Qed.

Lemma hex_digit_char (v : Z) : 0 <= v < 16 -> hex_char (PyBytes.hex_digit v) v.
Proof.
  intros Hv. rewrite <- (Z2Nat.id v) by lia.
  assert (Hn : (Z.to_nat v < 16)%nat) by lia.
  clear Hv. generalize dependent (Z.to_nat v). clear v. intros n Hn.
  do 16 (destruct n as [| n]; [repeat split; reflexivity |]). lia.
Qed.

Lemma byte_halves (b : byte) :
  0 <= PyBytes.Z_of_byte b / 16 < 16 /\ 0 <= PyBytes.Z_of_byte b mod 16 < 16.
Proof.
  pose proof (Z_of_byte_range b). split.
  - split; [apply Z.div_pos; lia | apply Z.div_lt_upper_bound; lia].
  - apply Z.mod_pos_bound. lia.
Qed.

Lemma hex_no_x (b : bytes) :
  Forall (fun c => Ascii.eqb "x" c = false) (PyBytes.hex b).
Proof.
  unfold PyBytes.hex. induction b as [| x b IH]; cbn [flat_map app].
  - constructor.
  - destruct (byte_halves x) as [Hhi Hlo].
    constructor; [apply (hex_digit_char _ Hhi) |].
    constructor; [apply (hex_digit_char _ Hlo) | exact IH].
Qed.

(** [replace("0x", "")] leaves a text without ['x'] as it is. *)
Lemma remove_all_no_x (fuel : nat) :
  forall l,
    Forall (fun c => Ascii.eqb "x" c = false) l ->
    PyStr.remove_all fuel (str_chars "0x") l = l.
Proof.
  induction fuel as [| fuel IH]; intros l Hl; cbn [PyStr.remove_all];
    [reflexivity |].
  destruct l as [| c r]; [reflexivity |].
  inversion Hl as [| ? ? Hc Hr]; subst.
  replace (PyStr.startswith (str_chars "0x") (c :: r)) with false.
  - rewrite (IH r Hr). reflexivity.
  - cbn [str_chars list_ascii_of_string PyStr.startswith].
    destruct r as [| c' r']; [rewrite andb_false_r; reflexivity |].
    inversion Hr as [| ? ? Hc' _]; subst. rewrite Hc'.
    rewrite andb_false_r. reflexivity.
Qed.

(** [bytes.fromhex] reads back what [hex] wrote. *)
Lemma fromhex_hex (b : bytes) :
  PyBytes.fromhex_from None (PyBytes.hex b) = Some b.
Proof.
  unfold PyBytes.hex. induction b as [| x b IH]; cbn [flat_map app];
    [reflexivity |].
  destruct (byte_halves x) as [Hhi Hlo].
  destruct (hex_digit_char _ Hhi) as (_ & _ & Hsp & Hdv).
  destruct (hex_digit_char _ Hlo) as (_ & _ & _ & Hdv').
  cbn [PyBytes.fromhex_from]. rewrite Hsp, Hdv, Hdv', IH. cbn [option_map].
  replace (PyBytes.Z_of_byte x / 16 * 16 + PyBytes.Z_of_byte x mod 16)
    with (PyBytes.Z_of_byte x)
    by (pose proof (Z.div_mod (PyBytes.Z_of_byte x) 16 ltac:(lia)); lia).
  rewrite byte_of_Z_of_byte. reflexivity.
Qed.

Lemma hex_secret_prefix (seed : bytes) :
  seed <> [] ->
  PyStr.startswith (str_chars "suiprivkey1") (str_chars (hex_secret seed)) = false.
Proof.
  intros Hne. unfold hex_secret. rewrite str_chars_of_chars.
  destruct seed as [| x seed]; [contradiction |].
  unfold PyBytes.hex. cbn [flat_map app].
  destruct (byte_halves x) as [Hhi _].
  destruct (hex_digit_char _ Hhi) as (Hs & _).
  cbn [str_chars list_ascii_of_string PyStr.startswith]. rewrite Hs.
  reflexivity.
Qed.

(** The hexadecimal text of a seed decodes to scheme 0 and the seed. *)
Lemma decode_hex_secret (seed : bytes) :
  List.length seed = 32%nat ->
  scheme_and_seed (hex_secret seed) = ok (0, seed).
Proof.
  intros Hlen. unfold scheme_and_seed.
  rewrite hex_secret_prefix by (intros ->; discriminate).
  unfold hex_secret. rewrite str_chars_of_chars.
  unfold PyStr.replace_with_empty. rewrite remove_all_no_x by apply hex_no_x.
  rewrite firstn_all2 by (rewrite hex_length; lia).
  unfold PyBytes.fromhex. rewrite fromhex_hex. reflexivity.
Qed.

Lemma remove_all_step (fuel : nat) (old : chars) (c : ascii) (r : chars) :
  PyStr.remove_all (S fuel) old (c :: r) =
  if PyStr.startswith old (c :: r)
  then PyStr.remove_all fuel old (skipn (List.length old) (c :: r))
  else c :: PyStr.remove_all fuel old r.
Proof. reflexivity. Qed.

(** The same with the prefix ["0x"]. *)
Lemma decode_0x_hex_secret (seed : bytes) :
  List.length seed = 32%nat ->
  scheme_and_seed (String.append "0x" (hex_secret seed)) = ok (0, seed).
Proof.
  intros Hlen. unfold scheme_and_seed, hex_secret.
  replace (str_chars (String.append "0x" (string_of_list_ascii (PyBytes.hex seed))))
    with ("0"%char :: "x"%char :: PyBytes.hex seed)
    by (cbn [String.append str_chars list_ascii_of_string];
        fold (str_chars (string_of_list_ascii (PyBytes.hex seed)));
        rewrite str_chars_of_chars; reflexivity).
  change (PyStr.startswith (str_chars "suiprivkey1") _) with false. cbv iota.
  unfold PyStr.replace_with_empty. cbv zeta. rewrite remove_all_step.
  change (PyStr.startswith (str_chars "0x") _) with true. cbv iota.
  change (skipn _ ("0"%char :: "x"%char :: PyBytes.hex seed)) with (PyBytes.hex seed).
  rewrite remove_all_no_x by apply hex_no_x.
  rewrite firstn_all2 by (rewrite hex_length; lia).
  unfold PyBytes.fromhex. rewrite fromhex_hex. reflexivity.
Qed.

Lemma derive_from_scheme_and_seed
      (P : primitives) (secret : string) (scheme : Z) (seed : bytes) :
  0 <= scheme < 256 -> List.length seed = 32%nat ->
  scheme_and_seed secret = ok (scheme, seed) ->
  derive_sui_address P secret =
  ok (address_of P scheme (ed25519_public_key P seed)).
Proof.
  intros Hs Hlen H. unfold derive_sui_address, derive_sui_address_try.
  rewrite H. unfold ok. cbn [rbind]. rewrite (SigningKey_32 _ Hlen).
  unfold ok. cbn [rbind]. rewrite (sui_address_ok _ _ _ Hs). reflexivity.
Qed.

(** C9.  For every 32-byte seed, the hexadecimal text of the seed (with or
    without the prefix ["0x"]) and the bech32 text of the seed under scheme
    0 are read by [derive_sui_address] as the same scheme and seed, and
    lead to the same address: the one [get_address_from_key] derives from
    the bech32 text. *)
Theorem key_paths_agree (P : primitives) (seed : bytes) :
  List.length seed = 32%nat ->
  scheme_and_seed (hex_secret seed) = ok (0, seed) /\
  scheme_and_seed (String.append "0x" (hex_secret seed)) = ok (0, seed) /\
  scheme_and_seed (bech32_secret 0 seed) = ok (0, seed) /\
  derive_sui_address P (hex_secret seed) =
    derive_sui_address P (bech32_secret 0 seed) /\
  derive_sui_address P (String.append "0x" (hex_secret seed)) =
    derive_sui_address P (bech32_secret 0 seed) /\
  derive_sui_address P (bech32_secret 0 seed) =
    ok (address_of P 0 (ed25519_public_key P seed)) /\
  get_address_from_key P (bech32_secret 0 seed) =
    ok (seed, 0, ed25519_public_key P seed,
        address_of P 0 (ed25519_public_key P seed)).
Proof.
  intros Hlen.
  assert (H0 : 0 <= 0 < 256) by lia.
  pose proof (decode_hex_secret seed Hlen) as Hhex.
  pose proof (decode_0x_hex_secret seed Hlen) as Hhex'.
  pose proof (decode_bech32_secret 0 seed H0 Hlen) as Hkey.
  assert (Hbech : scheme_and_seed (bech32_secret 0 seed) = ok (0, seed)).
  { unfold scheme_and_seed. rewrite bech32_secret_prefix. exact Hkey. }
  repeat split; try assumption.
  - rewrite (derive_from_scheme_and_seed P _ 0 seed H0 Hlen Hhex).
    rewrite (derive_from_scheme_and_seed P _ 0 seed H0 Hlen Hbech). reflexivity.
  - rewrite (derive_from_scheme_and_seed P _ 0 seed H0 Hlen Hhex').
    rewrite (derive_from_scheme_and_seed P _ 0 seed H0 Hlen Hbech). reflexivity.
  - apply (derive_from_scheme_and_seed P _ 0 seed H0 Hlen Hbech).
  - unfold get_address_from_key. rewrite Hkey. unfold ok. cbn [rbind].
    rewrite (SigningKey_32 _ Hlen). unfold ok. cbn [rbind].
    rewrite (sui_address_ok _ _ _ H0). reflexivity.
Qed.

(** The bech32 text of the seed of 32 bytes [0x07] under scheme 0 is
    [sample_key]. *)
Lemma bech32_secret_sample : bech32_secret 0 (repeat x07 32) = sample_key.
Proof. vm_compute. reflexivity. Qed.

(** C9 at the seed of 32 bytes [0x07]. *)
Lemma key_paths_agree_witness :
  List.length (repeat x07 32) = 32%nat /\
  derive_sui_address sized_primitives (hex_secret (repeat x07 32)) =
  derive_sui_address sized_primitives (bech32_secret 0 (repeat x07 32)).
Proof.
  split; [reflexivity |].
  exact (proj1 (proj2 (proj2 (proj2
           (key_paths_agree sized_primitives (repeat x07 32) eq_refl))))).
Defined.

(* ===================================================================== *)
(** * Further properties: the texts of a key *)
(* ===================================================================== *)

Lemma hex_app (a b : bytes) : PyBytes.hex (a ++ b) = PyBytes.hex a ++ PyBytes.hex b.
Proof. unfold PyBytes.hex. apply flat_map_app. Qed.

Lemma firstn_hex (n : nat) (b : bytes) :
  firstn (2 * n) (PyBytes.hex b) = PyBytes.hex (firstn n b).
Proof.
  revert b. induction n as [| n IH]; intros b; [reflexivity |].
  destruct b as [| x b]; [reflexivity |].
  replace (2 * S n)%nat with (S (S (2 * n))) by lia.
  unfold PyBytes.hex in *. cbn [flat_map app firstn]. rewrite IH. reflexivity.
Qed.

Lemma hex_text_prefix (b : bytes) :
  PyStr.startswith (str_chars "suiprivkey1") (str_chars (hex_secret b)) = false.
Proof.
  destruct b as [| x b]; [reflexivity |].
  apply hex_secret_prefix. discriminate.
Qed.

(** The hex branch on the hex text of any byte string: the first 32
    bytes, scheme 0. *)
Lemma decode_hex_text (b : bytes) :
  scheme_and_seed (hex_secret b) = ok (0, firstn 32 b).
Proof.
  unfold scheme_and_seed. rewrite hex_text_prefix.
  unfold hex_secret. rewrite str_chars_of_chars.
  unfold PyStr.replace_with_empty. rewrite remove_all_no_x by apply hex_no_x.
  change 64%nat with (2 * 32)%nat. rewrite firstn_hex.
  unfold PyBytes.fromhex. rewrite fromhex_hex. reflexivity.
Qed.

(** X1.  On the hexadecimal text of a byte string, [derive_sui_address]
    takes the first 32 bytes as the seed and ignores what follows, so the
    text of a 64-byte key pair gives the address of its first half; on
    fewer than 32 bytes it returns the text ["(derive failed: ...)"]
    that reports the refusal of [SigningKey], not an address. *)
Theorem derive_sui_address_hex_text (P : primitives) (b : bytes) :
  derive_sui_address P (hex_secret b) =
  if (32 <=? List.length b)%nat
  then ok (address_of P 0 (ed25519_public_key P (firstn 32 b)))
  else ok ("(derive failed: " ++ exn_text NaclValueError ++ ")")%string.
Proof.
  destruct (Nat.leb_spec 32 (List.length b)) as [Hlen | Hlen].
  - apply derive_from_scheme_and_seed; [lia | | apply decode_hex_text].
    rewrite length_firstn. lia.
  - unfold derive_sui_address, derive_sui_address_try.
    rewrite decode_hex_text. unfold ok. cbn [rbind].
    rewrite firstn_all2 by lia. unfold SigningKey.
    destruct (Nat.eqb_spec (List.length b) 32) as [Heq | _]; [lia |].
    reflexivity.
Qed.

Lemma get_address_from_key_of (P : primitives) (secret : string) (scheme : Z)
      (seed : bytes) :
  0 <= scheme < 256 -> List.length seed = 32%nat ->
  decode_bech32_key secret = ok (scheme, seed) ->
  get_address_from_key P secret =
  ok (seed, scheme, ed25519_public_key P seed,
      address_of P scheme (ed25519_public_key P seed)).
Proof.
  intros Hs Hlen H. unfold get_address_from_key. rewrite H. unfold ok. cbn [rbind].
  rewrite (SigningKey_32 _ Hlen). unfold ok. cbn [rbind].
  rewrite (sui_address_ok _ _ _ Hs). reflexivity.
Qed.

(** X2.  [get_address_from_key] reads back the scheme byte and the seed
    of the bech32 text of a key under every scheme byte: the scheme is
    carried into the address and never checked, and the public key is
    the Ed25519 key of the seed whatever the scheme says. *)
Theorem key_text_decodes_under_any_scheme
        (P : primitives) (scheme : Z) (seed : bytes) :
  0 <= scheme < 256 -> List.length seed = 32%nat ->
  get_address_from_key P (bech32_secret scheme seed) =
    ok (seed, scheme, ed25519_public_key P seed,
        address_of P scheme (ed25519_public_key P seed)) /\
  derive_sui_address P (bech32_secret scheme seed) =
    ok (address_of P scheme (ed25519_public_key P seed)).
Proof.
  intros Hs Hlen.
  pose proof (decode_bech32_secret scheme seed Hs Hlen) as Hkey. split.
  - apply get_address_from_key_of; assumption.
  - apply derive_from_scheme_and_seed; [assumption | assumption |].
    unfold scheme_and_seed. rewrite bech32_secret_prefix. exact Hkey.
Qed.

(** X2 at the scheme byte 1 and the seed of 32 bytes [0x07]. *)
Lemma key_text_decodes_under_any_scheme_witness :
  0 <= 1 < 256 /\ List.length (repeat x07 32) = 32%nat /\
  get_address_from_key sized_primitives (bech32_secret 1 (repeat x07 32)) =
    ok (repeat x07 32, 1, ed25519_public_key sized_primitives (repeat x07 32),
        address_of sized_primitives 1
          (ed25519_public_key sized_primitives (repeat x07 32))).
Proof.
  split; [lia |]. split; [reflexivity |].
  exact (proj1 (key_text_decodes_under_any_scheme sized_primitives 1
                  (repeat x07 32) ltac:(lia) eq_refl)).
Defined.

(* ===================================================================== *)
(** * Further properties: the steps of the pipeline *)
(* ===================================================================== *)

(** A run of [rpc_call]: one request, then the verdict on the answer. *)
Lemma rpc_call_run {W : Type} (ops : world_ops W) (method : string)
      (params : list pyval) (s : state W) :
  rpc_call ops method params s =
  (rpc_outcome (fst (requests_post_json ops SUI_RPC (rpc_payload method params)
                       (world s))),
   {| world := snd (requests_post_json ops SUI_RPC (rpc_payload method params)
                      (world s));
      log := EvHttpPost SUI_RPC (rpc_payload method params)
               (fst (requests_post_json ops SUI_RPC (rpc_payload method params)
                       (world s))) :: log s;
      locals := locals s |}).
Proof.
  unfold rpc_call, bind, ask, rpc_outcome.
  destruct (requests_post_json ops SUI_RPC (rpc_payload method params) (world s))
    as [[e | response] w']; cbn [fst snd lift raise ret]; [reflexivity |].
  destruct (rpc_result response); reflexivity.
Qed.

Lemma rpc_result_value (response v : pyval) :
  rpc_result response = inr v ->
  exists d, response = PDict d /\
            Py.lookup "error" d = None /\ Py.lookup "result" d = Some v.
Proof.
  unfold rpc_result. destruct response as [| b | z | f | t | l | d];
    cbn [Py.contains_str rbind throw]; try discriminate.
  - destruct (PyStr.contains _ _); cbn; discriminate.
  - destruct (existsb _ l); cbn; discriminate.
  - destruct (Py.lookup "error" d) as [err |] eqn:He; cbn [ok rbind Py.getitem].
    + rewrite He. cbn. discriminate.
    + destruct (Py.lookup "result" d) as [v' |] eqn:Hr; [| discriminate].
      intros H. injection H as <-. exists d. auto.
Qed.

Lemma rpc_result_error (d : list (string * pyval)) (err : pyval) :
  Py.lookup "error" d = Some err ->
  rpc_result (PDict d) = throw (RpcError err).
Proof.
  intros He. unfold rpc_result, Py.contains_str, Py.getitem. rewrite He.
  reflexivity.
Qed.

(** X3.  [rpc_call] sends one request, with the JSON-RPC envelope of its
    method and parameters, to the node.  It returns a value only when
    the answer is an object without the key ["error"], and then the value
    under ["result"]; an answer that carries ["error"] raises, even when
    it carries a ["result"] too; a failure of the transport propagates. *)
Theorem rpc_call_never_returns_an_error
        {W : Type} (ops : world_ops W) (method : string) (params : list pyval)
        (s : state W) :
  let payload := rpc_payload method params in
  let r := fst (requests_post_json ops SUI_RPC payload (world s)) in
  let run := rpc_call ops method params s in
  log (snd run) = EvHttpPost SUI_RPC payload r :: log s /\
  method_is method payload = true /\
  (forall v, fst run = Next v ->
             exists d, r = inr (PDict d) /\
                       Py.lookup "error" d = None /\
                       Py.lookup "result" d = Some v) /\
  (forall d err, r = inr (PDict d) -> Py.lookup "error" d = Some err ->
                 fst run = Raise (RpcError err)) /\
  (forall e, r = inl e -> fst run = Raise e) /\
  (forall v, fst run <> Return v).
Proof.
  cbv zeta. rewrite rpc_call_run. cbn [fst snd log].
  split; [reflexivity |]. split.
  { unfold method_is, rpc_payload. cbn [Py.lookup String.eqb Ascii.eqb Bool.eqb].
    cbn. apply String.eqb_refl. }
  set (r := fst (requests_post_json ops SUI_RPC (rpc_payload method params) (world s))).
  unfold rpc_outcome. repeat split.
  - intros v H. destruct r as [e | response]; [discriminate |].
    destruct (rpc_result response) as [e | v'] eqn:Hres; [discriminate |].
    injection H as ->. apply rpc_result_value in Hres.
    destruct Hres as (d & -> & He & Hr). exists d. auto.
  - intros d err -> He. rewrite (rpc_result_error _ _ He). reflexivity.
  - intros e ->. reflexivity.
  - intros v. destruct r as [e | response]; [discriminate |].
    destruct (rpc_result response); discriminate.
Qed.

(** X3 in the scripted world, on an answer with both keys. *)
Lemma rpc_call_never_returns_an_error_witness :
  fst (rpc_call scripted_ops "suix_getCoins" []
         (initial_state
            (world_with (ok None)
               [ok (PDict [("result", PInt 1); ("error", PStr "busy")])] "y"))) =
  Raise (RpcError (PStr "busy")).
Proof.
  exact (proj1 (proj2 (proj2 (proj2
           (rpc_call_never_returns_an_error scripted_ops "suix_getCoins" []
              (initial_state
                 (world_with (ok None)
                    [ok (PDict [("result", PInt 1); ("error", PStr "busy")])] "y"))))))
           [("result", PInt 1); ("error", PStr "busy")] (PStr "busy")
           eq_refl eq_refl).
Defined.

Lemma resolve_suins_run {W : Type} (ops : world_ops W) (name : string)
      (s : state W) :
  let payload := rpc_payload "suix_resolveNameServiceAddress" [PStr name] in
  resolve_suins ops name s =
  (Next (resolved_value (fst (requests_post_json ops SUI_RPC payload (world s)))),
   {| world := snd (requests_post_json ops SUI_RPC payload (world s));
      log := EvHttpPost SUI_RPC payload
               (fst (requests_post_json ops SUI_RPC payload (world s))) :: log s;
      locals := locals s |}).
Proof.
  cbv zeta. unfold resolve_suins, try_except. rewrite rpc_call_run.
  unfold resolved_value, rpc_outcome.
  destruct (fst (requests_post_json ops SUI_RPC _ (world s))) as [e | response];
    [reflexivity |].
  destruct (rpc_result response); reflexivity.
Qed.

(** X4.  [resolve_suins] never raises and never does more than its one
    request: it yields what the node resolved the name to, and [None]
    when the transport fails, when the node answers with an error, or
    when the answer has not the shape of a JSON-RPC response. *)
Theorem resolve_suins_never_raises
        {W : Type} (ops : world_ops W) (name : string) (s : state W) :
  let payload := rpc_payload "suix_resolveNameServiceAddress" [PStr name] in
  let r := fst (requests_post_json ops SUI_RPC payload (world s)) in
  exists v,
    fst (resolve_suins ops name s) = Next v /\
    log (snd (resolve_suins ops name s)) = EvHttpPost SUI_RPC payload r :: log s /\
    locals (snd (resolve_suins ops name s)) = locals s /\
    (v = PNone \/
     exists d, r = inr (PDict d) /\
               Py.lookup "error" d = None /\ Py.lookup "result" d = Some v).
Proof.
  cbv zeta. rewrite resolve_suins_run. cbn [fst snd log locals].
  eexists. split; [reflexivity |]. split; [reflexivity |]. split; [reflexivity |].
  unfold resolved_value, rpc_outcome.
  destruct (fst (requests_post_json ops SUI_RPC _ (world s))) as [e | response];
    [left; reflexivity |].
  destruct (rpc_result response) as [e | v] eqn:Hres; [left; reflexivity |].
  right. apply rpc_result_value in Hres. destruct Hres as (d & -> & He & Hr).
  exists d. auto.
Qed.

(** X5.  When the recipient is a [.sui] name that does not resolve (the
    node is unreachable, answers with an error, or resolves the name to
    nothing), [transfer] returns [None] after one request to the node:
    the keychain is not asked, nothing is read or written on disk, and no
    secret is ever bound. *)
Theorem unresolved_name_stops_before_keychain
        {W : Type} (ops : world_ops W) (P : primitives)
        (wallet_alias recipient : string) (amount_sui : float)
        (auto_confirm : bool) (w0 : W) (amount_mist : Z) :
  let payload := rpc_payload "suix_resolveNameServiceAddress" [PStr recipient] in
  let r := fst (requests_post_json ops SUI_RPC payload w0) in
  amount_mist_of amount_sui = ok amount_mist ->
  PyStr.endswith (str_chars ".sui") (str_chars recipient) = true ->
  Py.truthy (resolved_value r) = false ->
  transfer ops P wallet_alias recipient amount_sui auto_confirm (initial_state w0) =
  (Next PNone,
   {| world := snd (requests_post_json ops SUI_RPC payload w0);
      log := [EvPrint (MsgResolveFailed recipient);
              EvHttpPost SUI_RPC payload r;
              EvPrint (MsgResolving recipient)];
      locals := {| v_privkey := Unbound; v_seed := Unbound |} |}).
Proof.
  cbv zeta. intros Hamount Hends Hres.
  unfold transfer, call, transfer_setup.
  rewrite ?run_bind_assoc, run_bind_lift, Hamount. unfold ok.
  rewrite Hends.
  rewrite ?run_bind_assoc, run_bind_print.
  rewrite ?run_bind_assoc.
  unfold bind at 1. rewrite resolve_suins_run. cbn [world logged initial_state log locals].
  rewrite Hres. cbn [negb].
  rewrite ?run_bind_assoc, run_bind_print. rewrite ?run_bind_assoc, run_bind_return.
  reflexivity.
Qed.

(** X5 in the scripted world: the node cannot be reached. *)
Lemma unresolved_name_stops_before_keychain_witness :
  fst (run_transfer (world_with (ok (Some sample_key)) [] "y") "alice.sui"
                    one_cent true) = Next PNone /\
  List.length (log (snd (run_transfer (world_with (ok (Some sample_key)) [] "y")
                                      "alice.sui" one_cent true))) = 3%nat.
Proof.
  unfold run_transfer.
  rewrite (unresolved_name_stops_before_keychain scripted_ops sized_primitives
             "sui1" "alice.sui" one_cent true
             (world_with (ok (Some sample_key)) [] "y") 10000000
             eq_refl eq_refl eq_refl).
  split; reflexivity.
Defined.

(** X6.  When the keychain gives no usable key (it raises, it has no
    entry, or the entry is empty), [transfer] on a plain address stops at
    once: it has sent no request to the node and touched no file, the
    [finally] block does not run, and the outcome is the exception of
    the keychain or [None]. *)
Theorem no_key_stops_before_network
        {W : Type} (ops : world_ops W) (P : primitives)
        (wallet_alias recipient : string) (amount_sui : float)
        (auto_confirm : bool) (w0 : W) (amount_mist : Z) :
  let r := fst (keyring_get_password ops SERVICE_ID wallet_alias w0) in
  amount_mist_of amount_sui = ok amount_mist ->
  PyStr.endswith (str_chars ".sui") (str_chars recipient) = false ->
  no_key r = true ->
  transfer ops P wallet_alias recipient amount_sui auto_confirm (initial_state w0) =
  (no_key_outcome r,
   {| world := snd (keyring_get_password ops SERVICE_ID wallet_alias w0);
      log := no_key_events SERVICE_ID wallet_alias r ++
             [EvPrint (MsgRequest wallet_alias recipient (PStr recipient)
                                  amount_sui amount_mist)];
      locals := {| v_privkey := privkey_binding r; v_seed := Unbound |} |}).
Proof.
  cbv zeta. intros Hamount Hends Hkey.
  unfold transfer, call, transfer_setup.
  rewrite ?run_bind_assoc, run_bind_lift, Hamount. unfold ok.
  rewrite Hends.
  rewrite ?run_bind_assoc, run_bind_ret, ?run_bind_assoc, run_bind_print.
  rewrite ?run_bind_assoc.
  unfold bind at 1. unfold ask at 1. cbn [world logged initial_state log locals].
  destruct (keyring_get_password ops SERVICE_ID wallet_alias w0) as [r w1].
  cbn [fst snd] in *.
  destruct r as [e | [k |]]; cbn [no_key] in Hkey.
  - reflexivity.
  - apply String.eqb_eq in Hkey. subst k. reflexivity.
  - reflexivity.
Qed.

(** X6 in the scripted world without a keychain entry. *)
Lemma no_key_stops_before_network_witness :
  fst (run_transfer world_no_key "0xabc" one_cent false) = Next PNone /\
  forall e, In e (log (snd (run_transfer world_no_key "0xabc" one_cent false))) ->
            is_request "suix_getCoins" e = false.
Proof.
  unfold run_transfer.
  rewrite (no_key_stops_before_network scripted_ops sized_primitives
             "sui1" "0xabc" one_cent false world_no_key 10000000
             eq_refl eq_refl eq_refl).
  split; [reflexivity |].
  intros e [<- | [<- | [<- | []]]]; reflexivity.
Defined.

Lemma lookup_update_same (k : string) (v : pyval) (d : list (string * pyval)) :
  Py.lookup k (Py.update k v d) = Some v.
Proof.
  induction d as [| [k' v'] d IH]; cbn [Py.update Py.lookup].
  - rewrite String.eqb_refl. reflexivity.
  - destruct (String.eqb_spec k k') as [<- | Hne]; cbn [Py.lookup].
    + rewrite String.eqb_refl. reflexivity.
    + apply String.eqb_neq in Hne. rewrite Hne. exact IH.
Qed.

Lemma lookup_update_other (k k' : string) (v : pyval) (d : list (string * pyval)) :
  k' <> k -> Py.lookup k' (Py.update k v d) = Py.lookup k' d.
Proof.
  intros Hne. induction d as [| [k0 v0] d IH]; cbn [Py.update Py.lookup].
  - apply String.eqb_neq in Hne. rewrite Hne. reflexivity.
  - destruct (String.eqb_spec k k0) as [<- | Hk]; cbn [Py.lookup].
    + apply String.eqb_neq in Hne. rewrite Hne. reflexivity.
    + rewrite IH. reflexivity.
Qed.

Lemma save_wallet_address_absent {W : Type} (ops : world_ops W)
      (wallet_alias address : string) (s : state W) (w1 : W) :
  addr_file_exists ops (world s) = (false, w1) ->
  save_wallet_address ops wallet_alias address s =
  (match fst (addr_file_store ops (PDict [(wallet_alias, PStr address)]) w1) with
   | inl e => Raise e
   | inr u => Next u
   end,
   {| world := snd (addr_file_store ops (PDict [(wallet_alias, PStr address)]) w1);
      log := EvFileStore (PDict [(wallet_alias, PStr address)])
               (fst (addr_file_store ops (PDict [(wallet_alias, PStr address)]) w1))
             :: EvFileExists false :: log s;
      locals := locals s |}).
Proof.
  intros He. unfold save_wallet_address, bind, ask. rewrite He.
  cbn [ret lift Py.setitem Py.update ok world log locals].
  destruct (addr_file_store ops _ w1) as [[e | []] w2]; reflexivity.
Qed.

Lemma save_wallet_address_present {W : Type} (ops : world_ops W)
      (wallet_alias address : string) (s : state W) (w1 w2 : W)
      (old : list (string * pyval)) :
  addr_file_exists ops (world s) = (true, w1) ->
  addr_file_load ops w1 = (ok (PDict old), w2) ->
  let stored := PDict (Py.update wallet_alias (PStr address) old) in
  save_wallet_address ops wallet_alias address s =
  (match fst (addr_file_store ops stored w2) with
   | inl e => Raise e
   | inr u => Next u
   end,
   {| world := snd (addr_file_store ops stored w2);
      log := EvFileStore stored (fst (addr_file_store ops stored w2))
             :: EvFileLoad (ok (PDict old)) :: EvFileExists true :: log s;
      locals := locals s |}).
Proof.
  intros He Hl. cbv zeta. unfold save_wallet_address, bind, ask. rewrite He.
  cbn [world log locals]. rewrite Hl.
  cbn [ret lift Py.setitem ok world log locals].
  destruct (addr_file_store ops _ w2) as [[e | []] w3]; reflexivity.
Qed.

Lemma save_wallet_address_unreadable {W : Type} (ops : world_ops W)
      (wallet_alias address : string) (s : state W) (w1 w2 : W) (r : res pyval) :
  addr_file_exists ops (world s) = (true, w1) ->
  addr_file_load ops w1 = (r, w2) ->
  is_dict r = false ->
  save_wallet_address ops wallet_alias address s =
  (Raise (unreadable_cache_error r),
   {| world := w2;
      log := EvFileLoad r :: EvFileExists true :: log s;
      locals := locals s |}).
Proof.
  intros He Hl Hr. unfold save_wallet_address, bind, ask. rewrite He.
  cbn [world log locals]. rewrite Hl.
  destruct r as [e | v]; [reflexivity |].
  destruct v; try discriminate Hr; reflexivity.
Qed.

(** X7.  When [save_wallet_address] succeeds, what it wrote to the cache
    file maps the alias to the address and every other alias to what the
    file held before (nothing, when there was no file).  When the file
    exists and does not load as an object, the function raises and
    writes nothing. *)
Theorem save_wallet_address_keeps_other_entries
        {W : Type} (ops : world_ops W) (wallet_alias address : string)
        (s : state W) :
  let run := save_wallet_address ops wallet_alias address s in
  (fst run = Next tt ->
   exists old stored,
     (log (snd run) =
        EvFileStore (PDict stored) (ok tt) :: EvFileExists false :: log s /\
      old = [] \/
      log (snd run) =
        EvFileStore (PDict stored) (ok tt) :: EvFileLoad (ok (PDict old))
          :: EvFileExists true :: log s) /\
     Py.lookup wallet_alias stored = Some (PStr address) /\
     forall k, k <> wallet_alias -> Py.lookup k stored = Py.lookup k old) /\
  (forall w1 r w2,
     addr_file_exists ops (world s) = (true, w1) ->
     addr_file_load ops w1 = (r, w2) ->
     is_dict r = false ->
     fst run = Raise (unreadable_cache_error r) /\
     forall e, In e (log (snd run)) -> In e (log s) \/ is_store e = false).
Proof.
  cbv zeta. split.
  - destruct (addr_file_exists ops (world s)) as [[|] w1] eqn:He.
    + destruct (addr_file_load ops w1) as [r w2] eqn:Hl.
      destruct (is_dict r) eqn:Hr.
      * destruct r as [e | v]; [discriminate |]. destruct v; try discriminate.
        rewrite (save_wallet_address_present ops _ _ _ _ _ _ He Hl).
        cbn [fst snd log].
        destruct (addr_file_store ops _ w2) as [[e | []] w3]; cbn [fst snd];
          [discriminate |].
        intros _. exists d, (Py.update wallet_alias (PStr address) d).
        split; [right; reflexivity |].
        split; [apply lookup_update_same |].
        intros k Hk. apply lookup_update_other. exact Hk.
      * rewrite (save_wallet_address_unreadable ops _ _ _ _ _ _ He Hl Hr).
        discriminate.
    + rewrite (save_wallet_address_absent ops _ _ _ _ He). cbn [fst snd log].
      destruct (addr_file_store ops _ w1) as [[e | []] w2]; cbn [fst snd];
        [discriminate |].
      intros _. exists [], [(wallet_alias, PStr address)].
      split; [left; auto |].
      split; [cbn [Py.lookup]; rewrite String.eqb_refl; reflexivity |].
      intros k Hk. cbn [Py.lookup]. apply String.eqb_neq in Hk. rewrite Hk.
      reflexivity.
  - intros w1 r w2 He Hl Hr.
    rewrite (save_wallet_address_unreadable ops _ _ _ _ _ _ He Hl Hr).
    cbn [fst snd log]. split; [reflexivity |].
    intros e [<- | [<- | Hin]]; auto.
Qed.

(** X7 on a desk whose file holds one other entry. *)
Lemma save_wallet_address_keeps_other_entries_witness :
  exists old stored,
    (log (snd (save_wallet_address desk_ops "sui1" "0xabc"
                 (initial_state (desk_with (Some (ok (PDict [("eth1", PStr "0x1")]))))))) =
       EvFileStore (PDict stored) (ok tt) :: EvFileExists false :: [] /\
     old = [] \/
     log (snd (save_wallet_address desk_ops "sui1" "0xabc"
                 (initial_state (desk_with (Some (ok (PDict [("eth1", PStr "0x1")]))))))) =
       EvFileStore (PDict stored) (ok tt) :: EvFileLoad (ok (PDict old))
         :: EvFileExists true :: []) /\
    Py.lookup "sui1" stored = Some (PStr "0xabc") /\
    forall k, k <> "sui1" -> Py.lookup k stored = Py.lookup k old.
Proof.
  exact (proj1 (save_wallet_address_keeps_other_entries desk_ops "sui1" "0xabc"
                  (initial_state (desk_with (Some (ok (PDict [("eth1", PStr "0x1")]))))))
               eq_refl).
Defined.

(** X8.  [transfer] writes the address cache before it asks the node for
    coins.  So when the cache file exists and does not load as an object
    (unreadable, not JSON, a JSON list), a run with a good key ends with
    the exception of that step: no request was sent to the node, nothing
    was written, and the [finally] block has unbound the key and the
    seed. *)
Theorem unreadable_cache_stops_transfer
        {W : Type} (ops : world_ops W) (P : primitives)
        (wallet_alias recipient : string) (amount_sui : float)
        (auto_confirm : bool) (w0 w1 w2 w3 : W) (amount_mist : Z)
        (k : string) (info : key_info) (r : res pyval) :
  amount_mist_of amount_sui = ok amount_mist ->
  PyStr.endswith (str_chars ".sui") (str_chars recipient) = false ->
  keyring_get_password ops SERVICE_ID wallet_alias w0 = (ok (Some k), w1) ->
  k <> "" ->
  get_address_from_key P k = ok info ->
  addr_file_exists ops w1 = (true, w2) ->
  addr_file_load ops w2 = (r, w3) ->
  is_dict r = false ->
  transfer ops P wallet_alias recipient amount_sui auto_confirm (initial_state w0) =
  (Raise (unreadable_cache_error r),
   {| world := w3;
      log := [EvPrint MsgKeyCleared; EvFileLoad r; EvFileExists true;
              EvKeyring SERVICE_ID wallet_alias (ok (Some k));
              EvPrint (MsgRequest wallet_alias recipient (PStr recipient)
                                  amount_sui amount_mist)];
      locals := {| v_privkey := Unbound; v_seed := Unbound |} |}).
Proof.
  intros Hamount Hends Hkey Hk Hinfo He Hl Hr.
  unfold transfer, call, transfer_setup.
  rewrite ?run_bind_assoc, run_bind_lift, Hamount. unfold ok.
  rewrite Hends.
  rewrite ?run_bind_assoc, run_bind_ret, ?run_bind_assoc, run_bind_print.
  rewrite ?run_bind_assoc.
  unfold bind at 1. unfold ask at 1. cbn [world logged initial_state log locals].
  rewrite Hkey. cbv beta iota zeta.
  rewrite ?run_bind_assoc, run_bind_lift. unfold ok. rewrite ?run_bind_assoc.
  unfold bind at 1. unfold set_locals at 1. cbv beta iota zeta.
  cbn [world log locals].
  apply String.eqb_neq in Hk. rewrite Hk.
  rewrite run_bind_ret.
  destruct info as [[[seed scheme] pk] sender].
  match goal with
  | |- context [try_finally ?b clear_secrets ?s1] =>
      assert (Hbody :
        b s1 =
        (Raise (unreadable_cache_error r),
         {| world := w3;
            log := EvFileLoad r :: EvFileExists true :: log s1;
            locals := {| v_privkey := BoundStr k; v_seed := BoundBytes seed |} |}))
  end.
  { unfold transfer_try, transfer_simulate.
    rewrite ?run_bind_assoc, run_bind_lift, Hinfo. unfold ok.
    rewrite ?run_bind_assoc.
    unfold bind at 1. unfold set_locals at 1. cbv beta iota zeta.
    rewrite ?run_bind_assoc. unfold bind at 1.
    rewrite (save_wallet_address_unreadable ops wallet_alias sender _ w2 w3 r);
      [reflexivity | exact He | exact Hl | exact Hr]. }
  rewrite try_finally_clear_run, Hbody. reflexivity.
Qed.

(** X8 on a desk whose cache file holds a JSON list. *)
Lemma unreadable_cache_stops_transfer_witness :
  fst (transfer desk_ops sized_primitives "sui1" "0xabc" one_cent true
         (initial_state (desk_with (Some (ok (PList [])))))) = Raise TypeError /\
  forall e,
    In e (log (snd (transfer desk_ops sized_primitives "sui1" "0xabc" one_cent true
                      (initial_state (desk_with (Some (ok (PList []))))))))  ->
    is_http e = false.
Proof.
  rewrite (unreadable_cache_stops_transfer desk_ops sized_primitives
             "sui1" "0xabc" one_cent true
             (desk_with (Some (ok (PList [])))) (desk_with (Some (ok (PList []))))
             (desk_with (Some (ok (PList [])))) (desk_with (Some (ok (PList []))))
             10000000 sample_key
             (repeat x07 32, 0, ed25519_public_key sized_primitives (repeat x07 32),
              address_of sized_primitives 0
                (ed25519_public_key sized_primitives (repeat x07 32)))
             (ok (PList []))
             eq_refl eq_refl eq_refl ltac:(discriminate) eq_refl eq_refl eq_refl
             eq_refl).
  split; [reflexivity |].
  intros e [<- | [<- | [<- | [<- | [<- | []]]]]]; reflexivity.
Defined.

Lemma prompt_history_neutral (g : gate_state) (e : event) (l : list event) :
  gate_neutral e = true -> prompt_history g l -> prompt_history g (e :: l).
Proof.
  intros Hn. pose proof (neutral_event_facts e Hn) as (H1 & H2 & _).
  destruct g; cbn [prompt_history].
  1-3, 5: intros H e' [<- | Hin]; auto.
  - intros [(answer & Hin & Hc) H]. split.
    + exists answer. split; [right |]; assumption.
    + intros e' [<- | Hin']; auto.
  - intros (answer & Hin & Hc). exists answer. split; [right |]; assumption.
  - intros (answer & Hin & Hc). exists answer. split; [right |]; assumption.
Qed.

(** Without the directive, the log of an accepted run holds an
    affirmative answer once the gate is past the confirmation. *)
Lemma watched_prompt_history (l : list event) (w : watch) :
  watched false l w -> prompt_history (gate w) l.
Proof.
  unfold watched. intros H. induction H as [| l w e w' Hl IH Hstep].
  - intros e [].
  - apply watch_step_gate in Hstep.
    destruct Hstep as [g e Hn | tx r Hr | tx r Hr | tx Ha | tx answer Ha Hc
                       | tx r Ha Hc | tx seed scheme | tx sig r].
    + apply prompt_history_neutral; assumption.
    + cbn [prompt_history] in *. intros e [<- | Hin]; auto.
    + cbn [prompt_history] in *. intros e [<- | Hin]; auto.
    + discriminate Ha.
    + cbn [prompt_history] in *. split.
      * exists answer. split; [left; reflexivity | exact Hc].
      * intros e [<- | Hin]; auto.
    + cbn [prompt_history] in *. intros e [<- | Hin]; auto.
    + cbn [prompt_history] in *. destruct IH as [(answer & Hin & Hc) _].
      exists answer. split; [right |]; assumption.
    + cbn [prompt_history] in *. destruct IH as (answer & Hin & Hc).
      exists answer. split; [right |]; assumption.
Qed.

(** A refusal is terminal. *)
Lemma cancelled_is_terminal (auto : bool) (w1 w : watch) (post : list event) :
  accepted (watch_step auto) w1 post w ->
  gate w1 = Cancelled ->
  gate w = Cancelled /\ forallb gate_neutral post = true.
Proof.
  intros H Hw1. induction H as [| l w e w' Hl IH Hstep].
  - auto.
  - destruct IH as [Hg Hn]. apply watch_step_gate in Hstep. rewrite Hg in Hstep.
    inversion Hstep as [g1 e1 Hne | | | | | | |]; subst.
    cbn [forallb]. rewrite Hne, Hn. auto.
Qed.

Lemma fits_cancelled (c : ctl pyval) (w : watch) :
  fits c w -> gate w = Cancelled ->
  c = Next PNone \/ exists e, c = Raise e.
Proof.
  intros Hf Hg. destruct c as [v | v | e]; cbn in Hf.
  - rewrite Hg in Hf. destruct Hf as [-> _]. auto.
  - destruct Hf.
  - eauto.
Qed.

(** X9.  Without the auto-confirm directive, [transfer] enters the
    signer only after it read from the console an answer that is ["y"]
    or ["yes"] once stripped and lowercased.  When what it read is
    anything else, or reading fails, the run ends with [None] or an
    exception, and neither the signer nor the executor is called. *)
Theorem prompt_gates_signing
        {W : Type} (ops : world_ops W) (P : primitives)
        (wallet_alias recipient : string) (amount_sui : float) (w0 : W) :
  let run := transfer ops P wallet_alias recipient amount_sui false
                      (initial_state w0) in
  let trace := trace_of (snd run) in
  (forall before after tx seed scheme,
      trace = before ++ EvSignerEntered tx seed scheme :: after ->
      exists answer,
        In (EvInput (inr answer)) before /\ confirms answer = true) /\
  (forall r,
      In (EvInput r) trace ->
      (forall answer, r = inr answer -> confirms answer = false) ->
      (fst run = Next PNone \/ exists e, fst run = Raise e) /\
      forall e, In e trace ->
                is_signer_entry e = false /\
                is_request "sui_executeTransactionBlock" e = false).
Proof.
  intros run trace.
  destruct (transfer_run_watched ops P false wallet_alias recipient amount_sui w0)
    as (w & Hw & Hfit).
  fold run in Hw, Hfit. unfold trace, trace_of. split.
  - intros before after tx seed scheme Htr.
    apply rev_eq_app_cons in Htr. rewrite Htr in Hw.
    apply accepted_app_inv in Hw. destruct Hw as (w2 & Hpre & _).
    apply accepted_cons_inv in Hpre. destruct Hpre as (w1 & Hpre & Hstep).
    apply watch_step_gate, gate_step_signer_inv in Hstep. destruct Hstep as [Hg _].
    pose proof (watched_prompt_history _ _ Hpre) as Hh. rewrite Hg in Hh.
    destruct Hh as [(answer & Hin & Hc) _].
    exists answer. split; [| exact Hc]. apply in_rev. exact Hin.
  - intros r Hin Hno. apply in_rev in Hin.
    apply in_split in Hin. destruct Hin as (post & pre & Hl). rewrite Hl in Hw.
    apply accepted_app_inv in Hw. destruct Hw as (w2 & Hpre & Hpost).
    apply accepted_cons_inv in Hpre. destruct Hpre as (w1 & Hpre & Hstep).
    pose proof (watched_prompt_history _ _ Hpre) as Hh.
    apply watch_step_gate in Hstep.
    inversion Hstep as [g1 e1 Hne | | | | tx answer Ha Hc | tx r1 Ha Hc | |];
      subst.
    + discriminate Hne.
    + rewrite (Hno answer eq_refl) in Hc. discriminate.
    + match goal with Hg : AwaitingConfirmation _ = gate w1 |- _ =>
        rewrite <- Hg in Hh end.
      cbn [prompt_history] in Hh.
      assert (Hg2 : gate w2 = Cancelled) by congruence.
      destruct (cancelled_is_terminal _ _ _ _ Hpost Hg2) as [Hg Hn].
      split; [exact (fits_cancelled _ _ Hfit Hg) |].
      intros e He. apply in_rev in He. rewrite Hl in He.
      apply in_app_or in He. destruct He as [He | [<- | He]].
      * rewrite forallb_forall in Hn. specialize (Hn e He).
        apply neutral_event_facts in Hn. tauto.
      * auto.
      * apply Hh. exact He.
Qed.

(** X9 in the scripted world where the user answers ["n"]. *)
Lemma prompt_gates_signing_witness :
  (fst (run_transfer world_refusal "0xabc" one_cent false) = Next PNone \/
   exists e, fst (run_transfer world_refusal "0xabc" one_cent false) = Raise e) /\
  forall e,
    In e (trace_of (snd (run_transfer world_refusal "0xabc" one_cent false))) ->
    is_signer_entry e = false /\
    is_request "sui_executeTransactionBlock" e = false.
Proof.
  refine (proj2 (prompt_gates_signing scripted_ops sized_primitives
                   "sui1" "0xabc" one_cent world_refusal) (ok "n") _ _).
  - vm_compute. repeat (first [left; reflexivity | right]).
  - intros answer H. injection H as <-. reflexivity.
Defined.

(** [str.strip] removes every character [str.isspace] accepts: the
    answer ["y"] followed by a no-break space or by a next-line
    character confirms. *)
Example padded_answer_confirms :
  confirms (String "y" (String (ascii_of_nat 160) EmptyString)) = true /\
  confirms (String (ascii_of_nat 133) (String "Y" EmptyString)) = true.
Proof. split; vm_compute; reflexivity. Qed.

(* ===================================================================== *)
(** * Further properties: the earlier script *)
(* ===================================================================== *)

Section LogsOnly.

Context {W : Type}.
Variable allowed : event -> bool.

Lemma logs_only_ret {A} (a : A) : logs_only allowed (ret a : M W A).
Proof. intros s. exists []. auto. Qed.

Lemma logs_only_return {A} (v : pyval) : logs_only allowed (return_ v : M W A).
Proof. intros s. exists []. auto. Qed.

Lemma logs_only_lift {A} (r : res A) : logs_only allowed (lift r : M W A).
Proof. intros s. exists []. destruct r; auto. Qed.

Lemma logs_only_emit (e : event) :
  allowed e = true -> logs_only allowed (emit e : M W unit).
Proof. intros H s. exists [e]. cbn. rewrite H. auto. Qed.

Lemma logs_only_print (m : message) :
  allowed (EvPrint m) = true -> logs_only allowed (print m : M W unit).
Proof. apply logs_only_emit. Qed.

Lemma logs_only_ask {A} (op : W -> A * W) (ev : A -> event) :
  (forall a, allowed (ev a) = true) -> logs_only allowed (ask op ev).
Proof.
  intros H s. unfold ask. destruct (op (world s)) as [a w'].
  exists [ev a]. cbn. rewrite H. auto.
Qed.

Lemma logs_only_set_locals (f : frame -> frame) :
  logs_only allowed (set_locals f : M W unit).
Proof. intros s. exists []. auto. Qed.

Lemma logs_only_bind {A B} (m : M W A) (k : A -> M W B) :
  logs_only allowed m -> (forall a, logs_only allowed (k a)) ->
  logs_only allowed (bind m k).
Proof.
  intros Hm Hk s. destruct (Hm s) as (n1 & E1 & S1). unfold bind.
  destruct (m s) as [[a | v | e] s1]; cbn [snd] in *.
  - destruct (Hk a s1) as (n2 & E2 & S2). exists (n2 ++ n1).
    rewrite E2, E1, app_assoc, forallb_app, S1, S2. auto.
  - exists n1. auto.
  - exists n1. auto.
Qed.

Lemma logs_only_call (body : M W unit) :
  logs_only allowed body -> logs_only allowed (call body).
Proof.
  intros H s. destruct (H s) as (n & E & S). exists n. unfold call.
  destruct (body s) as [[a | v | e] s1]; auto.
Qed.

Lemma logs_only_for_each {A} (items : list A) (body : A -> M W unit) :
  (forall x, logs_only allowed (body x)) -> logs_only allowed (for_each items body).
Proof.
  intros H. induction items as [| x items IH]; cbn [for_each].
  - apply logs_only_ret.
  - apply logs_only_bind; [apply H | intros _; exact IH].
Qed.

Lemma logs_only_try_finally {A} (body : M W A) (fin : M W unit) :
  logs_only allowed body -> logs_only allowed fin ->
  logs_only allowed (try_finally body fin).
Proof.
  intros Hb Hf s. destruct (Hb s) as (n1 & E1 & S1). unfold try_finally.
  destruct (body s) as [c s1]. cbn [snd] in *.
  destruct (Hf s1) as (n2 & E2 & S2).
  exists (n2 ++ n1). rewrite <- app_assoc, <- E1, forallb_app, S1, S2.
  destruct (fin s1) as [[a | v | e] s2]; cbn [snd] in *; auto.
Qed.

Lemma logs_only_try_except {A} (body : M W A) (handler : exn -> M W A) :
  logs_only allowed body -> (forall e, logs_only allowed (handler e)) ->
  logs_only allowed (try_except body handler).
Proof.
  intros Hb Hh s. destruct (Hb s) as (n1 & E1 & S1). unfold try_except.
  destruct (body s) as [[a | v | e] s1]; cbn [snd] in *;
    try (exists n1; auto; fail).
  destruct (Hh e s1) as (n2 & E2 & S2). exists (n2 ++ n1).
  rewrite E2, E1, app_assoc, forallb_app, S1, S2. auto.
Qed.

(** What is silent for the gate is allowed, when [allowed] says so. *)
Lemma logs_only_quietly {A} (m : M W A) :
  (forall e, silent e = true -> allowed e = true) ->
  quietly m -> logs_only allowed m.
Proof.
  intros Hs Hq s. destruct (Hq s) as (new & E & S). exists new.
  split; [exact E |]. apply forallb_forall. intros e He.
  rewrite forallb_forall in S. auto.
Qed.

Lemma logs_only_silently {A} (m : M W A) :
  (forall e, silent e = true -> allowed e = true) ->
  silently m -> logs_only allowed m.
Proof. intros Hs [Hq _]. apply logs_only_quietly; assumption. Qed.

Lemma logs_only_rpc_call (ops : world_ops W) (method : string)
      (params : list pyval) :
  (forall r, allowed (EvHttpPost SUI_RPC (rpc_payload method params) r) = true) ->
  logs_only allowed (rpc_call ops method params).
Proof.
  intros H s. rewrite rpc_call_run. cbn [snd log].
  exists [EvHttpPost SUI_RPC (rpc_payload method params)
            (fst (requests_post_json ops SUI_RPC (rpc_payload method params)
                    (world s)))].
  cbn. rewrite H. auto.
Qed.

(** What a run logged stays in the log. *)
Lemma logs_only_keeps {A} (m : M W A) (s : state W) (e : event) :
  logs_only allowed m -> In e (log s) -> In e (log (snd (m s))).
Proof.
  intros H Hin. destruct (H s) as (new & E & _). rewrite E.
  apply in_or_app. right. exact Hin.
Qed.

Lemma logs_only_events {A} (m : M W A) (s : state W) (e : event) :
  logs_only allowed m -> In e (log (snd (m s))) ->
  allowed e = true \/ In e (log s).
Proof.
  intros H Hin. destruct (H s) as (new & E & S). rewrite E in Hin.
  apply in_app_or in Hin. destruct Hin as [Hin | Hin]; [left | right; exact Hin].
  rewrite forallb_forall in S. auto.
Qed.

End LogsOnly.

Lemma silent_unprompted (e : event) : silent e = true -> unprompted e = true.
Proof.
  unfold silent, unprompted. intros H. apply andb_prop in H. destruct H as [H _].
  apply neutral_event_facts in H. destruct H as (_ & _ & -> & ->). reflexivity.
Qed.

Ltac allow_step :=
  first
    [ apply logs_only_ret
    | apply logs_only_return
    | apply logs_only_lift
    | apply logs_only_print; reflexivity
    | apply logs_only_emit; reflexivity
    | apply logs_only_set_locals
    | apply logs_only_ask; intros; reflexivity
    | apply logs_only_rpc_call; intros; reflexivity
    | apply logs_only_for_each; intros
    | apply logs_only_call
    | apply logs_only_try_finally
    | apply logs_only_bind; [| intros]
    | match goal with
      | |- logs_only _ (if ?b then _ else _) => destruct b
      | |- logs_only _ (match ?x with Some _ => _ | None => _ end) => destruct x
      | |- logs_only _ (let '(_, _) := ?x in _) => destruct x
      end ].

Ltac allow := repeat allow_step.

Section LegacyRuns.

Context {W : Type}.
Variable ops : world_ops W.
Variable P : primitives.

Lemma print_final_change_unprompted (bc : pyval) :
  logs_only unprompted (print_final_change bc : M W unit).
Proof. unfold print_final_change. allow. Qed.

Lemma sign_and_execute_unprompted (tx : pyval) (seed : bytes) (scheme : Z) :
  logs_only unprompted (sign_and_execute ops P tx seed scheme).
Proof. unfold sign_and_execute. allow. Qed.

Lemma clear_secrets_unprompted : logs_only unprompted (clear_secrets : M W unit).
Proof.
  intros s. rewrite clear_secrets_run. exists [EvPrint MsgKeyCleared]. auto.
Qed.

Lemma legacy_try_unprompted (recipient : string) (amount_mist : Z) (k : string) :
  logs_only unprompted (legacy_try ops P recipient amount_mist k).
Proof.
  unfold legacy_try, get_coins, build_transfer_tx. allow.
Qed.

Lemma legacy_transfer_unprompted (wallet_alias recipient : string)
      (amount_sui : float) :
  logs_only unprompted (legacy_transfer ops P wallet_alias recipient amount_sui).
Proof.
  unfold legacy_transfer, legacy_setup. allow.
  all: first [apply legacy_try_unprompted | apply clear_secrets_unprompted].
Qed.

End LegacyRuns.

Lemma legacy_setup_run {W : Type} (ops : world_ops W)
      (wallet_alias recipient : string) (amount_sui : float) (w0 w1 : W)
      (amount_mist : Z) (k : string) :
  amount_mist_of amount_sui = ok amount_mist ->
  keyring_get_password ops SERVICE_ID wallet_alias w0 = (ok (Some k), w1) ->
  k <> "" ->
  legacy_setup ops wallet_alias recipient amount_sui (initial_state w0) =
  (Next (amount_mist, k),
   {| world := w1;
      log := [EvKeyring SERVICE_ID wallet_alias (ok (Some k));
              EvPrint (MsgRequest wallet_alias recipient (PStr recipient)
                                  amount_sui amount_mist)];
      locals := {| v_privkey := BoundStr k; v_seed := Unbound |} |}).
Proof.
  intros Hamount Hkey Hk. unfold legacy_setup.
  rewrite ?run_bind_assoc, run_bind_lift, Hamount. unfold ok.
  rewrite ?run_bind_assoc, run_bind_print.
  unfold bind at 1. unfold ask at 1. cbn [world logged initial_state log locals].
  rewrite Hkey. cbv beta iota zeta.
  rewrite ?run_bind_assoc, run_bind_lift. unfold ok. rewrite ?run_bind_assoc.
  unfold bind at 1. unfold set_locals at 1. cbv beta iota zeta.
  cbn [world log locals].
  apply String.eqb_neq in Hk. rewrite Hk. reflexivity.
Qed.

Lemma legacy_try_reaches_signer {W : Type} (ops : world_ops W) (P : primitives)
      (recipient : string) (amount_mist : Z) (k : string) (s1 : state W)
      (w2 w3 : W) (seed pk : bytes) (scheme : Z) (sender : string)
      (r1 r2 : res pyval) (coins data coin coin_id tx_result tx : pyval) :
  get_address_from_key P k = ok (seed, scheme, pk, sender) ->
  requests_post_json ops SUI_RPC (rpc_payload "suix_getCoins" (coins_params sender))
                     (world s1) = (r1, w2) ->
  rpc_outcome r1 = Next coins ->
  Py.getitem coins "data" = ok data ->
  Py.truthy data = true ->
  Py.getitem0 data = ok coin ->
  Py.getitem coin "coinObjectId" = ok coin_id ->
  requests_post_json ops SUI_RPC
    (rpc_payload "unsafe_paySui"
       (pay_params sender (PStr recipient) amount_mist coin_id 5000000))
    w2 = (r2, w3) ->
  rpc_outcome r2 = Next tx_result ->
  Py.getitem tx_result "txBytes" = ok tx ->
  In (EvSignerEntered tx seed scheme)
     (log (snd (legacy_try ops P recipient amount_mist k s1))).
Proof.
  intros Hinfo Hp1 Ho1 Hdata Htruthy Hcoin Hid Hp2 Ho2 Htx.
  unfold legacy_try.
  rewrite ?run_bind_assoc, run_bind_lift, Hinfo. unfold ok.
  rewrite ?run_bind_assoc.
  unfold bind at 1. unfold set_locals at 1. cbv beta iota zeta.
  rewrite ?run_bind_assoc, run_bind_print. rewrite ?run_bind_assoc.
  unfold bind at 1. unfold get_coins at 1. rewrite rpc_call_run.
  cbn [world log locals logged]. fold (coins_params sender).
  rewrite Hp1. cbn [fst snd]. rewrite Ho1.
  rewrite ?run_bind_assoc, run_bind_lift, Hdata. unfold ok.
  rewrite Htruthy. cbn [negb].
  rewrite ?run_bind_assoc, run_bind_ret.
  rewrite ?run_bind_assoc, run_bind_lift. unfold ok.
  rewrite ?run_bind_assoc, run_bind_lift, Hcoin. unfold ok.
  rewrite ?run_bind_assoc, run_bind_lift, Hid. unfold ok.
  rewrite ?run_bind_assoc, run_bind_print. rewrite ?run_bind_assoc.
  unfold bind at 1. unfold build_transfer_tx at 1. rewrite rpc_call_run.
  cbn [world log locals logged].
  fold (pay_params sender (PStr recipient) amount_mist coin_id 5000000).
  rewrite Hp2. cbn [fst snd]. rewrite Ho2.
  rewrite ?run_bind_assoc, run_bind_lift, Htx. unfold ok.
  rewrite ?run_bind_assoc, run_bind_print.
  unfold sign_and_execute at 1.
  rewrite ?run_bind_assoc, run_bind_emit.
  match goal with
  | |- In ?e (log (snd (?m ?s))) =>
      apply (logs_only_keeps (fun _ => true) m s e)
  end.
  - allow.
  - left. reflexivity.
Qed.

(** X10.  The earlier script signs without a preview: no run of its
    [transfer] sends a dry-run request or reads an answer from the
    console; and whenever the keychain holds a key that decodes, the node
    lists a coin and builds the transaction, the signer is entered with
    that transaction. *)
Theorem legacy_transfer_signs_without_preview
        {W : Type} (ops : world_ops W) (P : primitives)
        (wallet_alias recipient : string) (amount_sui : float) (w0 : W) :
  let run := legacy_transfer ops P wallet_alias recipient amount_sui
                             (initial_state w0) in
  (forall e, In e (trace_of (snd run)) ->
             is_request "sui_dryRunTransactionBlock" e = false /\
             is_prompt e = false) /\
  (forall amount_mist k w1 w2 w3 seed pk scheme sender r1 r2
          coins data coin coin_id tx_result tx,
      amount_mist_of amount_sui = ok amount_mist ->
      keyring_get_password ops SERVICE_ID wallet_alias w0 = (ok (Some k), w1) ->
      k <> "" ->
      get_address_from_key P k = ok (seed, scheme, pk, sender) ->
      requests_post_json ops SUI_RPC
        (rpc_payload "suix_getCoins" (coins_params sender)) w1 = (r1, w2) ->
      rpc_outcome r1 = Next coins ->
      Py.getitem coins "data" = ok data ->
      Py.truthy data = true ->
      Py.getitem0 data = ok coin ->
      Py.getitem coin "coinObjectId" = ok coin_id ->
      requests_post_json ops SUI_RPC
        (rpc_payload "unsafe_paySui"
           (pay_params sender (PStr recipient) amount_mist coin_id 5000000))
        w2 = (r2, w3) ->
      rpc_outcome r2 = Next tx_result ->
      Py.getitem tx_result "txBytes" = ok tx ->
      In (EvSignerEntered tx seed scheme) (trace_of (snd run))).
Proof.
  cbv zeta. split.
  - intros e He. unfold trace_of in He. apply in_rev in He.
    destruct (logs_only_events unprompted _ _ e
                (legacy_transfer_unprompted ops P wallet_alias recipient amount_sui)
                He) as [Ha | []].
    unfold unprompted in Ha. apply andb_prop in Ha. destruct Ha as [H1 H2].
    apply negb_true_iff in H1, H2. auto.
  - intros amount_mist k w1 w2 w3 seed pk scheme sender r1 r2
           coins data coin coin_id tx_result tx
           Hamount Hkey Hk Hinfo Hp1 Ho1 Hdata Htruthy Hcoin Hid Hp2 Ho2 Htx.
    unfold trace_of. rewrite <- in_rev.
    unfold legacy_transfer, call, bind.
    rewrite (legacy_setup_run ops _ _ _ _ _ _ _ Hamount Hkey Hk).
    cbv beta iota. rewrite try_finally_clear_run.
    assert (Hin : In (EvSignerEntered tx seed scheme)
                     (log (snd (legacy_try ops P recipient amount_mist k
                                  {| world := w1;
                                     log := [EvKeyring SERVICE_ID wallet_alias (ok (Some k));
                                             EvPrint (MsgRequest wallet_alias recipient
                                                        (PStr recipient) amount_sui
                                                        amount_mist)];
                                     locals := {| v_privkey := BoundStr k;
                                                  v_seed := Unbound |} |})))).
    { eapply legacy_try_reaches_signer; eassumption. }
    destruct (fst (legacy_try ops P recipient amount_mist k _));
      cbn [snd log]; right; exact Hin.
Qed.

(** X10 in the scripted world with the three answers of a transfer. *)
Lemma legacy_transfer_signs_without_preview_witness :
  In (EvSignerEntered (PStr "AAAC") (repeat x07 32) 0)
     (trace_of (snd (legacy_transfer scripted_ops sized_primitives
                       "sui1" "0xabc" one_cent (initial_state world_legacy)))).
Proof.
  refine (proj2 (legacy_transfer_signs_without_preview scripted_ops sized_primitives
                   "sui1" "0xabc" one_cent world_legacy)
            10000000 sample_key world_legacy
            (world_with (ok (Some sample_key))
               [rpc_ok sample_tx; rpc_ok (executed_with status_success)] "n")
            (world_with (ok (Some sample_key))
               [rpc_ok (executed_with status_success)] "n")
            (repeat x07 32)
            (ed25519_public_key sized_primitives (repeat x07 32)) 0
            (address_of sized_primitives 0
               (ed25519_public_key sized_primitives (repeat x07 32)))
            (rpc_ok sample_coins) (rpc_ok sample_tx)
            sample_coins
            (PList [PDict [("coinObjectId", PStr "0xc01");
                           ("balance", PStr "5000000000")]])
            (PDict [("coinObjectId", PStr "0xc01"); ("balance", PStr "5000000000")])
            (PStr "0xc01") sample_tx (PStr "AAAC")
            _ _ _ _ _ _ _ _ _ _ _ _ _);
    try discriminate; vm_compute; reflexivity.
Defined.

Lemma legacy_setup_next {W : Type} (ops : world_ops W)
      (wallet_alias recipient : string) (amount_sui : float) (s0 s1 : state W)
      (amount_mist : Z) (k : string) :
  legacy_setup ops wallet_alias recipient amount_sui s0 =
    (Next (amount_mist, k), s1) ->
  k <> "" /\ v_privkey (locals s1) = BoundStr k.
Proof.
  unfold legacy_setup. intros H.
  apply bind_next_inv in H. destruct H as (a1 & t1 & _ & H).
  apply bind_next_inv in H. destruct H as (a2 & t2 & _ & H).
  apply bind_next_inv in H. destruct H as (a3 & t3 & _ & H).
  apply bind_next_inv in H. destruct H as (privkey & t4 & _ & H).
  apply bind_next_inv in H. destruct H as (a5 & t5 & Hset & H).
  destruct privkey as [k' |]; [| discriminate H].
  destruct (String.eqb_spec k' ""); [discriminate H |].
  injection H as _ -> ->. split; [assumption |].
  injection Hset as _ <-. reflexivity.
Qed.

(** X11.  In the earlier script too, once [transfer] holds the key the
    [finally] block runs on every way out of the body (normal end,
    [return], exception): it runs last, leaves [privkey] and [seed]
    unbound and keeps the way the body ended. *)
Theorem legacy_secrets_released_on_every_exit
        {W : Type} (ops : world_ops W) (P : primitives)
        (wallet_alias recipient : string) (amount_sui : float)
        (s0 s1 : state W) (amount_mist : Z) (k : string) :
  legacy_setup ops wallet_alias recipient amount_sui s0 =
    (Next (amount_mist, k), s1) ->
  let body := legacy_try ops P recipient amount_mist k s1 in
  let run := legacy_transfer ops P wallet_alias recipient amount_sui s0 in
  k <> "" /\
  v_privkey (locals s1) = BoundStr k /\
  locals (snd run) = {| v_privkey := Unbound; v_seed := Unbound |} /\
  log (snd run) = EvPrint MsgKeyCleared :: log (snd body) /\
  fst run = match fst body with
            | Next _ => Next PNone
            | Return v => Next v
            | Raise e => Raise e
            end.
Proof.
  intros Hsetup body run.
  destruct (legacy_setup_next _ _ _ _ _ _ _ _ Hsetup) as [Hk Hbound].
  split; [exact Hk |]. split; [exact Hbound |].
  unfold run, legacy_transfer, call, bind. rewrite Hsetup.
  rewrite try_finally_clear_run. fold body.
  destruct (fst body); cbn [fst snd locals log]; auto.
Qed.

(** X11 in the scripted world of a transfer. *)
Lemma legacy_secrets_released_on_every_exit_witness :
  locals (snd (legacy_transfer scripted_ops sized_primitives "sui1" "0xabc"
                 one_cent (initial_state world_legacy))) =
  {| v_privkey := Unbound; v_seed := Unbound |}.
Proof.
  exact (proj1 (proj2 (proj2
    (legacy_secrets_released_on_every_exit scripted_ops sized_primitives
       "sui1" "0xabc" one_cent (initial_state world_legacy)
       (snd (legacy_setup scripted_ops "sui1" "0xabc" one_cent
               (initial_state world_legacy)))
       10000000 sample_key eq_refl)))).
Defined.

(* ===================================================================== *)
(** * Further properties: the preview and the command line *)
(* ===================================================================== *)

(** The preview for a sender that is a string is the preview [transfer]
    shows. *)
Lemma print_dry_run_any_str {W : Type} (result : pyval) (sender : string)
      (recipient : pyval) (amount_sui : float) :
  (print_dry_run_any result (PStr sender) recipient amount_sui : M W pyval) =
  print_dry_run result sender recipient amount_sui.
Proof. reflexivity. Qed.

Section CliLogs.

Context {W : Type}.
Variable allowed : cli_event -> bool.

Lemma cli_logs_only_ret {A} (a : A) : cli_logs_only allowed (ret_d a : D W A).
Proof. intros s. exists []. auto. Qed.

Lemma cli_logs_only_return {A} (v : pyval) :
  cli_logs_only allowed (return_d v : D W A).
Proof. intros s. exists []. auto. Qed.

Lemma cli_logs_only_exit {A} (code : Z) :
  cli_logs_only allowed (exit_d code : D W A).
Proof. intros s. exists []. auto. Qed.

Lemma cli_logs_only_lift {A} (r : res A) : cli_logs_only allowed (lift_d r : D W A).
Proof. intros s. exists []. auto. Qed.

Lemma cli_logs_only_print (m : preview_message) :
  allowed (CliPrint m) = true -> cli_logs_only allowed (print_d m : D W unit).
Proof. intros H s. exists [CliPrint m]. cbn. rewrite H. auto. Qed.

Lemma cli_logs_only_ask {A} (op : W -> A * W) (ev : A -> cli_event) :
  (forall a, allowed (ev a) = true) -> cli_logs_only allowed (ask_d op ev).
Proof.
  intros H s. unfold ask_d. destruct (op (cli_world s)) as [a w'].
  exists [ev a]. cbn. rewrite H. auto.
Qed.

Lemma cli_logs_only_bind {A B} (m : D W A) (k : A -> D W B) :
  cli_logs_only allowed m -> (forall a, cli_logs_only allowed (k a)) ->
  cli_logs_only allowed (bind_d m k).
Proof.
  intros Hm Hk s. destruct (Hm s) as (n1 & E1 & S1). unfold bind_d.
  destruct (m s) as [[a | v | e | c] s1]; cbn [snd] in *;
    try (exists n1; auto; fail).
  destruct (Hk a s1) as (n2 & E2 & S2). exists (n2 ++ n1).
  rewrite E2, E1, app_assoc, forallb_app, S1, S2. auto.
Qed.

Lemma cli_logs_only_call (body : D W unit) :
  cli_logs_only allowed body -> cli_logs_only allowed (call_d body).
Proof.
  intros H s. destruct (H s) as (n & E & S). exists n. unfold call_d.
  destruct (body s) as [[a | v | e | c] s1]; auto.
Qed.

Lemma cli_logs_only_try_except {A} (body : D W A) (handler : exn -> D W A) :
  cli_logs_only allowed body -> (forall e, cli_logs_only allowed (handler e)) ->
  cli_logs_only allowed (try_except_d body handler).
Proof.
  intros Hb Hh s. destruct (Hb s) as (n1 & E1 & S1). unfold try_except_d.
  destruct (body s) as [[a | v | e | c] s1]; cbn [snd] in *;
    try (exists n1; auto; fail).
  destruct (Hh e s1) as (n2 & E2 & S2). exists (n2 ++ n1).
  rewrite E2, E1, app_assoc, forallb_app, S1, S2. auto.
Qed.

Lemma cli_logs_only_for_each {A} (items : list A) (body : A -> D W unit) :
  (forall x, cli_logs_only allowed (body x)) ->
  cli_logs_only allowed (for_each_d items body).
Proof.
  intros H. induction items as [| x items IH]; cbn [for_each_d].
  - apply cli_logs_only_ret.
  - apply cli_logs_only_bind; [apply H | intros _; exact IH].
Qed.

Lemma cli_logs_only_pipeline {A} (inner : event -> bool) (m : M W A) :
  (forall e, inner e = true -> allowed (CliRun e) = true) ->
  logs_only inner m -> cli_logs_only allowed (run_pipeline m).
Proof.
  intros Hin Hm s. unfold run_pipeline.
  destruct (Hm (initial_state (cli_world s))) as (new & E & S).
  destruct (m (initial_state (cli_world s))) as [c s']. cbn [snd log] in *.
  exists (map CliRun new). rewrite E. cbn [initial_state log].
  rewrite app_nil_r. split; [reflexivity |].
  apply forallb_forall. intros e He. apply in_map_iff in He.
  destruct He as (e' & <- & He'). rewrite forallb_forall in S. auto.
Qed.

Lemma cli_logs_only_events {A} (m : D W A) (s : cli_state W) (e : cli_event) :
  cli_logs_only allowed m -> In e (cli_log (snd (m s))) ->
  allowed e = true \/ In e (cli_log s).
Proof.
  intros H Hin. destruct (H s) as (new & E & S). rewrite E in Hin.
  apply in_app_or in Hin. destruct Hin as [Hin | Hin]; [left | right; exact Hin].
  rewrite forallb_forall in S. auto.
Qed.

End CliLogs.

Ltac cli_allow_step :=
  first
    [ apply cli_logs_only_ret
    | apply cli_logs_only_return
    | apply cli_logs_only_exit
    | apply cli_logs_only_lift
    | apply cli_logs_only_print; reflexivity
    | apply cli_logs_only_ask; intros; reflexivity
    | apply cli_logs_only_for_each; intros
    | apply cli_logs_only_call
    | apply cli_logs_only_try_except; [| intros]
    | apply cli_logs_only_bind; [| intros]
    | match goal with
      | |- cli_logs_only _ (if ?b then _ else _) => destruct b
      | |- cli_logs_only _ (let '(_, _) := ?x in _) => destruct x
      end ].

Ltac cli_allow := repeat cli_allow_step.

Section ReadOnly.

Context {W : Type}.
Variable ops : world_ops W.
Variable xops : cli_ops W.

Lemma print_balance_change_any_read_only (sender recipient bc : pyval) :
  logs_only read_only (print_balance_change_any sender recipient bc : M W unit).
Proof. unfold print_balance_change_any. allow. Qed.

Lemma print_dry_run_any_read_only (result sender recipient : pyval)
      (amount_sui : float) :
  logs_only read_only
    (print_dry_run_any result sender recipient amount_sui : M W pyval).
Proof.
  unfold print_dry_run_any. allow.
  all: try apply print_balance_change_any_read_only.
Qed.

Lemma resolve_suins_read_only (name : string) :
  logs_only read_only (resolve_suins ops name).
Proof.
  unfold resolve_suins. apply logs_only_try_except; [| intros; apply logs_only_ret].
  apply logs_only_rpc_call. reflexivity.
Qed.

Lemma get_wallet_address_reads (allowed : cli_event -> bool) (wallet_alias : string) :
  (forall r, allowed (CliPanelList r) = true) ->
  (forall b, allowed (CliRun (EvFileExists b)) = true) ->
  (forall r, allowed (CliRun (EvFileLoad r)) = true) ->
  cli_logs_only allowed (get_wallet_address ops xops wallet_alias).
Proof.
  intros H1 H2 H3.
  unfold get_wallet_address, panel_lookup, cache_lookup.
  apply cli_logs_only_call. apply cli_logs_only_bind; [| intros _].
  - apply cli_logs_only_try_except; [| intros; apply cli_logs_only_ret].
    apply cli_logs_only_bind; [apply cli_logs_only_ask; exact H1 | intros r].
    cli_allow.
  - apply cli_logs_only_bind; [| intros _; apply cli_logs_only_return].
    apply cli_logs_only_bind; [| intros present].
    + intros s. unfold run_pipeline, ask. cbn [initial_state world log].
      destruct (addr_file_exists ops (cli_world s)) as [b w'].
      exists [CliRun (EvFileExists b)]. cbn. rewrite H2. auto.
    + destruct present; [| apply cli_logs_only_ret].
      apply cli_logs_only_bind; [| intros r; cli_allow].
      intros s. unfold run_pipeline, ask. cbn [initial_state world log].
      destruct (addr_file_load ops (cli_world s)) as [r w'].
      exists [CliRun (EvFileLoad r)]. cbn. rewrite H3. auto.
Qed.

Lemma dry_run_only_read_only (wallet_alias recipient : string) (amount_sui : float) :
  cli_logs_only cli_read_only (dry_run_only ops xops wallet_alias recipient amount_sui).
Proof.
  unfold dry_run_only.
  apply cli_logs_only_call.
  apply cli_logs_only_bind; [apply cli_logs_only_lift | intros amount_mist].
  cbv zeta.
  apply cli_logs_only_bind; [| intros rcp].
  { destruct (PyStr.endswith _ _); [| apply cli_logs_only_ret].
    apply cli_logs_only_bind; [| intros _].
    - apply (cli_logs_only_pipeline _ read_only); [auto |].
      apply logs_only_print. reflexivity.
    - apply cli_logs_only_bind; [| intros resolved].
      + apply (cli_logs_only_pipeline _ read_only); [auto |].
        apply resolve_suins_read_only.
      + destruct (negb (Py.truthy resolved)).
        * apply cli_logs_only_bind; [| intros _; apply cli_logs_only_exit].
          apply (cli_logs_only_pipeline _ read_only); [auto |].
          apply logs_only_print. reflexivity.
        * apply cli_logs_only_bind; [| intros _; apply cli_logs_only_ret].
          apply (cli_logs_only_pipeline _ read_only); [auto |].
          apply logs_only_print. reflexivity. }
  apply cli_logs_only_bind; [| intros sender].
  { apply get_wallet_address_reads; reflexivity. }
  repeat first
    [ apply cli_logs_only_ret
    | apply cli_logs_only_exit
    | apply cli_logs_only_lift
    | apply cli_logs_only_print; reflexivity
    | apply (cli_logs_only_pipeline _ read_only);
      [ auto
      | first [ apply logs_only_print; reflexivity
              | apply logs_only_rpc_call; intros; reflexivity
              | apply print_dry_run_any_read_only ] ]
    | apply cli_logs_only_bind; [| intros]
    | match goal with
      | |- cli_logs_only _ (if ?b then _ else _) => destruct b
      end ].
Qed.

End ReadOnly.

Lemma read_only_facts (e : event) :
  read_only e = true ->
  is_keyring e = false /\ is_prompt e = false /\ is_store e = false /\
  is_signer_entry e = false /\
  is_request "sui_executeTransactionBlock" e = false.
Proof.
  destruct e; cbn; try (intros; repeat split; congruence).
  intros H. apply negb_true_iff in H. auto.
Qed.

(** X12.  [dry_run_only] only reads: in none of its runs does it ask the
    keychain, read from the console, write the cache file, enter the
    signer or send an execute request. *)
Theorem dry_run_only_only_reads
        {W : Type} (ops : world_ops W) (xops : cli_ops W)
        (wallet_alias recipient : string) (amount_sui : float) (w0 : W) (e : event) :
  In (CliRun e)
     (cli_log (snd (dry_run_only ops xops wallet_alias recipient amount_sui
                      (cli_start w0)))) ->
  is_keyring e = false /\ is_prompt e = false /\ is_store e = false /\
  is_signer_entry e = false /\
  is_request "sui_executeTransactionBlock" e = false.
Proof.
  intros Hin.
  destruct (cli_logs_only_events cli_read_only _ _ _
              (dry_run_only_read_only ops xops wallet_alias recipient amount_sui)
              Hin) as [Ha | []].
  apply read_only_facts. exact Ha.
Qed.

Lemma bind_d_falls {W A B} (m : D W A) (k : A -> D W B) (s s1 : cli_state W)
      (a : A) :
  m s = (Falls a, s1) -> bind_d m k s = k a s1.
Proof. intros H. unfold bind_d. rewrite H. reflexivity. Qed.

Lemma bind_d_assoc {W A B C} (m : D W A) (k : A -> D W B) (h : B -> D W C)
      (s : cli_state W) :
  bind_d (bind_d m k) h s = bind_d m (fun a => bind_d (k a) h) s.
Proof.
  unfold bind_d. destruct (m s) as [[a | v | e | c] s']; reflexivity.
Qed.

(** X13.  When [get_wallet_address] finds no address for the alias, or
    finds an empty one, [dry_run_only] on a plain address prints its
    notice and exits with status 1: it has sent no request to the
    node. *)
Theorem dry_run_only_exits_without_address
        {W : Type} (ops : world_ops W) (xops : cli_ops W)
        (wallet_alias recipient : string) (amount_sui : float)
        (s s1 : cli_state W) (amount_mist : Z) (sender : pyval) :
  amount_mist_of amount_sui = ok amount_mist ->
  PyStr.endswith (str_chars ".sui") (str_chars recipient) = false ->
  get_wallet_address ops xops wallet_alias s = (Falls sender, s1) ->
  Py.truthy sender = false ->
  dry_run_only ops xops wallet_alias recipient amount_sui s =
    (Exits 1, {| cli_world := cli_world s1;
                 cli_log := CliPrint (MsgNoAddress wallet_alias) :: cli_log s1 |}) /\
  forall e, In e (cli_log (snd (dry_run_only ops xops wallet_alias recipient
                                  amount_sui s))) ->
            In e (cli_log s) \/ is_cli_http e = false.
Proof.
  intros Hamount Hends Hget Hfalsy.
  assert (Hrun :
    dry_run_only ops xops wallet_alias recipient amount_sui s =
    (Exits 1, {| cli_world := cli_world s1;
                 cli_log := CliPrint (MsgNoAddress wallet_alias) :: cli_log s1 |})).
  { unfold dry_run_only, call_d.
    rewrite ?bind_d_assoc. unfold bind_d at 1. unfold lift_d at 1.
    rewrite Hamount. unfold ok. cbv beta iota zeta. rewrite Hends.
    rewrite ?bind_d_assoc. unfold bind_d at 1. unfold ret_d at 1.
    cbv beta iota zeta.
    rewrite ?bind_d_assoc. rewrite (bind_d_falls _ _ _ _ _ Hget).
    rewrite Hfalsy. cbn [negb]. rewrite ?bind_d_assoc.
    reflexivity. }
  split; [exact Hrun |].
  rewrite Hrun. cbn [snd cli_log]. intros e [<- | Hin]; [right; reflexivity |].
  pose proof (get_wallet_address_reads ops xops (fun e => negb (is_cli_http e))
                wallet_alias ltac:(reflexivity) ltac:(reflexivity)
                ltac:(reflexivity)) as Hreads.
  destruct (cli_logs_only_events _ _ s e Hreads) as [Ha | Hold].
  - rewrite Hget. exact Hin.
  - right. apply negb_true_iff in Ha. exact Ha.
  - left. exact Hold.
Qed.

Lemma panel_lookup_failed {W : Type} (xops : cli_ops W) (wallet_alias : string)
      (s : cli_state W) (r : res (Z * string)) (w1 : W) :
  panel_list_run xops (cli_world s) = (r, w1) ->
  listing_failed r = true ->
  try_except_d (panel_lookup xops wallet_alias) (fun _ => ret_d tt) s =
  (Falls tt, {| cli_world := w1; cli_log := CliPanelList r :: cli_log s |}).
Proof.
  intros Hrun Hfail. unfold try_except_d, panel_lookup, bind_d, ask_d.
  rewrite Hrun. destruct r as [e | [returncode stdout]]; [reflexivity |].
  cbn [listing_failed] in Hfail. apply negb_true_iff in Hfail.
  cbn [lift_d]. rewrite Hfail. reflexivity.
Qed.

Lemma cache_lookup_found {W : Type} (ops : world_ops W) (wallet_alias : string)
      (s : cli_state W) (w2 w3 : W) (d : list (string * pyval)) (v : pyval) :
  addr_file_exists ops (cli_world s) = (true, w2) ->
  addr_file_load ops w2 = (ok (PDict d), w3) ->
  Py.lookup wallet_alias d = Some v ->
  cache_lookup ops wallet_alias s =
  (Returns v,
   {| cli_world := w3;
      cli_log := CliRun (EvFileLoad (ok (PDict d))) :: CliRun (EvFileExists true)
                 :: cli_log s |}).
Proof.
  intros He Hl Hv. unfold cache_lookup, bind_d, run_pipeline, ask.
  cbn [initial_state world log locals]. rewrite He.
  cbn [way_of_ctl world log map app cli_world]. rewrite Hl.
  cbn [way_of_ctl world log map app cli_world lift_d ok Py.contains_str
       Py.getitem].
  rewrite Hv. reflexivity.
Qed.

Lemma get_wallet_address_from_cache {W : Type} (ops : world_ops W)
      (xops : cli_ops W) (wallet_alias : string) (s : cli_state W)
      (r : res (Z * string)) (w1 w2 w3 : W) (d : list (string * pyval))
      (v : pyval) :
  panel_list_run xops (cli_world s) = (r, w1) ->
  listing_failed r = true ->
  addr_file_exists ops w1 = (true, w2) ->
  addr_file_load ops w2 = (ok (PDict d), w3) ->
  Py.lookup wallet_alias d = Some v ->
  get_wallet_address ops xops wallet_alias s =
  (Falls v,
   {| cli_world := w3;
      cli_log := CliRun (EvFileLoad (ok (PDict d))) :: CliRun (EvFileExists true)
                 :: CliPanelList r :: cli_log s |}).
Proof.
  intros Hrun Hfail He Hl Hv. unfold get_wallet_address, call_d.
  unfold bind_d at 1. rewrite (panel_lookup_failed xops _ _ _ _ Hrun Hfail).
  unfold bind_d at 1.
  rewrite (cache_lookup_found ops wallet_alias _ w2 w3 d v); auto.
Qed.

Lemma save_wallet_address_stored {W : Type} (ops : world_ops W)
      (wallet_alias address : string) (s : state W) (c : pyval) :
  fst (save_wallet_address ops wallet_alias address s) = Next tt ->
  hd_error (log (snd (save_wallet_address ops wallet_alias address s))) =
    Some (EvFileStore c (ok tt)) ->
  exists stored,
    c = PDict stored /\ Py.lookup wallet_alias stored = Some (PStr address).
Proof.
  destruct (addr_file_exists ops (world s)) as [[|] w1] eqn:He.
  - destruct (addr_file_load ops w1) as [r w2] eqn:Hl.
    destruct (is_dict r) eqn:Hr.
    + destruct r as [e | v]; [discriminate |]. destruct v; try discriminate.
      rewrite (save_wallet_address_present ops _ _ _ _ _ _ He Hl).
      cbn [fst snd log hd_error]. intros _ H. injection H as <- _.
      eexists. split; [reflexivity | apply lookup_update_same].
    + rewrite (save_wallet_address_unreadable ops _ _ _ _ _ _ He Hl Hr).
      discriminate.
  - rewrite (save_wallet_address_absent ops _ _ _ _ He).
    cbn [fst snd log hd_error]. intros _ H. injection H as <- _.
    eexists. split; [reflexivity |]. cbn [Py.lookup].
    rewrite String.eqb_refl. reflexivity.
Qed.

(** X14.  What [save_wallet_address] caches, [get_wallet_address] finds:
    after a successful save of an address under an alias, in a world
    where the cache file then exists and loads as what was written, and
    where the child process gives no list, [get_wallet_address] returns
    that address for that alias. *)
Theorem cached_address_is_found
        {W : Type} (ops : world_ops W) (xops : cli_ops W)
        (wallet_alias address : string) (s0 : state W) (s : cli_state W)
        (c : pyval) (r : res (Z * string)) (w1 w2 w3 : W) :
  fst (save_wallet_address ops wallet_alias address s0) = Next tt ->
  hd_error (log (snd (save_wallet_address ops wallet_alias address s0))) =
    Some (EvFileStore c (ok tt)) ->
  panel_list_run xops (cli_world s) = (r, w1) ->
  listing_failed r = true ->
  addr_file_exists ops w1 = (true, w2) ->
  addr_file_load ops w2 = (ok c, w3) ->
  fst (get_wallet_address ops xops wallet_alias s) = Falls (PStr address).
Proof.
  intros Hsave Hc Hrun Hfail He Hl.
  destruct (save_wallet_address_stored ops _ _ _ _ Hsave Hc) as (stored & -> & Hv).
  rewrite (get_wallet_address_from_cache ops xops _ _ _ _ _ _ _ _ Hrun Hfail He Hl Hv).
  reflexivity.
Qed.

(** X14 on a desk without a cache file at first. *)
Lemma cached_address_is_found_witness :
  fst (get_wallet_address desk_ops desk_cli "sui1"
         (cli_start (world (snd (save_wallet_address desk_ops "sui1" "0xabc"
                                   (initial_state (desk_with None))))))) =
  Falls (PStr "0xabc").
Proof.
  exact (cached_address_is_found desk_ops desk_cli "sui1" "0xabc"
           (initial_state (desk_with None))
           (cli_start (world (snd (save_wallet_address desk_ops "sui1" "0xabc"
                                     (initial_state (desk_with None))))))
           (PDict [("sui1", PStr "0xabc")]) (ok (2, ""))
           (world (snd (save_wallet_address desk_ops "sui1" "0xabc"
                          (initial_state (desk_with None)))))
           (world (snd (save_wallet_address desk_ops "sui1" "0xabc"
                          (initial_state (desk_with None)))))
           (world (snd (save_wallet_address desk_ops "sui1" "0xabc"
                          (initial_state (desk_with None)))))
           eq_refl eq_refl eq_refl eq_refl eq_refl eq_refl).
Defined.

(** X12 on a desk whose cache knows the alias: the dry-run request is
    among the events. *)
Lemma dry_run_only_only_reads_witness :
  is_keyring (dry_run_request (PStr "AAAC") (rpc_ok (dry_result_with status_success)))
    = false /\
  is_prompt (dry_run_request (PStr "AAAC") (rpc_ok (dry_result_with status_success)))
    = false /\
  is_store (dry_run_request (PStr "AAAC") (rpc_ok (dry_result_with status_success)))
    = false /\
  is_signer_entry
    (dry_run_request (PStr "AAAC") (rpc_ok (dry_result_with status_success)))
    = false /\
  is_request "sui_executeTransactionBlock"
    (dry_run_request (PStr "AAAC") (rpc_ok (dry_result_with status_success)))
    = false.
Proof.
  refine (dry_run_only_only_reads desk_ops desk_cli "sui1" "0xdef" one_cent
            desk_preview _ _).
  vm_compute. repeat (first [left; reflexivity | right]).
Defined.

(** X13 in the scripted world, where no address is known. *)
Lemma dry_run_only_exits_without_address_witness :
  fst (dry_run_only scripted_ops scripted_cli "sui1" "0xabc" one_cent
         (cli_start world_success)) = Exits 1.
Proof.
  rewrite (proj1 (dry_run_only_exits_without_address scripted_ops scripted_cli
                    "sui1" "0xabc" one_cent (cli_start world_success)
                    (snd (get_wallet_address scripted_ops scripted_cli "sui1"
                            (cli_start world_success)))
                    10000000 PNone eq_refl eq_refl eq_refl eq_refl)).
  reflexivity.
Defined.

Section PanelList.

Context {W : Type}.
Variable xops : cli_ops W.

Lemma panel_loop_first_match (wallet_alias : string) (pre post : list pyval)
      (w v : pyval) (s : cli_state W) :
  Forall (fun x => names_alias wallet_alias x = ok false) pre ->
  names_alias wallet_alias w = ok true ->
  Py.getitem w "address" = ok v ->
  for_each_d (pre ++ w :: post)
    (fun w =>
       bind_d (lift_d (Py.get w "alias" PNone))
         (fun a =>
            if Py.eqb a (PStr wallet_alias)
            then bind_d (lift_d (Py.getitem w "address"))
                        (fun address => return_d address)
            else ret_d tt)) s =
  (Returns v, s).
Proof.
  intros Hpre Hw Hv. induction Hpre as [| x pre Hx _ IH]; cbn [app for_each_d].
  - unfold names_alias in Hw. unfold bind_d at 1. unfold bind_d at 1.
    unfold lift_d at 1.
    destruct (Py.get w "alias" PNone) as [e | a]; [discriminate |].
    cbn [rbind ok] in Hw. injection Hw as Hw. rewrite Hw.
    unfold bind_d, lift_d. rewrite Hv. reflexivity.
  - unfold names_alias in Hx. unfold bind_d at 1. unfold bind_d at 1.
    unfold lift_d at 1.
    destruct (Py.get x "alias" PNone) as [e | a]; [discriminate |].
    cbn [rbind ok] in Hx. injection Hx as Hx. rewrite Hx.
    unfold ret_d at 1. exact IH.
Qed.

End PanelList.

(** X15.  The list of [wallet_panel.py] wins over the cache file: when
    the child process ends with code 0 and prints a JSON list whose first
    entry with the alias has an address, the entries before it being
    objects with other aliases, [get_wallet_address] returns that
    address and does not open the cache file. *)
Theorem listed_address_wins
        {W : Type} (ops : world_ops W) (xops : cli_ops W) (wallet_alias : string)
        (s : cli_state W) (w1 : W) (stdout : string)
        (wallets w v : pyval) (pre post : list pyval) :
  panel_list_run xops (cli_world s) = (ok (0, stdout), w1) ->
  json_loads xops stdout = ok wallets ->
  Py.iter wallets = ok (pre ++ w :: post) ->
  Forall (fun x => names_alias wallet_alias x = ok false) pre ->
  names_alias wallet_alias w = ok true ->
  Py.getitem w "address" = ok v ->
  get_wallet_address ops xops wallet_alias s =
  (Falls v, {| cli_world := w1;
               cli_log := CliPanelList (ok (0, stdout)) :: cli_log s |}).
Proof.
  intros Hrun Hjson Hiter Hpre Hw Hv.
  unfold get_wallet_address, call_d. unfold bind_d at 1.
  unfold try_except_d, panel_lookup.
  unfold bind_d at 1. unfold ask_d at 1. rewrite Hrun.
  unfold bind_d at 1. unfold lift_d at 1. unfold ok at 1.
  cbv beta iota zeta. change (0 =? 0) with true. cbv iota.
  unfold bind_d at 1. unfold lift_d at 1. rewrite Hjson. unfold ok at 1.
  unfold bind_d at 1. unfold lift_d at 1. rewrite Hiter. unfold ok at 1.
  rewrite (panel_loop_first_match wallet_alias pre post w v _ Hpre Hw Hv).
  reflexivity.
Qed.

Section MainBlock.

Context {W : Type}.
Variable ops : world_ops W.
Variable xops : cli_ops W.
Variable P : primitives.

Lemma cli_main_preview_read_only (argv : list string) :
  has_flag "--dry-run" (filter is_flag argv) = true ->
  cli_logs_only cli_read_only (cli_main ops xops P argv).
Proof.
  intros Hdry. unfold cli_main. cbv zeta. rewrite Hdry.
  destruct (filter (fun a => negb (is_flag a)) argv) as [| a0 [| a1 [| a2 [| a3 l]]]];
    try (apply cli_logs_only_bind;
         [apply cli_logs_only_print; reflexivity
         | intros; apply cli_logs_only_exit]).
  apply cli_logs_only_bind; [apply cli_logs_only_lift | intros amount].
  apply cli_logs_only_bind; [| intros; apply cli_logs_only_ret].
  apply dry_run_only_read_only.
Qed.

Lemma has_flag_app (flag : string) (l1 l2 : list string) :
  has_flag flag (l1 ++ l2) = has_flag flag l1 || has_flag flag l2.
Proof. apply existsb_app. Qed.

Lemma flags_without (flag x : string) (argv1 argv2 : list string) :
  is_flag x = true -> String.eqb flag x = false ->
  has_flag flag (filter is_flag (argv1 ++ x :: argv2)) =
  has_flag flag (filter is_flag (argv1 ++ argv2)).
Proof.
  intros Hx Hne. rewrite !filter_app, !has_flag_app. cbn [filter].
  rewrite Hx. cbn [has_flag existsb]. rewrite Hne. reflexivity.
Qed.

Lemma args_without (x : string) (argv1 argv2 : list string) :
  is_flag x = true ->
  filter (fun a => negb (is_flag a)) (argv1 ++ x :: argv2) =
  filter (fun a => negb (is_flag a)) (argv1 ++ argv2).
Proof.
  intros Hx. rewrite !filter_app. cbn [filter]. rewrite Hx. reflexivity.
Qed.

End MainBlock.

(** X16.  With [--dry-run] among the arguments the command line only
    reads, whatever else is given, [--yes] included: no run asks the
    keychain, reads from the console, writes the cache file, enters the
    signer or sends an execute request. *)
Theorem dry_run_flag_only_reads
        {W : Type} (ops : world_ops W) (xops : cli_ops W) (P : primitives)
        (argv : list string) (w0 : W) (e : event) :
  In "--dry-run" argv ->
  In (CliRun e) (cli_log (snd (cli_main ops xops P argv (cli_start w0)))) ->
  is_keyring e = false /\ is_prompt e = false /\ is_store e = false /\
  is_signer_entry e = false /\
  is_request "sui_executeTransactionBlock" e = false.
Proof.
  intros Hflag Hin.
  assert (Hdry : has_flag "--dry-run" (filter is_flag argv) = true).
  { unfold has_flag. apply existsb_exists. exists "--dry-run".
    split; [| apply String.eqb_refl].
    apply filter_In. split; [exact Hflag | reflexivity]. }
  destruct (cli_logs_only_events cli_read_only _ _ _
              (cli_main_preview_read_only ops xops P argv Hdry) Hin)
    as [Ha | []].
  apply read_only_facts. exact Ha.
Qed.

(** X17.  Unless exactly three arguments are left once those that start
    with [--] are set aside, the command line prints its usage and exits
    with status 1; nothing else happens. *)
Theorem wrong_arguments_print_usage
        {W : Type} (ops : world_ops W) (xops : cli_ops W) (P : primitives)
        (argv : list string) (s : cli_state W) :
  List.length (filter (fun a => negb (is_flag a)) argv) <> 3%nat ->
  cli_main ops xops P argv s =
  (Exits 1, {| cli_world := cli_world s;
               cli_log := CliPrint MsgUsage :: cli_log s |}).
Proof.
  intros Hlen. unfold cli_main. cbv zeta.
  destruct (filter (fun a => negb (is_flag a)) argv) as [| a0 [| a1 [| a2 [| a3 l]]]];
    try reflexivity.
  contradiction Hlen. reflexivity.
Qed.

(** X18.  An argument that starts with [--] and is neither [--yes] nor
    [--dry-run] changes nothing, wherever it stands. *)
Theorem unknown_flag_is_ignored
        {W : Type} (ops : world_ops W) (xops : cli_ops W) (P : primitives)
        (argv1 argv2 : list string) (flag : string) :
  is_flag flag = true -> flag <> "--yes" -> flag <> "--dry-run" ->
  cli_main ops xops P (argv1 ++ flag :: argv2) =
  cli_main ops xops P (argv1 ++ argv2).
Proof.
  intros Hflag Hyes Hdry. unfold cli_main. cbv zeta.
  rewrite (args_without flag argv1 argv2 Hflag).
  rewrite !(flags_without _ flag argv1 argv2 Hflag)
    by (apply String.eqb_neq; congruence).
  reflexivity.
Qed.

(** X15 on a list of two wallets, the second of which has the alias. *)
Lemma listed_address_wins_witness :
  get_wallet_address scripted_ops listing_cli "sui1" (cli_start world_success) =
  (Falls (PStr "0xabc"),
   {| cli_world := world_success;
      cli_log := [CliPanelList (ok (0, "[...]"))] |}).
Proof.
  exact (listed_address_wins scripted_ops listing_cli "sui1"
           (cli_start world_success) world_success "[...]" listed_wallets
           (PDict [("alias", PStr "sui1"); ("address", PStr "0xabc")])
           (PStr "0xabc")
           [PDict [("alias", PStr "eth1"); ("address", PStr "0x111")]] []
           eq_refl eq_refl eq_refl
           (Forall_cons
              (PDict [("alias", PStr "eth1"); ("address", PStr "0x111")])
              (eq_refl :
                 names_alias "sui1"
                   (PDict [("alias", PStr "eth1"); ("address", PStr "0x111")]) =
                 ok false)
              (Forall_nil _))
           eq_refl eq_refl).
Defined.

(** X16 with both flags given: the dry-run request is among the events. *)
Lemma dry_run_flag_only_reads_witness :
  is_keyring (dry_run_request (PStr "AAAC") (rpc_ok (dry_result_with status_success)))
    = false /\
  is_prompt (dry_run_request (PStr "AAAC") (rpc_ok (dry_result_with status_success)))
    = false /\
  is_store (dry_run_request (PStr "AAAC") (rpc_ok (dry_result_with status_success)))
    = false /\
  is_signer_entry
    (dry_run_request (PStr "AAAC") (rpc_ok (dry_result_with status_success)))
    = false /\
  is_request "sui_executeTransactionBlock"
    (dry_run_request (PStr "AAAC") (rpc_ok (dry_result_with status_success)))
    = false.
Proof.
  refine (dry_run_flag_only_reads desk_ops desk_cli sized_primitives
            ["sui1"; "0xdef"; "0.01"; "--yes"; "--dry-run"] desk_preview _ _ _).
  - vm_compute. repeat (first [left; reflexivity | right]).
  - vm_compute. repeat (first [left; reflexivity | right]).
Defined.

(** X17 with one argument and a flag. *)
Lemma wrong_arguments_print_usage_witness :
  cli_main scripted_ops scripted_cli sized_primitives ["sui1"; "--yes"]
    (cli_start world_success) =
  (Exits 1, {| cli_world := world_success; cli_log := [CliPrint MsgUsage] |}).
Proof.
  apply (wrong_arguments_print_usage scripted_ops scripted_cli sized_primitives
           ["sui1"; "--yes"] (cli_start world_success)).
  vm_compute. lia.
Defined.

(** X18 with [--force] between the alias and the recipient. *)
Lemma unknown_flag_is_ignored_witness :
  cli_main scripted_ops scripted_cli sized_primitives
    (["sui1"] ++ "--force" :: ["0xabc"; "0.01"]) =
  cli_main scripted_ops scripted_cli sized_primitives
    (["sui1"] ++ ["0xabc"; "0.01"]).
Proof.
  apply (unknown_flag_is_ignored scripted_ops scripted_cli sized_primitives
           ["sui1"] ["0xabc"; "0.01"] "--force").
  - reflexivity.
  - discriminate.
  - discriminate.
Defined.

Section PanelOutcome.

Context {W : Type}.
Variable ops : world_ops W.
Variable xops : cli_ops W.

(** The loop over the list changes nothing and never exits. *)
Lemma panel_loop_outcome (wallet_alias : string) (items : list pyval)
      (s : cli_state W) :
  exists o,
    for_each_d items
      (fun w =>
         bind_d (lift_d (Py.get w "alias" PNone))
           (fun a =>
              if Py.eqb a (PStr wallet_alias)
              then bind_d (lift_d (Py.getitem w "address"))
                          (fun address => return_d address)
              else ret_d tt)) s = (o, s) /\
    (forall code, o <> Exits code).
Proof.
  induction items as [| x items IH]; cbn [for_each_d].
  - exists (Falls tt). split; [reflexivity | discriminate].
  - unfold bind_d at 1. unfold bind_d at 1. unfold lift_d at 1.
    destruct (Py.get x "alias" PNone) as [e | a].
    + exists (Raises e). split; [reflexivity | discriminate].
    + destruct (Py.eqb a (PStr wallet_alias)).
      * unfold bind_d, lift_d, return_d.
        destruct (Py.getitem x "address") as [e | v].
        -- exists (Raises e). split; [reflexivity | discriminate].
        -- exists (Returns v). split; [reflexivity | discriminate].
      * unfold ret_d at 1. exact IH.
Qed.

(** However the child process ends, the [try] of [get_wallet_address]
    ends by falling through or by [return]. *)
Lemma panel_lookup_outcome (wallet_alias : string) (s : cli_state W)
      (r : res (Z * string)) (w1 : W) :
  panel_list_run xops (cli_world s) = (r, w1) ->
  exists o,
    try_except_d (panel_lookup xops wallet_alias) (fun _ => ret_d tt) s =
    (o, {| cli_world := w1; cli_log := CliPanelList r :: cli_log s |}) /\
    (o = Falls tt \/ exists v, o = Returns v).
Proof.
  intros Hrun.
  destruct (listing_failed r) eqn:Hfail.
  { exists (Falls tt). split; [| left; reflexivity].
    apply panel_lookup_failed; assumption. }
  destruct r as [e | [returncode stdout]]; [discriminate |].
  cbn [listing_failed] in Hfail. apply negb_false_iff in Hfail.
  unfold try_except_d, panel_lookup.
  unfold bind_d at 1. unfold ask_d at 1. rewrite Hrun.
  unfold bind_d at 1. unfold lift_d at 1. cbv beta iota zeta. rewrite Hfail.
  unfold bind_d at 1. unfold lift_d at 1.
  destruct (json_loads xops stdout) as [e | wallets].
  { exists (Falls tt). split; [reflexivity | left; reflexivity]. }
  unfold bind_d at 1. unfold lift_d at 1.
  destruct (Py.iter wallets) as [e | items].
  { exists (Falls tt). split; [reflexivity | left; reflexivity]. }
  destruct (panel_loop_outcome wallet_alias items
              {| cli_world := w1; cli_log := CliPanelList (inr (returncode, stdout))
                                             :: cli_log s |})
    as [o [Ho Hexit]].
  rewrite Ho.
  destruct o as [[] | v | e | code].
  - exists (Falls tt). split; [reflexivity | left; reflexivity].
  - exists (Returns v). split; [reflexivity | right; exists v; reflexivity].
  - exists (Falls tt). split; [reflexivity | left; reflexivity].
  - contradiction (Hexit code). reflexivity.
Qed.

End PanelOutcome.

(** X19.  No failure of the child process reaches the caller of
    [get_wallet_address], a failure of the cache file does.  Whatever the
    listing gave, if the cache file does not exist the call returns a
    value.  If the listing failed and the cache file exists but cannot
    be loaded, the call raises the exception of the load. *)
Theorem listing_failure_is_swallowed
        {W : Type} (ops : world_ops W) (xops : cli_ops W) (wallet_alias : string)
        (s : cli_state W) (r : res (Z * string)) (w1 : W) :
  panel_list_run xops (cli_world s) = (r, w1) ->
  (forall w2, addr_file_exists ops w1 = (false, w2) ->
     exists v, fst (get_wallet_address ops xops wallet_alias s) = Falls v /\
               (listing_failed r = true -> v = PNone)) /\
  (forall w2 w3 e,
     listing_failed r = true ->
     addr_file_exists ops w1 = (true, w2) ->
     addr_file_load ops w2 = (inl e, w3) ->
     fst (get_wallet_address ops xops wallet_alias s) = Raises e).
Proof.
  intros Hrun. split.
  - intros w2 He.
    destruct (panel_lookup_outcome xops wallet_alias s r w1 Hrun)
      as [o [Ho Hcases]].
    unfold get_wallet_address, call_d. unfold bind_d at 1. rewrite Ho.
    destruct Hcases as [-> | [v ->]].
    + exists PNone. split; [| reflexivity].
      unfold bind_d at 1. unfold cache_lookup. unfold bind_d at 1.
      unfold run_pipeline at 1. unfold ask.
      cbn [initial_state world log locals cli_world]. rewrite He.
      reflexivity.
    + exists v. split; [reflexivity |].
      intros Hfail.
      rewrite (panel_lookup_failed xops _ _ _ _ Hrun Hfail) in Ho.
      discriminate.
  - intros w2 w3 e Hfail He Hl.
    unfold get_wallet_address, call_d. unfold bind_d at 1.
    rewrite (panel_lookup_failed xops _ _ _ _ Hrun Hfail).
    unfold bind_d at 1. unfold cache_lookup. unfold bind_d at 1.
    unfold run_pipeline at 1. unfold ask.
    cbn [initial_state world log locals cli_world]. rewrite He.
    cbn [way_of_ctl world log map app cli_world].
    unfold bind_d at 1. unfold run_pipeline at 1.
    cbn [initial_state world log locals cli_world]. rewrite Hl.
    reflexivity.
Qed.

(** X19 at a desk without a cache file. *)
Lemma listing_failure_is_swallowed_witness :
  exists v,
    fst (get_wallet_address desk_ops desk_cli "sui1"
           (cli_start (desk_with None))) = Falls v /\
    (listing_failed (ok (2, "")) = true -> v = PNone).
Proof.
  exact (proj1 (listing_failure_is_swallowed desk_ops desk_cli "sui1"
                  (cli_start (desk_with None)) (ok (2, "")) (desk_with None)
                  eq_refl)
               (desk_with None) eq_refl).
Defined.

(* ===================================================================== *)
(** * Further properties: the wallet panel *)
(* ===================================================================== *)

Section Keeps.

Context {W : Type}.
Variable rule : panel_event -> list panel_event -> bool.

Lemma keeps_ret {A} (a : A) : keeps rule (ret_p a : T W A).
Proof. intros s Hs. exact Hs. Qed.

Lemma keeps_return {A} (v : pyval) : keeps rule (return_p v : T W A).
Proof. intros s Hs. exact Hs. Qed.

Lemma keeps_lift {A} (r : res A) : keeps rule (lift_p r : T W A).
Proof. intros s Hs. unfold lift_p. destruct r; exact Hs. Qed.

Lemma keeps_emit (e : panel_event) :
  (forall earlier, rule e earlier = true) -> keeps rule (emit_p e : T W unit).
Proof.
  intros He s Hs. cbn [emit_p snd pn_log history_ok]. rewrite He. exact Hs.
Qed.

Lemma keeps_print (m : panel_text) :
  (forall earlier, rule (PvPrint m) earlier = true) ->
  keeps rule (print_p m : T W unit).
Proof. apply keeps_emit. Qed.

Lemma keeps_ask {A} (op : W -> A * W) (ev : A -> panel_event) :
  (forall a earlier, rule (ev a) earlier = true) -> keeps rule (ask_p op ev).
Proof.
  intros He s Hs. unfold ask_p. destruct (op (pn_world s)) as [a w'].
  cbn [snd pn_log history_ok]. rewrite He. exact Hs.
Qed.

Lemma keeps_bind {A B} (m : T W A) (k : A -> T W B) :
  keeps rule m -> (forall a, keeps rule (k a)) -> keeps rule (bind_p m k).
Proof.
  intros Hm Hk s Hs. unfold bind_p. specialize (Hm s Hs).
  destruct (m s) as [[a | v | e] s1]; cbn [snd] in *; try exact Hm.
  apply Hk. exact Hm.
Qed.

Lemma keeps_call (body : T W unit) : keeps rule body -> keeps rule (call_p body).
Proof.
  intros Hb s Hs. unfold call_p. specialize (Hb s Hs).
  destruct (body s) as [[a | v | e] s1]; exact Hb.
Qed.

Lemma keeps_try_except {A} (body : T W A) (handler : exn -> T W A) :
  keeps rule body -> (forall e, keeps rule (handler e)) ->
  keeps rule (try_except_p body handler).
Proof.
  intros Hb Hh s Hs. unfold try_except_p. specialize (Hb s Hs).
  destruct (body s) as [[a | v | e] s1]; cbn [snd] in *; try exact Hb.
  apply Hh. exact Hb.
Qed.

Lemma keeps_for_each {A} (items : list A) (body : A -> T W unit) :
  (forall x, keeps rule (body x)) -> keeps rule (for_each_p items body).
Proof.
  intros Hb. induction items as [| x items IH]; cbn [for_each_p].
  - apply keeps_ret.
  - apply keeps_bind; [apply Hb | intros _; exact IH].
Qed.

(** What a rule that holds of a history says of each of its events. *)
Lemma history_ok_split (log later earlier : list panel_event) (e : panel_event) :
  history_ok rule log = true -> log = later ++ e :: earlier ->
  rule e earlier = true.
Proof.
  intros Hok ->. induction later as [| x later IH]; cbn [app history_ok] in Hok;
    apply andb_true_iff in Hok; destruct Hok as [H1 H2].
  - exact H1.
  - apply IH. exact H2.
Qed.

End Keeps.

Ltac keep_step :=
  first
    [ apply keeps_ret
    | apply keeps_return
    | apply keeps_lift
    | apply keeps_print; intros; reflexivity
    | apply keeps_ask; intros; reflexivity
    | apply keeps_for_each; intros
    | apply keeps_bind; [| intros]
    | match goal with
      | |- keeps _ (if ?b then _ else _) => destruct b eqn:?
      | |- keeps _ (match ?x with _ => _ end) => destruct x eqn:?
      end ].

Ltac keep := repeat keep_step.

Section Registry.

Context {W : Type}.
Variable ops : panel_ops W.

Lemma get_registry_keeps (rule : panel_event -> list panel_event -> bool) :
  (forall r earlier, rule (PvKeyringGet REGISTRY_KEY r) earlier = true) ->
  keeps rule (get_registry ops).
Proof.
  intros Hget. unfold get_registry. apply keeps_call.
  apply keeps_bind; [apply keeps_ask; exact Hget | intros r].
  keep.
Qed.

(** [get_registry] asks the keychain once and does nothing else. *)
Lemma get_registry_log (s : panel_state W) :
  exists r,
    snd (get_registry ops s) =
    {| pn_world := snd (panel_get_password ops SERVICE_ID REGISTRY_KEY (pn_world s));
       pn_log := PvKeyringGet REGISTRY_KEY r :: pn_log s |}.
Proof.
  unfold get_registry, call_p. unfold bind_p at 1. unfold ask_p.
  destruct (panel_get_password ops SERVICE_ID REGISTRY_KEY (pn_world s))
    as [r w1].
  exists r. cbn [snd].
  destruct r as [e | [data |]]; cbn [bind_p lift_p return_p]; try reflexivity.
  destruct (String.eqb data ""); [reflexivity |].
  destruct (panel_json_loads ops data) as [parsed |]; [| reflexivity].
  destruct (Py.truthy parsed); [| reflexivity].
  destruct (Py.getitem0 parsed) as [e | first]; cbn [bind_p lift_p return_p];
    [reflexivity |].
  destruct (is_str first); [| reflexivity].
  destruct (Py.iter parsed); reflexivity.
Qed.

End Registry.

Section AddHistory.

Context {W : Type}.
Variable ops : panel_ops W.
Variable P : primitives.
Variable X : evm_primitives.

Lemma input_p_keeps (rule : panel_event -> list panel_event -> bool)
      (p : panel_prompt) :
  (forall r earlier, rule (PvInput p r) earlier = true) ->
  keeps rule (input_p ops p).
Proof.
  intros H. unfold input_p.
  apply keeps_bind; [apply keeps_ask; exact H | intros r; apply keeps_lift].
Qed.

Lemma check_secret_keeps (chain_id secret : string) :
  keeps add_rule (check_secret ops chain_id secret).
Proof.
  unfold check_secret, warn_unless. keep.
  all: apply input_p_keeps; reflexivity.
Qed.

(** The [try] of [cmd_add] keeps the rule, for a key account and a key
    that is not empty. *)
Lemma store_wallet_keeps (wallets : pyval) (found : option (nat * pyval))
      (wallet_alias chain_id secret address : string) :
  key_account wallet_alias = true ->
  String.eqb secret "" = false ->
  keeps add_rule
    (store_wallet ops wallets found wallet_alias chain_id secret address).
Proof.
  intros Hacc Hsec s Hs.
  assert (Hself : String.eqb wallet_alias wallet_alias = true)
    by apply String.eqb_refl.
  unfold store_wallet, try_except_p.
  unfold bind_p at 1. unfold ask_p at 1.
  destruct (panel_security_delete ops SERVICE_ID wallet_alias (pn_world s))
    as [[e | []] w1].
  { cbn. rewrite Hacc. exact Hs. }
  unfold bind_p at 1. unfold lift_p at 1.
  unfold bind_p at 1. unfold ask_p at 1. cbn [pn_world pn_log].
  destruct (panel_security_add ops SERVICE_ID wallet_alias secret w1)
    as [[e | [returncode stderr]] w2].
  { cbn. rewrite Hacc, Hsec, Hself. exact Hs. }
  unfold bind_p at 1. unfold lift_p at 1.
  destruct (returncode =? 0) eqn:Hcode; cbn [negb].
  2: { cbn. rewrite Hacc, Hsec, Hself. exact Hs. }
  apply Z.eqb_eq in Hcode. subst returncode.
  unfold bind_p at 1. unfold lift_p at 1.
  destruct (registry_with wallets found wallet_alias chain_id address)
    as [e | wallets'].
  { cbn. rewrite Hacc, Hsec, Hself. exact Hs. }
  unfold save_registry. unfold bind_p at 1. unfold bind_p at 1.
  unfold ask_p at 1. cbn [pn_world pn_log].
  destruct (panel_set_password ops SERVICE_ID REGISTRY_KEY
              (panel_json_dumps ops wallets') w2) as [[e | []] w3].
  { cbn. rewrite Hacc, Hsec, Hself. exact Hs. }
  cbn. rewrite Hacc, Hsec, Hself. exact Hs.
Qed.

Lemma cmd_add_keeps : keeps add_rule (cmd_add ops P X).
Proof.
  unfold cmd_add. apply keeps_call.
  apply keeps_bind; [apply keeps_print; reflexivity | intros _].
  apply keeps_bind; [apply keeps_print; reflexivity | intros _].
  apply keeps_bind; [apply input_p_keeps; reflexivity | intros answer].
  cbv zeta.
  destruct (String.eqb (str_strip answer) "" ||
            String.eqb (str_strip answer) REGISTRY_KEY) eqn:Halias.
  { apply keeps_bind; [apply keeps_print; reflexivity | intros _].
    apply keeps_return. }
  assert (Hacc : key_account (str_strip answer) = true).
  { unfold key_account. apply orb_false_iff in Halias.
    destruct Halias as [-> ->]. reflexivity. }
  apply keeps_bind; [apply get_registry_keeps; reflexivity | intros wallets].
  apply keeps_bind; [apply keeps_lift | intros found].
  apply keeps_bind.
  { destruct (Py.truthy (found_value found)); [| apply keeps_ret].
    apply keeps_bind; [apply input_p_keeps; reflexivity | intros overwrite].
    destruct (negb _); [| apply keeps_ret].
    apply keeps_bind; [apply keeps_print; reflexivity | intros _].
    apply keeps_return. }
  intros _.
  apply keeps_bind; [apply keeps_print; reflexivity | intros _].
  apply keeps_bind.
  { apply keeps_for_each. intros k. apply keeps_print. reflexivity. }
  intros _.
  apply keeps_bind; [apply input_p_keeps; reflexivity | intros choice].
  apply keeps_bind; [apply keeps_ask; reflexivity | intros r].
  apply keeps_bind; [apply keeps_lift | intros secret].
  destruct (String.eqb secret "") eqn:Hsec.
  { apply keeps_bind; [apply keeps_print; reflexivity | intros _].
    apply keeps_return. }
  apply keeps_bind; [apply check_secret_keeps | intros _].
  apply keeps_bind; [apply keeps_lift | intros address].
  apply keeps_bind.
  { destruct (negb _); [apply keeps_print; reflexivity | apply keeps_ret]. }
  intros _. apply store_wallet_keeps; assumption.
Qed.

End AddHistory.

(** X20.  [cmd_add] hands a key to [security] only under an account
    that is neither empty nor the account of the registry, only if the
    key is not empty, and only right after it has run [security] to
    delete the item of that account. *)
Theorem key_is_stored_under_its_alias
        {W : Type} (ops : panel_ops W) (P : primitives) (X : evm_primitives)
        (w : W) (later earlier : list panel_event)
        (account secret : string) (r : res (Z * string)) :
  pn_log (snd (cmd_add ops P X (panel_start w))) =
    later ++ PvSecurityAdd account secret r :: earlier ->
  account <> "" /\ account <> REGISTRY_KEY /\ secret <> "" /\
  exists rest, earlier = PvSecurityDelete account (ok tt) :: rest.
Proof.
  intros Hlog.
  pose proof (history_ok_split add_rule _ _ _ _
                (cmd_add_keeps ops P X (panel_start w) eq_refl) Hlog) as Hrule.
  cbn [add_rule] in Hrule. unfold key_account in Hrule.
  repeat (apply andb_true_iff in Hrule; destruct Hrule as [Hrule ?]).
  repeat match goal with
         | H : negb _ = true |- _ =>
             apply negb_true_iff, String.eqb_neq in H
         end.
  repeat split; try assumption.
  destruct earlier as [| [] rest]; try discriminate.
  destruct r0 as [| []]; try discriminate.
  match goal with
  | H : String.eqb _ _ = true |- _ => apply String.eqb_eq in H; subst
  end.
  exists rest. reflexivity.
Qed.

(** X21.  [cmd_add] writes nothing but the registry through [keyring],
    and writes it only right after [security] has added the key with
    return code 0. *)
Theorem registry_written_after_key_stored
        {W : Type} (ops : panel_ops W) (P : primitives) (X : evm_primitives)
        (w : W) (later earlier : list panel_event)
        (account value : string) (r : res unit) :
  pn_log (snd (cmd_add ops P X (panel_start w))) =
    later ++ PvKeyringSet account value r :: earlier ->
  account = REGISTRY_KEY /\
  exists wallet_alias secret stderr rest,
    earlier = PvSecurityAdd wallet_alias secret (ok (0, stderr)) :: rest.
Proof.
  intros Hlog.
  pose proof (history_ok_split add_rule _ _ _ _
                (cmd_add_keeps ops P X (panel_start w) eq_refl) Hlog) as Hrule.
  cbn [add_rule] in Hrule.
  apply andb_true_iff in Hrule. destruct Hrule as [Hacc Hrule].
  apply String.eqb_eq in Hacc. split; [exact Hacc |].
  destruct earlier as [| [] rest]; try discriminate.
  destruct r0 as [| [returncode stderr]]; try discriminate.
  destruct returncode; try discriminate.
  exists account0, secret, stderr, rest. reflexivity.
Qed.

(** Only a string equals a string. *)
Lemma eqb_str_inv (a : pyval) (s : string) :
  Py.eqb a (PStr s) = true -> a = PStr s.
Proof.
  destruct a as [| b | z | f | t | l | d]; cbn; try discriminate.
  intros H. apply String.eqb_eq in H. subst. reflexivity.
Qed.

Lemma eqb_str_other (s t : string) : s <> t -> Py.eqb (PStr s) (PStr t) = false.
Proof. intros H. cbn. apply String.eqb_neq. exact H. Qed.

(** Equal dicts have equal values under each key of the first. *)
Lemma eqb_dict_lookup (d e : list (string * pyval)) (k : string) (v : pyval) :
  Py.eqb (PDict d) (PDict e) = true ->
  Py.lookup k d = Some v ->
  exists w, Py.lookup k e = Some w /\ Py.eqb v w = true.
Proof.
  cbn [Py.eqb]. intros H. apply andb_true_iff in H. destruct H as [_ H].
  revert H. generalize d. intros d0.
  induction d0 as [| [k0 v0] d0 IH]; intros H Hk; [discriminate |].
  apply andb_true_iff in H. destruct H as [H0 H].
  cbn [Py.lookup] in Hk. destruct (String.eqb_spec k k0) as [-> | Hne].
  - injection Hk as ->. destruct (Py.lookup k0 e) as [w |]; [| discriminate].
    exists w. split; [reflexivity | exact H0].
  - apply IH; assumption.
Qed.

Lemma getitem_dict (w a : pyval) (k : string) :
  Py.getitem w k = ok a -> exists d, w = PDict d /\ Py.lookup k d = Some a.
Proof.
  destruct w; try discriminate. cbn [Py.getitem].
  destruct (Py.lookup k d) as [v |] eqn:Hl; [| discriminate].
  intros H. injection H as ->. exists d. split; [reflexivity | exact Hl].
Qed.

(** An object with a key is truthy. *)
Lemma getitem_truthy (w a : pyval) (k : string) :
  Py.getitem w k = ok a -> Py.truthy w = true.
Proof.
  intros H. destruct (getitem_dict _ _ _ H) as [d [-> Hl]].
  destruct d; [discriminate | reflexivity].
Qed.

(** An entry equal to one whose alias is [s] has the alias [s]. *)
Lemma eqb_entry_alias (x w a : pyval) (s : string) :
  Py.eqb x w = true ->
  Py.getitem x "alias" = ok a ->
  Py.getitem w "alias" = ok (PStr s) ->
  a = PStr s.
Proof.
  intros He Hx Hw.
  destruct (getitem_dict _ _ _ Hx) as [d [-> Hd]].
  destruct (getitem_dict _ _ _ Hw) as [e [-> Hl]].
  destruct (eqb_dict_lookup d e "alias" a He Hd) as [v [Hv Hav]].
  rewrite Hl in Hv. injection Hv as <-. apply eqb_str_inv. exact Hav.
Qed.

(** What [find_wallet_from] found: an entry with the alias, at a place not
    before the start. *)
Lemma find_wallet_from_found (items : list pyval) (wallet_alias : string) :
  forall i p w,
    find_wallet_from i items wallet_alias = ok (Some (p, w)) ->
    (i <= p)%nat /\ Py.getitem w "alias" = ok (PStr wallet_alias).
Proof.
  induction items as [| x items IH]; intros i p w H; cbn [find_wallet_from] in H;
    [discriminate |].
  destruct (Py.getitem x "alias") as [e | a] eqn:Ha; [discriminate |].
  unfold rbind in H.
  destruct (Py.eqb a (PStr wallet_alias)) eqn:Hm.
  - injection H as <- <-. split; [lia |].
    rewrite Ha. apply eqb_str_inv in Hm. subst. reflexivity.
  - destruct (IH _ _ _ H) as [Hle Hw]. split; [lia | exact Hw].
Qed.

(** The value found does not depend on the number of the first place. *)
Lemma find_wallet_from_value (items : list pyval) (wallet_alias : string) :
  forall i j,
    rbind (find_wallet_from i items wallet_alias) (fun f => ok (found_value f)) =
    rbind (find_wallet_from j items wallet_alias) (fun f => ok (found_value f)).
Proof.
  induction items as [| x items IH]; intros i j; cbn [find_wallet_from];
    [reflexivity |].
  destruct (Py.getitem x "alias") as [e | a]; [reflexivity |].
  unfold rbind at 2 4.
  destruct (Py.eqb a (PStr wallet_alias)); [reflexivity | apply IH].
Qed.

(** [find_wallet] on a list, by its head. *)
Lemma find_wallet_cons (x : pyval) (items : list pyval) (wallet_alias : string) :
  find_wallet (PList (x :: items)) wallet_alias =
  (let? a := Py.getitem x "alias" in
   if Py.eqb a (PStr wallet_alias) then ok x
   else find_wallet (PList items) wallet_alias)%res.
Proof.
  unfold find_wallet, find_entry. cbn [Py.iter rbind ok find_wallet_from].
  destruct (Py.getitem x "alias") as [e | a]; [reflexivity |].
  cbn [rbind].
  destruct (Py.eqb a (PStr wallet_alias)); [reflexivity |].
  apply (find_wallet_from_value items wallet_alias 1 0).
Qed.

(** [wallets.remove(existing)] drops the entry [find_wallet] found, and
    no other alias is found differently afterwards. *)
Lemma remove_first_found (wallet_alias : string) (items : list pyval) :
  forall i p w,
    find_wallet_from i items wallet_alias = ok (Some (p, w)) ->
    exists before after,
      items = before ++ w :: after /\
      remove_first i items (Some p) w = Some (before ++ after) /\
      forall other, other <> wallet_alias ->
        find_wallet (PList (before ++ after)) other =
        find_wallet (PList items) other.
Proof.
  induction items as [| x items IH]; intros i p w H; [discriminate |].
  pose proof (find_wallet_from_found _ _ _ _ _ H) as [Hle Hw].
  cbn [find_wallet_from] in H.
  destruct (Py.getitem x "alias") as [e | a] eqn:Ha; [discriminate |].
  unfold rbind in H.
  destruct (Py.eqb a (PStr wallet_alias)) eqn:Hm.
  - injection H as <- <-. exists [], items. cbn [app remove_first is_place].
    rewrite Nat.eqb_refl. repeat split.
    intros other Hother. rewrite find_wallet_cons, Ha. cbn [rbind].
    apply eqb_str_inv in Hm. subst a.
    rewrite eqb_str_other by congruence. reflexivity.
  - pose proof (find_wallet_from_found _ _ _ _ _ H) as [Hlt _].
    destruct (IH _ _ _ H) as [before [after [Hitems [Hrem Hothers]]]].
    exists (x :: before), after. cbn [app remove_first is_place].
    assert (Hplace : (i =? p)%nat = false) by (apply Nat.eqb_neq; lia).
    assert (Hne : Py.eqb x w = false).
    { destruct (Py.eqb x w) eqn:He; [| reflexivity].
      rewrite (eqb_entry_alias x w a wallet_alias He Ha Hw) in Hm.
      cbn in Hm. rewrite String.eqb_refl in Hm. discriminate. }
    rewrite Hplace, Hne, Hrem. cbn [orb option_map].
    split; [rewrite Hitems; reflexivity |]. split; [reflexivity |].
    intros other Hother. rewrite !find_wallet_cons, Ha. cbn [rbind].
    rewrite (Hothers other Hother). reflexivity.
Qed.

(** Where in an explicit log an event of a given kind can stand. *)
Ltac split_log H :=
  match type of H with
  | [] = ?later ++ _ :: _ => destruct later; discriminate H
  | _ :: _ = ?later ++ _ :: _ =>
      let x := fresh "x" in
      let Hx := fresh "Hx" in
      destruct later as [| x later]; cbn [app] in H;
      [ try discriminate H
      | injection H as Hx H; clear Hx; split_log H ]
  end.

(** A found entry stands in a list. *)
Lemma find_entry_list (wallets : pyval) (wallet_alias : string) (p : nat)
      (w : pyval) :
  find_entry wallets wallet_alias = ok (Some (p, w)) ->
  exists items, wallets = PList items /\
                find_wallet_from 0 items wallet_alias = ok (Some (p, w)).
Proof.
  unfold find_entry. destruct wallets as [| b | z | f | t | l | d];
    cbn [Py.iter rbind throw ok]; try discriminate.
  - destruct (str_chars t); cbn; discriminate.
  - intros H. exists l. split; [reflexivity | exact H].
  - destruct d; cbn; discriminate.
Qed.

Section RemoveHistory.

Context {W : Type}.
Variable ops : panel_ops W.

Lemma cmd_remove_keeps (wallet_alias : string) :
  keeps (remove_rule wallet_alias) (cmd_remove ops wallet_alias).
Proof.
  intros s Hs.
  assert (Hself : String.eqb wallet_alias wallet_alias = true)
    by apply String.eqb_refl.
  unfold cmd_remove, call_p. unfold bind_p at 1.
  pose proof (get_registry_keeps ops (remove_rule wallet_alias)
                ltac:(reflexivity) s Hs) as Hs1.
  destruct (get_registry ops s) as [[wallets | v | e] s1]; cbn [snd] in Hs1;
    try exact Hs1.
  unfold bind_p at 1. unfold lift_p at 1.
  destruct (find_entry wallets wallet_alias) as [e | found]; [exact Hs1 |].
  destruct (Py.truthy (found_value found)); cbn [negb]; [| exact Hs1].
  unfold input_p. unfold bind_p at 1. unfold bind_p at 1. unfold ask_p at 1.
  destruct (panel_input ops (AskRemove wallet_alias) (pn_world s1))
    as [[e | confirm] w2]; [exact Hs1 |].
  unfold lift_p at 1.
  destruct (String.eqb confirm "yes") eqn:Hyes; cbn [negb]; [| exact Hs1].
  unfold try_except_p. unfold bind_p at 1. unfold ask_p at 1.
  cbn [pn_world pn_log].
  destruct (panel_delete_password ops SERVICE_ID wallet_alias w2)
    as [[e | []] w3].
  { cbn. rewrite Hself, Hyes. exact Hs1. }
  unfold bind_p at 1. unfold lift_p at 1.
  unfold bind_p at 1. unfold lift_p at 1.
  destruct (list_remove wallets found) as [e | wallets'].
  { cbn. rewrite Hself, Hyes. exact Hs1. }
  unfold save_registry. unfold bind_p at 1. unfold bind_p at 1.
  unfold ask_p at 1. cbn [pn_world pn_log].
  destruct (panel_set_password ops SERVICE_ID REGISTRY_KEY
              (panel_json_dumps ops wallets') w3) as [[e | []] w4];
    cbn; rewrite Hself, Hyes; exact Hs1.
Qed.

End RemoveHistory.

(** X22.  [cmd_remove] deletes no key but that of the alias it was
    given, and only right after it has read the answer [yes] to its
    question: any other answer, [y] or [Yes] included, deletes
    nothing. *)
Theorem key_deleted_only_on_yes
        {W : Type} (ops : panel_ops W) (wallet_alias : string) (w : W)
        (later earlier : list panel_event) (account : string) (r : res unit) :
  pn_log (snd (cmd_remove ops wallet_alias (panel_start w))) =
    later ++ PvKeyringDelete account r :: earlier ->
  account = wallet_alias /\
  exists rest, earlier = PvInput (AskRemove wallet_alias) (ok "yes") :: rest.
Proof.
  intros Hlog.
  pose proof (history_ok_split (remove_rule wallet_alias) _ _ _ _
                (cmd_remove_keeps ops wallet_alias (panel_start w) eq_refl)
                Hlog) as Hrule.
  cbn [remove_rule] in Hrule.
  apply andb_true_iff in Hrule. destruct Hrule as [Hacc Hrule].
  apply String.eqb_eq in Hacc. split; [exact Hacc |].
  destruct earlier as [| [m | p a | | | | | |] rest]; try discriminate.
  destruct p as [| | | | a0]; try discriminate.
  destruct a as [e | answer]; try discriminate.
  apply andb_true_iff in Hrule. destruct Hrule as [Ha Hyes].
  apply String.eqb_eq in Ha, Hyes. subst. exists rest. reflexivity.
Qed.

(** X23.  When [cmd_remove] writes the registry, it has just deleted the
    key, and what it writes is the registry it read without the entry
    [find_wallet] found for the alias: every other alias is found as
    before. *)
Theorem removed_wallet_leaves_the_others
        {W : Type} (ops : panel_ops W) (wallet_alias : string) (w : W)
        (wallets : pyval) (later earlier : list panel_event)
        (account value : string) (r : res unit) :
  fst (get_registry ops (panel_start w)) = Next wallets ->
  pn_log (snd (cmd_remove ops wallet_alias (panel_start w))) =
    later ++ PvKeyringSet account value r :: earlier ->
  account = REGISTRY_KEY /\
  (exists rest, earlier = PvKeyringDelete wallet_alias (ok tt) :: rest) /\
  exists before existing after,
    wallets = PList (before ++ existing :: after) /\
    find_wallet wallets wallet_alias = ok existing /\
    value = panel_json_dumps ops (PList (before ++ after)) /\
    forall other, other <> wallet_alias ->
      find_wallet (PList (before ++ after)) other = find_wallet wallets other.
Proof.
  intros Hreg Hlog. revert Hlog.
  destruct (get_registry_log ops (panel_start w)) as [r0 Hs1].
  unfold cmd_remove, call_p. unfold bind_p at 1.
  destruct (get_registry ops (panel_start w)) as [c s1].
  cbn [fst snd] in Hreg, Hs1. subst c s1.
  set (w1 := snd (panel_get_password ops SERVICE_ID REGISTRY_KEY
                    (pn_world (panel_start w)))).
  cbn [panel_start pn_log].
  unfold bind_p at 1. unfold lift_p at 1.
  destruct (find_entry wallets wallet_alias) as [e | found] eqn:Hfind.
  { cbn. intros H. split_log H. }
  destruct (Py.truthy (found_value found)) eqn:Htruthy; cbn [negb].
  2: { cbn. intros H. split_log H. }
  destruct found as [[p existing] |]; [| discriminate].
  destruct (find_entry_list _ _ _ _ Hfind) as [items [-> Hfrom]].
  destruct (remove_first_found wallet_alias items 0 p existing Hfrom)
    as [before [after [Hitems [Hrem Hothers]]]].
  unfold input_p. unfold bind_p at 1. unfold bind_p at 1. unfold ask_p at 1.
  cbn [pn_world pn_log].
  destruct (panel_input ops (AskRemove wallet_alias) w1) as [[e | confirm] w2].
  { cbn. intros H. split_log H. }
  unfold lift_p at 1.
  destruct (String.eqb confirm "yes"); cbn [negb].
  2: { cbn. intros H. split_log H. }
  unfold try_except_p. unfold bind_p at 1. unfold ask_p at 1.
  cbn [pn_world pn_log].
  destruct (panel_delete_password ops SERVICE_ID wallet_alias w2)
    as [[e | []] w3].
  { cbn. intros H. split_log H. }
  unfold bind_p at 1. unfold lift_p at 1.
  unfold bind_p at 1. unfold lift_p at 1.
  unfold list_remove. cbn [found_place found_value option_map fst].
  rewrite Hrem. unfold ok at 1.
  unfold save_registry. unfold bind_p at 1. unfold bind_p at 1.
  unfold ask_p at 1. cbn [pn_world pn_log].
  assert (Hfound : find_wallet (PList items) wallet_alias = ok existing).
  { unfold find_wallet. rewrite Hfind. reflexivity. }
  destruct (panel_set_password ops SERVICE_ID REGISTRY_KEY
              (panel_json_dumps ops (PList (before ++ after))) w3)
    as [[e | []] w4]; cbn; intros H; split_log H;
    injection H as <- <- <- <-;
    (split; [reflexivity |]); (split; [eexists; reflexivity |]);
    exists before, existing, after; rewrite <- Hitems; auto.
Qed.

(** An entry that has the alias [s] is the one found for [s], and is
    passed over for any other alias. *)
Lemma find_wallet_hit (x : pyval) (items : list pyval) (s : string) :
  Py.getitem x "alias" = ok (PStr s) ->
  find_wallet (PList (x :: items)) s = ok x.
Proof.
  intros H. rewrite find_wallet_cons, H. cbn. rewrite String.eqb_refl.
  reflexivity.
Qed.

Lemma find_wallet_pass (x : pyval) (items : list pyval) (s other : string) :
  Py.getitem x "alias" = ok (PStr s) -> other <> s ->
  find_wallet (PList (x :: items)) other = find_wallet (PList items) other.
Proof.
  intros H Hne. rewrite find_wallet_cons, H. unfold ok. cbn [rbind].
  rewrite eqb_str_other by congruence. reflexivity.
Qed.

(** Replacing the entry found by another with the same alias: the new
    entry is found for the alias, every other alias as before. *)
Lemma set_nth_found (wallet_alias : string) (e2 : pyval) (items : list pyval) :
  Py.getitem e2 "alias" = ok (PStr wallet_alias) ->
  forall i p w,
    find_wallet_from i items wallet_alias = ok (Some (p, w)) ->
    find_wallet (PList (set_nth (p - i) e2 items)) wallet_alias = ok e2 /\
    forall other, other <> wallet_alias ->
      find_wallet (PList (set_nth (p - i) e2 items)) other =
      find_wallet (PList items) other.
Proof.
  intros He2. induction items as [| x items IH]; intros i p w H;
    [discriminate |].
  pose proof (find_wallet_from_found _ _ _ _ _ H) as [Hle Hw].
  cbn [find_wallet_from] in H.
  destruct (Py.getitem x "alias") as [e | a] eqn:Ha; [discriminate |].
  unfold rbind in H.
  destruct (Py.eqb a (PStr wallet_alias)) eqn:Hm.
  - injection H as <- <-. rewrite Nat.sub_diag.
    unfold set_nth. cbn [firstn skipn app].
    apply eqb_str_inv in Hm. subst a. split.
    + apply find_wallet_hit. exact He2.
    + intros other Hother.
      rewrite (find_wallet_pass e2 items wallet_alias other He2 Hother).
      rewrite (find_wallet_pass x items wallet_alias other Ha Hother).
      reflexivity.
  - pose proof (find_wallet_from_found _ _ _ _ _ H) as [Hlt _].
    destruct (IH _ _ _ H) as [Hhit Hothers].
    replace (p - i)%nat with (S (p - S i)) by lia.
    assert (Hset : set_nth (S (p - S i)) e2 (x :: items) =
                   x :: set_nth (p - S i) e2 items) by reflexivity.
    rewrite Hset. split.
    + rewrite find_wallet_cons, Ha. cbn [rbind]. rewrite Hm. exact Hhit.
    + intros other Hother. rewrite !find_wallet_cons, Ha. cbn [rbind].
      rewrite (Hothers other Hother). reflexivity.
Qed.

(** Appending an entry with an alias that was not found. *)
Lemma append_not_found (wallet_alias : string) (new : pyval)
      (items : list pyval) :
  Py.getitem new "alias" = ok (PStr wallet_alias) ->
  forall i,
    find_wallet_from i items wallet_alias = ok None ->
    find_wallet (PList (items ++ [new])) wallet_alias = ok new /\
    forall other, other <> wallet_alias ->
      find_wallet (PList (items ++ [new])) other =
      find_wallet (PList items) other.
Proof.
  intros Hnew. induction items as [| x items IH]; intros i H; cbn [app].
  - split; [apply find_wallet_hit; exact Hnew |].
    intros other Hother.
    apply (find_wallet_pass new [] wallet_alias other Hnew Hother).
  - cbn [find_wallet_from] in H.
    destruct (Py.getitem x "alias") as [e | a] eqn:Ha; [discriminate |].
    unfold rbind in H.
    destruct (Py.eqb a (PStr wallet_alias)) eqn:Hm; [discriminate |].
    destruct (IH _ H) as [Hhit Hothers]. split.
    + rewrite find_wallet_cons, Ha. cbn [rbind]. rewrite Hm. exact Hhit.
    + intros other Hother. rewrite !find_wallet_cons, Ha. cbn [rbind].
      rewrite (Hothers other Hother). reflexivity.
Qed.

(** The entry found, with its new chain and address. *)
Lemma updated_entry (existing e1 e2 : pyval) (wallet_alias chain_id address : string) :
  Py.getitem existing "alias" = ok (PStr wallet_alias) ->
  Py.setitem existing "chain" (PStr chain_id) = ok e1 ->
  Py.setitem e1 "address" (PStr address) = ok e2 ->
  Py.getitem e2 "alias" = ok (PStr wallet_alias) /\
  Py.getitem e2 "chain" = ok (PStr chain_id) /\
  Py.getitem e2 "address" = ok (PStr address).
Proof.
  intros Ha H1 H2.
  destruct (getitem_dict _ _ _ Ha) as [d [-> Hd]].
  cbn [Py.setitem] in H1. unfold ok in H1. injection H1 as <-.
  cbn [Py.setitem] in H2. unfold ok in H2. injection H2 as <-.
  cbn [Py.getitem].
  rewrite !lookup_update_other by discriminate.
  rewrite !lookup_update_same, Hd. repeat split.
Qed.

(** The registry [cmd_add] is about to write. *)
Lemma registry_with_found (wallets wallets' : pyval)
      (found : option (nat * pyval)) (wallet_alias chain_id address : string) :
  find_entry wallets wallet_alias = ok found ->
  registry_with wallets found wallet_alias chain_id address = ok wallets' ->
  (exists entry,
     find_wallet wallets' wallet_alias = ok entry /\
     Py.getitem entry "alias" = ok (PStr wallet_alias) /\
     Py.getitem entry "chain" = ok (PStr chain_id) /\
     Py.getitem entry "address" = ok (PStr address)) /\
  forall other, other <> wallet_alias ->
    find_wallet wallets' other = find_wallet wallets other.
Proof.
  intros Hfind Hwith. unfold registry_with in Hwith.
  destruct found as [[p existing] |].
  - destruct (find_entry_list _ _ _ _ Hfind) as [items [-> Hfrom]].
    pose proof (find_wallet_from_found _ _ _ _ _ Hfrom) as [_ Halias].
    rewrite (getitem_truthy _ _ _ Halias) in Hwith.
    destruct (Py.setitem existing "chain" (PStr chain_id)) as [e | e1] eqn:H1;
      [discriminate |].
    cbn [rbind] in Hwith.
    destruct (Py.setitem e1 "address" (PStr address)) as [e | e2] eqn:H2;
      [discriminate |].
    cbn [rbind] in Hwith. injection Hwith as <-.
    destruct (updated_entry _ _ _ _ _ _ Halias H1 H2) as [Ha [Hc Hd]].
    destruct (set_nth_found wallet_alias e2 items Ha 0 p existing Hfrom)
      as [Hhit Hothers].
    rewrite Nat.sub_0_r in Hhit, Hothers.
    split; [exists e2; auto | exact Hothers].
  - unfold list_append in Hwith.
    destruct wallets as [| b | z | f | t | items | d]; try discriminate.
    injection Hwith as <-.
    unfold find_entry in Hfind. cbn [Py.iter rbind ok] in Hfind.
    destruct (append_not_found wallet_alias
                (new_entry wallet_alias chain_id address) items eq_refl 0 Hfind)
      as [Hhit Hothers].
    split; [| exact Hothers].
    exists (new_entry wallet_alias chain_id address). repeat split. exact Hhit.
Qed.

(** X24.  When the [try] that ends [cmd_add] writes the registry, the
    registry written holds the alias with its new chain and address,
    and every other alias is found in it as in the registry read. *)
Theorem added_wallet_is_registered
        {W : Type} (ops : panel_ops W) (wallets : pyval)
        (found : option (nat * pyval))
        (wallet_alias chain_id secret address : string) (w : W)
        (later earlier : list panel_event) (account value : string)
        (r : res unit) :
  find_entry wallets wallet_alias = ok found ->
  pn_log (snd (store_wallet ops wallets found wallet_alias chain_id secret
                 address (panel_start w))) =
    later ++ PvKeyringSet account value r :: earlier ->
  exists wallets',
    value = panel_json_dumps ops wallets' /\
    (exists entry,
       find_wallet wallets' wallet_alias = ok entry /\
       Py.getitem entry "alias" = ok (PStr wallet_alias) /\
       Py.getitem entry "chain" = ok (PStr chain_id) /\
       Py.getitem entry "address" = ok (PStr address)) /\
    forall other, other <> wallet_alias ->
      find_wallet wallets' other = find_wallet wallets other.
Proof.
  intros Hfind. unfold store_wallet, try_except_p.
  unfold bind_p at 1. unfold ask_p at 1. cbn [panel_start pn_world pn_log].
  destruct (panel_security_delete ops SERVICE_ID wallet_alias w)
    as [[e | []] w1].
  { cbn. intros H. split_log H. }
  unfold bind_p at 1. unfold lift_p at 1.
  unfold bind_p at 1. unfold ask_p at 1. cbn [pn_world pn_log].
  destruct (panel_security_add ops SERVICE_ID wallet_alias secret w1)
    as [[e | [returncode stderr]] w2].
  { cbn. intros H. split_log H. }
  unfold bind_p at 1. unfold lift_p at 1.
  destruct (returncode =? 0); cbn [negb].
  2: { cbn. intros H. split_log H. }
  unfold bind_p at 1. unfold lift_p at 1.
  destruct (registry_with wallets found wallet_alias chain_id address)
    as [e | wallets'] eqn:Hwith.
  { cbn. intros H. split_log H. }
  unfold save_registry. unfold bind_p at 1. unfold bind_p at 1.
  unfold ask_p at 1. cbn [pn_world pn_log].
  destruct (panel_set_password ops SERVICE_ID REGISTRY_KEY
              (panel_json_dumps ops wallets') w2) as [[e | []] w3];
    cbn; intros H; split_log H; injection H as <- <- <- <-;
    exists wallets'; (split; [reflexivity |]);
    exact (registry_with_found _ _ _ _ _ _ Hfind Hwith).
Qed.

Lemma find_upgraded (b : string) (items : list pyval) :
  find_wallet (PList (map upgraded items)) b =
  ok (if existsb (fun a => Py.eqb a (PStr b)) items
      then upgraded (PStr b) else PNone).
Proof.
  induction items as [| a items IH]; [reflexivity |].
  cbn [map existsb]. rewrite find_wallet_cons. cbn [upgraded Py.getitem Py.lookup].
  cbn [String.eqb Ascii.eqb Bool.eqb rbind ok].
  destruct (Py.eqb a (PStr b)) eqn:Hm; cbn [orb].
  - apply eqb_str_inv in Hm. subst a. reflexivity.
  - exact IH.
Qed.

(** X25.  A registry stored in the earlier format, a list that starts
    with an alias, is read as a list of entries: every alias of the
    list is found, with chain [unknown] and an empty address, and no
    other alias is. *)
Theorem legacy_registry_is_upgraded
        {W : Type} (ops : panel_ops W) (s : panel_state W) (w1 : W)
        (data a : string) (rest : list pyval) :
  panel_get_password ops SERVICE_ID REGISTRY_KEY (pn_world s) =
    (ok (Some data), w1) ->
  data <> "" ->
  panel_json_loads ops data = Some (PList (PStr a :: rest)) ->
  get_registry ops s =
    (Next (PList (map upgraded (PStr a :: rest))),
     {| pn_world := w1;
        pn_log := PvKeyringGet REGISTRY_KEY (ok (Some data)) :: pn_log s |}) /\
  forall b,
    (In (PStr b) (PStr a :: rest) ->
     find_wallet (PList (map upgraded (PStr a :: rest))) b =
       ok (upgraded (PStr b))) /\
    (~ In (PStr b) (PStr a :: rest) ->
     find_wallet (PList (map upgraded (PStr a :: rest))) b = ok PNone).
Proof.
  intros Hget Hdata Hloads. split.
  - unfold get_registry, call_p. unfold bind_p at 1. unfold ask_p at 1.
    rewrite Hget. unfold bind_p at 1. unfold lift_p at 1. unfold ok at 1.
    apply String.eqb_neq in Hdata. rewrite Hdata, Hloads. reflexivity.
  - intros b. rewrite find_upgraded. split.
    + intros Hin.
      assert (H : existsb (fun x => Py.eqb x (PStr b)) (PStr a :: rest) = true).
      { apply existsb_exists. exists (PStr b). split; [exact Hin |].
        cbn. apply String.eqb_refl. }
      rewrite H. reflexivity.
    + intros Hnot.
      destruct (existsb (fun x => Py.eqb x (PStr b)) (PStr a :: rest)) eqn:H;
        [| reflexivity].
      apply existsb_exists in H. destruct H as [x [Hin Hx]].
      apply eqb_str_inv in Hx. subst x. contradiction.
Qed.

(** X20 at [booth_add]. *)
Lemma key_is_stored_under_its_alias_witness :
  "sui_main" <> "" /\ "sui_main" <> REGISTRY_KEY /\ "abcd" <> "" /\
  exists rest,
    PvSecurityDelete "sui_main" (ok tt) :: booth_add_dialogue =
    PvSecurityDelete "sui_main" (ok tt) :: rest.
Proof.
  apply (key_is_stored_under_its_alias booth_ops sized_primitives no_evm
           booth_add
           [PvPrint (TxtStoreOk "sui_main");
            PvKeyringSet REGISTRY_KEY "(registry)" (ok tt)]
           (PvSecurityDelete "sui_main" (ok tt) :: booth_add_dialogue)
           "sui_main" "abcd" (ok (0, ""))).
  vm_compute. reflexivity.
Defined.

(** X21 at [booth_add]. *)
Lemma registry_written_after_key_stored_witness :
  REGISTRY_KEY = REGISTRY_KEY /\
  exists wallet_alias secret stderr rest,
    PvSecurityAdd "sui_main" "abcd" (ok (0, "")) ::
    PvSecurityDelete "sui_main" (ok tt) :: booth_add_dialogue =
    PvSecurityAdd wallet_alias secret (ok (0, stderr)) :: rest.
Proof.
  apply (registry_written_after_key_stored booth_ops sized_primitives no_evm
           booth_add
           [PvPrint (TxtStoreOk "sui_main")]
           (PvSecurityAdd "sui_main" "abcd" (ok (0, "")) ::
            PvSecurityDelete "sui_main" (ok tt) :: booth_add_dialogue)
           REGISTRY_KEY "(registry)" (ok tt)).
  vm_compute. reflexivity.
Defined.

(** X22 at [booth_remove]. *)
Lemma key_deleted_only_on_yes_witness :
  "sui_main" = "sui_main" /\
  exists rest,
    [PvInput (AskRemove "sui_main") (ok "yes");
     PvKeyringGet REGISTRY_KEY (ok (Some "(entries)"))] =
    PvInput (AskRemove "sui_main") (ok "yes") :: rest.
Proof.
  apply (key_deleted_only_on_yes booth_ops "sui_main" booth_remove
           [PvPrint (TxtRemoveOk "sui_main");
            PvKeyringSet REGISTRY_KEY "(registry)" (ok tt)]
           [PvInput (AskRemove "sui_main") (ok "yes");
            PvKeyringGet REGISTRY_KEY (ok (Some "(entries)"))]
           "sui_main" (ok tt)).
  vm_compute. reflexivity.
Defined.

(** X23 at [booth_remove]. *)
Lemma removed_wallet_leaves_the_others_witness :
  REGISTRY_KEY = REGISTRY_KEY /\
  (exists rest,
     [PvKeyringDelete "sui_main" (ok tt);
      PvInput (AskRemove "sui_main") (ok "yes");
      PvKeyringGet REGISTRY_KEY (ok (Some "(entries)"))] =
     PvKeyringDelete "sui_main" (ok tt) :: rest) /\
  exists before existing after,
    sample_entries = PList (before ++ existing :: after) /\
    find_wallet sample_entries "sui_main" = ok existing /\
    "(registry)" = panel_json_dumps booth_ops (PList (before ++ after)) /\
    forall other, other <> "sui_main" ->
      find_wallet (PList (before ++ after)) other =
      find_wallet sample_entries other.
Proof.
  apply (removed_wallet_leaves_the_others booth_ops "sui_main" booth_remove
           sample_entries
           [PvPrint (TxtRemoveOk "sui_main")]
           [PvKeyringDelete "sui_main" (ok tt);
            PvInput (AskRemove "sui_main") (ok "yes");
            PvKeyringGet REGISTRY_KEY (ok (Some "(entries)"))]
           REGISTRY_KEY "(registry)" (ok tt)).
  - vm_compute. reflexivity.
  - vm_compute. reflexivity.
Defined.

(** X24: [sui_main] of [sample_entries] is given a new chain and
    address. *)
Lemma added_wallet_is_registered_witness :
  exists wallets',
    "(registry)" = panel_json_dumps booth_ops wallets' /\
    (exists entry,
       find_wallet wallets' "sui_main" = ok entry /\
       Py.getitem entry "alias" = ok (PStr "sui_main") /\
       Py.getitem entry "chain" = ok (PStr "evm") /\
       Py.getitem entry "address" = ok (PStr "0x222")) /\
    forall other, other <> "sui_main" ->
      find_wallet wallets' other = find_wallet sample_entries other.
Proof.
  apply (added_wallet_is_registered booth_ops sample_entries
           (Some (1%nat, new_entry "sui_main" "sui" "0xabc"))
           "sui_main" "evm" "abcd" "0x222" booth_add
           [PvPrint (TxtStoreOk "sui_main")]
           [PvSecurityAdd "sui_main" "abcd" (ok (0, ""));
            PvSecurityDelete "sui_main" (ok tt)]
           REGISTRY_KEY "(registry)" (ok tt)).
  - vm_compute. reflexivity.
  - vm_compute. reflexivity.
Defined.

(** X25 at [booth_legacy]. *)
Lemma legacy_registry_is_upgraded_witness :
  get_registry booth_ops (panel_start booth_legacy) =
    (Next (PList (map upgraded [PStr "old_main"; PStr "old_dev"])),
     {| pn_world := booth_legacy;
        pn_log := [PvKeyringGet REGISTRY_KEY (ok (Some "(aliases)"))] |}) /\
  forall b,
    (In (PStr b) [PStr "old_main"; PStr "old_dev"] ->
     find_wallet (PList (map upgraded [PStr "old_main"; PStr "old_dev"])) b =
       ok (upgraded (PStr b))) /\
    (~ In (PStr b) [PStr "old_main"; PStr "old_dev"] ->
     find_wallet (PList (map upgraded [PStr "old_main"; PStr "old_dev"])) b =
       ok PNone).
Proof.
  apply (legacy_registry_is_upgraded booth_ops (panel_start booth_legacy)
           booth_legacy "(aliases)" "old_main" [PStr "old_dev"]).
  - reflexivity.
  - discriminate.
  - reflexivity.
Defined.

(** The registry [cmd_add] is about to write is a list that starts with
    an entry, not with an alias. *)
Lemma registry_with_head (wallets wallets' : pyval)
      (found : option (nat * pyval)) (wallet_alias chain_id address : string) :
  find_entry wallets wallet_alias = ok found ->
  registry_with wallets found wallet_alias chain_id address = ok wallets' ->
  exists x rest a,
    wallets' = PList (x :: rest) /\ Py.getitem x "alias" = ok a.
Proof.
  intros Hfind Hwith. unfold registry_with in Hwith.
  destruct found as [[p existing] |].
  - destruct (find_entry_list _ _ _ _ Hfind) as [items [-> Hfrom]].
    pose proof (find_wallet_from_found _ _ _ _ _ Hfrom) as [_ Halias].
    rewrite (getitem_truthy _ _ _ Halias) in Hwith.
    destruct (Py.setitem existing "chain" (PStr chain_id)) as [e | e1] eqn:H1;
      [discriminate |].
    cbn [rbind] in Hwith.
    destruct (Py.setitem e1 "address" (PStr address)) as [e | e2] eqn:H2;
      [discriminate |].
    cbn [rbind] in Hwith. unfold ok in Hwith. injection Hwith as <-.
    destruct (updated_entry _ _ _ _ _ _ Halias H1 H2) as [Ha _].
    destruct items as [| x items]; [discriminate |].
    destruct p as [| p].
    + exists e2, items, (PStr wallet_alias). split; [reflexivity | exact Ha].
    + cbn [find_wallet_from] in Hfrom.
      destruct (Py.getitem x "alias") as [e | a] eqn:Hx; [discriminate |].
      exists x, (set_nth p e2 items), a. split; [reflexivity | exact Hx].
  - unfold list_append in Hwith.
    destruct wallets as [| b | z | f | t | items | d]; try discriminate.
    unfold ok in Hwith. injection Hwith as <-.
    unfold find_entry in Hfind. cbn [Py.iter rbind ok] in Hfind.
    destruct items as [| x items].
    + exists (new_entry wallet_alias chain_id address), [], (PStr wallet_alias).
      split; reflexivity.
    + cbn [find_wallet_from] in Hfind.
      destruct (Py.getitem x "alias") as [e | a] eqn:Hx; [discriminate |].
      exists x, (items ++ [new_entry wallet_alias chain_id address]), a.
      split; [reflexivity | exact Hx].
Qed.

(** X26.  [get_registry] reads back what [cmd_add] writes: if decoding
    undoes encoding on the registry written, and the text is not empty,
    the registry read from that text is the registry written; it is not
    taken for a registry of the earlier format. *)
Theorem written_registry_reads_back
        {W : Type} (ops : panel_ops W) (wallets wallets' : pyval)
        (found : option (nat * pyval)) (wallet_alias chain_id address : string)
        (s : panel_state W) (w1 : W) :
  find_entry wallets wallet_alias = ok found ->
  registry_with wallets found wallet_alias chain_id address = ok wallets' ->
  panel_get_password ops SERVICE_ID REGISTRY_KEY (pn_world s) =
    (ok (Some (panel_json_dumps ops wallets')), w1) ->
  panel_json_dumps ops wallets' <> "" ->
  panel_json_loads ops (panel_json_dumps ops wallets') = Some wallets' ->
  fst (get_registry ops s) = Next wallets'.
Proof.
  intros Hfind Hwith Hget Htext Hloads.
  destruct (registry_with_head _ _ _ _ _ _ Hfind Hwith)
    as [x [rest [a [-> Hx]]]].
  destruct (getitem_dict _ _ _ Hx) as [d [-> _]].
  unfold get_registry, call_p. unfold bind_p at 1. unfold ask_p at 1.
  rewrite Hget. unfold bind_p at 1. unfold lift_p at 1. unfold ok at 1.
  apply String.eqb_neq in Htext. rewrite Htext, Hloads. reflexivity.
Qed.

(** X26 at [booth_remove], whose keychain holds the registry that adding
    [sui_main] to a registry with [eth_dev] writes. *)
Lemma written_registry_reads_back_witness :
  fst (get_registry booth_ops (panel_start booth_remove)) = Next sample_entries.
Proof.
  apply (written_registry_reads_back booth_ops
           (PList [new_entry "eth_dev" "evm" "0x111"]) sample_entries
           None "sui_main" "sui" "0xabc" (panel_start booth_remove)
           booth_remove).
  - reflexivity.
  - reflexivity.
  - reflexivity.
  - discriminate.
  - reflexivity.
Defined.

(* ===================================================================== *)
(** * Properties: key decoding and address derivation *)
(* ===================================================================== *)

(** The scheme and the seed [get_address_from_key] reads, by the bytes
    the text of the key decodes to. *)
Lemma decode_bech32_key_bytes (secret : string) (hrp : chars)
      (data5bit data8bit : list Z) :
  Bech32.bech32_decode (str_chars secret) = Some (hrp, data5bit) ->
  Bech32.convertbits data5bit 5 8 false = Some data8bit ->
  decode_bech32_key secret =
  match data8bit with
  | [] => throw IndexError
  | scheme :: rest => ok (scheme, map PyBytes.byte_of_Z (firstn 32 rest))
  end.
Proof.
  intros Hd Hc. unfold decode_bech32_key. rewrite Hd, of_ints_convertbits, Hc.
  unfold ok at 1. cbn [rbind].
  destruct data8bit as [| scheme rest]; [reflexivity |].
  cbn [map skipn]. rewrite firstn_map.
  apply convertbits_range in Hc; [| lia]. inversion Hc as [| ? ? Hs _]; subst.
  change (2 ^ 8) with 256 in Hs. rewrite (Z_of_byte_of_Z _ Hs). reflexivity.
Qed.

Lemma convertbits_scheme_range (data5bit : list Z) (scheme : Z) (rest : list Z) :
  Bech32.convertbits data5bit 5 8 false = Some (scheme :: rest) ->
  0 <= scheme < 256.
Proof.
  intros Hc. apply convertbits_range in Hc; [| lia].
  inversion Hc as [| ? ? Hs _]; subst. exact Hs.
Qed.

Lemma address_of_length (P : primitives) (HP : primitives_ok P) (scheme : Z)
      (pk : bytes) :
  String.length (address_of P scheme pk) = 66%nat.
Proof.
  unfold address_of. cbn [String.append String.length].
  rewrite string_of_chars_length, hex_length, (blake2b_256_length P HP).
  reflexivity.
Qed.

(** C5.  For every secret whose text decodes, as bech32 to at least 33
    bytes, or for [derive_sui_address] as hexadecimal to 32 bytes, the
    scheme byte and the seed are those bytes, the public key is the
    32-byte Ed25519 key of the seed, and the address is ["0x"] followed
    by the hex of the blake2b-256 hash of the scheme byte and the public
    key: 66 characters.  The result is given as a function of the
    decoded bytes, so two calls on the same secret agree;
    [derive_sui_address] gives the same address as
    [get_address_from_key] on a bech32 text, and takes scheme 0 on a
    hexadecimal text. *)
Theorem address_derivation_deterministic
        (P : primitives) (HP : primitives_ok P) (secret : string) :
  (forall hrp data5bit scheme rest,
      Bech32.bech32_decode (str_chars secret) = Some (hrp, data5bit) ->
      Bech32.convertbits data5bit 5 8 false = Some (scheme :: rest) ->
      (32 <= List.length rest)%nat ->
      let seed := map PyBytes.byte_of_Z (firstn 32 rest) in
      let pk := ed25519_public_key P seed in
      let address :=
        String.append "0x"
          (string_of_list_ascii
             (PyBytes.hex (blake2b_256 P (PyBytes.byte_of_Z scheme :: pk)))) in
      get_address_from_key P secret = ok (seed, scheme, pk, address) /\
      List.length pk = 32%nat /\
      String.length address = 66%nat /\
      (PyStr.startswith (str_chars "suiprivkey1") (str_chars secret) = true ->
       derive_sui_address P secret = ok address)) /\
  (forall seed,
      PyStr.startswith (str_chars "suiprivkey1") (str_chars secret) = false ->
      PyBytes.fromhex
        (firstn 64 (PyStr.replace_with_empty (str_chars "0x") (str_chars secret))) =
        ok seed ->
      List.length seed = 32%nat ->
      let pk := ed25519_public_key P seed in
      let address :=
        String.append "0x"
          (string_of_list_ascii
             (PyBytes.hex (blake2b_256 P (PyBytes.byte_of_Z 0 :: pk)))) in
      derive_sui_address P secret = ok address /\
      List.length pk = 32%nat /\
      String.length address = 66%nat).
Proof.
  split.
  - intros hrp data5bit scheme rest Hd Hc Hlen seed pk address.
    pose proof (convertbits_scheme_range _ _ _ Hc) as Hs.
    pose proof (decode_bech32_key_bytes _ _ _ _ Hd Hc) as Hkey.
    cbn iota in Hkey. fold seed in Hkey.
    assert (Hseed : List.length seed = 32%nat).
    { unfold seed. rewrite length_map, length_firstn. lia. }
    split; [exact (get_address_from_key_of P secret scheme seed Hs Hseed Hkey) |].
    split; [apply (ed25519_public_key_length P HP); exact Hseed |].
    split; [apply (address_of_length P HP) |].
    intros Hpre. apply derive_from_scheme_and_seed; [exact Hs | exact Hseed |].
    unfold scheme_and_seed. rewrite Hpre. exact Hkey.
  - intros seed Hpre Hhex Hseed pk address.
    split; [| split].
    + apply (derive_from_scheme_and_seed P secret 0 seed); [lia | exact Hseed |].
      unfold scheme_and_seed. rewrite Hpre. cbv zeta. rewrite Hhex. reflexivity.
    + apply (ed25519_public_key_length P HP). exact Hseed.
    + apply (address_of_length P HP).
Qed.

(** C5 at [sample_key] (scheme 0, seed of 32 bytes [0x07]). *)
Lemma address_derivation_deterministic_witness :
  get_address_from_key sized_primitives sample_key =
    ok (repeat x07 32, 0, repeat x07 32,
        "0x0007070707070707070707070707070707070707070707070707070707070707") /\
  derive_sui_address sized_primitives sample_key =
    ok "0x0007070707070707070707070707070707070707070707070707070707070707".
Proof.
  destruct (proj1 (address_derivation_deterministic sized_primitives
                     sized_primitives_ok sample_key)
              (str_chars "suiprivkey")
              [0; 0; 3; 16; 14; 1; 24; 7; 0; 28; 3; 16; 14; 1; 24; 7; 0; 28; 3;
               16; 14; 1; 24; 7; 0; 28; 3; 16; 14; 1; 24; 7; 0; 28; 3; 16; 14; 1;
               24; 7; 0; 28; 3; 16; 14; 1; 24; 7; 0; 28; 3; 16; 14]
              0 (repeat 7 32))
    as (H1 & _ & _ & H2);
    [vm_compute; reflexivity | vm_compute; reflexivity | simpl; lia |].
  split; [exact H1 | apply H2; reflexivity].
Defined.

(** The bech32 path of [derive_sui_address] runs the steps of
    [get_address_from_key] and keeps the address. *)
Lemma derive_sui_address_try_bech32 (P : primitives) (secret : string) :
  PyStr.startswith (str_chars "suiprivkey1") (str_chars secret) = true ->
  derive_sui_address_try P secret =
  (let? info := get_address_from_key P secret in
   let '(_, _, _, address) := info in ok address)%res.
Proof.
  intros Hpre. unfold derive_sui_address_try, get_address_from_key, scheme_and_seed.
  rewrite Hpre.
  destruct (decode_bech32_key secret) as [e | [scheme seed]]; cbn [rbind];
    [reflexivity |].
  destruct (SigningKey seed) as [e | sk]; cbn [rbind]; [reflexivity |].
  destruct (sui_address P scheme (ed25519_public_key P sk)) as [e | a];
    reflexivity.
Qed.

(** A text one of the tests of [bech32_decode] turns down. *)
Lemma bech32_decode_defect (bech : chars) :
  let low := PyStr.lower bech in
  let pos := Bech32.rfind low "1"%char in
  let rest := skipn (Z.to_nat (pos + 1)) low in
  let hrp := firstn (Z.to_nat pos) low in
  existsb (fun x => (code x <? 33) || (126 <? code x)) bech = true \/
  (PyStr.eqb low bech = false /\ PyStr.eqb (PyStr.upper bech) bech = false) \/
  pos < 1 \/
  Bech32.len low < pos + 7 \/
  forallb (fun x => 0 <=? Bech32.charset_find x) rest = false \/
  Bech32.bech32_verify_checksum hrp (map Bech32.charset_find rest) = false ->
  Bech32.bech32_decode bech = None.
Proof.
  intros low pos rest hrp H. unfold Bech32.bech32_decode.
  fold low. fold pos. fold rest. fold hrp.
  destruct (existsb _ bech) eqn:Hx; [reflexivity |].
  destruct (PyStr.eqb low bech) eqn:Hl, (PyStr.eqb (PyStr.upper bech) bech) eqn:Hu;
    cbn [negb andb orb]; try reflexivity;
    (destruct (Z.ltb_spec pos 1); [reflexivity |];
     destruct (Z.ltb_spec (Bech32.len low) (pos + 7)); [reflexivity |];
     cbn [orb];
     destruct (forallb _ rest) eqn:Hf; [| reflexivity];
     destruct (Bech32.bech32_verify_checksum hrp _) eqn:Hv; [| reflexivity];
     exfalso;
     destruct H as [H | [[Ha Hb] | [H | [H | [H | H]]]]];
     try discriminate; lia).
Qed.

Lemma get_address_from_key_throws (P : primitives) (secret : string) (e : exn) :
  decode_bech32_key secret = throw e ->
  get_address_from_key P secret = throw e.
Proof. intros H. unfold get_address_from_key. rewrite H. reflexivity. Qed.

(** C8 as amended.  What [get_address_from_key] does with a defective
    key, defect by defect.  A text [bech32_decode] turns down (a
    character outside 33..126, mixed case, no separator ['1'] after at
    least one character, fewer than six characters after the separator,
    a character outside the bech32 alphabet, a checksum that does not
    verify) raises [TypeError]; so does a text whose 5-bit groups do not
    regroup into whole bytes.  Zero bytes raise [IndexError]; 1 to 32
    bytes raise the signing library's [ValueError].  The prefix of the
    text is not examined: 33 bytes or more give a key whatever the
    prefix.  [derive_sui_address] meets the same exception on its bech32
    path but catches it: the call itself succeeds and returns the text
    ["(derive failed: ...)"]. *)
Theorem undecodable_key_is_rejected (P : primitives) (secret : string) :
  let bech := str_chars secret in
  let low := PyStr.lower bech in
  let pos := Bech32.rfind low "1"%char in
  let rest := skipn (Z.to_nat (pos + 1)) low in
  (existsb (fun x => (code x <? 33) || (126 <? code x)) bech = true \/
   (PyStr.eqb low bech = false /\ PyStr.eqb (PyStr.upper bech) bech = false) \/
   pos < 1 \/
   Bech32.len low < pos + 7 \/
   forallb (fun x => 0 <=? Bech32.charset_find x) rest = false \/
   Bech32.bech32_verify_checksum
     (firstn (Z.to_nat pos) low) (map Bech32.charset_find rest) = false ->
   get_address_from_key P secret = throw TypeError) /\
  (forall hrp data5bit,
      Bech32.bech32_decode bech = Some (hrp, data5bit) ->
      (Bech32.convertbits data5bit 5 8 false = None ->
       get_address_from_key P secret = throw TypeError) /\
      (Bech32.convertbits data5bit 5 8 false = Some [] ->
       get_address_from_key P secret = throw IndexError) /\
      (forall scheme tail,
          Bech32.convertbits data5bit 5 8 false = Some (scheme :: tail) ->
          (List.length tail < 32)%nat ->
          get_address_from_key P secret = throw NaclValueError) /\
      (forall scheme tail,
          Bech32.convertbits data5bit 5 8 false = Some (scheme :: tail) ->
          (32 <= List.length tail)%nat ->
          exists pk address,
            get_address_from_key P secret =
              ok (map PyBytes.byte_of_Z (firstn 32 tail), scheme, pk, address))) /\
  (forall e,
      get_address_from_key P secret = throw e ->
      PyStr.startswith (str_chars "suiprivkey1") (str_chars secret) = true ->
      derive_sui_address_try P secret = throw e /\
      derive_sui_address P secret =
        ok (String.append "(derive failed: " (String.append (exn_text e) ")"))).
Proof.
  intros bech low pos rest. split; [| split].
  - intros H. apply get_address_from_key_throws. unfold decode_bech32_key.
    fold bech. rewrite (bech32_decode_defect bech H). reflexivity.
  - intros hrp data5bit Hd. repeat split.
    + intros Hc. apply get_address_from_key_throws. unfold decode_bech32_key.
      fold bech. rewrite Hd, of_ints_convertbits, Hc. reflexivity.
    + intros Hc. apply get_address_from_key_throws.
      exact (decode_bech32_key_bytes secret hrp data5bit [] Hd Hc).
    + intros scheme tail Hc Hlen. unfold get_address_from_key.
      rewrite (decode_bech32_key_bytes secret hrp data5bit _ Hd Hc).
      unfold ok. cbn [rbind]. unfold SigningKey.
      rewrite length_map, length_firstn.
      destruct (Nat.eqb_spec (Nat.min 32 (List.length tail)) 32); [lia | reflexivity].
    + intros scheme tail Hc Hlen.
      exists (ed25519_public_key P (map PyBytes.byte_of_Z (firstn 32 tail))),
             (address_of P scheme
                (ed25519_public_key P (map PyBytes.byte_of_Z (firstn 32 tail)))).
      apply get_address_from_key_of.
      * exact (convertbits_scheme_range _ _ _ Hc).
      * rewrite length_map, length_firstn. lia.
      * exact (decode_bech32_key_bytes secret hrp data5bit _ Hd Hc).
  - intros e He Hpre.
    assert (Ht : derive_sui_address_try P secret = throw e).
    { rewrite (derive_sui_address_try_bech32 P secret Hpre), He. reflexivity. }
    split; [exact Ht |]. unfold derive_sui_address. rewrite Ht. reflexivity.
Qed.

(** C8 at [corrupted_key], whose checksum does not verify. *)
Lemma undecodable_key_is_rejected_witness :
  get_address_from_key sized_primitives corrupted_key = throw TypeError /\
  derive_sui_address sized_primitives corrupted_key =
    ok "(derive failed: TypeError)".
Proof.
  destruct (undecodable_key_is_rejected sized_primitives corrupted_key)
    as (H1 & _ & H3).
  assert (Hg : get_address_from_key sized_primitives corrupted_key = throw TypeError).
  { apply H1. right. right. right. right. right. vm_compute. reflexivity. }
  split; [exact Hg |].
  exact (proj2 (H3 TypeError Hg eq_refl)).
Defined.

(** A bech32 text with the prefix [bc] that carries 33 bytes is taken
    for a key. *)
Example foreign_prefix_is_accepted :
  get_address_from_key sized_primitives
    "bc1qqrswpc8qurswpc8qurswpc8qurswpc8qurswpc8qurswpc8qurswe64l0j" =
  ok (repeat x07 32, 0, repeat x07 32,
      "0x0007070707070707070707070707070707070707070707070707070707070707").
Proof. vm_compute. reflexivity. Qed.

(** A bech32 text of the right prefix that carries no byte, and one that
    carries 32 bytes. *)
Example short_keys_are_rejected :
  get_address_from_key sized_primitives "suiprivkey1qzy7ec" = throw IndexError /\
  get_address_from_key sized_primitives
    "suiprivkey1qqrswpc8qurswpc8qurswpc8qurswpc8qurswpc8qurswpc8qursjza7sa" =
    throw NaclValueError /\
  get_address_from_key sized_primitives "suiprivkey1qzy7eep" = throw TypeError.
Proof. vm_compute. repeat split. Qed.

(** C8 as stated fails for [derive_sui_address]: on a key with a wrong
    checksum the function does not fail, it returns a string. *)
Lemma derive_sui_address_swallows_decode_error :
  ~ (forall secret,
        key_undecodable secret ->
        exists e, derive_sui_address sized_primitives secret = throw e).
Proof.
  intros H. destruct (H corrupted_key) as [e He].
  - vm_compute. exact I.
  - vm_compute in He. discriminate He.
Qed.

(* ===================================================================== *)
(** * Properties: how a failure reaches the caller *)
(* ===================================================================== *)

(** ** What a verdict tells about the log *)

Lemma verdict_of_cons (ev : event) (l : list event) :
  verdict_of (ev :: l) = audit (verdict_of l) ev.
Proof. reflexivity. Qed.

Lemma accepted_verdict (l : list event) (v : verdict) :
  accepted audit_step Clear l v -> v = verdict_of l.
Proof.
  induction 1 as [| l v ev v' _ IH Hstep]; [reflexivity |].
  rewrite verdict_of_cons, <- IH. exact Hstep.
Qed.

Lemma audit_off (ev : event) : audit Off ev = Off.
Proof. unfold audit. destruct (event_effect ev); reflexivity. Qed.

(** Once an event had an effect, the verdict changes only by the
    announcement of the failure. *)
Lemma audit_settled (v : verdict) (ev : event) :
  v <> Clear ->
  audit v ev = v \/ audit v ev = Off \/
  exists f m, v = Failing f /\ audit v ev = Announced f /\
              ev = EvPrint m /\ announces f m = true.
Proof.
  intros Hv. unfold audit. destruct (event_effect ev) as [| f | e | m | r] eqn:E.
  - left. reflexivity.
  - destruct v; auto; contradiction.
  - destruct v; auto; contradiction.
  - assert (Hev : ev = EvPrint m).
    { destruct ev as [? ? r0 | ? p r0 | | | | r0 | m0 |]; cbn in E; try discriminate.
      - destruct r0; [discriminate | destruct (no_key _); discriminate].
      - unfold request_effect in E.
        repeat match type of E with
               | (if ?b then _ else _) = _ => destruct b
               | match ?x with _ => _ end = _ => destruct x
               end; discriminate.
      - destruct r0 as [| a]; [discriminate | destruct (confirms a); discriminate].
      - destruct (failure_message m0); [injection E as -> | discriminate].
        reflexivity. }
    destruct v as [| f | f | e | r |]; auto.
    destruct (announces f m) eqn:Ha; auto.
    right. right. exists f, m. auto.
  - destruct v; auto; contradiction.
Qed.

(** The verdicts a log can have once one of its events threw [e]. *)
Lemma verdict_after_throw (l : list event) (ev : event) (e : exn) :
  In ev l -> event_effect ev = Throws e ->
  verdict_of l = Thrown e \/ verdict_of l = Off.
Proof.
  induction l as [| ev0 l IH]; [contradiction |].
  intros [-> | Hin] Hev; rewrite verdict_of_cons.
  - unfold audit. rewrite Hev. destruct (verdict_of l); auto.
  - destruct (IH Hin Hev) as [-> | ->]; [| right; apply audit_off].
    destruct (audit_settled (Thrown e) ev0) as [-> | [-> | (f & m & H & _)]];
      [discriminate | auto | auto | discriminate].
Qed.

(** The verdicts a log can have once one of its events was the failure
    [f]. *)
Lemma verdict_after_failure (l : list event) (ev : event) (f : failure) :
  In ev l -> event_effect ev = Fails f ->
  verdict_of l = Failing f \/ verdict_of l = Announced f \/ verdict_of l = Off.
Proof.
  induction l as [| ev0 l IH]; [contradiction |].
  intros [-> | Hin] Hev; rewrite verdict_of_cons.
  - unfold audit. rewrite Hev. destruct (verdict_of l); auto.
  - destruct (IH Hin Hev) as [-> | [-> | ->]]; [| | right; right; apply audit_off].
    + destruct (audit_settled (Failing f) ev0) as [-> | [-> | (f' & m & H & -> & _)]];
        [discriminate | auto | auto |].
      injection H as <-. auto.
    + destruct (audit_settled (Announced f) ev0) as [-> | [-> | (f' & m & H & _)]];
        [discriminate | auto | auto | discriminate].
Qed.

(** The verdicts a log can have once the execute call gave [result]. *)
Lemma verdict_after_execution (l : list event) (ev : event) (result : pyval) :
  In ev l -> event_effect ev = Executes result ->
  verdict_of l = Executed result \/ verdict_of l = Off.
Proof.
  induction l as [| ev0 l IH]; [contradiction |].
  intros [-> | Hin] Hev; rewrite verdict_of_cons.
  - unfold audit. rewrite Hev. destruct (verdict_of l); auto.
  - destruct (IH Hin Hev) as [-> | ->]; [| right; apply audit_off].
    destruct (audit_settled (Executed result) ev0) as [-> | [-> | (f & m & H & _)]];
      [discriminate | auto | auto | discriminate].
Qed.

(** The verdicts a log can have once it holds the announcement [m]. *)
Lemma verdict_after_announcement (l : list event) (m : message) :
  In (EvPrint m) l -> failure_message m = true ->
  (exists f, verdict_of l = Announced f /\ announces f m = true) \/
  verdict_of l = Off.
Proof.
  induction l as [| ev0 l IH]; [contradiction |].
  intros [-> | Hin] Hm; rewrite verdict_of_cons.
  - unfold audit. cbn [event_effect]. rewrite Hm.
    destruct (verdict_of l) as [| f | f | e | r |]; auto.
    destruct (announces f m) eqn:Ha; eauto.
  - destruct (IH Hin Hm) as [(f & Hv & Ha) | ->]; [| right; apply audit_off].
    rewrite Hv.
    destruct (audit_settled (Announced f) ev0) as [-> | [-> | (f' & m' & H & _)]];
      [discriminate | eauto | auto | discriminate].
Qed.

(** A failure announced was met and announced by its own message. *)
Lemma announced_history (l : list event) (f : failure) :
  verdict_of l = Announced f ->
  exists ev m,
    In ev l /\ event_effect ev = Fails f /\
    In (EvPrint m) l /\ announces f m = true.
Proof.
  assert (Hfailing : forall l, verdict_of l = Failing f ->
                               exists ev, In ev l /\ event_effect ev = Fails f).
  { clear l. induction l as [| ev0 l IH]; [discriminate |].
    rewrite verdict_of_cons. unfold audit.
    destruct (event_effect ev0) as [| f0 | e | m | r] eqn:E; intros H.
    - destruct (IH H) as (ev & Hin & Hev). exists ev. split; [right |]; assumption.
    - destruct (verdict_of l); try discriminate. injection H as ->.
      exists ev0. split; [left; reflexivity | exact E].
    - destruct (verdict_of l); discriminate.
    - destruct (verdict_of l) as [| f1 | | | |]; try discriminate.
      destruct (announces f1 m); discriminate.
    - destruct (verdict_of l); discriminate. }
  induction l as [| ev0 l IH]; [discriminate |].
  rewrite verdict_of_cons. intros H.
  destruct (verdict_of l) as [| f1 | f1 | e | r |] eqn:Hv.
  - unfold audit in H. destruct (event_effect ev0); discriminate.
  - destruct (audit_settled (Failing f1) ev0) as [E | [E | (f' & m & Hf & E & -> & Ha)]];
      [discriminate | rewrite E in H; discriminate .. |].
    rewrite E in H. injection Hf as <-. injection H as ->.
    destruct (Hfailing l Hv) as (ev & Hin & Hev).
    exists ev, m. repeat split; auto; [right; exact Hin | left; reflexivity].
  - destruct (audit_settled (Announced f1) ev0) as [E | [E | (f' & m & Hf & _)]];
      [discriminate | | rewrite E in H; discriminate | discriminate].
    rewrite E in H. injection H as ->.
    destruct (IH eq_refl) as (ev & m & Hin & Hev & Hm & Ha).
    exists ev, m. repeat split; auto; right; assumption.
  - destruct (audit_settled (Thrown e) ev0) as [E | [E | (f' & m & Hf & _)]];
      [discriminate | rewrite E in H; discriminate .. | discriminate].
  - destruct (audit_settled (Executed r) ev0) as [E | [E | (f' & m & Hf & _)]];
      [discriminate | rewrite E in H; discriminate .. | discriminate].
  - rewrite audit_off in H. discriminate.
Qed.

(** A result received was the answer to an execute call. *)
Lemma executed_history (l : list event) (result : pyval) :
  verdict_of l = Executed result ->
  exists ev, In ev l /\ event_effect ev = Executes result.
Proof.
  induction l as [| ev0 l IH]; [discriminate |].
  rewrite verdict_of_cons. unfold audit.
  destruct (event_effect ev0) as [| f0 | e | m | r] eqn:E; intros H.
  - destruct (IH H) as (ev & Hin & Hev). exists ev. split; [right |]; assumption.
  - destruct (verdict_of l); discriminate.
  - destruct (verdict_of l); discriminate.
  - destruct (verdict_of l) as [| f1 | | | |]; try discriminate.
    destruct (announces f1 m); discriminate.
  - destruct (verdict_of l); try discriminate. injection H as ->.
    exists ev0. split; [left; reflexivity | exact E].
Qed.

(** ** The verdict along a run *)

Lemma audit_calm (v : verdict) (ev : event) : calm ev = true -> audit v ev = v.
Proof.
  unfold calm, audit. destruct (event_effect ev); [reflexivity | discriminate ..].
Qed.

Lemma accepted_calm (new l : list event) (v : verdict) :
  forallb calm new = true ->
  accepted audit_step Clear l v -> accepted audit_step Clear (new ++ l) v.
Proof.
  induction new as [| ev new IH]; cbn [forallb app]; intros H Hv; [exact Hv |].
  apply andb_prop in H. destruct H as [Hev Hnew].
  eapply accepted_cons; [apply IH; assumption |].
  unfold audit_step. rewrite audit_calm by exact Hev. reflexivity.
Qed.

Lemma rpc_outcome_not_return (r : res pyval) (x : pyval) : rpc_outcome r <> Return x.
Proof.
  unfold rpc_outcome. destruct r as [e | response]; [discriminate |].
  destruct (rpc_result response); discriminate.
Qed.

Lemma method_is_rpc_payload (m method : string) (params : list pyval) :
  method_is m (rpc_payload method params) = String.eqb method m.
Proof. reflexivity. Qed.

Section Audit.

Context {W : Type}.
Variable ops : world_ops W.
Variable P : primitives.

(** A computation that logs calm events only and executes no [return]
    leaves the verdict as it is. *)
Lemma aud_bind_calmly {A B} (v : verdict) (m : M W A) (k : A -> M W B)
      (R : ctl B -> verdict -> Prop) :
  logs_only calm m ->
  silently m ->
  (forall a, observes audit_step Clear v (k a) R) ->
  (forall e, R (Raise e) v) ->
  observes audit_step Clear v (bind m k) R.
Proof.
  intros Hm [_ Hn] Hk He s Hs. destruct (Hm s) as (new & E & Hnew).
  specialize (Hn s). unfold bind.
  destruct (m s) as [[a | x | e] s1]; cbn [fst snd] in *.
  - apply Hk. rewrite E. apply accepted_calm; assumption.
  - exfalso. apply (Hn x). reflexivity.
  - exists v. split; [rewrite E; apply accepted_calm; assumption | apply He].
Qed.

(** [rpc_call] logs its request and ends as [rpc_outcome] tells. *)
Lemma aud_bind_rpc_call {B} (v : verdict) (method : string) (params : list pyval)
      (k : pyval -> M W B) (R : ctl B -> verdict -> Prop) :
  (forall r result,
      rpc_outcome r = Next result ->
      observes audit_step Clear
        (audit v (EvHttpPost SUI_RPC (rpc_payload method params) r)) (k result) R) ->
  (forall r e,
      rpc_outcome r = Raise e ->
      R (Raise e) (audit v (EvHttpPost SUI_RPC (rpc_payload method params) r))) ->
  observes audit_step Clear v (bind (rpc_call ops method params) k) R.
Proof.
  intros Hk He s Hs. unfold bind. rewrite rpc_call_run.
  set (r := fst (requests_post_json ops SUI_RPC (rpc_payload method params) (world s))).
  assert (Hacc : accepted audit_step Clear
                   (EvHttpPost SUI_RPC (rpc_payload method params) r :: log s)
                   (audit v (EvHttpPost SUI_RPC (rpc_payload method params) r)))
    by (eapply accepted_cons; [exact Hs | reflexivity]).
  destruct (rpc_outcome r) as [result | x | e] eqn:E.
  - apply (Hk r result E). exact Hacc.
  - exfalso. exact (rpc_outcome_not_return r x E).
  - eexists. split; [exact Hacc | apply He; exact E].
Qed.

(** [resolve_suins] logs its request and always yields a value. *)
Lemma aud_bind_resolve_suins {B} (v : verdict) (name : string)
      (k : pyval -> M W B) (R : ctl B -> verdict -> Prop) :
  (forall r,
      observes audit_step Clear
        (audit v (EvHttpPost SUI_RPC
                    (rpc_payload "suix_resolveNameServiceAddress" [PStr name]) r))
        (k (resolved_value r)) R) ->
  observes audit_step Clear v (bind (resolve_suins ops name) k) R.
Proof.
  intros Hk s Hs. unfold bind. rewrite resolve_suins_run. apply Hk.
  eapply accepted_cons; [exact Hs | reflexivity].
Qed.

Lemma aud_try_finally_clear {A} (v : verdict) (body : M W A)
      (R : ctl A -> verdict -> Prop) :
  observes audit_step Clear v body R ->
  observes audit_step Clear v (try_finally body clear_secrets) R.
Proof.
  intros H s Hs. destruct (H s Hs) as (v' & Hv & Hc).
  rewrite try_finally_clear_run. exists v'. split; [| exact Hc].
  cbn [snd log]. eapply accepted_cons; [exact Hv | reflexivity].
Qed.

(** The effect of each request of [transfer]. *)
Lemma audit_resolve (name : string) (r : res pyval) :
  audit Clear (EvHttpPost SUI_RPC
                 (rpc_payload "suix_resolveNameServiceAddress" [PStr name]) r) =
  if Py.truthy (resolved_value r) then Clear else Failing Unresolved.
Proof.
  unfold audit. cbn [event_effect]. unfold request_effect.
  rewrite !method_is_rpc_payload. cbn [String.eqb Ascii.eqb Bool.eqb].
  destruct (Py.truthy (resolved_value r)); reflexivity.
Qed.

Lemma audit_get_coins (params : list pyval) (r : res pyval) (coins data : pyval) :
  rpc_outcome r = Next coins ->
  Py.getitem coins "data" = inr data ->
  audit Clear (EvHttpPost SUI_RPC (rpc_payload "suix_getCoins" params) r) =
  if Py.truthy data then Clear else Failing NoFunds.
Proof.
  intros Hr Hd. unfold audit. cbn [event_effect]. unfold request_effect.
  rewrite !method_is_rpc_payload. cbn [String.eqb Ascii.eqb Bool.eqb].
  rewrite Hr, Hd. destruct (Py.truthy data); reflexivity.
Qed.

Lemma audit_get_coins_no_data (params : list pyval) (r : res pyval)
      (coins : pyval) (e : exn) :
  rpc_outcome r = Next coins ->
  Py.getitem coins "data" = inl e ->
  audit Clear (EvHttpPost SUI_RPC (rpc_payload "suix_getCoins" params) r) = Clear.
Proof.
  intros Hr Hd. unfold audit. cbn [event_effect]. unfold request_effect.
  rewrite !method_is_rpc_payload. cbn [String.eqb Ascii.eqb Bool.eqb].
  rewrite Hr, Hd. reflexivity.
Qed.

Lemma audit_build (params : list pyval) (r : res pyval) (result : pyval) :
  rpc_outcome r = Next result ->
  audit Clear (EvHttpPost SUI_RPC (rpc_payload "unsafe_paySui" params) r) = Clear.
Proof.
  intros Hr. unfold audit. cbn [event_effect]. unfold request_effect.
  rewrite !method_is_rpc_payload. cbn [String.eqb Ascii.eqb Bool.eqb].
  rewrite Hr. reflexivity.
Qed.

Lemma audit_dry_run (params : list pyval) (r : res pyval) (result : pyval) :
  rpc_outcome r = Next result ->
  audit Clear (EvHttpPost SUI_RPC (rpc_payload "sui_dryRunTransactionBlock" params) r) =
  if reports_success result then Clear else Failing SimulationRejected.
Proof.
  intros Hr. unfold audit. cbn [event_effect]. unfold request_effect.
  rewrite !method_is_rpc_payload. cbn [String.eqb Ascii.eqb Bool.eqb].
  rewrite Hr. destruct (reports_success result); reflexivity.
Qed.

Lemma audit_execute (params : list pyval) (r : res pyval) (result : pyval) :
  rpc_outcome r = Next result ->
  audit Clear (EvHttpPost SUI_RPC (rpc_payload "sui_executeTransactionBlock" params) r) =
  Executed result.
Proof.
  intros Hr. unfold audit. cbn [event_effect]. unfold request_effect.
  rewrite !method_is_rpc_payload. cbn [String.eqb Ascii.eqb Bool.eqb].
  rewrite Hr. reflexivity.
Qed.

(** A request that is not for the name service and raises. *)
Lemma audit_request_raises (method : string) (params : list pyval)
      (r : res pyval) (e : exn) :
  method_is "suix_resolveNameServiceAddress" (rpc_payload method params) = false ->
  rpc_outcome r = Raise e ->
  audit Clear (EvHttpPost SUI_RPC (rpc_payload method params) r) = Thrown e.
Proof.
  intros Hm Hr. unfold audit. cbn [event_effect]. unfold request_effect.
  rewrite Hm, Hr. reflexivity.
Qed.

End Audit.

(** ** Stepping through a run under the audit *)

(** [calmly] shows that a computation logs calm events only;
    [request_raises] closes the case of a request that raises. *)
Ltac calmly := allow.

Ltac request_raises :=
  let r := fresh "r" in
  let e := fresh "e" in
  let H := fresh "H" in
  intros r e H;
  erewrite audit_request_raises; [cbn; reflexivity | reflexivity | exact H].

Ltac aud_step :=
  cbv beta zeta;
  lazymatch goal with
  | |- observes _ _ _ (bind (bind _ _) _) _ => apply obs_bind_assoc
  | |- observes _ _ _ (bind (lift _) _) _ =>
      apply obs_bind_lift; [intros ? ? | intros ? ?]
  | |- observes _ _ _ (bind (ret _) _) _ => apply obs_bind_ret
  | |- observes _ _ _ (bind (return_ _) _) _ => apply obs_bind_return
  | |- observes _ _ _ (bind (print _) _) _ =>
      eapply obs_bind_print;
      [ unfold audit_step; reflexivity
      | cbn [audit event_effect failure_message announces] ]
  | |- observes _ _ _ (bind (set_locals _) _) _ => apply obs_bind_set_locals
  | |- observes _ _ _ (bind (if ?b then _ else _) _) _ => destruct b eqn:?
  | |- observes _ _ _ (return_ _) _ => apply obs_return
  | |- observes _ _ _ (ret _) _ => apply obs_ret
  | |- observes _ _ _ (bind _ _) _ =>
      apply aud_bind_calmly;
      [ solve [calmly] | solve [silence] | intros ? | intros ? ]
  end.

Ltac aud_walk := repeat (aud_step; try solve [cbn; eauto 10]).

Ltac keyring_part :=
  apply obs_bind_ask; intros ?;
  (eexists; split; [unfold audit_step; reflexivity |]);
  apply obs_bind_lift;
  [ intros [k |] ->; unfold audit; cbn [event_effect no_key];
    apply obs_bind_set_locals;
    [ destruct (String.eqb_spec k ""); cbv iota; aud_walk | aud_walk ]
  | intros ? ->; cbn; reflexivity ].

Section AuditedRun.

Context {W : Type}.
Variable ops : world_ops W.
Variable P : primitives.

Lemma save_wallet_address_calm (wallet_alias address : string) :
  logs_only calm (save_wallet_address ops wallet_alias address).
Proof. unfold save_wallet_address. allow. Qed.

Lemma print_balance_change_calm (sender : string) (recipient bc : pyval) :
  logs_only calm (print_balance_change sender recipient bc : M W unit).
Proof. unfold print_balance_change. allow. Qed.

Lemma print_final_change_calm (bc : pyval) :
  logs_only calm (print_final_change bc : M W unit).
Proof. unfold print_final_change. allow. Qed.

(** [print_dry_run] leaves the verdict as it is, and when it returns,
    it returns whether the result reports success. *)
Lemma print_dry_run_audited (v : verdict) (result : pyval) (sender : string)
      (recipient : pyval) (amount_sui : float) :
  observes audit_step Clear v
    (print_dry_run result sender recipient amount_sui : M W pyval)
    (fun c v' =>
       v' = v /\
       match c with
       | Next x => x = PBool (reports_success result)
       | Return _ => False
       | Raise _ => True
       end).
Proof.
  unfold print_dry_run. apply obs_call.
  aud_step; [| auto].
  aud_step; [| auto].
  match goal with
  | H1 : Py.get result "effects" _ = inr _, H2 : effects_status _ _ _ = inr ?st |- _ =>
      rewrite (reports_success_eq _ _ _ H1 H2);
      destruct (Py.eq_str st "success") eqn:Hst
  end; aud_walk.
Qed.

(** The setup goes on with nothing failed, or announces that the name
    did not resolve or that there is no key, or is ended by an exception
    of the keychain. *)
Lemma transfer_setup_audited (wallet_alias recipient : string)
      (amount_sui : float) :
  observes audit_step Clear Clear
    (transfer_setup ops wallet_alias recipient amount_sui) part_ends_as.
Proof.
  unfold transfer_setup.
  aud_step; [| cbn; eauto].
  aud_step.
  - aud_step. aud_step. aud_step.
    apply aud_bind_resolve_suins. intros r. rewrite audit_resolve.
    destruct (Py.truthy (resolved_value r)); cbn [negb]; aud_walk.
    keyring_part.
  - aud_walk. keyring_part.
Qed.

(** The first part of the body goes on with nothing failed, or
    announces that there is no coin or that the simulation failed, or is
    ended by an exception. *)
Lemma transfer_simulate_audited (wallet_alias : string) (recipient : pyval)
      (amount_sui : float) (amount_mist : Z) (privkey : string) :
  observes audit_step Clear Clear
    (transfer_simulate ops P wallet_alias recipient amount_sui amount_mist privkey)
    part_ends_as.
Proof.
  unfold transfer_simulate.
  aud_step; [| cbn; eauto].
  match goal with
  | a : key_info |- _ => destruct a as [[[seed scheme] pk] sender]
  end.
  aud_step.
  apply aud_bind_calmly;
    [apply save_wallet_address_calm | apply save_wallet_address_silently
    | intros _ | cbn; eauto].
  aud_step.
  unfold get_coins. apply aud_bind_rpc_call; [| request_raises].
  intros r coins Hr.
  apply obs_bind_lift.
  2: { intros e Hd. rewrite (audit_get_coins_no_data _ _ _ _ Hr Hd). cbn. eauto. }
  intros data Hd. rewrite (audit_get_coins _ _ _ _ Hr Hd).
  destruct (Py.truthy data); cbn [negb]; [| aud_walk].
  aud_walk.
  unfold build_transfer_tx. apply aud_bind_rpc_call; [| request_raises].
  intros r1 tx_result Hr1. rewrite (audit_build _ _ _ Hr1).
  aud_walk.
  unfold dry_run. apply aud_bind_rpc_call; [| request_raises].
  intros r2 dry_result Hr2. rewrite (audit_dry_run _ _ _ Hr2).
  destruct (reports_success dry_result) eqn:Hok.
  - eapply obs_bind; [apply print_dry_run_audited | | cbn; tauto |].
    + intros ok_ v1 [-> ->]. rewrite Hok. cbn [Py.truthy negb]. aud_walk.
    + intros e v1 [-> _]. cbn. eauto.
  - eapply obs_bind; [apply print_dry_run_audited | | cbn; tauto |].
    + intros ok_ v1 [-> ->]. rewrite Hok. cbn [Py.truthy negb]. aud_walk.
    + intros e v1 [-> _]. cbn. eauto.
Qed.

(** [sign_and_execute] ends by an exception, of its own steps or of the
    request, or yields the result of the execute call. *)
Lemma aud_bind_sign_and_execute {B} (tx : pyval) (seed : bytes) (scheme : Z)
      (k : pyval -> M W B) (R : ctl B -> verdict -> Prop) :
  (forall result, observes audit_step Clear (Executed result) (k result) R) ->
  (forall e, R (Raise e) Clear) ->
  (forall e, R (Raise e) (Thrown e)) ->
  observes audit_step Clear Clear (bind (sign_and_execute ops P tx seed scheme) k) R.
Proof.
  intros Hk Hc Ht. unfold sign_and_execute.
  apply obs_bind_assoc. eapply obs_bind_emit; [unfold audit_step; reflexivity |].
  cbn [audit event_effect].
  apply obs_bind_assoc. apply obs_bind_lift; [| intros e _; apply Hc].
  intros tx_bytes _. cbv beta.
  apply obs_bind_assoc. apply obs_bind_lift; [| intros e _; apply Hc].
  intros sig _. cbv beta zeta.
  apply aud_bind_rpc_call.
  - intros r result Hr. rewrite (audit_execute _ _ _ Hr). apply Hk.
  - intros r e Hr. erewrite audit_request_raises; [apply Ht | reflexivity | exact Hr].
Qed.

(** The rest of the body ends with the refusal announced, with the
    result of the execute call, or by an exception. *)
Lemma transfer_execute_audited (auto_confirm : bool) (seed : bytes) (scheme : Z)
      (tx : pyval) :
  observes audit_step Clear Clear
    (transfer_execute ops P auto_confirm seed scheme tx)
    (fun c v =>
       match c with
       | Next _ => False
       | Return x => ends_as (Next x) v
       | Raise e => ends_as (Raise e) v
       end).
Proof.
  assert (Hsign :
    forall k : pyval -> M W unit,
      (forall result,
          observes audit_step Clear (Executed result) (k result)
            (fun c v => match c with
                        | Next _ => False
                        | Return x => ends_as (Next x) v
                        | Raise e => ends_as (Raise e) v
                        end)) ->
      observes audit_step Clear Clear
        (bind (print MsgSigning) (fun _ => bind (sign_and_execute ops P tx seed scheme) k))
        (fun c v => match c with
                    | Next _ => False
                    | Return x => ends_as (Next x) v
                    | Raise e => ends_as (Raise e) v
                    end)).
  { intros k Hk. aud_step.
    apply aud_bind_sign_and_execute; [exact Hk | cbn; eauto | cbn; reflexivity]. }
  assert (Hreport :
    forall result,
      observes audit_step Clear (Executed result)
        (effects <- lift (Py.get result "effects" (PDict [])) ;;
         status <- lift (effects_status effects "status" (PStr "unknown")) ;;
         digest <- lift (Py.get result "digest" (PStr "unknown")) ;;
         gas <- lift (Py.get effects "gasUsed" (PDict [])) ;;
         computation <- lift (int_field gas "computationCost") ;;
         storage <- lift (int_field gas "storageCost") ;;
         rebate <- lift (int_field gas "storageRebate") ;;
         let gas_total := computation + storage - rebate in
         lift (Py.int_div_float_check gas_total) ;;
         print (MsgFinal status digest gas_total) ;;
         changes <- lift (Py.get result "balanceChanges" (PList [])) ;;
         items <- lift (Py.iter changes) ;;
         for_each items print_final_change ;;
         return_ result : M W unit)%monad
        (fun c v => match c with
                    | Next _ => False
                    | Return x => ends_as (Next x) v
                    | Raise e => ends_as (Raise e) v
                    end)).
  { intros result. aud_walk. cbn. left. split; [reflexivity |].
    match goal with
    | Hg : Py.get result "effects" _ = inr _ |- _ =>
        exact (get_ok_is_dict _ _ _ _ Hg)
    end. }
  unfold transfer_execute. destruct auto_confirm; cbn [negb].
  - aud_step. apply Hsign. exact Hreport.
  - apply obs_bind_assoc. apply obs_bind_ask. intros r.
    eexists. split; [unfold audit_step; reflexivity |].
    unfold audit. cbn [event_effect].
    destruct r as [e | answer].
    + aud_step. aud_step; [discriminate |].
      cbn. congruence.
    + aud_step. aud_step; [| discriminate].
      match goal with
      | Ha : inr answer = inr _ |- _ => injection Ha as <-
      end.
      destruct (confirms answer); cbn [negb].
      * aud_step. apply Hsign. exact Hreport.
      * aud_walk.
Qed.

Lemma transfer_try_audited (wallet_alias : string) (recipient : pyval)
      (amount_sui : float) (amount_mist : Z) (auto_confirm : bool)
      (privkey : string) :
  observes audit_step Clear Clear
    (transfer_try ops P wallet_alias recipient amount_sui amount_mist
                  auto_confirm privkey)
    (fun c v =>
       match c with
       | Next _ => False
       | Return x => ends_as (Next x) v
       | Raise e => ends_as (Raise e) v
       end).
Proof.
  unfold transfer_try.
  eapply obs_bind; [apply transfer_simulate_audited | | |]; cbv beta.
  - intros [[seed scheme] tx] v1 ->. apply transfer_execute_audited.
  - intros x v1 H. exact H.
  - intros e v1 H. exact H.
Qed.

(** Every run of [transfer] ends as the verdict on its log tells. *)
Lemma transfer_audited (wallet_alias recipient : string) (amount_sui : float)
      (auto_confirm : bool) :
  observes audit_step Clear Clear
    (transfer ops P wallet_alias recipient amount_sui auto_confirm) ends_as.
Proof.
  unfold transfer. apply obs_call.
  eapply obs_bind; [apply transfer_setup_audited | | |]; cbv beta.
  - intros [[amount_mist recipient'] k] v1 ->.
    apply aud_try_finally_clear.
    eapply obs_weaken; [apply transfer_try_audited |].
    intros [a | x | e] v H; [contradiction | exact H | exact H].
  - intros x v1 H. exact H.
  - intros e v1 H. exact H.
Qed.

End AuditedRun.

(** The verdict on the log of a run, and how the run ends. *)
Lemma transfer_run_audited {W : Type} (ops : world_ops W) (P : primitives)
      (wallet_alias recipient : string) (amount_sui : float)
      (auto_confirm : bool) (w0 : W) :
  let run := transfer ops P wallet_alias recipient amount_sui auto_confirm
                      (initial_state w0) in
  ends_as (fst run) (verdict_of (log (snd run))).
Proof.
  intros run.
  destruct (transfer_audited ops P wallet_alias recipient amount_sui auto_confirm
              (initial_state w0) (accepted_nil _ _)) as (v & Hv & Hc).
  fold run in Hv, Hc. rewrite <- (accepted_verdict _ _ Hv). exact Hc.
Qed.

(** ** The theorem *)

Lemma transport_failure_effect (url : string) (payload : pyval) (e : exn) :
  event_effect (EvHttpPost url payload (inl e)) =
  if method_is "suix_resolveNameServiceAddress" payload
  then Fails Unresolved else Throws e.
Proof.
  cbn [event_effect]. unfold request_effect.
  destruct (method_is "suix_resolveNameServiceAddress" payload); reflexivity.
Qed.

Lemma announces_unresolved (m : message) :
  announces Unresolved m = true -> exists name, m = MsgResolveFailed name.
Proof. destruct m; try discriminate. eauto. Qed.

(** C7 as amended.  How each failure reaches the caller of [transfer],
    over all runs.

    A run ends by returning a value or by an exception.  An exception
    raised by the keychain, by the console or by a request (the
    transport fails, the node answers with an error, the answer is not a
    JSON-RPC response) ends the run as that exception, with one
    exception to the rule: [resolve_suins] catches whatever its request
    raises, so a failure of the transport during name resolution ends
    the run like a name that does not resolve, with [None] after the
    message of the unresolved name.

    Each of the five failures (name unresolved, no key, no coin,
    simulation not successful, refusal at the prompt) ends the run with
    [None] after its own message, and no other failure message is
    printed; a simulation that did not succeed may also end the run by
    an exception of the preview.  Conversely [None] is returned only
    after one of the five and its message: the five share the value and
    differ by the message alone.

    Any other value returned is the result of the execute call,
    whatever status it reports; and a key that does not decode ends the
    run with the exception of the decoder. *)
Theorem failures_reach_the_caller
        {W : Type} (ops : world_ops W) (P : primitives)
        (wallet_alias recipient : string) (amount_sui : float)
        (auto_confirm : bool) (w0 : W) :
  let run := transfer ops P wallet_alias recipient amount_sui auto_confirm
                      (initial_state w0) in
  let outcome := fst run in
  let trace := trace_of (snd run) in
  ((exists v, outcome = Next v) \/ (exists e, outcome = Raise e)) /\
  (forall url payload e,
      In (EvHttpPost url payload (inl e)) trace ->
      if method_is "suix_resolveNameServiceAddress" payload
      then outcome = Next PNone /\
           exists name, In (EvPrint (MsgResolveFailed name)) trace
      else outcome = Raise e) /\
  (forall ev e,
      In ev trace -> event_effect ev = Throws e -> outcome = Raise e) /\
  (forall ev f,
      In ev trace -> event_effect ev = Fails f ->
      (outcome = Next PNone /\
       (exists m, In (EvPrint m) trace /\ announces f m = true) /\
       (forall m, In (EvPrint m) trace -> failure_message m = true ->
                  announces f m = true)) \/
      (f = SimulationRejected /\ exists e, outcome = Raise e)) /\
  (outcome = Next PNone ->
   exists ev f m,
     In ev trace /\ event_effect ev = Fails f /\
     In (EvPrint m) trace /\ announces f m = true) /\
  (outcome = Next PNone ->
   exists m, In (EvPrint m) trace /\ failure_announcement m) /\
  (forall v,
      outcome = Next v -> v <> PNone ->
      exists payload response,
        In (EvHttpPost SUI_RPC payload (inr response)) trace /\
        method_is "sui_executeTransactionBlock" payload = true /\
        rpc_result response = inr v) /\
  (forall ev result,
      In ev trace -> event_effect ev = Executes result ->
      outcome = Next result \/ exists e, outcome = Raise e) /\
  (forall amount_mist rcp k s1 e,
      transfer_setup ops wallet_alias recipient amount_sui (initial_state w0) =
        (Next (amount_mist, rcp, k), s1) ->
      get_address_from_key P k = inl e ->
      outcome = Raise e).
Proof.
  intros run outcome trace.
  pose proof (transfer_run_audited ops P wallet_alias recipient amount_sui
                auto_confirm w0) as Hend.
  cbv zeta in Hend. fold run in Hend. fold outcome in Hend.
  assert (Hin : forall ev, In ev trace -> In ev (log (snd run)))
    by (intros ev H; unfold trace, trace_of in H; apply in_rev in H; exact H).
  assert (Hout : forall ev, In ev (log (snd run)) -> In ev trace)
    by (intros ev H; unfold trace, trace_of; apply in_rev in H; exact H).
  assert (Hthrow : forall ev e,
             In ev trace -> event_effect ev = Throws e -> outcome = Raise e).
  { intros ev e Hev He.
    destruct (verdict_after_throw _ _ _ (Hin _ Hev) He) as [Hv | Hv];
      rewrite Hv in Hend; [exact Hend | contradiction]. }
  assert (Hfail : forall ev f,
             In ev trace -> event_effect ev = Fails f ->
             (outcome = Next PNone /\
              (exists m, In (EvPrint m) trace /\ announces f m = true) /\
              (forall m, In (EvPrint m) trace -> failure_message m = true ->
                         announces f m = true)) \/
             (f = SimulationRejected /\ exists e, outcome = Raise e)).
  { intros ev f Hev Hf.
    destruct (verdict_after_failure _ _ _ (Hin _ Hev) Hf) as [Hv | [Hv | Hv]].
    - rewrite Hv in Hend. right. exact Hend.
    - left. split; [rewrite Hv in Hend; exact Hend |]. split.
      + destruct (announced_history _ _ Hv) as (_ & m & _ & _ & Hm & Ha).
        exists m. split; [apply Hout; exact Hm | exact Ha].
      + intros m Hm Hmsg.
        destruct (verdict_after_announcement _ _ (Hin _ Hm) Hmsg)
          as [(f' & Hv' & Ha) | Hv']; rewrite Hv in Hv'; [| discriminate].
        injection Hv' as ->. exact Ha.
    - rewrite Hv in Hend. contradiction. }
  assert (Hnone : outcome = Next PNone ->
                  exists ev f m,
                    In ev trace /\ event_effect ev = Fails f /\
                    In (EvPrint m) trace /\ announces f m = true).
  { intros Ho. rewrite Ho in Hend.
    destruct (verdict_of (log (snd run))) as [| f | f | e | r |] eqn:Hv; cbn in Hend.
    - destruct Hend as [e He]. discriminate.
    - destruct Hend as [_ [e He]]. discriminate.
    - destruct (announced_history _ _ Hv) as (ev & m & Hev & He & Hm & Ha).
      exists ev, f, m. auto.
    - discriminate.
    - destruct Hend as [[Hr [d Hd]] | [e He]]; [| discriminate].
      injection Hr as <-. discriminate.
    - contradiction. }
  split; [| split; [| split; [| split; [| split; [| split; [| split; [| split]]]]]]].
  - destruct (verdict_of (log (snd run))); cbn in Hend.
    + right. exact Hend.
    + right. exact (proj2 Hend).
    + left. eauto.
    + right. eauto.
    + destruct Hend as [[Hr _] | He]; [left | right]; eauto.
    + contradiction.
  - intros url payload e Hev.
    pose proof (transport_failure_effect url payload e) as Heff.
    destruct (method_is "suix_resolveNameServiceAddress" payload).
    + destruct (Hfail _ _ Hev Heff) as [(Ho & (m & Hm & Ha) & _) | [Hf _]];
        [| discriminate].
      split; [exact Ho |].
      destruct (announces_unresolved _ Ha) as [name ->]. eauto.
    + exact (Hthrow _ _ Hev Heff).
  - exact Hthrow.
  - exact Hfail.
  - exact Hnone.
  - intros Ho. destruct (Hnone Ho) as (_ & f & m & _ & _ & Hm & Ha).
    exists m. split; [exact Hm |]. unfold failure_announcement.
    destruct f, m; try discriminate; eauto 10.
  - exact (proj2 (proj2
      (returned_values ops P wallet_alias recipient amount_sui auto_confirm w0))).
  - intros ev result Hev He.
    destruct (verdict_after_execution _ _ _ (Hin _ Hev) He) as [Hv | Hv];
      rewrite Hv in Hend; [| contradiction].
    destruct Hend as [[Hr _] | H]; auto.
  - intros amount_mist rcp k s1 e Hsetup Hkey.
    exact (undecodable_key_ends_run ops P wallet_alias recipient amount_sui
             auto_confirm _ _ _ _ _ _ Hsetup Hkey).
Qed.

(** C7 in two scripted scenarios.  The name service does not answer:
    the run returns [None] after the message of the unresolved name.
    The node refuses the execute request: the run ends by the exception
    of the transport. *)
Lemma failures_reach_the_caller_witness :
  (fst (run_transfer world_resolver_down "alice.sui" one_cent true) = Next PNone /\
   exists name,
     In (EvPrint (MsgResolveFailed name))
        (trace_of (snd (run_transfer world_resolver_down "alice.sui" one_cent true)))) /\
  fst (run_transfer world_broadcast_refused "0xabc" one_cent true) =
    Raise (WorldError "connection refused").
Proof.
  split.
  - refine (proj1 (proj2 (failures_reach_the_caller scripted_ops sized_primitives
                            "sui1" "alice.sui" one_cent true world_resolver_down))
              SUI_RPC
              (rpc_payload "suix_resolveNameServiceAddress" [PStr "alice.sui"])
              (WorldError "connection refused") _).
    vm_compute. right. left. reflexivity.
  - eapply (proj1 (proj2 (proj2
      (failures_reach_the_caller scripted_ops sized_primitives
         "sui1" "0xabc" one_cent true world_broadcast_refused)))).
    + unfold trace_of. rewrite <- in_rev. vm_compute. right. left. reflexivity.
    + vm_compute. reflexivity.
Defined.

(** C7 as stated fails: four kinds of failure surface as the same value
    [None], which is also what is left of a failure of the transport
    during name resolution; and a failure reported by the chain after
    the broadcast is returned as a result, the way a success is. *)
Lemma failure_kinds_share_one_result :
  fst (run_transfer world_resolver_down "alice.sui" one_cent true) = Next PNone /\
  fst (run_transfer world_no_key "0xabc" one_cent true) = Next PNone /\
  fst (run_transfer world_no_coins "0xabc" one_cent true) = Next PNone /\
  fst (run_transfer world_simulation_failed "0xabc" one_cent true) = Next PNone /\
  fst (run_transfer world_refusal "0xabc" one_cent false) = Next PNone /\
  fst (run_transfer world_execution_failed "0xabc" one_cent true) =
    Next (executed_with status_failure) /\
  fst (run_transfer world_success "0xabc" one_cent true) =
    Next (executed_with status_success).
Proof.
  repeat split; vm_compute; reflexivity.
Qed.
